(* ===== verification/_CoqProject ===== *)
-Q . S2P
Prelude.v
Ring.v
Lib.v
Process.v
ReadyQueue.v
Sched.v
Lifecycle.v
SchedIface.v
SchedProps.v
Semaphore.v
SemaphoreProps.v
Memory.v
FreeList.v
Buddy.v
BuddyRep.v
BuddyOps.v
BuddyProps.v
Pipe.v
PipeProps.v
Keyboard.v
Wakes.v
Kernel.v
KernelInv.v
KernelEnd.v
KernelCreate.v
KernelStep.v
KernelProps.v
ContextSwitch.v
Font.v
Video.v
VideoProps.v
Format.v
Devices.v
Syscalls.v
SyscallProps.v
SyscallType.v
UserLib.v
UserLibProps.v
UserProg.v
UserCalls.v
ShellParse.v
ShellParseProps.v
Apps.v
AppsProps.v
Shell.v
ShellCmds.v
ShellProps.v
PipelineProps.v
ReadLineProps.v
MVarProps.v
TestUtil.v
TestSync.v
TestMM.v
TestProc.v
TestProcKernel.v
TestPrograms.v
Console.v
Modules.v
ModulesProps.v
Exceptions.v
Boot.v
Bmfs.v
BmfsDir.v
BmfsCreate.v
BmfsInit.v
BmfsFile.v
BmfsOps.v
BmfsProps.v
BmfsInitProps.v
