(* ===== verification/Prelude.v ===== *)
(** * Verification of the TP2SO operating system

    The program is a small x86-64 kernel with preemptive priority scheduling,
    semaphores, pipes, two interchangeable memory managers, keyboard and video
    drivers and a table of system calls, a user library, a shell with its
    programs, the tool that packs the kernel and its modules into an image, and
    the tool that puts it on a disk with a file system.
    This library models the C code under [src/Kernel], [src/Userland],
    [src/Toolchain] and [src/Bootloader/BMFS] as executable definitions and proves what makes each part
    correct.  Definitions keep the names of the functions they translate.

    ** Parts, files and sources

    Shared: this file has the machine integers ([u8], [u32], [u64], [i32],
    [i8]), arrays indexed by [int] ([geti], [seti]), their lemmas and tactics;
    [Ring] has circular buffers as queues, used by the pipes and the keyboard.
    [Lib] is [Kernel/lib.c].

    Scheduler ([Kernel/scheduler.c], [Kernel/include/process.h]).  [Process]
    has the process table and its accessors; [ReadyQueue] the intrusive linked
    lists of ready processes and their refinement to lists; [Sched] aging,
    dispatch, blocking, priorities and the tick, with the scheduler invariant
    [sched_inv]; [Lifecycle] the entries filled and emptied; [SchedIface] the
    class [Scheduler] with its laws, which is all that semaphores and pipes
    know of it; [SchedProps] the theorems.

    Semaphores ([Kernel/semaphore.c]) are in [Semaphore] and [SemaphoreProps],
    pipes ([Kernel/pipe.c]) in [Pipe] and [PipeProps], both over any instance
    of [Scheduler].  [Wakes] says what they do to the process table.

    Memory ([Kernel/memory]).  [Memory] has the class [MemManager] of the four
    operations and its laws; [FreeList] is [memManager.c], [Buddy], [BuddyRep],
    [BuddyOps] and [BuddyProps] are [buddyManager.c]; both are instances.  The
    theorems about the kernel hold for every instance.

    Life of processes.  [Kernel] joins process table, semaphores, pipes,
    keyboard ([Keyboard], [drivers/keyBoardDriver.c]), memory manager and
    stacks into one state, with creation, exit, kill, wait, the interrupt
    handlers and the initial stack.  [KernelInv] states the invariant between
    the components; [KernelEnd], [KernelCreate] and [KernelStep] prove it for
    the operations and for the transition relation; [KernelProps] has the
    theorems.  [ContextSwitch] is [asm/interrupts.asm]: the registers that the
    timer, keyboard and system-call interrupts save on the stack of a process
    and load from that of the next, the snapshot, and the return from an
    exception; its transition relation [mstep] joins them with user code and
    the calls that decide what runs.  [Boot] is [kernel.c] and [loader.asm],
    from the image in memory to the first process, for both memory managers.

    Devices.  [Font], [Video], [VideoProps] ([drivers/videoDriver.c],
    [include/font.h]), [Devices] ([drivers/rtc.c], [drivers/audioDriver.c]),
    [Console] ([naiveConsole.c]), [Exceptions] ([exceptions.c],
    [idtLoader.c]).

    System calls ([syscalls_kernel.c], [syscallDispatcher.c]) are in [Format],
    [Syscalls], [SyscallProps] and [SyscallType].  A handler that has to sleep
    returns [Sleeps] with the rest of its work, and [resume] goes on with it.

    User space.  [UserLib], [UserLibProps] and [UserCalls] are
    [SampleCodeModule/lib.c].
    [UserProg] represents a program as the tree of the system calls it makes:
    [run] executes it against a kernel, any function from the history and the
    next call to a reply, and theorems quantify over all of them.  [ShellParse],
    [ShellParseProps], [Shell], [ShellCmds], [ShellProps], [PipelineProps] and
    [ReadLineProps] are the files of [SampleCodeModule/shell]; [Apps],
    [AppsProps] and [MVarProps] those of [apps].  [TestUtil] is
    [tests/test_util.c], with the random numbers and the floating-point
    arithmetic they use; [TestMM] is [tests/test_mm.c]; [TestSync] the
    interleavings of the processes of [tests/test_sync.c]; [TestProc] is
    [tests/test_proc.c], with rules for programs with loops; [TestPrograms] has
    [tests/test_prio.c], the programs of [test_sync.c] and
    [shell/commands_tests.c].  [TestProcKernel] runs [test_proc.c] on the kernel
    of [Kernel], with timer interrupts between its calls.

    Image.  [Modules] and [ModulesProps] are [Toolchain/ModulePacker/main.c]
    and [Kernel/moduleLoader.c].  [Bmfs] and [BmfsInit] are
    [Bootloader/BMFS/bmfs.c], the tool that keeps a file system in a disk image:
    [Bmfs] the commands on its directory of 64 entries, [BmfsInit] the
    initialisation of an image and the command line.  [BmfsDir] is about the
    directory as an array of bytes, [BmfsCreate] about the search for free
    blocks, with the class [Qsort] of what the C library's [qsort] promises;
    [BmfsFile] has the abstract file system that an image represents, [BmfsOps]
    what each operation does to it; [BmfsProps] and [BmfsInitProps] have the
    theorems.

    ** What the theorems show

    - Process table: the ready queues are FIFO queues; the tick runs the head
      of the highest level that is not empty after aging; every operation
      preserves the invariant; a READY process runs within 89 ticks.
    - Semaphores and pipes: waits passed never exceed the initial value plus
      the posts; a post wakes the waiter of greatest weight; the bytes read
      from a pipe are a prefix of those written, in every interleaving.
    - Memory: first-fit allocation and coalescing on the list of blocks that
      the pointers represent; buddy splitting and merging on a map of blocks;
      blocks in use are disjoint, inside the heap and aligned.
    - Kernel: creation, exit, kill and wait on every branch; the invariant in
      every state reachable from boot by them, ticks and key presses; the
      context a new process starts with.
    - Context switches: in every sequence of user code, timer and keyboard
      interrupts and system calls, one processor and the stacks in memory
      implement processes with registers of their own.
    - Boot: from an image the packer made, the loader ends with the modules in
      place, an empty heap beside the stack of the kernel, the invariant of the
      kernel, and the shell ready as process 1.
    - Devices and system calls: nothing is drawn outside the framebuffer; a
      character paints its glyph; the process list is cut to the buffer of the
      caller; reading takes one line; every call returns a 64-bit value.
    - User space: [sprintf] stores what [printf] writes; numbers printed are
      read back; a command line is its words; a command owns one copy of its
      arguments, freed on every path; a pipeline leaves nothing open on
      failure; filters do not depend on how their input is cut; [test_sync]
      ends at 0 with the semaphore in every interleaving, and can fail without.
    - Tests: [test_mm] reports an overlap exactly when there is one, and never
      on a memory manager that meets its interface; a round of [test_proc]
      kills exactly what it created, and on the kernel no call of it fails until
      the table or the heap is full; the calls of [test_prio] and [test_sync].
    - Image: what the packer writes, the loader copies back unchanged.
    - Disk: every run of the disk tool within its limits does to the image what
      the command says on a map from names to contents; a file written is read
      back after any runs that do not name it; a new file gets the lowest free
      blocks; an initialised image has the boot loader and the kernel in place.
    - Divergences of the code from its intention are proved as theorems on
      concrete inputs next to the specifications they limit (for instance
      [close_strands_waiters], [free_first_block_cycle],
      [kill_reports_nothing], [scale5_overrun], [print_bin_overrun],
      [create_overlaps_file], [create_ignores_full_directory]).

    ** State, errors and interleaving

    Static variables are fields of a record that is passed along.  [None] is a
    run that C leaves undefined or that does not return.  Theorems that say a
    function returns state it as [Some].  The kernel disables interrupts in its
    operations, so that an operation is one step; the pipes enable them between
    bytes, so that there the unit is one byte.  In [TestSync] the unit is one
    access to memory.  In [ContextSwitch] interrupts come between any two steps
    of user code; what the kernel itself keeps on the stack of a process while
    it serves an interrupt is not represented, and a process is assumed to leave
    room on its stack for the registers ([room]).

    ** Loops and fuel

    Recursion is structural where C counts.  Other loops have fuel, and a
    theorem shows it is enough: MAX_PROCESSES nodes for a ready queue;
    heap_size / 24 blocks for the first-fit list; the number of headers for a
    buddy list, the orders above the block for merging, 59 shifts for
    [order_for_size]; the waiters plus one for a semaphore queue; the counter
    plus two for the rounds of a pipe operation on its semaphore; 31 bytes for
    a name; the count for a read; two rounds for [syscall_wait]; the digits of
    the widest number for conversions (32 in the kernel, 12 in [printf], 64 on
    the text console); 80 columns for a new line on it; the length of a file
    for the packer and for the disk tool; the size of the image over that of
    the buffer for filling it.  User loops that end when the kernel says so take the
    number of iterations, and [Pause] is a program that has not ended by then.
    [TestProcKernel.settle] has 90 ticks, one more than a READY process waits.

    ** Parameters

    [Linkage] (addresses the linker assigns), [VBE] (the video mode, with
    [mode_ok]: 24 or 32 bits per pixel, rows that hold their pixels), [Hardware]
    (what the clock and the ports return), [Handlers] (addresses of the
    assembly handlers), [KernelImage] (the symbols of the linker script and the
    name that the processor reports), the file system of the packer and of the disk tool (which
    files can be read and created, how large the image may grow), [qsort] with
    its laws in [Qsort], which [isort] satisfies, and in
    [ShellCmds.call_function] the test programs, which
    [TestPrograms.test_cmd] supplies.

    ** Limits

    Freeing in the first-fit manager is specified for [mm_freeable] pointers:
    for the first block of the heap see [free_first_block_cycle].  Pids and
    the counters of semaphores are integers without a bound; the int they have
    in C would overflow after 2^31 operations.  [create] of the disk tool is
    specified for directories with an end marker and at most one deleted entry,
    since its comparison is no order with two; the files of the host are other
    files than the image; a write of the host that fails transfers nothing.

    Not modelled: the rest of the assembly (ports, [cpuid], single
    instructions, handlers of interrupts that are never unmasked); the boot
    loader Pure64, third-party assembly; loops that make no call (the idle
    process, busy waiting); the percentage that the disk tool prints while it
    fills an image. *)

From Stdlib Require Export ZArith Lia ZifyBool.
From stdpp Require Export base list gmap numbers tactics.
Local Open Scope Z_scope.

(** ** Machine integers

    C integers are [Z] values in the range of their type.  Conversions and
    unsigned arithmetic reduce modulo the width; signed conversions to a
    narrower type take the two's-complement representative (gcc, x86-64). *)

Definition u8 (z : Z) : Z := z mod 2 ^ 8.

Definition u32 (z : Z) : Z := z mod 2 ^ 32.

Definition u64 (z : Z) : Z := z mod 2 ^ 64.

Definition i32 (z : Z) : Z := (z + 2 ^ 31) mod 2 ^ 32 - 2 ^ 31.

Definition i8 (z : Z) : Z := (z + 2 ^ 7) mod 2 ^ 8 - 2 ^ 7.

(** The truth value of a C [int] used as a condition. *)
Definition ctrue (z : Z) : bool := negb (z =? 0).

(** The [int] that a C condition evaluates to. *)
Definition cbool (b : bool) : Z := if b then 1 else 0.

(** ** Fixed-size arrays

    A static C array of length [n] is a list of length [n] indexed by [Z].
    Reading outside the array gives the inhabitant of the element type and
    writing outside changes nothing; both are undefined in C, and the
    components prove that under their invariant every index they use is in
    range. *)

Definition geti `{Inhabited A} (l : list A) (i : Z) : A :=
  if 0 <=? i then l !!! Z.to_nat i else inhabitant.

Definition alteri {A} (f : A -> A) (i : Z) (l : list A) : list A :=
  if 0 <=? i then alter f (Z.to_nat i) l else l.

Definition seti {A} (i : Z) (x : A) (l : list A) : list A :=
  alteri (fun _ => x) i l.

Declare Scope carray_scope.
Delimit Scope carray_scope with carray.
Notation "l '.[' i ']'" := (geti l i)
  (at level 1, i at level 200, left associativity, format "l .[ i ]") : carray_scope.
Global Open Scope carray_scope.

(** The scan [for (i = lo; i < lo + n; i++) if (P(i)) return i; return -1;]. *)
Definition find_idx (P : Z -> bool) (lo n : Z) : Z :=
  match List.find P (seqZ lo n) with
  | Some i => i
  | None => -1
  end.

(** The loop [for (i = lo; i < lo + n; i++) body(i);]. *)
Definition for_loop {S} (lo n : Z) (body : S -> Z -> S) (s : S) : S :=
  foldl body s (seqZ lo n).

(** Assignment to one point of a function. *)
Definition fupd {A} (f : Z -> A) (i : Z) (x : A) : Z -> A :=
  fun j => if j =? i then x else f j.

(** ** Tactics *)

(** Case analysis on the condition of an [if] in the goal or in a hypothesis,
    keeping the equation. *)
Ltac case_if :=
  match goal with
  | |- context [if ?b then _ else _] =>
      match type of b with bool => destruct b eqn:? end
  | H : context [if ?b then _ else _] |- _ =>
      match type of b with bool => destruct b eqn:? end
  end.

(** Split conjunctions in the context. *)
Ltac destr_and :=
  repeat match goal with
  | H : _ /\ _ |- _ => destruct H
  | H : exists _, _ |- _ => destruct H
  end.

Create Rewrite HintDb carray.

(** ** Lemmas on arrays *)

Section Arrays.
Context {A : Type} `{Inhabited A}.
Implicit Types (l : list A) (f : A -> A).

Lemma length_alteri f i l : length (alteri f i l) = length l.
Proof. unfold alteri. case_if; [apply length_alter | done]. Qed.

Lemma geti_alteri_eq f i l :
  0 <= i < Z.of_nat (length l) -> geti (alteri f i l) i = f (geti l i).
Proof.
  intros. unfold geti, alteri. case_if; [|lia].
  apply list_lookup_total_alter_eq. lia.
Qed.

Lemma geti_alteri_ne f i j l :
  i <> j -> geti (alteri f i l) j = geti l j.
Proof.
  intros. unfold geti, alteri. repeat case_if; try done.
  apply list_lookup_total_alter_ne. lia.
Qed.

Lemma geti_seti_eq x i l :
  0 <= i < Z.of_nat (length l) -> geti (seti i x l) i = x.
Proof. intros. unfold seti. by rewrite geti_alteri_eq. Qed.

Lemma geti_seti_ne x i j l : i <> j -> geti (seti i x l) j = geti l j.
Proof. apply geti_alteri_ne. Qed.

Lemma length_seti x i l : length (seti i x l) = length l.
Proof. apply length_alteri. Qed.

Lemma geti_replicate (x : A) n i :
  0 <= i < Z.of_nat n -> geti (replicate n x) i = x.
Proof.
  intros. unfold geti. case_if; [|lia].
  apply lookup_total_replicate_2. lia.
Qed.

Lemma list_eq_geti l1 l2 :
  length l1 = length l2 ->
  (forall i, 0 <= i < Z.of_nat (length l1) -> geti l1 i = geti l2 i) -> l1 = l2.
Proof.
  intros Hlen Hget. apply (list_eq_same_length _ _ (length l1)); [done..|].
  intros i x y Hi Hx Hy.
  specialize (Hget (Z.of_nat i) ltac:(lia)). unfold geti in Hget.
  case_if; [|lia]. rewrite Nat2Z.id in Hget.
  by rewrite (list_lookup_total_correct _ _ _ Hx), (list_lookup_total_correct _ _ _ Hy) in Hget.
Qed.

End Arrays.

#[export] Hint Rewrite @length_alteri @length_seti : carray.

(** ** Lemmas on lists *)

Lemma filter_ne_id `{EqDecision A} (x : A) (l : list A) : x ∉ l -> filter (fun i => i <> x) l = l.
Proof.
  induction l as [|y l IH]; [done|]. rewrite not_elem_of_cons. intros [Hy Hl].
  rewrite filter_cons_True by naive_solver. by rewrite IH.
Qed.

Lemma filter_in_iff {A} (P1 P2 : A -> Prop) `{forall x, Decision (P1 x)} `{forall x, Decision (P2 x)}
    (l : list A) :
  (forall x, x ∈ l -> P1 x <-> P2 x) -> filter P1 l = filter P2 l.
Proof.
  induction l as [|y l IH]; [done|]. intros Hl. rewrite !filter_cons.
  rewrite IH by (intros; apply Hl; by right).
  pose proof (Hl y ltac:(by left)). repeat case_decide; tauto.
Qed.

Lemma filter_in_id {A} (P : A -> Prop) `{forall x, Decision (P x)} (l : list A) :
  (forall x, x ∈ l -> P x) -> filter P l = l.
Proof.
  induction l as [|y l IH]; [done|]. intros Hl. rewrite filter_cons_True by (apply Hl; by left).
  f_equal. apply IH. intros. apply Hl. by right.
Qed.

(** ** Lemmas on loops *)

Lemma seqZ_snoc lo n : 0 <= n -> seqZ lo (n + 1) = seqZ lo n ++ [lo + n].
Proof. intros. rewrite (seqZ_app _ n 1) by lia. done. Qed.

Lemma find_app {A} (P : A -> bool) l1 l2 :
  List.find P (l1 ++ l2) =
  match List.find P l1 with Some x => Some x | None => List.find P l2 end.
Proof. induction l1 as [|x l1 IH]; simpl; [done|]. by destruct (P x). Qed.

(** [find_idx] returns the first index that satisfies the test, or -1. *)
Lemma find_idx_spec P lo n :
  0 <= lo -> 0 <= n ->
  (find_idx P lo n = -1 /\ forall i, lo <= i < lo + n -> P i = false) \/
  (lo <= find_idx P lo n < lo + n /\ P (find_idx P lo n) = true /\
   forall j, lo <= j < find_idx P lo n -> P j = false).
Proof.
  intros Hlo Hn. unfold find_idx.
  enough (match List.find P (seqZ lo n) with
          | None => forall i, lo <= i < lo + n -> P i = false
          | Some r => lo <= r < lo + n /\ P r = true /\ forall j, lo <= j < r -> P j = false
          end) by (destruct (List.find _ _); auto).
  pattern n. apply natlike_ind; [..|done].
  - simpl. lia.
  - intros k Hk IH. unfold Z.succ. rewrite seqZ_snoc by lia.
    rewrite find_app. destruct (List.find P (seqZ lo k)).
    + destr_and. split_and!; [lia..|done|done].
    + simpl. destruct (P (lo + k)) eqn:HP.
      * split_and!; try lia. intros; apply IH; lia.
      * intros i Hi. destruct (decide (i = lo + k)) as [->|]; [done|]. apply IH; lia.
Qed.

Lemma find_idx_ext P P' lo n :
  (forall i, lo <= i < lo + n -> P i = P' i) -> find_idx P lo n = find_idx P' lo n.
Proof.
  intros H. unfold find_idx.
  enough (List.find P (seqZ lo n) = List.find P' (seqZ lo n)) as -> by done.
  assert (forall i, i ∈ seqZ lo n -> P i = P' i) as Hl.
  { intros i Hi%elem_of_seqZ. by apply H. }
  induction (seqZ lo n) as [|x l IH]; [done|]. simpl.
  rewrite Hl by (by left). rewrite IH; [done|]. intros. apply Hl. by right.
Qed.

(** The descending scan finds the greatest index that satisfies the test. *)
Lemma find_down_spec P lo n :
  0 <= n ->
  match List.find P (rev (seqZ lo n)) with
  | None => forall i, lo <= i < lo + n -> P i = false
  | Some r => lo <= r < lo + n /\ P r = true /\ forall j, r < j < lo + n -> P j = false
  end.
Proof.
  intros Hn. pattern n. apply natlike_ind; [..|done]; [simpl; lia|].
  intros k Hk IH. unfold Z.succ. rewrite seqZ_snoc, rev_app_distr by lia. simpl.
  destruct (P (lo + k)) eqn:HP; [split_and!; [lia..|done|lia]|].
  assert (forall j, P j = false \/ j <> lo + k) as Hj.
  { intros j. destruct (decide (j = lo + k)) as [->|]; auto. }
  destruct (List.find P (rev (seqZ lo k))); destr_and.
  - split_and!; [lia..|done|]. intros j ?. destruct (Hj j); [done|]. apply H1. lia.
  - intros j ?. destruct (Hj j); [done|]. apply IH. lia.
Qed.

(** A condition preserved by every iteration holds after the loop. *)
Lemma for_loop_ind {S} (I : Z -> S -> Prop) lo n body (s : S) :
  0 <= n -> I lo s ->
  (forall i s, lo <= i < lo + n -> I i s -> I (i + 1) (body s i)) ->
  I (lo + n) (for_loop lo n body s).
Proof.
  intros Hn H0 Hstep. unfold for_loop.
  enough (forall k, 0 <= k <= n -> I (lo + k) (foldl body s (seqZ lo k))) as E
    by (apply E; lia).
  intros k [Hk Hkn]. revert k Hk Hkn.
  apply (natlike_ind (fun k => k <= n -> I (lo + k) (foldl body s (seqZ lo k)))).
  - intros _. simpl. by rewrite Z.add_0_r.
  - intros k Hk IH Hle. unfold Z.succ. rewrite seqZ_snoc by lia.
    rewrite foldl_app. simpl. rewrite Z.add_assoc. apply Hstep; [lia|]. apply IH; lia.
Qed.

(** ** Lemmas on machine integers *)

Lemma u64_small z : 0 <= z < 2 ^ 64 -> u64 z = z.
Proof. apply Z.mod_small. Qed.

Lemma u64_range z : 0 <= u64 z < 2 ^ 64.
Proof. apply Z.mod_pos_bound. lia. Qed.

Lemma u8_small z : 0 <= z < 2 ^ 8 -> u8 z = z.
Proof. intros. by apply Z.mod_small. Qed.

Lemma u32_small z : 0 <= z < 2 ^ 32 -> u32 z = z.
Proof. intros. by apply Z.mod_small. Qed.

Lemma u32_range z : 0 <= u32 z < 2 ^ 32.
Proof. by apply Z.mod_pos_bound. Qed.

Lemma i32_small z : - 2 ^ 31 <= z < 2 ^ 31 -> i32 z = z.
Proof. intros. unfold i32. rewrite Z.mod_small; lia. Qed.

Lemma i32_add a b : i32 (i32 a + b) = i32 (a + b).
Proof.
  unfold i32. f_equal. replace ((a + 2 ^ 31) mod 2 ^ 32 - 2 ^ 31 + b + 2 ^ 31) with ((a + 2 ^ 31) mod 2 ^ 32 + b) by lia.
  rewrite Z.add_mod_idemp_l by lia. f_equal. lia.
Qed.

Lemma i32_range z : - 2 ^ 31 <= i32 z < 2 ^ 31.
Proof. unfold i32. pose proof (Z.mod_pos_bound (z + 2 ^ 31) (2 ^ 32)). lia. Qed.

(** An [int] returned through a [uint64_t] register and read back as an
    [int] is unchanged. *)
Lemma i32_u64 z : - 2 ^ 31 <= z < 2 ^ 31 -> i32 (u64 z) = z.
Proof.
  intros. unfold i32, u64.
  rewrite <- (Zplus_mod_idemp_l (z mod 2 ^ 64)).
  rewrite Z.mod_mod_divide by (exists (2 ^ 32); lia).
  rewrite Zplus_mod_idemp_l, Z.mod_small; lia.
Qed.

(** ** The element behind a prefix *)

Lemma seti_middle {A} (a : list A) x y b n :
  n = Z.of_nat (length a) -> seti n x (a ++ y :: b) = a ++ x :: b.
Proof.
  intros ->. unfold seti, alteri. replace (0 <=? _) with true by lia. rewrite Nat2Z.id.
  rewrite (alter_app_r_alt _ a _ (length a)) by lia. by rewrite Nat.sub_diag.
Qed.

Lemma geti_middle `{Inhabited A} (a : list A) x b n :
  n = Z.of_nat (length a) -> (a ++ x :: b).[n] = x.
Proof. intros ->. unfold geti. replace (0 <=? _) with true by lia. rewrite Nat2Z.id. by apply list_lookup_total_middle. Qed.
