(* ===== verification/Ring.v ===== *)
(** * Ring buffers

    The circular buffers of [Kernel/pipe.c] and
    [Kernel/drivers/keyBoardDriver.c] as queues. *)

From S2P Require Import Prelude.
Local Open Scope Z_scope.

(** The [n] elements from position [r] of a buffer of capacity [cap]. *)
Definition ring (buf : list Z) (r n cap : Z) : list Z :=
  (fun k => buf.[(r + k) mod cap]) <$> seqZ 0 n.

Lemma ring_length buf r n cap : 0 <= n <= cap -> Z.of_nat (length (ring buf r n cap)) = n.
Proof. intros. unfold ring. rewrite length_fmap, length_seqZ. lia. Qed.

(** Two positions at distance less than the capacity differ. *)
Lemma ring_distinct r k j cap :
  0 < cap -> 0 <= k < cap -> 0 <= j < cap -> k <> j -> (r + k) mod cap <> (r + j) mod cap.
Proof.
  intros Hc Hk Hj Hne E. apply Hne.
  assert ((k - j) mod cap = 0) as Hm.
  { replace (k - j) with ((r + k) - (r + j)) by lia. rewrite Zminus_mod, E, Z.sub_diag. by apply Z.mod_0_l; lia. }
  apply Z.mod_divide in Hm as [q Hq]; [|lia]. assert (q = 0) by nia. lia.
Qed.

(** Writing after the last element appends it. *)
Lemma ring_push buf r n cap c :
  0 < cap <= Z.of_nat (length buf) -> 0 <= n < cap ->
  ring (seti ((r + n) mod cap) c buf) r (n + 1) cap = ring buf r n cap ++ [c].
Proof.
  intros Hc Hn. pose proof (Z.mod_pos_bound (r + n) cap ltac:(lia)).
  unfold ring. rewrite seqZ_snoc, fmap_app by lia. simpl. f_equal.
  - apply list_fmap_ext. intros i k Hk. apply list_elem_of_lookup_2, elem_of_seqZ in Hk.
    apply geti_seti_ne. apply ring_distinct; lia.
  - f_equal. rewrite ?Z.add_0_l. apply geti_seti_eq. lia.
Qed.

(** Moving the start takes the first element. *)
Lemma ring_pop buf r n cap :
  0 <= r < cap -> 0 < n -> ring buf r n cap = buf.[r] :: ring buf ((r + 1) mod cap) (n - 1) cap.
Proof.
  intros Hr Hn. unfold ring. replace n with (1 + (n - 1)) at 1 by lia.
  rewrite seqZ_app by lia. rewrite fmap_app. simpl. f_equal.
  - rewrite Z.add_0_r, Z.mod_small by lia. done.
  - apply list_eq. intros i. rewrite !list_lookup_fmap.
    destruct (decide (Z.of_nat i < n - 1)).
    + rewrite !lookup_seqZ_lt by lia. simpl. do 2 f_equal. rewrite Zplus_mod_idemp_l. f_equal. lia.
    + rewrite !lookup_seqZ_ge by lia. done.
Qed.
