(* ===== verification/Lib.v ===== *)
(** * The kernel's memory and string routines

    [Kernel/lib.c].  Memory is a function from addresses to bytes; a C string
    is the list of its bytes, read as terminated by the first 0 or by the end
    of the list. *)

From S2P Require Import Prelude.
Local Open Scope Z_scope.

(** ** Memory *)

Definition bytes := Z -> Z.

(** [while (length--) dst[length] = chr;] *)
Fixpoint memset_loop (dst chr : Z) (length : nat) (m : bytes) : bytes :=
  match length with
  | O => m
  | S length => memset_loop dst chr length (fupd m (dst + Z.of_nat length) chr)
  end.

Definition memset (destination c length : Z) (m : bytes) : bytes :=
  memset_loop destination (u8 c) (Z.to_nat length) m.

(** Little-endian 32-bit accesses. *)
Definition load32 (m : bytes) (a : Z) : Z :=
  m a + 2 ^ 8 * m (a + 1) + 2 ^ 16 * m (a + 2) + 2 ^ 24 * m (a + 3).

Definition store32 (m : bytes) (a v : Z) : bytes :=
  fupd (fupd (fupd (fupd m a (u8 v)) (a + 1) (u8 (v / 2 ^ 8)))
    (a + 2) (u8 (v / 2 ^ 16))) (a + 3) (u8 (v / 2 ^ 24)).

Definition copy_words (d s n : Z) (m : bytes) : bytes :=
  for_loop 0 n (fun m i => store32 m (d + 4 * i) (load32 m (s + 4 * i))) m.

Definition copy_bytes (d s n : Z) (m : bytes) : bytes :=
  for_loop 0 n (fun m i => fupd m (d + i) (m (s + i))) m.

Definition memcpy (destination source length : Z) (m : bytes) : bytes :=
  if (destination mod 4 =? 0) && (source mod 4 =? 0) && (length mod 4 =? 0)
  then copy_words destination source (length / 4) m
  else copy_bytes destination source length m.

(** ** Strings *)

(** The bytes of a string before its terminator. *)
Fixpoint cstr (l : list Z) : list Z :=
  match l with
  | [] => []
  | c :: l => if c =? 0 then [] else c :: cstr l
  end.

(** [strcpy] into a buffer: [None] when the string and its terminator do not
    fit and the copy runs past the end of the buffer. *)
Fixpoint strcpy (dest src : list Z) : option (list Z) :=
  match dest, src with
  | [], _ => None
  | _ :: dest, [] => Some (0 :: dest)
  | _ :: dest, c :: src =>
      if c =? 0 then Some (0 :: dest)
      else match strcpy dest src with Some l => Some (c :: l) | None => None end
  end.

Fixpoint strcmp (a b : list Z) : Z :=
  let x := hd 0 a in
  let y := hd 0 b in
  match a with
  | [] => u8 x - u8 y
  | _ :: a => if ctrue x && (x =? y) then strcmp a (tl b) else u8 x - u8 y
  end.

(** ** Lemmas *)

(** [char] is signed: -128 to 127. *)
Definition chars (l : list Z) : Prop := Forall (fun c => - 2 ^ 7 <= c < 2 ^ 7) l.

Lemma u8_inj x y : - 2 ^ 7 <= x < 2 ^ 7 -> - 2 ^ 7 <= y < 2 ^ 7 -> u8 x = u8 y -> x = y.
Proof.
  unfold u8. intros Hx Hy E. rewrite (Z.mod_eq x), (Z.mod_eq y) in E by lia. lia.
Qed.

Lemma strcmp_eq a b : chars a -> chars b -> strcmp a b = 0 <-> cstr a = cstr b.
Proof.
  revert b. induction a as [|x a IH]; intros b Ha Hb.
  - simpl. destruct b as [|y b]; simpl; [done|]. apply list.Forall_cons in Hb as [Hy _].
    assert (u8 0 - u8 y = 0 <-> y = 0) as ->.
    { split; [|by intros ->]. intros E. symmetry. apply u8_inj; [lia|done|]. lia. }
    case_if; naive_solver lia.
  - apply list.Forall_cons in Ha as [Hx Ha].
    assert (- 2 ^ 7 <= hd 0 b < 2 ^ 7 /\ chars (tl b)) as [Hy Ht].
    { destruct b; simpl; [by split; [|constructor]|]. by apply list.Forall_cons in Hb. }
    cbn [strcmp hd]. case_if.
    + apply andb_true_iff in Heqb0 as [H1 H2]. rewrite IH by done.
      destruct b as [|y b]; simpl in *; [unfold ctrue in H1; lia|].
      unfold ctrue in H1. assert (x = y) as <- by lia. replace (x =? 0) with false by lia.
      split; congruence.
    + assert (u8 x - u8 (hd 0 b) = 0 <-> x = hd 0 b) as ->.
      { split; [|by intros ->; lia]. intros E. apply u8_inj; [done|done|lia]. }
      unfold ctrue in Heqb0. destruct b as [|y b]; simpl in *; repeat case_if; naive_solver lia.
Qed.

Lemma strcpy_cstr dest src l : strcpy dest src = Some l -> cstr l = cstr src /\ length l = length dest.
Proof.
  revert src l. induction dest as [|d dest IH]; intros src l; simpl; [done|].
  destruct src as [|c src]; [by intros [= <-]|].
  case_if; [intros [= <-]; simpl; by rewrite Heqb|].
  destruct (strcpy dest src) as [l'|] eqn:E; [|done]. intros [= <-].
  destruct (IH _ _ E) as [E1 E2]. simpl. rewrite Heqb, E1, E2. done.
Qed.

Lemma strcpy_fits dest src :
  is_Some (strcpy dest src) <-> (length (cstr src) < length dest)%nat.
Proof.
  revert src. induction dest as [|d dest IH]; intros src; simpl.
  - split; [by intros []|lia].
  - destruct src as [|c src]; simpl; [split; [lia|by eexists]|]. case_if; simpl.
    + split; [lia|by eexists].
    + specialize (IH src). destruct (strcpy dest src); simpl; rewrite <- Nat.succ_lt_mono, <- IH;
        split; intros []; by eexists.
Qed.

Lemma strcpy_chars dest src l : chars dest -> chars src -> strcpy dest src = Some l -> chars l.
Proof.
  revert src l. induction dest as [|d dest IH]; intros src l Hd Hs; simpl; [done|].
  apply list.Forall_cons in Hd as [_ Hd].
  assert (chars (0 :: dest)) by (by apply list.Forall_cons).
  destruct src as [|c src]; [by intros [= <-]|]. case_if; [by intros [= <-]|].
  apply list.Forall_cons in Hs as [Hc Hs].
  destruct (strcpy dest src) as [l'|] eqn:E; [|done]. intros [= <-].
  apply list.Forall_cons. split; [done|]. by apply (IH src).
Qed.

(** ** [memset] and [memcpy] *)

Lemma memset_loop_spec n : forall dst chr m x,
  memset_loop dst chr n m x = if (dst <=? x) && (x <? dst + Z.of_nat n) then chr else m x.
Proof.
  induction n as [|n IH]; intros dst chr m x; cbn [memset_loop].
  - case_if; [lia|done].
  - rewrite IH. unfold fupd. repeat case_if; try done; lia.
Qed.

(** Byte values. *)
Definition is_byte (z : Z) : Prop := 0 <= z < 256.

Lemma store_load32 m b a x :
  (forall i, is_byte (m i)) ->
  store32 m a (load32 m b) x = if (a <=? x) && (x <? a + 4) then m (b + (x - a)) else m x.
Proof.
  intros Hm. pose proof (Hm b) as H0. pose proof (Hm (b + 1)) as H1. pose proof (Hm (b + 2)) as H2.
  pose proof (Hm (b + 3)) as H3. unfold is_byte in *.
  assert (u8 (load32 m b) = m b /\ u8 (load32 m b / 2 ^ 8) = m (b + 1) /\
    u8 (load32 m b / 2 ^ 16) = m (b + 2) /\ u8 (load32 m b / 2 ^ 24) = m (b + 3)) as (E0 & E1 & E2 & E3).
  { unfold load32, u8. generalize dependent (m b). generalize dependent (m (b + 1)).
    generalize dependent (m (b + 2)). generalize dependent (m (b + 3)). intros. Z.to_euclidean_division_equations. lia. }
  unfold store32. rewrite E0, E1, E2, E3. unfold fupd. repeat case_if; try lia; f_equal; lia.
Qed.

(** The bytes of the destination after copying [n] bytes from a source that
    does not overlap it. *)
Definition copied (d s n : Z) (m m' : bytes) : Prop :=
  forall x, m' x = if (d <=? x) && (x <? d + n) then m (s + (x - d)) else m x.

Lemma copy_bytes_spec d s n m :
  0 <= n -> (d + n <= s \/ s + n <= d) -> copied d s n m (copy_bytes d s n m).
Proof.
  intros Hn Hdis. unfold copy_bytes.
  pose proof (for_loop_ind (fun i m' => 0 <= i <= n /\ copied d s i m m') 0 n
    (fun m i => fupd m (d + i) (m (s + i))) m Hn) as H.
  rewrite Z.add_0_l in H. apply H.
  - split; [lia|]. intros x. case_if; [lia|done].
  - intros i m' Hi [_ Hc]. split; [lia|]. intros x. unfold fupd. rewrite !Hc.
    repeat case_if; try lia; f_equal; lia.
Qed.

Lemma copy_words_spec d s n m :
  0 <= n -> (d + 4 * n <= s \/ s + 4 * n <= d) -> (forall i, is_byte (m i)) ->
  copied d s (4 * n) m (copy_words d s n m).
Proof.
  intros Hn Hdis Hm. unfold copy_words.
  pose proof (for_loop_ind (fun i m' => 0 <= i <= n /\ copied d s (4 * i) m m') 0 n
    (fun m i => store32 m (d + 4 * i) (load32 m (s + 4 * i))) m Hn) as H.
  rewrite Z.add_0_l in H. apply H.
  - split; [lia|]. intros x. case_if; [lia|done].
  - intros i m' Hi [_ Hc]. split; [lia|]. intros x.
    rewrite store_load32 by (intros j; rewrite Hc; case_if; apply Hm).
    rewrite !Hc. repeat case_if; try lia; f_equal; lia.
Qed.

Lemma memcpy_spec d s n m :
  0 <= n -> (d + n <= s \/ s + n <= d) -> (forall i, is_byte (m i)) -> copied d s n m (memcpy d s n m).
Proof.
  intros Hn Hdis Hm. unfold memcpy. case_if; [|by apply copy_bytes_spec].
  assert (n = 4 * (n / 4)) as E by (apply Z.div_exact; lia).
  rewrite E at 1. apply copy_words_spec; [apply Z.div_pos; lia|lia|done].
Qed.

(** ** The bytes of a string *)

Lemma cstr_prefix s : exists r, s = cstr s ++ r /\ (r = [] \/ exists r', r = 0 :: r').
Proof.
  induction s as [|c s (r & E & H)]; [exists []; auto|]. cbn [cstr]. case_if.
  - exists (c :: s). split; [done|]. right. exists s. f_equal. lia.
  - exists r. split; [by rewrite E at 1|done].
Qed.

Lemma cstr_app_zero a b : Forall (fun c => c <> 0) a -> cstr (a ++ 0 :: b) = a.
Proof. induction 1 as [|c a Hc _ IH]; [done|]. cbn. replace (c =? 0) with false by lia. by rewrite IH. Qed.

Lemma cstr_nonzero s : Forall (fun c => c <> 0) (cstr s).
Proof. induction s as [|c s IH]; cbn; [done|]. case_if; [done|]. constructor; [lia|done]. Qed.

Lemma cstr_all a : Forall (fun c => c <> 0) a -> cstr a = a.
Proof. induction 1 as [|c a Hc _ IH]; [done|]. cbn. replace (c =? 0) with false by lia. by rewrite IH. Qed.

(** ** Properties *)

(** [memcpy] copies [length] bytes whichever of its two loops runs: for
    regions that do not overlap, the word loop taken on aligned arguments and
    the byte loop leave the same memory, in which the destination holds the
    bytes of the source and nothing else has changed. *)
Theorem memcpy_copies (d s n : Z) (m : bytes) :
  0 <= n -> (d + n <= s \/ s + n <= d) -> (forall i, is_byte (m i)) ->
  copied d s n m (memcpy d s n m).
Proof. apply memcpy_spec. Qed.

Lemma memcpy_copies_witness :
  copied 8 16 4 (fun i => i mod 256) (memcpy 8 16 4 (fun i => i mod 256)) /\
  memcpy 8 16 4 (fun i => i mod 256) 9 = 17 /\
  copied 9 16 3 (fun i => i mod 256) (memcpy 9 16 3 (fun i => i mod 256)).
Proof.
  split_and!; [apply (memcpy_copies 8 16 4)|reflexivity|apply (memcpy_copies 9 16 3)];
    solve [lia | intros i; apply Z.mod_pos_bound; lia].
Defined.

(** [strcpy] and [strcmp] agree on what a string is: a copy that fits
    compares equal to its source, and in general [strcmp] returns 0 exactly
    when the two strings have the same bytes before their terminators. *)
Theorem strcpy_strcmp (dest src l : list Z) :
  chars dest -> chars src -> strcpy dest src = Some l ->
  strcmp l src = 0 /\ length l = length dest /\
  forall b, chars b -> (strcmp l b = 0 <-> cstr src = cstr b).
Proof.
  intros Hd Hs E. destruct (strcpy_cstr _ _ _ E) as [E1 E2]. pose proof (strcpy_chars _ _ _ Hd Hs E) as Hl.
  split; [by apply strcmp_eq|]. split; [done|]. intros b Hb. by rewrite strcmp_eq, E1.
Qed.

Lemma strcpy_strcmp_witness :
  strcpy (replicate 4 0) [100; 48] = Some [100; 48; 0; 0] /\ strcmp [100; 48; 0; 0] [100; 48] = 0.
Proof.
  split; [reflexivity|].
  assert (chars (replicate 4 0) /\ chars [100; 48]) as [H1 H2]
    by (split; simpl; repeat (apply list.Forall_cons; split; [lia|]); apply list.Forall_nil; exact I).
  exact (proj1 (strcpy_strcmp (replicate 4 0) [100; 48] [100; 48; 0; 0] H1 H2 eq_refl)).
Defined.
