(* ===== verification/Process.v ===== *)
(** * Process control blocks and the process table

    The data of [Kernel/include/process.h] and the static variables of
    [Kernel/scheduler.c], with the accessors the other files use. *)

From S2P Require Import Prelude.
Local Open Scope Z_scope.

(** ** Constants of [process.h] *)

Definition MAX_PROCESSES : Z := 64.
Definition PROCESS_PRIORITY_MIN : Z := 1.
Definition PROCESS_PRIORITY_MAX : Z := 5.
Definition MAX_FDS : Z := 8.
Definition STACK_SIZE : Z := 4 * 1024.

(** ** Constants of [scheduler.c] *)

Definition READY_NONE : Z := -1.
Definition PRIORITY_LEVELS : Z := PROCESS_PRIORITY_MAX - PROCESS_PRIORITY_MIN + 1.
Definition AGING_THRESHOLD_TICKS : Z := 6.
Definition DEFAULT_PRIORITY : Z := 3.
Definition DEFAULT_QUANTUM : Z := 1.
Definition SCHEDULER_WAIT_BLOCKED : Z := -2.

(** ** Process states *)

Inductive ProcState :=
| PROCESS_READY
| PROCESS_RUNNING
| PROCESS_BLOCKED
| PROCESS_DEAD
| PROCESS_ZOMBIE.

(** The number the header gives to a state. *)
Definition state_code (st : ProcState) : Z :=
  match st with
  | PROCESS_READY => 0
  | PROCESS_RUNNING => 1
  | PROCESS_BLOCKED => 2
  | PROCESS_DEAD => 3
  | PROCESS_ZOMBIE => 4
  end.

#[export] Instance ProcState_eq_dec : EqDecision ProcState.
Proof. solve_decision. Defined.

(** Equality test on states, as the [==] of the source. *)
Definition is_state (a b : ProcState) : bool := bool_decide (a = b).

(** ** File descriptors *)

Inductive FDType := FD_NONE | FD_STDIN | FD_STDOUT | FD_PIPE_READ | FD_PIPE_WRITE.

#[export] Instance FDType_eq_dec : EqDecision FDType.
Proof. solve_decision. Defined.

Record FileDescriptor := mkFD { fd_type : FDType; fd_pipe_id : Z }.

#[export] Instance FileDescriptor_inhabited : Inhabited FileDescriptor :=
  populate (mkFD FD_NONE 0).

#[export] Instance FileDescriptor_eq_dec : EqDecision FileDescriptor.
Proof. solve_decision. Defined.

(** ** The process control block *)

Record PCB := mkPCB {
  pid : Z;
  parent_pid : Z;
  name : list Z;
  state : ProcState;
  priority : Z;
  effective_priority : Z;
  quantums_left : Z;
  ready_next : Z;
  in_ready_queue : Z;
  ready_wait_ticks : Z;
  rsp : Z;
  stack_base : Z;
  foreground : Z;
  waiting_for : Z;
  exit_status : Z;
  fds : list FileDescriptor
}.

(** The control block that [memset(process_table, 0, ...)] produces. *)
Definition zero_pcb : PCB :=
  mkPCB 0 0 (replicate 32 0) PROCESS_READY 0 0 0 0 0 0 0 0 0 0 0 (replicate 8 (mkFD FD_NONE 0)).

#[export] Instance PCB_inhabited : Inhabited PCB := populate zero_pcb.

Definition set_pid v p := mkPCB v (parent_pid p) (name p) (state p) (priority p) (effective_priority p) (quantums_left p) (ready_next p) (in_ready_queue p) (ready_wait_ticks p) (rsp p) (stack_base p) (foreground p) (waiting_for p) (exit_status p) (fds p).
Definition set_parent_pid v p := mkPCB (pid p) v (name p) (state p) (priority p) (effective_priority p) (quantums_left p) (ready_next p) (in_ready_queue p) (ready_wait_ticks p) (rsp p) (stack_base p) (foreground p) (waiting_for p) (exit_status p) (fds p).
Definition set_name v p := mkPCB (pid p) (parent_pid p) v (state p) (priority p) (effective_priority p) (quantums_left p) (ready_next p) (in_ready_queue p) (ready_wait_ticks p) (rsp p) (stack_base p) (foreground p) (waiting_for p) (exit_status p) (fds p).
Definition set_state v p := mkPCB (pid p) (parent_pid p) (name p) v (priority p) (effective_priority p) (quantums_left p) (ready_next p) (in_ready_queue p) (ready_wait_ticks p) (rsp p) (stack_base p) (foreground p) (waiting_for p) (exit_status p) (fds p).
Definition set_priority v p := mkPCB (pid p) (parent_pid p) (name p) (state p) v (effective_priority p) (quantums_left p) (ready_next p) (in_ready_queue p) (ready_wait_ticks p) (rsp p) (stack_base p) (foreground p) (waiting_for p) (exit_status p) (fds p).
Definition set_effective_priority v p := mkPCB (pid p) (parent_pid p) (name p) (state p) (priority p) v (quantums_left p) (ready_next p) (in_ready_queue p) (ready_wait_ticks p) (rsp p) (stack_base p) (foreground p) (waiting_for p) (exit_status p) (fds p).
Definition set_quantums_left v p := mkPCB (pid p) (parent_pid p) (name p) (state p) (priority p) (effective_priority p) v (ready_next p) (in_ready_queue p) (ready_wait_ticks p) (rsp p) (stack_base p) (foreground p) (waiting_for p) (exit_status p) (fds p).
Definition set_ready_next v p := mkPCB (pid p) (parent_pid p) (name p) (state p) (priority p) (effective_priority p) (quantums_left p) v (in_ready_queue p) (ready_wait_ticks p) (rsp p) (stack_base p) (foreground p) (waiting_for p) (exit_status p) (fds p).
Definition set_in_ready_queue v p := mkPCB (pid p) (parent_pid p) (name p) (state p) (priority p) (effective_priority p) (quantums_left p) (ready_next p) v (ready_wait_ticks p) (rsp p) (stack_base p) (foreground p) (waiting_for p) (exit_status p) (fds p).
Definition set_ready_wait_ticks v p := mkPCB (pid p) (parent_pid p) (name p) (state p) (priority p) (effective_priority p) (quantums_left p) (ready_next p) (in_ready_queue p) v (rsp p) (stack_base p) (foreground p) (waiting_for p) (exit_status p) (fds p).
Definition set_rsp v p := mkPCB (pid p) (parent_pid p) (name p) (state p) (priority p) (effective_priority p) (quantums_left p) (ready_next p) (in_ready_queue p) (ready_wait_ticks p) v (stack_base p) (foreground p) (waiting_for p) (exit_status p) (fds p).
Definition set_stack_base v p := mkPCB (pid p) (parent_pid p) (name p) (state p) (priority p) (effective_priority p) (quantums_left p) (ready_next p) (in_ready_queue p) (ready_wait_ticks p) (rsp p) v (foreground p) (waiting_for p) (exit_status p) (fds p).
Definition set_foreground v p := mkPCB (pid p) (parent_pid p) (name p) (state p) (priority p) (effective_priority p) (quantums_left p) (ready_next p) (in_ready_queue p) (ready_wait_ticks p) (rsp p) (stack_base p) v (waiting_for p) (exit_status p) (fds p).
Definition set_waiting_for v p := mkPCB (pid p) (parent_pid p) (name p) (state p) (priority p) (effective_priority p) (quantums_left p) (ready_next p) (in_ready_queue p) (ready_wait_ticks p) (rsp p) (stack_base p) (foreground p) v (exit_status p) (fds p).
Definition set_exit_status v p := mkPCB (pid p) (parent_pid p) (name p) (state p) (priority p) (effective_priority p) (quantums_left p) (ready_next p) (in_ready_queue p) (ready_wait_ticks p) (rsp p) (stack_base p) (foreground p) (waiting_for p) v (fds p).
Definition set_fds v p := mkPCB (pid p) (parent_pid p) (name p) (state p) (priority p) (effective_priority p) (quantums_left p) (ready_next p) (in_ready_queue p) (ready_wait_ticks p) (rsp p) (stack_base p) (foreground p) (waiting_for p) (exit_status p) v.

(** ** The scheduler's static variables *)

Record ReadyQueue := mkRQ { rq_head : Z; rq_tail : Z }.

#[export] Instance ReadyQueue_inhabited : Inhabited ReadyQueue :=
  populate (mkRQ 0 0).

Definition set_rq_head v (q : ReadyQueue) := mkRQ v (rq_tail q).
Definition set_rq_tail v (q : ReadyQueue) := mkRQ (rq_head q) v.

Record Sched := mkSched {
  process_table : list PCB;
  process_count : Z;
  current_idx : Z;
  next_pid : Z;
  need_resched : Z;
  ready_queues : list ReadyQueue
}.

Definition set_process_table v s := mkSched v (process_count s) (current_idx s) (next_pid s) (need_resched s) (ready_queues s).
Definition set_process_count v s := mkSched (process_table s) v (current_idx s) (next_pid s) (need_resched s) (ready_queues s).
Definition set_current_idx v s := mkSched (process_table s) (process_count s) v (next_pid s) (need_resched s) (ready_queues s).
Definition set_next_pid v s := mkSched (process_table s) (process_count s) (current_idx s) v (need_resched s) (ready_queues s).
Definition set_need_resched v s := mkSched (process_table s) (process_count s) (current_idx s) (next_pid s) v (ready_queues s).
Definition set_ready_queues v s := mkSched (process_table s) (process_count s) (current_idx s) (next_pid s) (need_resched s) v.

(** [process_table[i]] and assignments to its fields. *)
Definition proc (s : Sched) (i : Z) : PCB := (process_table s).[i].

Definition upd_proc (i : Z) (f : PCB -> PCB) (s : Sched) : Sched :=
  set_process_table (alteri f i (process_table s)) s.

(** [ready_queues[q]] and assignments to its fields. *)
Definition queue (s : Sched) (q : Z) : ReadyQueue := (ready_queues s).[q].

Definition upd_queue (q : Z) (f : ReadyQueue -> ReadyQueue) (s : Sched) : Sched :=
  set_ready_queues (alteri f q (ready_queues s)) s.

(** Boolean tests on the state of an entry. *)
Definition state_is (s : Sched) (i : Z) (st : ProcState) : bool :=
  is_state (state (proc s i)) st.

(** The table has [MAX_PROCESSES] entries and the scheduler
    [PRIORITY_LEVELS] queues: the two arrays are never resized. *)
Definition sized (s : Sched) : Prop :=
  length (process_table s) = 64%nat /\ length (ready_queues s) = 5%nat.

(** An index of the table, the idle entry 0 excluded. *)
Definition slot (i : Z) : Prop := 0 < i < MAX_PROCESSES.

(** Linear arithmetic after unfolding the constants and index ranges. *)
Ltac slia :=
  unfold slot, MAX_PROCESSES, PRIORITY_LEVELS, PROCESS_PRIORITY_MAX, PROCESS_PRIORITY_MIN,
    READY_NONE, AGING_THRESHOLD_TICKS, DEFAULT_PRIORITY, DEFAULT_QUANTUM, ctrue in *; lia.

(** ** Lemmas on the accessors *)

Lemma is_state_spec a b : is_state a b = true <-> a = b.
Proof. unfold is_state. apply bool_decide_eq_true. Qed.

Lemma is_state_neg a b : is_state a b = false <-> a <> b.
Proof. unfold is_state. apply bool_decide_eq_false. Qed.

Lemma state_is_spec s i st : state_is s i st = true <-> state (proc s i) = st.
Proof. apply is_state_spec. Qed.

Lemma proc_upd_eq s i f :
  sized s -> 0 <= i < MAX_PROCESSES -> proc (upd_proc i f s) i = f (proc s i).
Proof.
  intros [Hl _] Hi. unfold proc, upd_proc. simpl.
  apply geti_alteri_eq. slia.
Qed.

Lemma proc_upd_ne s i j f : i <> j -> proc (upd_proc i f s) j = proc s j.
Proof. intros. unfold proc, upd_proc. simpl. by apply geti_alteri_ne. Qed.

(** A field that an update leaves alone, at any index. *)
Lemma proc_upd_field {B} (g : PCB -> B) s i f j :
  (forall p, g (f p) = g p) -> g (proc (upd_proc i f s) j) = g (proc s j).
Proof.
  intros Hg. unfold proc, upd_proc, geti, alteri. simpl. repeat case_if; try done.
  rewrite list_lookup_total_alter. case_decide as Hd; [|done].
  destruct Hd as [-> _]. apply Hg.
Qed.

Lemma queue_upd_proc s i f q : queue (upd_proc i f s) q = queue s q.
Proof. done. Qed.

Lemma queue_upd_eq s q f :
  sized s -> 0 <= q < PRIORITY_LEVELS -> queue (upd_queue q f s) q = f (queue s q).
Proof.
  intros [_ Hl] Hi. unfold queue, upd_queue. simpl.
  apply geti_alteri_eq. slia.
Qed.

Lemma queue_upd_ne s q r f : q <> r -> queue (upd_queue q f s) r = queue s r.
Proof. intros. unfold queue, upd_queue. simpl. by apply geti_alteri_ne. Qed.

Lemma proc_upd_queue s q f i : proc (upd_queue q f s) i = proc s i.
Proof. done. Qed.

Lemma sized_upd_proc s i f : sized s -> sized (upd_proc i f s).
Proof. unfold sized, upd_proc. simpl. by rewrite length_alteri. Qed.

Lemma sized_upd_queue s q f : sized s -> sized (upd_queue q f s).
Proof. unfold sized, upd_queue. simpl. by rewrite length_alteri. Qed.

(** Consecutive assignments to the same entry. *)
Lemma upd_proc_upd i f g s : upd_proc i f (upd_proc i g s) = upd_proc i (fun p => f (g p)) s.
Proof.
  unfold upd_proc, set_process_table. simpl. f_equal. unfold alteri. case_if; [|done].
  apply list_alter_alter_eq.
Qed.

(** The three cases of an entry after an update. *)
Lemma proc_upd s i j f :
  sized s -> 0 <= i < MAX_PROCESSES ->
  proc (upd_proc i f s) j = if j =? i then f (proc s j) else proc s j.
Proof.
  intros. destruct (Z.eqb_spec j i) as [->|].
  - by apply proc_upd_eq.
  - by apply proc_upd_ne.
Qed.

Lemma queue_upd s q r f :
  sized s -> 0 <= q < PRIORITY_LEVELS ->
  queue (upd_queue q f s) r = if r =? q then f (queue s r) else queue s r.
Proof.
  intros. destruct (Z.eqb_spec r q) as [->|].
  - by apply queue_upd_eq.
  - by apply queue_upd_ne.
Qed.

Lemma proc_set_resched v s i : proc (set_need_resched v s) i = proc s i.
Proof. done. Qed.

Lemma proc_set_current v s i : proc (set_current_idx v s) i = proc s i.
Proof. done. Qed.

Lemma proc_set_count v s i : proc (set_process_count v s) i = proc s i.
Proof. done. Qed.

Lemma proc_set_next_pid v s i : proc (set_next_pid v s) i = proc s i.
Proof. done. Qed.

Create HintDb sched.
#[export] Hint Resolve sized_upd_proc sized_upd_queue : sched.

Create Rewrite HintDb sched.
#[export] Hint Rewrite queue_upd_proc proc_upd_queue proc_set_resched proc_set_current
  proc_set_count proc_set_next_pid : sched.
