(* ===== verification/ReadyQueue.v ===== *)
(** * Ready queues

    The multi-level ready queues of [Kernel/scheduler.c]: one intrusive singly
    linked list per priority level, threaded through the [ready_next] field of
    the process table.  The abstraction [ready_rep s Q] relates the pointers to
    the lists of table indices [Q q] that the levels hold, and the theorems
    refine each pointer operation to the list operation it implements. *)

From S2P Require Import Prelude Process.
Local Open Scope Z_scope.

(** ** Operations of [scheduler.c] *)

Definition clamp_priority (priority : Z) : Z :=
  if priority <? PROCESS_PRIORITY_MIN then PROCESS_PRIORITY_MIN
  else if priority >? PROCESS_PRIORITY_MAX then PROCESS_PRIORITY_MAX
  else priority.

Definition priority_queue_index (priority : Z) : Z :=
  clamp_priority priority - PROCESS_PRIORITY_MIN.

Definition ready_queues_init (s : Sched) : Sched :=
  for_loop 0 PRIORITY_LEVELS
    (fun s i => upd_queue i (fun q => set_rq_tail READY_NONE (set_rq_head READY_NONE q)) s) s.

Definition enqueue_ready_queue (idx : Z) (s : Sched) : Sched :=
  if (idx <=? 0) || (idx >=? MAX_PROCESSES) || ctrue (in_ready_queue (proc s idx)) then s
  else
    let q_idx := priority_queue_index (effective_priority (proc s idx)) in
    let s := upd_proc idx (set_ready_next READY_NONE) s in
    let s :=
      if rq_tail (queue s q_idx) =? READY_NONE then
        upd_queue q_idx (fun q => set_rq_tail idx (set_rq_head idx q)) s
      else
        let s := upd_proc (rq_tail (queue s q_idx)) (set_ready_next idx) s in
        upd_queue q_idx (set_rq_tail idx) s in
    upd_proc idx (set_in_ready_queue 1) s.

(** The body of the [while] loop of [remove_from_ready_queue] when the entry
    is found: unlink [current], whose predecessor is [prev]. *)
Definition unlink_ready (q_idx prev current : Z) (s : Sched) : Sched :=
  let next := ready_next (proc s current) in
  let s :=
    if prev =? READY_NONE then upd_queue q_idx (set_rq_head next) s
    else upd_proc prev (set_ready_next next) s in
  let s :=
    if rq_tail (queue s q_idx) =? current then upd_queue q_idx (set_rq_tail prev) s else s in
  upd_proc current (fun p => set_in_ready_queue 0 (set_ready_next READY_NONE p)) s.

(** The [while] loop; [None] when the fuel runs out. *)
Fixpoint remove_loop (fuel : nat) (q_idx idx prev current : Z) (s : Sched) : option Sched :=
  match fuel with
  | O => None
  | S fuel =>
      if current =? READY_NONE then
        Some (upd_proc idx (fun p => set_in_ready_queue 0 (set_ready_next READY_NONE p)) s)
      else if current =? idx then Some (unlink_ready q_idx prev current s)
      else remove_loop fuel q_idx idx current (ready_next (proc s current)) s
  end.

(** A level holds at most [MAX_PROCESSES - 1] entries, so [MAX_PROCESSES]
    iterations reach the entry or the end of the list ([remove_loop_done]). *)
Definition remove_from_ready_queue (idx : Z) (s : Sched) : Sched :=
  if (idx <=? 0) || (idx >=? MAX_PROCESSES) || negb (ctrue (in_ready_queue (proc s idx))) then s
  else
    let q_idx := priority_queue_index (effective_priority (proc s idx)) in
    default s (remove_loop (Z.to_nat MAX_PROCESSES) q_idx idx READY_NONE (rq_head (queue s q_idx)) s).

Definition dequeue_ready_queue (priority : Z) (s : Sched) : Z * Sched :=
  let q_idx := priority_queue_index priority in
  let idx := rq_head (queue s q_idx) in
  if idx =? READY_NONE then (READY_NONE, s)
  else
    let s := upd_queue q_idx (set_rq_head (ready_next (proc s idx))) s in
    let s :=
      if rq_head (queue s q_idx) =? READY_NONE then upd_queue q_idx (set_rq_tail READY_NONE) s
      else s in
    let s := upd_proc idx (fun p =>
               set_ready_wait_ticks 0 (set_in_ready_queue 0 (set_ready_next READY_NONE p))) s in
    (idx, s).

(** The descending scan [for (pr = MAX; pr >= MIN; pr--)] over the levels. *)
Definition priorities_down : list Z :=
  rev (seqZ PROCESS_PRIORITY_MIN PRIORITY_LEVELS).

Definition highest_ready_priority (s : Sched) : Z :=
  default 0 (List.find (fun pr => negb (rq_head (queue s (priority_queue_index pr)) =? READY_NONE))
               priorities_down).

(** ** Abstraction *)

(** [lseg f h l t]: following [f] from [h] visits the elements of [l] and
    arrives at [t]. *)
Fixpoint lseg (f : Z -> Z) (h : Z) (l : list Z) (t : Z) : Prop :=
  match l with
  | [] => h = t
  | x :: l => h = x /\ lseg f (f x) l t
  end.

(** Whether entry [i] is queued at level [q]. *)
Definition queued_at (s : Sched) (q i : Z) : Prop :=
  slot i /\ ctrue (in_ready_queue (proc s i)) = true /\
  priority_queue_index (effective_priority (proc s i)) = q.

(** The pointers of [s] represent the queues [Q]: level [q] is the
    null-terminated list [Q q], its [tail] is the last element, and an entry is
    in the list of its level exactly when its [in_ready_queue] flag is set. *)
Record ready_rep (s : Sched) (Q : Z -> list Z) : Prop := {
  rr_sized : sized s;
  rr_chain q : 0 <= q < PRIORITY_LEVELS ->
    lseg (fun i => ready_next (proc s i)) (rq_head (queue s q)) (Q q) READY_NONE;
  rr_tail q : 0 <= q < PRIORITY_LEVELS ->
    rq_tail (queue s q) = default READY_NONE (list.last (Q q));
  rr_nodup q : 0 <= q < PRIORITY_LEVELS -> NoDup (Q q);
  rr_mem q i : 0 <= q < PRIORITY_LEVELS -> (i ∈ Q q <-> queued_at s q i)
}.

(** Queues are compared on the existing levels only. *)
Definition rq_equiv (Q R : Z -> list Z) : Prop :=
  forall q, 0 <= q < PRIORITY_LEVELS -> Q q = R q.

(** Remove an index from every level. *)
Definition rq_remove (idx : Z) (Q : Z -> list Z) : Z -> list Z :=
  fun q => filter (fun i => i <> idx) (Q q).

(** Append an index to level [q]. *)
Definition rq_append (q idx : Z) (Q : Z -> list Z) : Z -> list Z :=
  fupd Q q (Q q ++ [idx]).

(** The fields of a control block that the queue operations never touch. *)
Definition pcb_core (p : PCB) : PCB := set_ready_next 0 (set_in_ready_queue 0 p).

(** [s'] differs from [s] at most in the queue links and flags. *)
Record rq_frame (s s' : Sched) : Prop := {
  rf_count : process_count s' = process_count s;
  rf_current : current_idx s' = current_idx s;
  rf_next_pid : next_pid s' = next_pid s;
  rf_resched : need_resched s' = need_resched s;
  rf_core j : pcb_core (proc s' j) = pcb_core (proc s j)
}.

(** ** Lemmas on segments *)

Lemma lseg_app f h l1 l2 t :
  lseg f h (l1 ++ l2) t <-> exists m, lseg f h l1 m /\ lseg f m l2 t.
Proof.
  revert h. induction l1 as [|x l1 IH]; intros h; simpl.
  - naive_solver.
  - rewrite IH. naive_solver.
Qed.

Lemma lseg_ext f g h l t :
  (forall x, x ∈ l -> f x = g x) -> lseg f h l t -> lseg g h l t.
Proof.
  revert h. induction l as [|x l IH]; intros h Hext; simpl; [done|].
  intros [-> H]. split; [done|]. rewrite <- Hext by set_solver.
  apply IH; [|done]. intros. apply Hext. set_solver.
Qed.

Lemma lseg_nil_inv f h l t : lseg f h l t -> h = t -> t ∉ l -> l = [].
Proof. destruct l; simpl; [done|]. set_solver. Qed.

(** ** Priority levels *)

Lemma priority_queue_index_range p : 0 <= priority_queue_index p < PRIORITY_LEVELS.
Proof. unfold priority_queue_index, clamp_priority. repeat case_if; slia. Qed.

Lemma priority_queue_index_id p :
  PROCESS_PRIORITY_MIN <= p <= PROCESS_PRIORITY_MAX ->
  priority_queue_index p = p - PROCESS_PRIORITY_MIN.
Proof. unfold priority_queue_index, clamp_priority. intros. repeat case_if; slia. Qed.

(** ** Basic facts on represented queues *)

Section Rep.
Context (s : Sched) (Q : Z -> list Z) (Hrep : ready_rep s Q).

Lemma rr_slot q i : 0 <= q < PRIORITY_LEVELS -> i ∈ Q q -> slot i.
Proof. intros Hq Hi. by apply (rr_mem _ _ Hrep) in Hi as [? _]. Qed.

Lemma rr_disjoint q r i :
  0 <= q < PRIORITY_LEVELS -> 0 <= r < PRIORITY_LEVELS -> i ∈ Q q -> i ∈ Q r -> q = r.
Proof.
  intros Hq Hr Hi Hj.
  apply (rr_mem _ _ Hrep) in Hi as (_ & _ & <-); [|done].
  by apply (rr_mem _ _ Hrep) in Hj as (_ & _ & <-).
Qed.

Lemma rr_head_none q :
  0 <= q < PRIORITY_LEVELS -> rq_head (queue s q) = READY_NONE <-> Q q = [].
Proof.
  intros Hq. pose proof (rr_chain _ _ Hrep q Hq) as Hc. split; intros E.
  - eapply lseg_nil_inv; [done..|]. intros Hin. apply rr_slot in Hin; slia.
  - by rewrite E in Hc.
Qed.

Lemma rr_length q : 0 <= q < PRIORITY_LEVELS -> (length (Q q) < Z.to_nat MAX_PROCESSES)%nat.
Proof.
  intros Hq.
  assert (Q q ⊆+ seqZ 1 63) as Hsub.
  { apply NoDup_submseteq; [by apply (rr_nodup _ _ Hrep)|].
    intros i Hi. apply elem_of_seqZ. apply rr_slot in Hi; slia. }
  apply submseteq_length in Hsub. rewrite length_seqZ in Hsub. slia.
Qed.

Lemma rr_notin q i : 0 <= q < PRIORITY_LEVELS ->
  ctrue (in_ready_queue (proc s i)) = false -> i ∉ Q q.
Proof. intros Hq Hf Hi. apply (rr_mem _ _ Hrep) in Hi as (_ & ? & _); congruence. Qed.

(** Changing fields of an entry that the queues do not depend on. *)
Lemma rr_upd_proc i f :
  (forall p, ready_next (f p) = ready_next p) ->
  (forall p, in_ready_queue (f p) = in_ready_queue p) ->
  (forall p, effective_priority (f p) = effective_priority p) ->
  ready_rep (upd_proc i f s) Q.
Proof.
  intros Hn Hi He. pose proof (rr_sized _ _ Hrep) as Hs.
  split.
  - by apply sized_upd_proc.
  - intros q Hq. rewrite queue_upd_proc.
    eapply lseg_ext; [|by apply (rr_chain _ _ Hrep)]. intros; simpl. by rewrite proc_upd_field.
  - intros q Hq. rewrite queue_upd_proc. by apply (rr_tail _ _ Hrep).
  - by apply (rr_nodup _ _ Hrep).
  - intros q j Hq. unfold queued_at. rewrite !proc_upd_field by done. by apply (rr_mem _ _ Hrep).
Qed.

(** Changing an entry that is in no queue. *)
Lemma rr_upd_out i f :
  ctrue (in_ready_queue (proc s i)) = false ->
  ctrue (in_ready_queue (f (proc s i))) = false ->
  ready_rep (upd_proc i f s) Q.
Proof.
  intros Hi Hf. pose proof (rr_sized _ _ Hrep) as Hs.
  assert (forall q, 0 <= q < PRIORITY_LEVELS -> i ∉ Q q) as Hni by (intros; by apply rr_notin).
  split.
  - by apply sized_upd_proc.
  - intros q Hq. rewrite queue_upd_proc.
    eapply lseg_ext; [|by apply (rr_chain _ _ Hrep)]. intros x Hx. simpl.
    rewrite proc_upd_ne; [done|]. intros ->. by apply (Hni q).
  - intros q Hq. rewrite queue_upd_proc. by apply (rr_tail _ _ Hrep).
  - by apply (rr_nodup _ _ Hrep).
  - intros q j Hq. rewrite (rr_mem _ _ Hrep) by done. unfold queued_at.
    destruct (decide (i = j)) as [->|]; [|by rewrite proc_upd_ne].
    destruct (decide (slot j)); [|tauto].
    rewrite proc_upd_eq by (done || slia). rewrite Hi, Hf. naive_solver.
Qed.

End Rep.

(** ** [enqueue_ready_queue] appends to the level of the entry *)

Section Enqueue.
Context (s : Sched) (Q : Z -> list Z) (Hrep : ready_rep s Q) (idx : Z).
Hypothesis (Hslot : slot idx) (Hout : ctrue (in_ready_queue (proc s idx)) = false).
Let q := priority_queue_index (effective_priority (proc s idx)).

Lemma enqueue_tail_cases :
  (Q q = [] /\ rq_tail (queue s q) = READY_NONE) \/
  (exists l y, Q q = l ++ [y] /\ rq_tail (queue s q) = y /\ slot y /\ y <> idx).
Proof.
  pose proof (priority_queue_index_range (effective_priority (proc s idx))) as Hq.
  pose proof (rr_tail _ _ Hrep _ Hq) as Ht.
  pose proof (rr_notin _ _ Hrep _ idx Hq Hout) as Hni.
  fold q in Hq, Ht, Hni.
  destruct (Q q) as [|y l _] eqn:E using rev_ind; [by left|].
  right. exists l, y. rewrite last_snoc in Ht. split_and!; [done|done|..].
  - eapply rr_slot; [done|exact Hq|]. rewrite E. set_solver.
  - set_solver.
Qed.

Lemma enqueue_proc j :
  0 <= j -> proc (enqueue_ready_queue idx s) j =
    if j =? idx then set_in_ready_queue 1 (set_ready_next READY_NONE (proc s j))
    else if j =? rq_tail (queue s q) then set_ready_next idx (proc s j)
    else proc s j.
Proof.
  intros Hj. pose proof (rr_sized _ _ Hrep) as Hs. unfold enqueue_ready_queue.
  rewrite Hout. case_if; [slia|]. clear Heqb. fold q. rewrite queue_upd_proc.
  destruct enqueue_tail_cases as [[_ Ht]|(l & y & _ & Ht & Hy & Hne)]; rewrite Ht.
  - change (READY_NONE =? READY_NONE) with true. cbn iota.
    rewrite proc_upd by (auto with sched; slia).
    rewrite proc_upd_queue, proc_upd by (auto with sched; slia).
    repeat case_if; try done. slia.
  - replace (y =? READY_NONE) with false by slia.
    rewrite proc_upd by (auto with sched; slia).
    rewrite proc_upd_queue, proc_upd by (auto with sched; slia).
    rewrite proc_upd by (auto with sched; slia).
    repeat case_if; try done; slia.
Qed.

Lemma enqueue_queue r :
  queue (enqueue_ready_queue idx s) r =
    if r =? q then mkRQ (if rq_tail (queue s q) =? READY_NONE then idx else rq_head (queue s q)) idx
    else queue s r.
Proof.
  pose proof (rr_sized _ _ Hrep) as Hs.
  pose proof (priority_queue_index_range (effective_priority (proc s idx))) as Hq.
  unfold enqueue_ready_queue. rewrite Hout. case_if; [slia|]. clear Heqb.
  fold q in Hq |- *. rewrite !queue_upd_proc.
  destruct (rq_tail (queue s q) =? READY_NONE) eqn:Ht.
  - rewrite queue_upd by auto with sched. by case_if.
  - rewrite queue_upd by auto with sched.
    case_if; [|done]. replace r with q by lia. done.
Qed.

Lemma enqueue_chain_own :
  lseg (fun i => ready_next (proc (enqueue_ready_queue idx s) i))
    (rq_head (queue (enqueue_ready_queue idx s) q)) (Q q ++ [idx]) READY_NONE.
Proof.
  pose proof (priority_queue_index_range (effective_priority (proc s idx))) as Hq. fold q in Hq.
  pose proof (rr_notin _ _ Hrep q idx Hq Hout) as Hni.
  pose proof (rr_chain _ _ Hrep q Hq) as Hc. pose proof (rr_nodup _ _ Hrep q Hq) as Hnd.
  rewrite enqueue_queue, Z.eqb_refl.
  destruct enqueue_tail_cases as [[E Ht]|(l & y & E & Ht & Hy & Hyne)]; rewrite E, Ht in *; simpl.
  { split; [done|]. rewrite enqueue_proc by slia. by rewrite Z.eqb_refl. }
  replace (y =? READY_NONE) with false by slia.
  apply lseg_app in Hc as (m & Hc1 & -> & Hc2). apply list.NoDup_app in Hnd as (_ & Hnd & _).
  rewrite <- app_assoc. apply lseg_app. exists y. split.
  - eapply lseg_ext; [|done]. intros x Hx. simpl. specialize (Hnd x Hx).
    assert (slot x) by (apply (rr_slot _ _ Hrep q); [done|rewrite E; set_solver]).
    rewrite enqueue_proc, Ht by slia.
    replace (x =? idx) with false by (assert (x <> idx) by set_solver; lia).
    by replace (x =? y) with false by (assert (x <> y) by set_solver; lia).
  - split; [done|]. rewrite enqueue_proc by slia. rewrite Ht, Z.eqb_refl.
    replace (y =? idx) with false by lia. simpl. split; [done|].
    rewrite enqueue_proc by slia. by rewrite Z.eqb_refl.
Qed.

Lemma enqueue_chain_other r :
  0 <= r < PRIORITY_LEVELS -> r <> q ->
  lseg (fun i => ready_next (proc (enqueue_ready_queue idx s) i))
    (rq_head (queue (enqueue_ready_queue idx s) r)) (Q r) READY_NONE.
Proof.
  intros Hr Hne.
  pose proof (priority_queue_index_range (effective_priority (proc s idx))) as Hq. fold q in Hq.
  rewrite enqueue_queue. replace (r =? q) with false by lia.
  eapply lseg_ext; [|by apply (rr_chain _ _ Hrep)]. intros x Hx. simpl.
  pose proof (rr_slot _ _ Hrep _ _ Hr Hx). rewrite enqueue_proc by slia.
  repeat case_if; try done; exfalso.
  - assert (x = idx) as -> by lia. by eapply (rr_notin _ _ Hrep r).
  - destruct enqueue_tail_cases as [[E Ht]|(l & y & E & Ht & Hy & Hyne)]; rewrite Ht in *; [slia|].
    apply Hne. eapply (rr_disjoint _ _ Hrep); eauto. rewrite E. assert (x = y) as -> by lia. set_solver.
Qed.

Lemma enqueue_mem r i :
  0 <= r < PRIORITY_LEVELS -> (i ∈ rq_append q idx Q r <-> queued_at (enqueue_ready_queue idx s) r i).
Proof.
  intros Hr. pose proof (priority_queue_index_range (effective_priority (proc s idx))) as Hq. fold q in Hq.
  unfold queued_at, rq_append, fupd. destruct (decide (slot i)) as [Hi|Hi].
  - rewrite enqueue_proc by slia. destruct (Z.eqb_spec i idx) as [->|Hii]; simpl.
    + fold q. destruct (Z.eqb_spec r q) as [->|Hrq].
      * rewrite elem_of_app, list_elem_of_singleton. tauto.
      * split; [|by intros (_ & _ & ->)]. intros Hin. exfalso. by eapply (rr_notin _ _ Hrep r).
    + transitivity (i ∈ Q r).
      { case_if; [|done]. assert (r = q) as -> by lia. set_solver. }
      rewrite (rr_mem _ _ Hrep) by done. unfold queued_at. by case_if.
  - split; [|tauto]. case_if; intros Hin.
    + apply elem_of_app in Hin as [Hin|Hin]; [|set_solver].
      exfalso. by eapply Hi, (rr_slot _ _ Hrep q).
    + exfalso. by eapply Hi, (rr_slot _ _ Hrep r).
Qed.

Lemma enqueue_rep : ready_rep (enqueue_ready_queue idx s) (rq_append q idx Q).
Proof.
  pose proof (rr_sized _ _ Hrep) as Hs.
  pose proof (priority_queue_index_range (effective_priority (proc s idx))) as Hq. fold q in Hq.
  pose proof (rr_notin _ _ Hrep q idx Hq Hout) as Hni.
  split; [..|by apply enqueue_mem]; unfold rq_append, fupd.
  - unfold enqueue_ready_queue. repeat case_if; auto with sched.
  - intros r Hr. destruct (Z.eqb_spec r q) as [->|]; [apply enqueue_chain_own|by apply enqueue_chain_other].
  - intros r Hr. rewrite enqueue_queue. case_if; [by rewrite last_snoc|by apply (rr_tail _ _ Hrep)].
  - intros r Hr. case_if; [|by apply (rr_nodup _ _ Hrep)].
    apply list.NoDup_app. split_and!; [by apply (rr_nodup _ _ Hrep)| |apply NoDup_singleton].
    set_solver.
Qed.

End Enqueue.

(** An entry that is already queued, or an index out of range, is ignored. *)
Lemma enqueue_skip s idx :
  ~ (slot idx /\ ctrue (in_ready_queue (proc s idx)) = false) -> enqueue_ready_queue idx s = s.
Proof. intros H. unfold enqueue_ready_queue. case_if; [done|]. destruct H. slia. Qed.

(** ** [remove_from_ready_queue] deletes the entry from its level *)

(** The search loop walks over the entries before [idx]. *)
Lemma remove_loop_walk q idx s l fuel prev cur :
  lseg (fun i => ready_next (proc s i)) cur l idx ->
  idx ∉ l -> READY_NONE ∉ l ->
  remove_loop (length l + fuel) q idx prev cur s =
  remove_loop fuel q idx (default prev (list.last l)) idx s.
Proof.
  revert prev cur. induction l as [|x l IH]; intros prev cur; simpl.
  - by intros ->.
  - intros [-> Hl] Hidx Hnone.
    apply not_elem_of_cons in Hidx as [? ?], Hnone as [? ?].
    replace (x =? READY_NONE) with false by lia. replace (x =? idx) with false by lia.
    rewrite IH by done. f_equal. rewrite last_cons. by destruct (list.last l).
Qed.

Section Remove.
Context (s : Sched) (Q : Z -> list Z) (Hrep : ready_rep s Q) (idx : Z).
Hypothesis (Hslot : slot idx) (Hin : ctrue (in_ready_queue (proc s idx)) = true).
Let q := priority_queue_index (effective_priority (proc s idx)).

(** The level of the entry, split around it. *)
Lemma remove_split : exists l1 l2, Q q = l1 ++ idx :: l2 /\ idx ∉ l1 /\ idx ∉ l2.
Proof.
  assert (idx ∈ Q q) as Hm.
  { apply (rr_mem _ _ Hrep); [apply priority_queue_index_range|]. by unfold queued_at. }
  apply list_elem_of_split in Hm as (l1 & l2 & E). exists l1, l2.
  pose proof (rr_nodup _ _ Hrep q (priority_queue_index_range _)) as Hnd. rewrite E in Hnd.
  apply list.NoDup_app in Hnd as (_ & Hd & Hnd). apply list.NoDup_cons in Hnd as [Hnd _].
  split_and!; [done| |done]. intros Hx. specialize (Hd _ Hx). set_solver.
Qed.

(** With any fuel above the length of the level the loop finds the entry and
    unlinks it; [MAX_PROCESSES] is enough. *)
Lemma remove_loop_done l1 l2 fuel :
  Q q = l1 ++ idx :: l2 -> idx ∉ l1 -> (length (Q q) <= fuel)%nat ->
  remove_loop fuel q idx READY_NONE (rq_head (queue s q)) s =
  Some (unlink_ready q (default READY_NONE (list.last l1)) idx s).
Proof.
  intros E Hl1 Hfuel.
  pose proof (priority_queue_index_range (effective_priority (proc s idx))) as Hq. fold q in Hq.
  pose proof (rr_chain _ _ Hrep q Hq) as Hc. rewrite E in Hc.
  apply lseg_app in Hc as (m & Hc & -> & _).
  rewrite E, length_app in Hfuel. simpl in Hfuel.
  replace fuel with (length l1 + S (fuel - length l1 - 1))%nat by lia.
  rewrite remove_loop_walk; [|done|done|].
  - cbn [remove_loop]. rewrite Z.eqb_refl. replace (idx =? READY_NONE) with false by slia. done.
  - intros Hx. eapply (rr_slot _ _ Hrep q READY_NONE) in Hq; [slia|]. rewrite E. set_solver.
Qed.

Lemma remove_eq l1 l2 :
  Q q = l1 ++ idx :: l2 -> idx ∉ l1 ->
  remove_from_ready_queue idx s = unlink_ready q (default READY_NONE (list.last l1)) idx s.
Proof.
  intros E Hl1. unfold remove_from_ready_queue. rewrite Hin. case_if; [slia|]. fold q.
  rewrite (remove_loop_done l1 l2); [done..|].
  pose proof (rr_length _ _ Hrep q). pose proof (priority_queue_index_range (effective_priority (proc s idx))).
  fold q in H0. lia.
Qed.

Section Unlink.
Context (l1 l2 : list Z) (Esplit : Q q = l1 ++ idx :: l2) (Hl1 : idx ∉ l1) (Hl2 : idx ∉ l2).
Let prev := default READY_NONE (list.last l1).
Let next := ready_next (proc s idx).

Lemma unlink_prev_cases :
  (l1 = [] /\ prev = READY_NONE) \/ (exists l0, l1 = l0 ++ [prev] /\ slot prev /\ prev <> idx).
Proof.
  pose proof (priority_queue_index_range (effective_priority (proc s idx))) as Hq. fold q in Hq.
  destruct l1 as [|y l0 _] eqn:E using rev_ind; [by left|]. right. exists l0.
  unfold prev. rewrite last_snoc. simpl. split_and!; [done| |set_solver].
  eapply (rr_slot _ _ Hrep q); [done|]. rewrite Esplit. set_solver.
Qed.

Lemma unlink_proc j :
  0 <= j -> proc (unlink_ready q prev idx s) j =
    if j =? idx then set_in_ready_queue 0 (set_ready_next READY_NONE (proc s j))
    else if j =? prev then set_ready_next next (proc s j)
    else proc s j.
Proof.
  intros Hj. pose proof (rr_sized _ _ Hrep) as Hs. unfold unlink_ready. fold next.
  rewrite proc_upd by (repeat case_if; auto with sched; slia).
  destruct unlink_prev_cases as [[_ ->]|(l0 & _ & Hp & Hne)].
  - change (READY_NONE =? READY_NONE) with true. cbn iota.
    repeat case_if; autorewrite with sched; try done; slia.
  - replace (prev =? READY_NONE) with false by slia.
    destruct (Z.eqb_spec j idx) as [->|Hji].
    + case_if; autorewrite with sched; by rewrite proc_upd_ne.
    + case_if; autorewrite with sched; rewrite proc_upd by (done || slia); done.
Qed.

Lemma unlink_queue r :
  queue (unlink_ready q prev idx s) r =
    if r =? q then mkRQ (if prev =? READY_NONE then next else rq_head (queue s q))
                        (if rq_tail (queue s q) =? idx then prev else rq_tail (queue s q))
    else queue s r.
Proof.
  pose proof (rr_sized _ _ Hrep) as Hs.
  pose proof (priority_queue_index_range (effective_priority (proc s idx))) as Hq. fold q in Hq.
  unfold unlink_ready. fold next. rewrite queue_upd_proc.
  destruct (prev =? READY_NONE); autorewrite with sched.
  - rewrite queue_upd_eq by done. simpl.
    destruct (rq_tail (queue s q) =? idx).
    + rewrite !queue_upd by auto with sched. by case_if.
    + rewrite !queue_upd by auto with sched. case_if; [|done]. by replace r with q by lia.
  - destruct (rq_tail (queue s q) =? idx) eqn:E.
    + rewrite queue_upd by auto with sched. autorewrite with sched.
      case_if; [|done]. by replace r with q by lia.
    + autorewrite with sched. case_if; [|done]. replace r with q by lia. by destruct (queue s q).
Qed.

(** The level without the entry, and the other levels, which do not hold it. *)
Lemma unlink_level : rq_remove idx Q q = l1 ++ l2.
Proof.
  unfold rq_remove. rewrite Esplit, list.filter_app, filter_cons_False by naive_solver.
  by rewrite !filter_ne_id.
Qed.

Lemma unlink_other r : 0 <= r < PRIORITY_LEVELS -> r <> q -> idx ∉ Q r.
Proof.
  intros Hr Hne Hx. apply Hne. eapply (rr_disjoint _ _ Hrep); eauto.
  { apply priority_queue_index_range. }
  rewrite Esplit. set_solver.
Qed.

Lemma unlink_level_other r : 0 <= r < PRIORITY_LEVELS -> r <> q -> rq_remove idx Q r = Q r.
Proof. intros Hr Hne. by apply filter_ne_id, unlink_other. Qed.

(** Entries of the level are distinct, so that the predecessor occurs once. *)
Lemma unlink_distinct : NoDup l1 /\ (forall x, x ∈ l1 -> x ∉ l2) /\ NoDup l2.
Proof.
  pose proof (rr_nodup _ _ Hrep q (priority_queue_index_range _)) as Hnd. rewrite Esplit in Hnd.
  apply list.NoDup_app in Hnd as (Hnd1 & Hdis & [_ Hnd2]%list.NoDup_cons).
  split_and!; [done| |done]. intros x Hx. specialize (Hdis x Hx). set_solver.
Qed.

(** The link of a queued entry other than the predecessor is kept. *)
Lemma unlink_link r x :
  0 <= r < PRIORITY_LEVELS -> x ∈ Q r -> x <> idx -> (r = q -> x ∈ l2 \/ x ∈ removelast l1) ->
  ready_next (proc (unlink_ready q prev idx s) x) = ready_next (proc s x).
Proof.
  intros Hr Hx Hne Hw. pose proof (rr_slot _ _ Hrep _ _ Hr Hx) as Hs.
  rewrite unlink_proc by slia. replace (x =? idx) with false by lia.
  destruct (Z.eqb_spec x prev) as [->|]; [|done]. exfalso.
  destruct unlink_distinct as (Hn1 & Hd & _).
  destruct unlink_prev_cases as [[_ ?]|(l0 & E & _)]; [slia|].
  rewrite E in Hw, Hn1. rewrite removelast_last in Hw.
  apply list.NoDup_app in Hn1 as (_ & Hn1 & _).
  destruct Hw as [Hw|Hw].
  - eapply (rr_disjoint _ _ Hrep); eauto; [apply priority_queue_index_range|].
    rewrite Esplit, E. set_solver.
  - eapply Hd; [|exact Hw]. rewrite E. set_solver.
  - eapply Hn1; [exact Hw|]. set_solver.
Qed.

Lemma unlink_chain r :
  0 <= r < PRIORITY_LEVELS ->
  lseg (fun i => ready_next (proc (unlink_ready q prev idx s) i))
    (rq_head (queue (unlink_ready q prev idx s) r)) (rq_remove idx Q r) READY_NONE.
Proof.
  intros Hr. rewrite unlink_queue. destruct (Z.eqb_spec r q) as [->|Hne].
  2: { rewrite unlink_level_other by done. pose proof (unlink_other r Hr Hne).
       eapply lseg_ext; [|by apply (rr_chain _ _ Hrep)]. intros x Hx. symmetry.
       eapply unlink_link; [done..|set_solver|done]. }
  rewrite unlink_level. pose proof (rr_chain _ _ Hrep q Hr) as Hc. rewrite Esplit in Hc.
  assert (lseg (fun i => ready_next (proc (unlink_ready q prev idx s) i)) next l2 READY_NONE) as Htail.
  { apply lseg_app in Hc as (m & _ & _ & Hc2). eapply lseg_ext; [|exact Hc2]. intros x Hx. symmetry.
    eapply (unlink_link q); [done|rewrite Esplit; set_solver|set_solver|by left]. }
  destruct unlink_prev_cases as [[E1 ->]|(l0 & E & Hp & Hpne)]; simpl; [by rewrite E1|].
  replace (prev =? READY_NONE) with false by slia.
  assert (forall x, x ∈ l0 -> ready_next (proc s x) = ready_next (proc (unlink_ready q prev idx s) x)) as Hl0.
  { intros x Hx. symmetry. assert (x ∈ l1) by (rewrite E; set_solver).
    eapply (unlink_link q); [done|rewrite Esplit; set_solver|by intros ->|].
    right. by rewrite E, removelast_last. }
  rewrite E in Hc |- *. rewrite <- app_assoc in Hc |- *. simpl in Hc |- *.
  apply lseg_app in Hc as (m & Hc1 & -> & _). apply lseg_app. exists prev.
  split; [exact (lseg_ext _ _ _ _ _ Hl0 Hc1)|split; [done|]].
  rewrite unlink_proc by slia. rewrite Z.eqb_refl. by replace (prev =? idx) with false by lia.
Qed.

Lemma unlink_tail r :
  0 <= r < PRIORITY_LEVELS ->
  rq_tail (queue (unlink_ready q prev idx s) r) = default READY_NONE (list.last (rq_remove idx Q r)).
Proof.
  intros Hr. rewrite unlink_queue. destruct (Z.eqb_spec r q) as [->|Hne]; simpl.
  - rewrite unlink_level, (rr_tail _ _ Hrep) by done. rewrite Esplit.
    destruct l2 as [|y l2' _] eqn:E using rev_ind.
    + rewrite last_snoc, app_nil_r. simpl. by rewrite Z.eqb_refl.
    + rewrite app_comm_cons, !app_assoc, !last_snoc. simpl. case_if; [|done].
      assert (y = idx) by lia. set_solver.
  - rewrite unlink_level_other by done. by apply (rr_tail _ _ Hrep).
Qed.

Lemma unlink_rep : ready_rep (unlink_ready q prev idx s) (rq_remove idx Q).
Proof.
  pose proof (rr_sized _ _ Hrep) as Hs. split; [|by apply unlink_chain|by apply unlink_tail|..].
  - unfold unlink_ready. repeat case_if; auto with sched.
  - intros r Hr. unfold rq_remove. by apply list.NoDup_filter, (rr_nodup _ _ Hrep).
  - intros r i Hr. unfold rq_remove. rewrite list_elem_of_filter, (rr_mem _ _ Hrep) by done.
    unfold queued_at. destruct (decide (slot i)) as [Hi|Hi]; [|tauto].
    rewrite unlink_proc by slia. destruct (Z.eqb_spec i idx) as [->|Hii]; simpl.
    + split; [tauto|]. intros (_ & Hf & _). done.
    + case_if; tauto.
Qed.

End Unlink.
End Remove.

#[export] Instance rq_equiv_equivalence : Equivalence rq_equiv.
Proof.
  split.
  - by intros Q q Hq.
  - intros Q R H q Hq. symmetry. by apply H.
  - intros Q R T H1 H2 q Hq. rewrite H1 by done. by apply H2.
Qed.

#[export] Instance ready_rep_proper : Proper (eq ==> rq_equiv ==> iff) ready_rep.
Proof.
  enough (forall s Q R, rq_equiv Q R -> ready_rep s Q -> ready_rep s R) as E.
  { intros s _ <- Q R HQ. split; apply E; [done|by symmetry]. }
  intros s Q R HQ [Hs Hc Ht Hn Hm]. split; [done|..]; intros; rewrite <- HQ by done; auto.
Qed.

#[export] Instance rq_append_proper q idx :
  Proper (rq_equiv ==> rq_equiv) (rq_append q idx).
Proof.
  intros Q R H r Hr. unfold rq_append, fupd. case_if; [|by apply H].
  replace r with q in * by lia. by rewrite H.
Qed.

#[export] Instance rq_remove_proper idx : Proper (rq_equiv ==> rq_equiv) (rq_remove idx).
Proof. intros Q R H r Hr. unfold rq_remove. by rewrite H. Qed.

Lemma rq_remove_absent s Q idx :
  ready_rep s Q -> ~ (slot idx /\ ctrue (in_ready_queue (proc s idx)) = true) ->
  rq_equiv (rq_remove idx Q) Q.
Proof.
  intros Hrep Hno r Hr. apply filter_ne_id. intros Hx.
  apply (rr_mem _ _ Hrep) in Hx as (? & ? & _); tauto.
Qed.

(** ** Frame of the queue operations *)

#[export] Instance rq_frame_preorder : PreOrder rq_frame.
Proof.
  split.
  - by intros s.
  - intros s1 s2 s3 [] []. split; congruence.
Qed.

Lemma rq_frame_upd_proc s i f :
  (forall p, pcb_core (f p) = pcb_core p) -> rq_frame s (upd_proc i f s).
Proof. intros Hf. split; try done. intros j. by apply proc_upd_field. Qed.

Lemma rq_frame_upd_queue s q f : rq_frame s (upd_queue q f s).
Proof. done. Qed.

#[export] Hint Resolve rq_frame_upd_proc rq_frame_upd_queue : sched.

(** Any field that factors through [pcb_core] is preserved. *)
Lemma rf_field {B} (g : PCB -> B) s s' :
  (forall p, g p = g (pcb_core p)) -> rq_frame s s' -> forall j, g (proc s' j) = g (proc s j).
Proof. intros Hg Hf j. by rewrite Hg, (rf_core _ _ Hf), <- Hg. Qed.

Ltac rq_frame_tac :=
  repeat match goal with
  | |- rq_frame _ (if _ then _ else _) => case_if
  | |- rq_frame ?s ?s => reflexivity
  | |- rq_frame _ (upd_proc _ _ _) => etrans; [|by apply rq_frame_upd_proc]
  | |- rq_frame _ (upd_queue _ _ _) => etrans; [|by apply rq_frame_upd_queue]
  end.

Lemma enqueue_frame s idx : rq_frame s (enqueue_ready_queue idx s).
Proof. unfold enqueue_ready_queue. rq_frame_tac. Qed.

Lemma unlink_frame s q prev cur : rq_frame s (unlink_ready q prev cur s).
Proof. unfold unlink_ready. rq_frame_tac. Qed.

Lemma remove_frame s idx : rq_frame s (remove_from_ready_queue idx s).
Proof.
  unfold remove_from_ready_queue. case_if; [done|].
  set (q := priority_queue_index _). generalize (rq_head (queue s q)), READY_NONE.
  induction (Z.to_nat MAX_PROCESSES) as [|fuel IH]; intros cur prev; simpl; [done|].
  repeat case_if; simpl; [rq_frame_tac|apply unlink_frame|apply IH].
Qed.

#[export] Hint Resolve enqueue_frame remove_frame : sched.

(** ** Refinement of [remove_from_ready_queue] and the queue flags *)

Lemma remove_skip s idx :
  ~ (slot idx /\ ctrue (in_ready_queue (proc s idx)) = true) -> remove_from_ready_queue idx s = s.
Proof. intros H. unfold remove_from_ready_queue. case_if; [done|]. destruct H. slia. Qed.

Lemma remove_rep s Q idx :
  ready_rep s Q -> ready_rep (remove_from_ready_queue idx s) (rq_remove idx Q).
Proof.
  intros Hrep.
  destruct (decide (slot idx /\ ctrue (in_ready_queue (proc s idx)) = true)) as [[Hi Hin]|Hno].
  - destruct (remove_split s Q Hrep idx Hi Hin) as (l1 & l2 & E & H1 & H2).
    rewrite (remove_eq s Q Hrep idx Hi Hin l1 l2) by done. by apply (unlink_rep s Q Hrep idx Hi Hin l1 l2).
  - rewrite remove_skip by done. by rewrite rq_remove_absent.
Qed.

Lemma remove_flag s Q idx j :
  ready_rep s Q -> 0 <= j ->
  ctrue (in_ready_queue (proc (remove_from_ready_queue idx s) j)) =
  ctrue (in_ready_queue (proc s j)) && negb ((j =? idx) && (0 <? idx) && (idx <? MAX_PROCESSES)).
Proof.
  intros Hrep Hj.
  destruct (decide (slot idx /\ ctrue (in_ready_queue (proc s idx)) = true)) as [[Hi Hin]|Hno].
  - destruct (remove_split s Q Hrep idx Hi Hin) as (l1 & l2 & E & H1 & H2).
    rewrite (remove_eq s Q Hrep idx Hi Hin l1 l2) by done.
    rewrite (unlink_proc s Q Hrep idx Hi Hin l1 l2) by done.
    destruct (Z.eqb_spec j idx) as [->|]; repeat case_if; simpl; slia.
  - rewrite remove_skip by done. destruct (Z.eqb_spec j idx) as [->|]; slia.
Qed.

Lemma enqueue_flag s Q idx j :
  ready_rep s Q -> 0 <= j ->
  ctrue (in_ready_queue (proc (enqueue_ready_queue idx s) j)) =
  ctrue (in_ready_queue (proc s j)) || ((j =? idx) && (0 <? idx) && (idx <? MAX_PROCESSES)).
Proof.
  intros Hrep Hj.
  destruct (decide (slot idx /\ ctrue (in_ready_queue (proc s idx)) = false)) as [[Hi Hin]|Hno].
  - rewrite (enqueue_proc s Q Hrep idx) by done.
    destruct (Z.eqb_spec j idx) as [->|]; repeat case_if; simpl; slia.
  - rewrite enqueue_skip by done. destruct (Z.eqb_spec j idx) as [->|]; slia.
Qed.

(** ** [dequeue_ready_queue] takes the head of a level *)

(** A state whose level [q] has lost its head [x], all else as before. *)
Record popped (s s' : Sched) (q x : Z) : Prop := {
  pop_sized : sized s';
  pop_queue r : queue s' r =
    if r =? q then
      mkRQ (ready_next (proc s x))
        (if ready_next (proc s x) =? READY_NONE then READY_NONE else rq_tail (queue s q))
    else queue s r;
  pop_proc j : proc s' j =
    if j =? x then set_ready_wait_ticks 0 (set_in_ready_queue 0 (set_ready_next READY_NONE (proc s x)))
    else proc s j
}.

Section Popped.
Context (s s' : Sched) (Q : Z -> list Z) (q x : Z) (l : list Z).
Context (Hrep : ready_rep s Q) (Hq : 0 <= q < PRIORITY_LEVELS) (E : Q q = x :: l).
Context (Hpop : popped s s' q x).

Lemma popped_only r : 0 <= r < PRIORITY_LEVELS -> x ∈ fupd Q q l r -> False.
Proof.
  intros Hr. pose proof (rr_nodup _ _ Hrep q Hq) as Hnd. rewrite E in Hnd.
  apply list.NoDup_cons in Hnd as [Hxl _]. unfold fupd.
  destruct (Z.eqb_spec r q) as [->|Hne]; [done|]. intros Hx. apply Hne.
  eapply (rr_disjoint _ _ Hrep); eauto. rewrite E. set_solver.
Qed.

Lemma popped_sub r i : i ∈ fupd Q q l r -> i ∈ Q r.
Proof. unfold fupd. destruct (Z.eqb_spec r q) as [->|]; [|done]. rewrite E. set_solver. Qed.

Lemma popped_chain r :
  0 <= r < PRIORITY_LEVELS ->
  lseg (fun i => ready_next (proc s' i)) (rq_head (queue s' r)) (fupd Q q l r) READY_NONE.
Proof.
  intros Hr.
  assert (lseg (fun i => ready_next (proc s i)) (rq_head (queue s' r)) (fupd Q q l r) READY_NONE) as Hc.
  { rewrite (pop_queue _ _ _ _ Hpop). unfold fupd. pose proof (rr_chain _ _ Hrep r Hr) as Hc.
    destruct (Z.eqb_spec r q) as [->|]; [|done]. rewrite E in Hc. by destruct Hc. }
  eapply lseg_ext; [|exact Hc]. intros y Hy. simpl. rewrite (pop_proc _ _ _ _ Hpop).
  destruct (Z.eqb_spec y x) as [->|]; [|done]. by destruct (popped_only r).
Qed.

Lemma popped_tail r :
  0 <= r < PRIORITY_LEVELS ->
  rq_tail (queue s' r) = default READY_NONE (list.last (fupd Q q l r)).
Proof.
  intros Hr. rewrite (pop_queue _ _ _ _ Hpop). unfold fupd.
  destruct (Z.eqb_spec r q) as [->|Hne]; simpl; [|by apply (rr_tail _ _ Hrep)].
  pose proof (rr_chain _ _ Hrep q Hq) as Hc. rewrite E in Hc. destruct Hc as [_ Hc].
  rewrite (rr_tail _ _ Hrep), E by done. destruct l as [|y l']; [by rewrite Hc|].
  destruct Hc as [Hy _].
  assert (slot y) by (apply (rr_slot _ _ Hrep q); [done|rewrite E; set_solver]).
  by replace (ready_next (proc s x) =? READY_NONE) with false by slia.
Qed.

Lemma popped_rep : ready_rep s' (fupd Q q l).
Proof.
  split; [by eapply pop_sized|by apply popped_chain|by apply popped_tail|..].
  - intros r Hr. pose proof (rr_nodup _ _ Hrep r Hr) as Hnd. unfold fupd.
    destruct (Z.eqb_spec r q) as [->|]; [|done]. rewrite E in Hnd. by apply list.NoDup_cons in Hnd as [_ ?].
  - intros r i Hr. unfold queued_at. rewrite (pop_proc _ _ _ _ Hpop).
    destruct (Z.eqb_spec i x) as [->|Hne]; simpl.
    + split; [intros Hx; by destruct (popped_only r)|by intros (_ & ? & _)].
    + fold (queued_at s r i). rewrite <- (rr_mem _ _ Hrep) by done. split; [apply popped_sub|].
      unfold fupd. destruct (Z.eqb_spec r q) as [->|]; [|done]. rewrite E. set_solver.
Qed.
End Popped.

(** The state after taking the head of level [q]. *)
Lemma dequeue_spec s Q pr :
  ready_rep s Q ->
  let q := priority_queue_index pr in
  match Q q with
  | [] => dequeue_ready_queue pr s = (READY_NONE, s)
  | x :: l => exists s', dequeue_ready_queue pr s = (x, s') /\ slot x /\
      ready_rep s' (fupd Q q l) /\
      (forall j, proc s' j = if j =? x then set_ready_wait_ticks 0 (set_in_ready_queue 0 (set_ready_next READY_NONE (proc s x))) else proc s j) /\
      process_count s' = process_count s /\ current_idx s' = current_idx s /\
      next_pid s' = next_pid s /\ need_resched s' = need_resched s
  end.
Proof.
  intros Hrep q. pose proof (priority_queue_index_range pr) as Hq. fold q in Hq.
  pose proof (rr_sized _ _ Hrep) as Hs.
  pose proof (rr_chain _ _ Hrep q Hq) as Hc. unfold dequeue_ready_queue. fold q.
  destruct (Q q) as [|x l] eqn:E; [by simpl in Hc; rewrite Hc|].
  destruct Hc as [Hx Hc]. rewrite Hx.
  assert (slot x) as Hslot by (apply (rr_slot _ _ Hrep q); [done|rewrite E; set_solver]).
  replace (x =? READY_NONE) with false by slia.
  eexists. split; [reflexivity|]. split; [done|]. rewrite queue_upd_eq by done. simpl.
  set (s1 := if ready_next (proc s x) =? READY_NONE then _ else _).
  assert (forall j, proc s1 j = proc s j) as Hp1 by (intros; unfold s1; by case_if).
  assert (sized s1) as Hs1 by (unfold s1; case_if; auto with sched).
  match goal with |- ready_rep ?s' _ /\ _ => assert (popped s s' q x) as Hpop end.
  { split; [by apply sized_upd_proc|..].
    - intros r. rewrite queue_upd_proc. unfold s1.
      case_if; rewrite !queue_upd by auto with sched; case_if; try done. by replace r with q by lia.
    - intros j. rewrite proc_upd, !Hp1 by (auto with sched; slia). case_if; [|done].
      by replace j with x by lia. }
  split; [by eapply popped_rep|]. split; [by eapply pop_proc|]. unfold s1. by case_if.
Qed.

(** ** [highest_ready_priority] is the greatest non-empty level *)

Lemma highest_ready_priority_spec s Q :
  ready_rep s Q ->
  let m := highest_ready_priority s in
  0 <= m <= PROCESS_PRIORITY_MAX /\
  (m = 0 -> forall q, 0 <= q < PRIORITY_LEVELS -> Q q = []) /\
  (0 < m -> Q (m - PROCESS_PRIORITY_MIN) <> []) /\
  (forall pr, m < pr <= PROCESS_PRIORITY_MAX -> Q (pr - PROCESS_PRIORITY_MIN) = []).
Proof.
  intros Hrep m.
  set (P := fun pr => negb (rq_head (queue s (priority_queue_index pr)) =? READY_NONE)).
  assert (forall pr, 1 <= pr <= 5 -> P pr = false <-> Q (pr - PROCESS_PRIORITY_MIN) = []) as HP.
  { intros pr Hpr. unfold P. rewrite priority_queue_index_id by slia.
    rewrite <- (rr_head_none _ _ Hrep) by slia. slia. }
  pose proof (find_down_spec P PROCESS_PRIORITY_MIN PRIORITY_LEVELS ltac:(slia)) as Hf.
  unfold m, highest_ready_priority. fold P. unfold priorities_down.
  destruct (List.find P _) as [r|]; simpl; [destruct Hf as (Hr & HPr & Hf)|]; split_and!; try slia.
  - intros _ E. apply HP in E; [congruence|slia].
  - intros pr Hpr. apply HP; [slia|]. apply Hf. slia.
  - intros _ q Hq. specialize (Hf (q + 1) ltac:(slia)). apply HP in Hf; [|slia].
    rewrite <- Hf. f_equal. slia.
  - intros pr Hpr. apply HP; [slia|]. apply Hf. slia.
Qed.
