(* ===== verification/Sched.v ===== *)
(** * Scheduler

    The scheduling operations of [Kernel/scheduler.c] that only touch the
    process table and the ready queues: aging, dispatch, blocking, priorities
    and the timer tick.  The file states the scheduler invariant
    [sched_inv], proves that every operation preserves it, and proves that a
    ready process is dispatched after a bounded number of ticks. *)

From S2P Require Import Prelude Process ReadyQueue.
Local Open Scope Z_scope.

(** ** Lookups *)

(** The test [process_table[i].pid == pid && process_table[i].state != PROCESS_DEAD]. *)
Definition has_pid (s : Sched) (p : Z) (i : Z) : bool :=
  (pid (proc s i) =? p) && negb (state_is s i PROCESS_DEAD).

Definition find_free_slot (s : Sched) : Z :=
  find_idx (fun i => state_is s i PROCESS_DEAD) 1 (MAX_PROCESSES - 1).

Definition find_index_by_pid (p : Z) (s : Sched) : Z :=
  find_idx (has_pid s p) 0 MAX_PROCESSES.

(** [get_process_by_pid] returns a pointer into the table: its index, or -1
    for [NULL]. *)
Definition get_process_by_pid (p : Z) (s : Sched) : Z :=
  find_idx (fun i => negb (state_is s i PROCESS_DEAD) && (pid (proc s i) =? p)) 0 MAX_PROCESSES.

Definition scheduler_getpid (s : Sched) : Z :=
  if current_idx s <? 0 then -1 else pid (proc s (current_idx s)).

(** [scheduler_current] returns a pointer into the table: its index, or -1
    for [NULL]. *)
Definition scheduler_current (s : Sched) : Z :=
  if current_idx s <? 0 then -1 else current_idx s.

(** ** Aging and dispatch *)

Definition age_process (s : Sched) (idx : Z) : Sched :=
  if negb (ctrue (in_ready_queue (proc s idx))) || negb (state_is s idx PROCESS_READY) then s
  else
    let s := upd_proc idx (fun p => set_ready_wait_ticks (ready_wait_ticks p + 1) p) s in
    if (ready_wait_ticks (proc s idx) >=? AGING_THRESHOLD_TICKS) &&
       (effective_priority (proc s idx) <? PROCESS_PRIORITY_MAX) then
      let s := remove_from_ready_queue idx s in
      let s := upd_proc idx (fun p => set_effective_priority (effective_priority p + 1) p) s in
      let s := upd_proc idx (set_ready_wait_ticks 0) s in
      enqueue_ready_queue idx s
    else s.

Definition age_ready_processes (s : Sched) : Sched :=
  for_loop 1 (MAX_PROCESSES - 1) age_process s.

Fixpoint dequeue_levels (prs : list Z) (s : Sched) : Z * Sched :=
  match prs with
  | [] => (0, s)
  | pr :: prs =>
      let '(idx, s) := dequeue_ready_queue pr s in
      if negb (idx =? READY_NONE) then
        (idx, upd_proc idx (fun p => set_effective_priority (priority p) p) s)
      else dequeue_levels prs s
  end.

Definition dequeue_next_ready (s : Sched) : Z * Sched :=
  dequeue_levels priorities_down (age_ready_processes s).

Definition make_ready (idx : Z) (reset_effective_priority : bool) (s : Sched) : Sched :=
  if (idx <=? 0) || (idx >=? MAX_PROCESSES) ||
     state_is s idx PROCESS_DEAD || state_is s idx PROCESS_ZOMBIE then s
  else
    let s := if ctrue (in_ready_queue (proc s idx)) then remove_from_ready_queue idx s else s in
    let s :=
      if reset_effective_priority then
        upd_proc idx (fun p => set_ready_wait_ticks 0 (set_effective_priority (priority p) p)) s
      else s in
    let s := upd_proc idx (set_state PROCESS_READY) s in
    let s := upd_proc idx (set_quantums_left DEFAULT_QUANTUM) s in
    let s := enqueue_ready_queue idx s in
    if (current_idx s >? 0) &&
       (effective_priority (proc s idx) >? effective_priority (proc s (current_idx s)))
    then set_need_resched 1 s
    else s.

(** ** Blocking, priorities, yielding *)

Definition scheduler_block_current (s : Sched) : Sched :=
  if current_idx s <? 0 then s
  else
    let s := upd_proc (current_idx s) (set_state PROCESS_BLOCKED) s in
    let s := upd_proc (current_idx s) (set_quantums_left 0) s in
    set_need_resched 1 s.

Definition scheduler_block (p : Z) (s : Sched) : Sched :=
  let i := find_idx (has_pid s p) 0 MAX_PROCESSES in
  if i <? 0 then s
  else
    let s := remove_from_ready_queue i s in
    let s := upd_proc i (set_state PROCESS_BLOCKED) s in
    if i =? current_idx s then
      let s := upd_proc i (set_quantums_left 0) s in
      set_need_resched 1 s
    else s.

Definition scheduler_unblock (p : Z) (s : Sched) : Sched :=
  let i := find_idx (fun i => (pid (proc s i) =? p) && state_is s i PROCESS_BLOCKED) 0 MAX_PROCESSES in
  if i <? 0 then s else make_ready i true s.

Definition scheduler_nice (p new_priority : Z) (s : Sched) : Z * Sched :=
  if (new_priority <? PROCESS_PRIORITY_MIN) || (new_priority >? PROCESS_PRIORITY_MAX) then (-1, s)
  else
    let i := find_idx (has_pid s p) 0 MAX_PROCESSES in
    if i <? 0 then (-1, s)
    else
      let was_ready := ctrue (in_ready_queue (proc s i)) in
      let s := if was_ready then remove_from_ready_queue i s else s in
      let s := upd_proc i (fun p => set_quantums_left DEFAULT_QUANTUM (set_ready_wait_ticks 0
                 (set_effective_priority new_priority (set_priority new_priority p)))) s in
      let s := if was_ready then enqueue_ready_queue i s else s in
      let s :=
        if (i =? current_idx s) ||
           ((current_idx s >=? 0) &&
            (new_priority >? effective_priority (proc s (current_idx s))))
        then set_need_resched 1 s else s in
      (0, s).

Definition scheduler_yield (s : Sched) : Sched :=
  if current_idx s <? 0 then s
  else set_need_resched 1 (upd_proc (current_idx s) (set_quantums_left 0) s).

Definition scheduler_should_reschedule (s : Sched) : bool :=
  if current_idx s <? 0 then false
  else
    let current := proc s (current_idx s) in
    ctrue (need_resched s) ||
    negb (is_state (state current) PROCESS_RUNNING) ||
    (quantums_left current <=? 0) ||
    (highest_ready_priority s >? effective_priority current).

(** ** The timer tick *)

(** The second half of [scheduler_tick]: choose the next process and make it
    the current one; the result is the stack pointer to load. *)
Definition run_next (next : Z) (s : Sched) : Sched :=
  let s := upd_proc next (set_state PROCESS_RUNNING) s in
  let s := upd_proc next (set_quantums_left DEFAULT_QUANTUM) s in
  let s := set_current_idx next s in
  set_need_resched 0 s.

Definition dispatch_next (s : Sched) : Z * Sched :=
  let '(next, s) := dequeue_next_ready s in
  let s := run_next next s in
  (rsp (proc s next), s).

Definition scheduler_tick (current_rsp : Z) (s : Sched) : Z * Sched :=
  if current_idx s >=? 0 then
    let s := upd_proc (current_idx s) (set_rsp current_rsp) s in
    if state_is s (current_idx s) PROCESS_RUNNING then
      let s := upd_proc (current_idx s) (fun p => set_quantums_left (quantums_left p - 1) p) s in
      if negb (ctrue (need_resched s)) &&
         (quantums_left (proc s (current_idx s)) >? 0) &&
         (highest_ready_priority s <=? effective_priority (proc s (current_idx s)))
      then (current_rsp, s)
      else dispatch_next (if current_idx s >? 0 then make_ready (current_idx s) true s else s)
    else dispatch_next s
  else dispatch_next s.

(** ** Listing *)

Definition scheduler_list (max : Z) (s : Sched) : list PCB :=
  foldl (fun out i =>
           if (Z.of_nat (length out) <? max) && negb (state_is s i PROCESS_DEAD)
           then out ++ [proc s i] else out)
        [] (seqZ 0 MAX_PROCESSES).

(** ** Foreground ownership *)

Definition ensure_foreground_owner (s : Sched) : Sched :=
  let owner := find_idx (fun i => negb (state_is s i PROCESS_DEAD) &&
                                  negb (state_is s i PROCESS_ZOMBIE) &&
                                  ctrue (foreground (proc s i))) 1 (MAX_PROCESSES - 1) in
  if owner >=? 0 then s
  else
    let shell_idx := find_index_by_pid 1 s in
    if (shell_idx >=? 0) && negb (state_is s shell_idx PROCESS_ZOMBIE)
    then upd_proc shell_idx (set_foreground 1) s
    else s.

(** ** Updates of one entry

    [one_upd idx f s s']: apart from the queue links and flags and
    [need_resched], [s'] is [s] with [f] applied to entry [idx]. *)

Record one_upd (idx : Z) (f : PCB -> PCB) (s s' : Sched) : Prop := {
  ou_count : process_count s' = process_count s;
  ou_current : current_idx s' = current_idx s;
  ou_next_pid : next_pid s' = next_pid s;
  ou_core j : 0 <= j < MAX_PROCESSES ->
    pcb_core (proc s' j) = pcb_core (if j =? idx then f (proc s j) else proc s j)
}.

(** The entry that [make_ready] leaves for dispatch. *)
Definition ready_entry (reset : bool) (p : PCB) : PCB :=
  set_quantums_left DEFAULT_QUANTUM (set_state PROCESS_READY
    (if reset then set_ready_wait_ticks 0 (set_effective_priority (priority p) p) else p)).

Lemma one_upd_field {B} (g : PCB -> B) idx f s s' j :
  (forall p, g p = g (pcb_core p)) -> one_upd idx f s s' -> 0 <= j < MAX_PROCESSES ->
  g (proc s' j) = if j =? idx then g (f (proc s j)) else g (proc s j).
Proof.
  intros Hg Hu Hj. rewrite Hg, (ou_core _ _ _ _ Hu), <- Hg by done. by case_if.
Qed.

Lemma one_upd_frame_l idx f s s1 s2 :
  (forall p q, pcb_core p = pcb_core q -> pcb_core (f p) = pcb_core (f q)) ->
  rq_frame s s1 -> one_upd idx f s1 s2 -> one_upd idx f s s2.
Proof.
  intros Hf [? ? ? ? Hc1] [? ? ? Hc2]. split; try congruence. intros j Hj.
  rewrite Hc2 by done. case_if; [by apply Hf|done].
Qed.

Lemma one_upd_frame_r idx f s s1 s2 :
  one_upd idx f s s1 -> rq_frame s1 s2 -> one_upd idx f s s2.
Proof.
  intros [? ? ? Hc1] [? ? ? ? Hc2]. split; try congruence. intros j Hj. rewrite Hc2. auto.
Qed.

Lemma one_upd_upd idx f s :
  sized s -> 0 <= idx < MAX_PROCESSES -> one_upd idx f s (upd_proc idx f s).
Proof. intros. split; try done. intros j Hj. by rewrite proc_upd. Qed.

Lemma one_upd_trans idx f g s s1 s2 :
  (forall p q, pcb_core p = pcb_core q -> pcb_core (g p) = pcb_core (g q)) ->
  one_upd idx f s s1 -> one_upd idx g s1 s2 -> one_upd idx (fun p => g (f p)) s s2.
Proof.
  intros Hg [? ? ? Hc1] [? ? ? Hc2]. split; try congruence. intros j Hj.
  rewrite Hc2 by done. specialize (Hc1 j Hj). case_if; [by apply Hg|done].
Qed.

Lemma one_upd_resched idx f s s' v :
  one_upd idx f s s' -> one_upd idx f s (set_need_resched v s').
Proof. by intros []. Qed.

(** [pcb_core] forgets the two queue fields, which no setter reads. *)
Lemma pcb_core_eq p q : pcb_core p = pcb_core q ->
  pid p = pid q /\ parent_pid p = parent_pid q /\ name p = name q /\ state p = state q /\
  priority p = priority q /\ effective_priority p = effective_priority q /\
  quantums_left p = quantums_left q /\ ready_wait_ticks p = ready_wait_ticks q /\
  rsp p = rsp q /\ stack_base p = stack_base q /\ foreground p = foreground q /\
  waiting_for p = waiting_for q /\ exit_status p = exit_status q /\ fds p = fds q.
Proof. destruct p, q. unfold pcb_core, set_ready_next, set_in_ready_queue. simpl. intros [=]. subst. tauto. Qed.

Lemma pcb_core_intro p q :
  pid p = pid q -> parent_pid p = parent_pid q -> name p = name q -> state p = state q ->
  priority p = priority q -> effective_priority p = effective_priority q ->
  quantums_left p = quantums_left q -> ready_wait_ticks p = ready_wait_ticks q ->
  rsp p = rsp q -> stack_base p = stack_base q -> foreground p = foreground q ->
  waiting_for p = waiting_for q -> exit_status p = exit_status q -> fds p = fds q ->
  pcb_core p = pcb_core q.
Proof. destruct p, q. unfold pcb_core, set_ready_next, set_in_ready_queue. simpl. intros. by subst. Qed.

(** Solves [pcb_core (f p) = pcb_core (f q)] from [pcb_core p = pcb_core q]. *)
Ltac core_tac :=
  intros; repeat match goal with H : pcb_core ?p = pcb_core ?q |- _ =>
    apply pcb_core_eq in H; simpl in H; destr_and end;
  apply pcb_core_intro; simpl; repeat case_if; simpl; congruence.

(** ** [make_ready] *)

Lemma make_ready_skip s idx b :
  ~ (slot idx /\ state (proc s idx) <> PROCESS_DEAD /\ state (proc s idx) <> PROCESS_ZOMBIE) ->
  make_ready idx b s = s.
Proof.
  intros H. unfold make_ready. case_if; [done|]. destruct H.
  rewrite !orb_false_iff in Heqb0. unfold state_is in *. destr_and.
  split_and!; [slia|by apply is_state_neg..].
Qed.

(** ** Moving an entry to the level of its new priority

    [remove_from_ready_queue], a change of fields and [enqueue_ready_queue], in
    this order: the steps that [make_ready], the aging pass and
    [scheduler_nice] share. *)
Lemma requeue_spec s Q idx f :
  ready_rep s Q -> slot idx ->
  (forall p, in_ready_queue (f p) = in_ready_queue p) ->
  (forall p q, pcb_core p = pcb_core q -> pcb_core (f p) = pcb_core (f q)) ->
  let s' := enqueue_ready_queue idx (upd_proc idx f (remove_from_ready_queue idx s)) in
  ready_rep s' (rq_append (priority_queue_index (effective_priority (f (proc s idx)))) idx (rq_remove idx Q)) /\
  one_upd idx f s s' /\
  (forall j, 0 <= j -> ctrue (in_ready_queue (proc s' j)) = ctrue (in_ready_queue (proc s j)) || (j =? idx)) /\
  need_resched s' = need_resched s.
Proof.
  intros Hrep Hslot Hq Hc. cbv zeta.
  pose proof (remove_rep s Q idx Hrep) as Hrep1. pose proof (remove_frame s idx) as Hf1.
  assert (forall j, 0 <= j -> ctrue (in_ready_queue (proc (remove_from_ready_queue idx s) j))
     = ctrue (in_ready_queue (proc s j)) && negb (j =? idx)) as Hfl1.
  { intros j Hj. rewrite (remove_flag s Q) by done. slia. }
  set (s1 := remove_from_ready_queue idx s) in *. clearbody s1. pose proof (rr_sized _ _ Hrep1) as Hs1.
  assert (ctrue (in_ready_queue (f (proc s1 idx))) = false) as Hout by (rewrite Hq, Hfl1 by slia; slia).
  assert (ready_rep (upd_proc idx f s1) (rq_remove idx Q)) as Hrep2.
  { apply (rr_upd_out s1 _ Hrep1); [|done]. by rewrite Hq in Hout. }
  assert (one_upd idx f s (upd_proc idx f s1)) as Hu.
  { eapply one_upd_frame_l; [done|done|]. apply one_upd_upd; [done|slia]. }
  assert (effective_priority (proc (upd_proc idx f s1) idx) = effective_priority (f (proc s idx))) as He.
  { rewrite (one_upd_field effective_priority _ _ _ _ _ (fun _ => eq_refl) Hu) by slia. by rewrite Z.eqb_refl. }
  split_and!.
  - rewrite <- He. apply (enqueue_rep _ _ Hrep2); [done|]. by rewrite proc_upd_eq by (done || slia).
  - eapply one_upd_frame_r; [done|apply enqueue_frame].
  - intros j Hj. rewrite (enqueue_flag _ _ _ _ Hrep2), proc_upd by (done || slia).
    case_if; [slia|]. rewrite Hfl1 by done. slia.
  - rewrite (rf_resched _ _ (enqueue_frame _ idx)). apply (rf_resched _ _ Hf1).
Qed.

Section MakeReady.
Context (s : Sched) (Q : Z -> list Z) (Hrep : ready_rep s Q) (idx : Z) (b : bool).
Hypothesis (Hslot : slot idx) (Hdead : state (proc s idx) <> PROCESS_DEAD)
  (Hzombie : state (proc s idx) <> PROCESS_ZOMBIE).

Lemma make_ready_spec :
  ready_rep (make_ready idx b s)
    (rq_append (priority_queue_index (effective_priority (ready_entry b (proc s idx)))) idx
       (rq_remove idx Q)) /\
  one_upd idx (ready_entry b) s (make_ready idx b s) /\
  (forall j, 0 <= j -> ctrue (in_ready_queue (proc (make_ready idx b s) j)) =
     ctrue (in_ready_queue (proc s j)) || (j =? idx)).
Proof.
  unfold make_ready. case_if.
  { exfalso. rewrite !orb_true_iff in Heqb0. rewrite !state_is_spec in Heqb0.
    destruct Heqb0 as [[[?|?]|?]|?]; [slia|slia|done|done]. }
  clear Heqb0.
  set (s1 := if ctrue (in_ready_queue (proc s idx)) then _ else _).
  assert (s1 = remove_from_ready_queue idx s) as ->.
  { unfold s1. case_if; [done|]. rewrite remove_skip; [done|]. intros [_ ?]. congruence. }
  set (s2 := upd_proc idx (set_quantums_left _) _).
  assert (s2 = upd_proc idx (ready_entry b) (remove_from_ready_queue idx s)) as ->.
  { unfold s2, ready_entry. destruct b; by rewrite !upd_proc_upd. }
  destruct (requeue_spec s Q idx (ready_entry b) Hrep Hslot) as (Hr & Hu & Hfl & _).
  { intros p. unfold ready_entry. by destruct b. }
  { unfold ready_entry. destruct b; core_tac. }
  case_if; [|done]. split_and!; [|by apply one_upd_resched|done]. by destruct Hr; split.
Qed.

End MakeReady.

(** ** Aging *)

(** Whether aging moves entry [x] to the next level. *)
Definition promoted (s : Sched) (x : Z) : bool :=
  ctrue (in_ready_queue (proc s x)) && state_is s x PROCESS_READY &&
  (ready_wait_ticks (proc s x) + 1 >=? AGING_THRESHOLD_TICKS) &&
  (effective_priority (proc s x) <? PROCESS_PRIORITY_MAX).

(** An entry after one round of aging. *)
Definition age_entry (p : PCB) : PCB :=
  if ctrue (in_ready_queue p) && is_state (state p) PROCESS_READY then
    if (ready_wait_ticks p + 1 >=? AGING_THRESHOLD_TICKS) && (effective_priority p <? PROCESS_PRIORITY_MAX)
    then set_ready_wait_ticks 0 (set_effective_priority (effective_priority p + 1) p)
    else set_ready_wait_ticks (ready_wait_ticks p + 1) p
  else p.

(** The level of an entry. *)
Definition level (s : Sched) (x : Z) : Z := priority_queue_index (effective_priority (proc s x)).

(** The queues when the entries below [i] have been aged: level [q] keeps, in
    order, what is not promoted and receives at its end, in table order, what
    is promoted from level [q - 1]. *)
Definition rq_aged (s : Sched) (i : Z) (Q : Z -> list Z) : Z -> list Z := fun q =>
  filter (fun x => ~ (x < i /\ promoted s x = true)) (Q q) ++
  filter (fun x => promoted s x = true /\ level s x + 1 = q) (seqZ 1 (i - 1)).

(** Effective priorities of queued entries are valid. *)
Definition queued_prio_ok (s : Sched) : Prop :=
  forall i, slot i -> ctrue (in_ready_queue (proc s i)) = true ->
    PROCESS_PRIORITY_MIN <= effective_priority (proc s i) <= PROCESS_PRIORITY_MAX.

Lemma age_process_spec s Q idx :
  ready_rep s Q -> slot idx ->
  ready_rep (age_process s idx)
    (if promoted s idx
     then rq_append (priority_queue_index (effective_priority (proc s idx) + 1)) idx (rq_remove idx Q)
     else Q) /\
  one_upd idx age_entry s (age_process s idx) /\
  (forall j, 0 <= j -> ctrue (in_ready_queue (proc (age_process s idx) j)) =
     ctrue (in_ready_queue (proc s j))) /\
  need_resched (age_process s idx) = need_resched s.
Proof.
  intros Hrep Hslot. pose proof (rr_sized _ _ Hrep) as Hs.
  assert (forall f s', one_upd idx f s s' -> f (proc s idx) = age_entry (proc s idx) -> one_upd idx age_entry s s') as Hext.
  { intros f s' [? ? ? Hc] E. split; try done. intros j Hj. rewrite Hc by done.
    case_if; [|done]. replace j with idx by lia. by rewrite E. }
  unfold age_process, promoted. unfold age_entry in Hext. unfold state_is in *.
  destruct (ctrue (in_ready_queue (proc s idx)) && is_state (state (proc s idx)) PROCESS_READY) eqn:E.
  2:{ rewrite <- negb_andb, E. cbn [negb andb]. split_and!; try done. apply (Hext (fun p => p)); [|done].
      split; try done. intros j Hj. by case_if. }
  rewrite <- negb_andb, E. cbn [negb andb].
  set (inc := fun p => set_ready_wait_ticks (ready_wait_ticks p + 1) p) in *.
  assert (ready_rep (upd_proc idx inc s) Q) as Hrep1 by (apply rr_upd_proc; done).
  assert (one_upd idx inc s (upd_proc idx inc s)) as Hu1 by (apply one_upd_upd; [done|slia]).
  assert (forall j, in_ready_queue (proc (upd_proc idx inc s) j) = in_ready_queue (proc s j)) as Hfl1
    by (intros; by apply proc_upd_field).
  assert (proc (upd_proc idx inc s) idx = inc (proc s idx)) as Hp1 by (rewrite proc_upd_eq by (done || slia); done).
  rewrite Hp1. cbn [inc ready_wait_ticks effective_priority set_ready_wait_ticks].
  destruct ((ready_wait_ticks (proc s idx) + 1 >=? AGING_THRESHOLD_TICKS) &&
            (effective_priority (proc s idx) <? PROCESS_PRIORITY_MAX)) eqn:Ep.
  - rewrite upd_proc_upd.
    set (up := fun p => set_ready_wait_ticks 0 (set_effective_priority (effective_priority p + 1) p)).
    destruct (requeue_spec _ Q idx up Hrep1 Hslot) as (Hr & Hu & Hfl & Hn); [done|unfold up; core_tac|].
    rewrite Hp1 in Hr. split_and!; [exact Hr| | |exact Hn].
    + eapply Hext; [eapply (one_upd_trans idx inc up); [unfold up; core_tac|exact Hu1|exact Hu]|done].
    + intros j Hj. rewrite Hfl, Hfl1 by done.
      destruct (Z.eqb_spec j idx) as [->|]; [|by rewrite orb_false_r]. apply andb_true_iff in E as [-> _]. done.
  - split_and!; [done|by eapply Hext|by intros; rewrite Hfl1|done].
Qed.

Lemma promoted_ext s s' i :
  pcb_core (proc s' i) = pcb_core (proc s i) ->
  ctrue (in_ready_queue (proc s' i)) = ctrue (in_ready_queue (proc s i)) ->
  promoted s' i = promoted s i.
Proof.
  intros Hc Hf. apply pcb_core_eq in Hc; destr_and. unfold promoted, state_is. congruence.
Qed.

Lemma age_entry_ext p p' :
  pcb_core p' = pcb_core p -> ctrue (in_ready_queue p') = ctrue (in_ready_queue p) ->
  pcb_core (age_entry p') = pcb_core (age_entry p).
Proof.
  intros Hc Hf. pose proof Hc as Hc'. apply pcb_core_eq in Hc'; destr_and. unfold age_entry.
  replace (state p') with (state p). rewrite Hf. case_if; [|done].
  replace (ready_wait_ticks p') with (ready_wait_ticks p).
  replace (effective_priority p') with (effective_priority p). case_if; core_tac.
Qed.

(** Aging entry [i] turns the queues aged below [i] into those aged below [i + 1]. *)
Lemma rq_aged_step s Q i :
  slot i -> queued_prio_ok s ->
  rq_equiv
    (if promoted s i
     then rq_append (priority_queue_index (effective_priority (proc s i) + 1)) i
            (rq_remove i (rq_aged s i Q))
     else rq_aged s i Q)
    (rq_aged s (i + 1) Q).
Proof.
  intros Hi Hprio q Hq. unfold rq_append, rq_remove, rq_aged, fupd.
  replace (i + 1 - 1) with ((i - 1) + 1) by lia.
  rewrite (seqZ_snoc 1 (i - 1)) by slia. rewrite (list.filter_app _ (seqZ 1 (i - 1))).
  replace (1 + (i - 1)) with i by lia.
  destruct (promoted s i) eqn:Hp.
  - assert (priority_queue_index (effective_priority (proc s i) + 1) = level s i + 1) as El.
    { unfold promoted in Hp. specialize (Hprio i Hi). unfold level.
      rewrite !priority_queue_index_id by slia. slia. }
    rewrite El.
    assert (filter (fun x => x <> i) (filter (fun x => ~ (x < i /\ promoted s x = true)) (Q q)) =
            filter (fun x => ~ (x < i + 1 /\ promoted s x = true)) (Q q)) as EA.
    { rewrite list_filter_filter. apply filter_in_iff. intros x _.
      destruct (decide (x = i)) as [->|]; [lia|]. split; intros; lia. }
    assert (forall P `{forall x, Decision (P x)}, filter (fun x => x <> i) (filter P (seqZ 1 (i - 1))) =
            filter P (seqZ 1 (i - 1))) as EB.
    { intros P HP. apply filter_ne_id. rewrite list_elem_of_filter, elem_of_seqZ. lia. }
    destruct (Z.eqb_spec q (level s i + 1)) as [->|Hne].
    + rewrite list.filter_app, EA, EB, (filter_cons_True _ i []) by done. by rewrite filter_nil, app_assoc.
    + rewrite list.filter_app, EA, EB, (filter_cons_False _ i []) by (intros [_ ?]; lia).
      by rewrite filter_nil, app_nil_r.
  - rewrite (filter_cons_False _ i []) by (intros [? _]; congruence).
    rewrite filter_nil, app_nil_r. f_equal.
    apply filter_in_iff. intros x _. destruct (decide (x = i)) as [->|]; [|split; intros; lia].
    rewrite Hp. split; intros; naive_solver.
Qed.

(** The aging loop: the queues and every entry after one round. *)
Lemma age_ready_processes_spec s Q :
  ready_rep s Q -> queued_prio_ok s ->
  let s' := age_ready_processes s in
  ready_rep s' (rq_aged s MAX_PROCESSES Q) /\
  process_count s' = process_count s /\ current_idx s' = current_idx s /\
  next_pid s' = next_pid s /\ need_resched s' = need_resched s /\
  (forall j, 0 <= j < MAX_PROCESSES ->
     pcb_core (proc s' j) = pcb_core (if j =? 0 then proc s j else age_entry (proc s j)) /\
     ctrue (in_ready_queue (proc s' j)) = ctrue (in_ready_queue (proc s j))).
Proof.
  intros Hrep Hprio s'.
  set (I := fun i s' => ready_rep s' (rq_aged s i Q) /\
    process_count s' = process_count s /\ current_idx s' = current_idx s /\
    next_pid s' = next_pid s /\ need_resched s' = need_resched s /\
    (forall j, 0 <= j < MAX_PROCESSES ->
       pcb_core (proc s' j) = pcb_core (if (0 <? j) && (j <? i) then age_entry (proc s j) else proc s j) /\
       ctrue (in_ready_queue (proc s' j)) = ctrue (in_ready_queue (proc s j)))).
  assert (I (1 + (MAX_PROCESSES - 1)) s') as (H1 & H2 & H3 & H4 & H5 & H6).
  { apply (for_loop_ind I); [slia|..].
    - unfold I. split_and!; try done.
      + enough (rq_equiv (rq_aged s 1 Q) Q) as -> by done.
        intros q Hq. unfold rq_aged. simpl. rewrite app_nil_r. apply filter_in_id.
        intros x Hx [Hx1 _]. apply (rr_slot _ _ Hrep q _ Hq) in Hx. slia.
      + intros j Hj. split; [|done]. by replace ((0 <? j) && (j <? 1)) with false by lia.
    - intros i s1 Hi (Hr1 & Hc1 & Hcu1 & Hn1 & Hnr1 & Hp1). unfold I.
      assert (slot i) as Hsi by slia.
      destruct (Hp1 i ltac:(slia)) as [Hci Hfi]. replace ((0 <? i) && (i <? i)) with false in Hci by lia.
      destruct (age_process_spec s1 _ i Hr1 Hsi) as (Hr2 & Hu & Hf2 & Hnr2).
      destruct Hu as [Hu1 Hu2 Hu3 Hu4].
      split_and!; try congruence.
      + rewrite <- rq_aged_step by done. rewrite <- (promoted_ext s s1) by done.
        replace (effective_priority (proc s i)) with (effective_priority (proc s1 i)) by
          (apply pcb_core_eq in Hci; tauto). done.
      + intros j Hj. destruct (Hp1 j Hj) as [Hcj Hfj]. rewrite Hf2 by lia. split; [|done].
        rewrite Hu4 by done. destruct (Z.eqb_spec j i) as [->|Hne].
        * replace ((0 <? i) && (i <? i + 1)) with true by lia. by apply age_entry_ext.
        * rewrite Hcj. f_equal. replace (j <? i + 1) with (j <? i) by lia. done. }
  replace (1 + (MAX_PROCESSES - 1)) with MAX_PROCESSES in * by lia.
  split_and!; try done. intros j Hj. destruct (H6 j Hj) as [Hc Hf]. split; [|done]. rewrite Hc.
  f_equal. destruct (Z.eqb_spec j 0) as [->|]; [done|]. by replace ((0 <? j) && (j <? MAX_PROCESSES)) with true by slia.
Qed.

(** ** Dispatch *)

(** The entry that [dequeue_next_ready] hands to the tick. *)
Definition dispatched_entry (p : PCB) : PCB :=
  set_effective_priority (priority p)
    (set_ready_wait_ticks 0 (set_in_ready_queue 0 (set_ready_next READY_NONE p))).

Lemma dequeue_levels_skip s Q prs1 prs2 :
  ready_rep s Q -> Forall (fun pr => Q (priority_queue_index pr) = []) prs1 ->
  dequeue_levels (prs1 ++ prs2) s = dequeue_levels prs2 s.
Proof.
  intros Hrep. induction 1 as [|pr prs1 E _ IH]; [done|]. simpl.
  pose proof (dequeue_spec s Q pr Hrep) as Hd. simpl in Hd. rewrite E in Hd. by rewrite Hd.
Qed.

Lemma priorities_down_split m :
  1 <= m <= 5 -> priorities_down = rev (seqZ (m + 1) (5 - m)) ++ m :: rev (seqZ 1 (m - 1)).
Proof.
  intros Hm. assert (m = 1 \/ m = 2 \/ m = 3 \/ m = 4 \/ m = 5) as E by lia.
  destruct E as [->|[->|[->|[->| ->]]]]; reflexivity.
Qed.

(** The head of the highest non-empty level is dequeued; 0, the idle entry,
    when every level is empty. *)
Lemma dequeue_levels_spec s Q :
  ready_rep s Q ->
  (highest_ready_priority s = 0 /\ dequeue_levels priorities_down s = (0, s)) \/
  (exists x l s', let m := highest_ready_priority s in
     1 <= m <= 5 /\ Q (m - 1) = x :: l /\ (forall r, m - 1 < r < PRIORITY_LEVELS -> Q r = []) /\
     dequeue_levels priorities_down s = (x, s') /\ slot x /\
     ready_rep s' (fupd Q (m - 1) l) /\
     (forall j, proc s' j = if j =? x then dispatched_entry (proc s x) else proc s j) /\
     process_count s' = process_count s /\ current_idx s' = current_idx s /\
     next_pid s' = next_pid s /\ need_resched s' = need_resched s).
Proof.
  intros Hrep. destruct (highest_ready_priority_spec s Q Hrep) as (Hm & H0 & Hpos & Hup).
  assert (forall lo n, 1 <= lo -> lo + n <= 6 -> highest_ready_priority s < lo ->
    Forall (fun pr => Q (priority_queue_index pr) = []) (rev (seqZ lo n))) as Hempty.
  { intros lo n Hlo Hn Hlt. apply Forall_rev, list.Forall_forall. intros pr Hpr%elem_of_seqZ.
    rewrite priority_queue_index_id by slia. apply Hup. slia. }
  destruct (decide (highest_ready_priority s = 0)) as [E|Hne].
  - left. split; [done|]. rewrite <- (app_nil_r priorities_down).
    apply (dequeue_levels_skip s Q priorities_down []); [done|]. apply Hempty; slia.
  - right. set (m := highest_ready_priority s) in *.
    assert (priority_queue_index m = m - 1) as Em by (rewrite priority_queue_index_id; slia).
    destruct (Q (m - 1)) as [|x l] eqn:E; [exfalso; apply Hpos; [slia|exact E]|].
    pose proof (dequeue_spec s Q m Hrep) as Hd. simpl in Hd. rewrite Em, E in Hd.
    destruct Hd as (s' & Hd & Hx & Hr & Hp & Hc1 & Hc2 & Hc3 & Hc4).
    pose proof (rr_sized _ _ Hr) as Hs'.
    exists x, l, (upd_proc x (fun p => set_effective_priority (priority p) p) s').
    split_and!; try done; try slia.
    + intros r Hr'. replace r with ((r + 1) - PROCESS_PRIORITY_MIN) by slia. apply Hup. slia.
    + rewrite (priorities_down_split m) by slia.
      rewrite (dequeue_levels_skip s Q) by (try done; apply Hempty; lia). simpl. rewrite Hd.
      replace (x =? READY_NONE) with false by slia. done.
    + apply (rr_upd_out s' _ Hr); rewrite Hp, Z.eqb_refl; done.
    + intros j. rewrite proc_upd, Hp by (done || slia). unfold dispatched_entry. by case_if.
Qed.

(** ** The scheduler invariant *)

Definition live (s : Sched) (i : Z) : Prop := state (proc s i) <> PROCESS_DEAD.

#[export] Instance live_dec s i : Decision (live s i).
Proof. unfold live. apply _. Defined.

(** The number of table entries in use. *)
Definition live_count (s : Sched) : Z :=
  Z.of_nat (length (filter (live s) (seqZ 0 MAX_PROCESSES))).

(** The flag [in_ready_queue] and the state READY agree, except that an entry
    of [X] may be READY and not queued. *)
Definition flag_ok (X : Z -> Prop) (i : Z) (flag : bool) (st : ProcState) : Prop :=
  (flag = true -> st = PROCESS_READY) /\ (st = PROCESS_READY -> flag = true \/ X i).

Definition ready_ok (X : Z -> Prop) (s : Sched) (i : Z) : Prop :=
  flag_ok X i (ctrue (in_ready_queue (proc s i))) (state (proc s i)).

Lemma flag_ok_iff X i b st : (b = true <-> st = PROCESS_READY) -> flag_ok X i b st.
Proof. unfold flag_ok. tauto. Qed.

(** The invariant, up to the exceptions [X].  Between operations there is no
    exception; while [scheduler_kill] takes a process apart, that process is
    one. *)
Record sched_inv_ex (X : Z -> Prop) (s : Sched) : Prop := {
  (** the queue links are well formed *)
  si_rep : exists Q, ready_rep s Q;
  (** exactly the READY processes are queued *)
  si_ready i : slot i -> ready_ok X s i;
  (** entry 0 is the idle process, never queued, never finished *)
  si_idle : pid (proc s 0) = 0 /\ ctrue (in_ready_queue (proc s 0)) = false /\
    (state (proc s 0) = PROCESS_RUNNING \/ state (proc s 0) = PROCESS_BLOCKED);
  (** the current index is in the table, and at most one process runs *)
  si_current : 0 <= current_idx s < MAX_PROCESSES;
  si_running i : slot i -> state (proc s i) = PROCESS_RUNNING -> i = current_idx s;
  (** priorities and waiting times of the live processes are valid *)
  si_prio i : slot i -> live s i ->
    PROCESS_PRIORITY_MIN <= priority (proc s i) <= PROCESS_PRIORITY_MAX /\
    PROCESS_PRIORITY_MIN <= effective_priority (proc s i) <= PROCESS_PRIORITY_MAX /\
    0 <= ready_wait_ticks (proc s i);
  (** pids identify the live processes, and [next_pid] is fresh *)
  si_unique i j : 0 <= i < MAX_PROCESSES -> 0 <= j < MAX_PROCESSES ->
    live s i -> live s j -> pid (proc s i) = pid (proc s j) -> i = j;
  si_fresh i : slot i -> live s i -> 0 < pid (proc s i) < next_pid s;
  si_next : 0 < next_pid s;
  (** [process_count] counts the live processes *)
  si_count : process_count s = live_count s;
  (** no process has more than one quantum *)
  si_quantum i : 0 <= i < MAX_PROCESSES -> quantums_left (proc s i) <= DEFAULT_QUANTUM
}.

Arguments si_rep {X} s.
Arguments si_ready {X} s.
Arguments si_idle {X} s.
Arguments si_current {X} s.
Arguments si_running {X} s.
Arguments si_prio {X} s.
Arguments si_unique {X} s.
Arguments si_fresh {X} s.
Arguments si_next {X} s.
Arguments si_count {X} s.
Arguments si_quantum {X} s.

(** ** Preservation of the invariant *)

Section Invariant.
Context {X : Z -> Prop}.
Local Notation sched_inv := (sched_inv_ex X).

Lemma live_count_ext s s' :
  (forall i, 0 <= i < MAX_PROCESSES -> live s' i <-> live s i) -> live_count s' = live_count s.
Proof.
  intros H. unfold live_count. do 2 f_equal. apply filter_in_iff.
  intros i Hi%elem_of_seqZ. apply H. lia.
Qed.

(** Operations that neither create nor finish a process. *)
Lemma sched_inv_change s s' :
  sched_inv s -> (exists Q, ready_rep s' Q) ->
  process_count s' = process_count s -> next_pid s' = next_pid s ->
  0 <= current_idx s' < MAX_PROCESSES ->
  (forall i, 0 <= i < MAX_PROCESSES ->
     pid (proc s' i) = pid (proc s i) /\ (live s' i <-> live s i) /\
     quantums_left (proc s' i) <= DEFAULT_QUANTUM) ->
  (forall i, slot i -> live s' i ->
     PROCESS_PRIORITY_MIN <= priority (proc s' i) <= PROCESS_PRIORITY_MAX /\
     PROCESS_PRIORITY_MIN <= effective_priority (proc s' i) <= PROCESS_PRIORITY_MAX /\
     0 <= ready_wait_ticks (proc s' i)) ->
  (forall i, slot i -> ready_ok X s' i) ->
  (forall i, slot i -> state (proc s' i) = PROCESS_RUNNING -> i = current_idx s') ->
  ctrue (in_ready_queue (proc s' 0)) = false ->
  (state (proc s' 0) = PROCESS_RUNNING \/ state (proc s' 0) = PROCESS_BLOCKED) ->
  sched_inv s'.
Proof.
  intros Hinv Hrep Hcount Hnext Hcur Hpid Hprio Hready Hrun Hidle1 Hidle2.
  assert (forall i, slot i -> 0 <= i < MAX_PROCESSES) as Hslot by (intros; slia).
  split; try done.
  - split_and!; try done. destruct (Hpid 0 ltac:(slia)) as [-> _]. apply Hinv.
  - intros i j Hi Hj Hli Hlj Heq.
    destruct (Hpid i Hi) as (Ei & Li & _), (Hpid j Hj) as (Ej & Lj & _).
    apply (si_unique _ Hinv i j); try done; [by apply Li|by apply Lj|congruence].
  - intros i Hi Hl. destruct (Hpid i (Hslot i Hi)) as (E & L & _).
    rewrite E, Hnext. apply (si_fresh _ Hinv); [done|by apply L].
  - rewrite Hnext. apply Hinv.
  - rewrite Hcount, (si_count _ Hinv). symmetry. apply live_count_ext.
    intros i Hi. by destruct (Hpid i Hi) as (_ & ? & _).
  - intros i Hi. by destruct (Hpid i Hi) as (_ & _ & ?).
Qed.

(** The same for a change of one entry. *)
Lemma sched_inv_one_upd s s' idx f :
  sched_inv s -> one_upd idx f s s' -> (exists Q, ready_rep s' Q) ->
  0 <= idx < MAX_PROCESSES ->
  let p := f (proc s idx) in
  pid p = pid (proc s idx) -> (state p <> PROCESS_DEAD <-> live s idx) ->
  quantums_left p <= DEFAULT_QUANTUM ->
  (slot idx -> live s idx -> PROCESS_PRIORITY_MIN <= priority p <= PROCESS_PRIORITY_MAX /\
     PROCESS_PRIORITY_MIN <= effective_priority p <= PROCESS_PRIORITY_MAX /\
     0 <= ready_wait_ticks p) ->
  (forall j, 0 <= j < MAX_PROCESSES -> j <> idx ->
     ctrue (in_ready_queue (proc s' j)) = ctrue (in_ready_queue (proc s j))) ->
  (slot idx -> flag_ok X idx (ctrue (in_ready_queue (proc s' idx))) (state p)) ->
  (slot idx -> state p = PROCESS_RUNNING -> idx = current_idx s) ->
  (idx = 0 -> ctrue (in_ready_queue (proc s' 0)) = false /\
     (state p = PROCESS_RUNNING \/ state p = PROCESS_BLOCKED)) ->
  sched_inv s'.
Proof.
  intros Hinv Hu Hrep Hidx p Hpid Hlive Hq Hprio Hflag Hflagi Hrun Hidle.
  assert (forall B (g : PCB -> B), (forall q, g q = g (pcb_core q)) -> forall j, 0 <= j < MAX_PROCESSES ->
    g (proc s' j) = if j =? idx then g (f (proc s j)) else g (proc s j)) as Hg
    by (intros; by apply (one_upd_field g idx f)).
  apply (sched_inv_change s s'); try done; try (by apply Hu).
  - rewrite (ou_current _ _ _ _ Hu). apply Hinv.
  - intros i Hi. unfold live. rewrite (Hg _ pid), (Hg _ state), (Hg _ quantums_left) by done.
    destruct (Z.eqb_spec i idx) as [->|]; [done|]. split_and!; try done. by apply Hinv.
  - intros i Hi. unfold live. rewrite (Hg _ priority), (Hg _ state), (Hg _ effective_priority), (Hg _ ready_wait_ticks) by (done || slia).
    destruct (Z.eqb_spec i idx) as [->|]; [|by apply Hinv]. intros Hl. apply Hprio; [done|by apply Hlive].
  - intros i Hi. unfold ready_ok. rewrite (Hg _ state) by (done || slia).
    destruct (Z.eqb_spec i idx) as [->|]; [auto|]. rewrite Hflag by (done || slia). by apply Hinv.
  - intros i Hi. rewrite (Hg _ state), (ou_current _ _ _ _ Hu) by (done || slia).
    destruct (Z.eqb_spec i idx) as [->|]; [auto|]. by apply Hinv.
  - destruct (decide (idx = 0)) as [->|]; [by apply Hidle|].
    rewrite Hflag by (done || slia). apply Hinv.
  - rewrite (Hg _ state) by (done || slia). destruct (Z.eqb_spec 0 idx) as [<-|]; [by apply Hidle|]. apply Hinv.
Qed.

(** A change of fields that the invariant does not mention. *)
Lemma sched_inv_resched s v : sched_inv s -> sched_inv (set_need_resched v s).
Proof.
  intros Hinv. destruct (si_rep _ Hinv) as [Q Hrep].
  apply (sched_inv_change s); try done; try (by apply Hinv).
  - exists Q. by destruct Hrep; split.
  - intros. split_and!; try done. by apply Hinv.
Qed.

Lemma make_ready_inv s idx b : sched_inv s -> sched_inv (make_ready idx b s).
Proof.
  intros Hinv. destruct (si_rep _ Hinv) as [Q Hrep].
  destruct (decide (slot idx /\ state (proc s idx) <> PROCESS_DEAD /\ state (proc s idx) <> PROCESS_ZOMBIE))
    as [(Hi & Hd & Hz)|Hno]; [|by rewrite make_ready_skip].
  destruct (make_ready_spec s Q Hrep idx b Hi Hd Hz) as (Hr & Hu & Hf).
  pose proof (si_prio _ Hinv idx Hi Hd) as Hp.
  eapply (sched_inv_one_upd s _ idx (ready_entry b)); try done; eauto; try slia.
  - unfold ready_entry. by destruct b.
  - intros _ _. unfold ready_entry. destruct b; simpl; slia.
  - intros j Hj Hne. rewrite Hf by lia. lia.
  - intros _. apply flag_ok_iff. rewrite Hf by slia. simpl. rewrite Z.eqb_refl, orb_true_r. done.
Qed.

Lemma scheduler_unblock_inv s p : sched_inv s -> sched_inv (scheduler_unblock p s).
Proof. intros Hinv. unfold scheduler_unblock. case_if; [done|by apply make_ready_inv]. Qed.

(** Dropping an entry from the queues and giving it a state other than READY. *)
Lemma remove_upd_inv s idx f :
  sched_inv s -> 0 <= idx < MAX_PROCESSES ->
  (forall p, ctrue (in_ready_queue (f p)) = ctrue (in_ready_queue p)) ->
  (forall p, ready_next (f p) = ready_next p) ->
  (forall p q, pcb_core p = pcb_core q -> pcb_core (f p) = pcb_core (f q)) ->
  (forall p, pid (f p) = pid p /\ (quantums_left p <= DEFAULT_QUANTUM -> quantums_left (f p) <= DEFAULT_QUANTUM) /\
     priority (f p) = priority p /\ effective_priority (f p) = effective_priority p /\
     ready_wait_ticks (f p) = ready_wait_ticks p /\ state (f p) = PROCESS_BLOCKED) ->
  live s idx ->
  sched_inv (upd_proc idx f (remove_from_ready_queue idx s)).
Proof.
  intros Hinv Hi Hfl Hnx Hcore Hf Hl. destruct (si_rep _ Hinv) as [Q Hrep].
  pose proof (remove_rep s Q idx Hrep) as Hrep1. pose proof (remove_frame s idx) as Hfr.
  set (s1 := remove_from_ready_queue idx s) in *.
  assert (forall j, 0 <= j < MAX_PROCESSES -> ctrue (in_ready_queue (proc s1 j)) =
     ctrue (in_ready_queue (proc s j)) && negb ((j =? idx) && (0 <? idx))) as Hflag.
  { intros j Hj. unfold s1. rewrite (remove_flag s Q) by (done || lia). slia. }
  assert (ctrue (in_ready_queue (proc s1 idx)) = false) as Hout.
  { rewrite Hflag by done. destruct (decide (idx = 0)) as [->|]; [|slia].
    destruct (si_idle _ Hinv) as (_ & -> & _). done. }
  pose proof (rr_sized _ _ Hrep1) as Hs1.
  assert (one_upd idx f s (upd_proc idx f s1)) as Hu.
  { eapply one_upd_frame_l; [done|done|]. by apply one_upd_upd. }
  destruct (Hf (proc s idx)) as (Hpid & Hqu & Hpr & Hef & Hwt & Hst).
  eapply (sched_inv_one_upd s _ idx f); try done.
  - exists (rq_remove idx Q). apply (rr_upd_out s1 _ Hrep1); [done|by rewrite Hfl].
  - rewrite Hst. by unfold live in *.
  - apply Hqu. by apply Hinv.
  - intros Hs Hl'. rewrite Hpr, Hef, Hwt. by apply Hinv.
  - intros j Hj Hne. rewrite proc_upd_ne by done. rewrite Hflag by done. lia.
  - intros Hs. apply flag_ok_iff. rewrite proc_upd_eq, Hfl, Hout, Hst by done. done.
  - rewrite Hst. done.
  - intros ->. rewrite proc_upd_eq, Hfl, Hout, Hst by done. auto.
Qed.

(** ** Lookups by pid *)

Lemma has_pid_spec s p i : has_pid s p i = true <-> pid (proc s i) = p /\ live s i.
Proof.
  unfold has_pid, live, state_is. rewrite andb_true_iff, negb_true_iff, is_state_neg, Z.eqb_eq. done.
Qed.

Lemma find_pid_cases s p :
  (find_idx (has_pid s p) 0 MAX_PROCESSES = -1 /\
   forall i, 0 <= i < MAX_PROCESSES -> ~ (pid (proc s i) = p /\ live s i)) \/
  (exists i, find_idx (has_pid s p) 0 MAX_PROCESSES = i /\ 0 <= i < MAX_PROCESSES /\
     pid (proc s i) = p /\ live s i).
Proof.
  destruct (find_idx_spec (has_pid s p) 0 MAX_PROCESSES) as [[E H]|(E & H & _)]; [slia|slia|left|right].
  - split; [done|]. intros i Hi. rewrite <- has_pid_spec, H by lia. done.
  - apply has_pid_spec in H as []. eexists. split; [done|]. split_and!; try done; lia.
Qed.

(** A pid of a live process is found at its entry. *)
Lemma find_pid_live s i :
  sched_inv s -> 0 <= i < MAX_PROCESSES -> live s i ->
  find_idx (has_pid s (pid (proc s i))) 0 MAX_PROCESSES = i.
Proof.
  intros Hinv Hi Hl. destruct (find_pid_cases s (pid (proc s i))) as [[_ H]|(j & -> & Hj & E & Hlj)].
  - exfalso. by apply (H i).
  - by apply (si_unique _ Hinv).
Qed.

(** [get_process_by_pid] and [find_index_by_pid] are the same search. *)
Lemma get_process_by_pid_eq p s : get_process_by_pid p s = find_index_by_pid p s.
Proof.
  apply find_idx_ext. intros i _. apply andb_comm.
Qed.

(** ** The operations preserve the invariant *)

Lemma scheduler_block_inv s p : sched_inv s -> sched_inv (scheduler_block p s).
Proof.
  intros Hinv. unfold scheduler_block.
  destruct (find_pid_cases s p) as [[-> _]|(i & -> & Hi & _ & Hl)]; [done|].
  case_if; [done|]. clear Heqb. case_if.
  - apply sched_inv_resched. rewrite upd_proc_upd.
    apply remove_upd_inv; try done; try core_tac.
  - apply remove_upd_inv; try done; try core_tac.
Qed.

(** A change of the fields that neither the queues nor the invariant read. *)
Lemma sched_inv_misc s idx f :
  sched_inv s -> 0 <= idx < MAX_PROCESSES ->
  (forall p, ready_next (f p) = ready_next p /\ in_ready_queue (f p) = in_ready_queue p /\
     effective_priority (f p) = effective_priority p /\ priority (f p) = priority p /\
     ready_wait_ticks (f p) = ready_wait_ticks p /\ pid (f p) = pid p /\ state (f p) = state p) ->
  (forall p, quantums_left p <= DEFAULT_QUANTUM -> quantums_left (f p) <= DEFAULT_QUANTUM) ->
  sched_inv (upd_proc idx f s).
Proof.
  intros Hinv Hi Hf Hq. destruct (si_rep _ Hinv) as [Q Hrep].
  assert (forall (g : PCB -> Z), (forall p, g (f p) = g p) -> forall j, g (proc (upd_proc idx f s) j) = g (proc s j)) as Hg
    by (intros; by apply proc_upd_field).
  assert (forall j, state (proc (upd_proc idx f s) j) = state (proc s j)) as Hst
    by (intros; apply proc_upd_field; apply Hf).
  apply (sched_inv_change s); try done.
  - exists Q. apply rr_upd_proc; [done|..]; apply Hf.
  - apply Hinv.
  - intros i Hi'. unfold live. rewrite (Hg pid), Hst by apply Hf. split_and!; try done.
    rewrite proc_upd by (done || apply Hrep). case_if; [apply Hq|]; by apply Hinv.
  - intros i Hi' Hl. unfold live in Hl. rewrite Hst in Hl.
    rewrite (Hg priority), (Hg effective_priority), (Hg ready_wait_ticks) by apply Hf. by apply Hinv.
  - intros i Hi'. unfold ready_ok. rewrite (Hg in_ready_queue), Hst by apply Hf. by apply Hinv.
  - intros i Hi'. rewrite Hst. by apply Hinv.
  - rewrite (Hg in_ready_queue) by apply Hf. apply Hinv.
  - rewrite Hst. apply Hinv.
Qed.

Lemma scheduler_yield_inv s : sched_inv s -> sched_inv (scheduler_yield s).
Proof.
  intros Hinv. unfold scheduler_yield. case_if; [done|]. apply sched_inv_resched.
  apply sched_inv_misc; try done. apply Hinv.
Qed.

Lemma scheduler_nice_inv s p pr : sched_inv s -> sched_inv (scheduler_nice p pr s).2.
Proof.
  intros Hinv. unfold scheduler_nice. case_if; [done|].
  destruct (find_pid_cases s p) as [[-> _]|(i & -> & Hi & _ & Hl)]; [done|].
  case_if; [done|]. cbn [snd]. set (s' := if ctrue _ then enqueue_ready_queue _ _ else _).
  enough (sched_inv s') by (case_if; [by apply sched_inv_resched|done]).
  destruct (si_rep _ Hinv) as [Q Hrep]. unfold s'. clear s'.
  set (f := fun q => set_quantums_left DEFAULT_QUANTUM _).
  assert (forall q, pid (f q) = pid q /\ state (f q) = state q /\ priority (f q) = pr /\
    effective_priority (f q) = pr /\ quantums_left (f q) = DEFAULT_QUANTUM /\
    in_ready_queue (f q) = in_ready_queue q) as Hf by done.
  destruct (ctrue (in_ready_queue (proc s i))) eqn:Hin.
  - assert (slot i) as Hsi.
    { destruct (decide (i = 0)) as [->|]; [|slia]. destruct (si_idle _ Hinv) as (_ & E & _). congruence. }
    destruct (requeue_spec s Q i f Hrep Hsi) as (Hr & Hu & Hfl & _); [done|unfold f; core_tac|].
    assert (forall j, 0 <= j -> ctrue (in_ready_queue (proc (enqueue_ready_queue i
      (upd_proc i f (remove_from_ready_queue i s))) j)) = ctrue (in_ready_queue (proc s j))) as Hfl3.
    { intros j Hj. rewrite Hfl by done. destruct (Z.eqb_spec j i) as [->|]; [by rewrite Hin|by rewrite orb_false_r]. }
    eapply (sched_inv_one_upd s _ i f); try done.
    + eauto.
    + intros _ _. unfold f. simpl. slia.
    + intros j Hj Hne. apply Hfl3. lia.
    + intros _. rewrite Hfl3 by lia. by apply Hinv.
    + intros _. by apply Hinv.
    + intros ->. slia.
  - pose proof (rr_sized _ _ Hrep) as Hs.
    eapply (sched_inv_one_upd s _ i f); try done.
    + by apply one_upd_upd.
    + exists Q. by apply (rr_upd_out s _ Hrep).
    + intros _ _. unfold f. simpl. slia.
    + intros j Hj Hne. by rewrite proc_upd_ne.
    + intros Hsi. rewrite proc_upd_eq by done. by apply Hinv.
    + intros Hsi. by apply Hinv.
    + intros ->. rewrite proc_upd_eq by done. destruct (si_idle _ Hinv) as (_ & ? & ?). done.
Qed.

(** ** Dispatch and the tick *)

Lemma inv_queued_prio s : sched_inv s -> queued_prio_ok s.
Proof.
  intros Hinv i Hi Hin. apply (si_ready _ Hinv) in Hin; [|done].
  apply (si_prio _ Hinv); [done|]. unfold live. congruence.
Qed.

Lemma age_entry_fields p :
  pid (age_entry p) = pid p /\ state (age_entry p) = state p /\
  quantums_left (age_entry p) = quantums_left p /\ priority (age_entry p) = priority p /\
  rsp (age_entry p) = rsp p /\
  (PROCESS_PRIORITY_MIN <= effective_priority p <= PROCESS_PRIORITY_MAX ->
   PROCESS_PRIORITY_MIN <= effective_priority (age_entry p) <= PROCESS_PRIORITY_MAX) /\
  (0 <= ready_wait_ticks p -> 0 <= ready_wait_ticks (age_entry p)).
Proof. unfold age_entry. repeat case_if; simpl; split_and!; try done; slia. Qed.

Lemma age_ready_processes_inv s : sched_inv s -> sched_inv (age_ready_processes s).
Proof.
  intros Hinv. destruct (si_rep _ Hinv) as [Q Hrep].
  destruct (age_ready_processes_spec s Q Hrep (inv_queued_prio s Hinv)) as (Hr & Hc & Hcu & Hn & _ & Hp).
  set (s' := age_ready_processes s) in *. clearbody s'.
  assert (forall j, 0 <= j < MAX_PROCESSES -> state (proc s' j) = state (proc s j) /\
    pid (proc s' j) = pid (proc s j) /\ quantums_left (proc s' j) = quantums_left (proc s j) /\
    priority (proc s' j) = priority (proc s j) /\
    (PROCESS_PRIORITY_MIN <= effective_priority (proc s j) <= PROCESS_PRIORITY_MAX ->
     PROCESS_PRIORITY_MIN <= effective_priority (proc s' j) <= PROCESS_PRIORITY_MAX) /\
    (0 <= ready_wait_ticks (proc s j) -> 0 <= ready_wait_ticks (proc s' j))) as Hfields.
  { intros j Hj. destruct (Hp j Hj) as [Hcj _]. apply pcb_core_eq in Hcj.
    pose proof (age_entry_fields (proc s j)). case_if; intuition congruence. }
  apply (sched_inv_change s); try done; eauto.
  - rewrite Hcu. apply Hinv.
  - intros i Hi. destruct (Hfields i Hi) as (E1 & E2 & E3 & _). unfold live.
    rewrite E1, E2, E3. split_and!; try done. by apply Hinv.
  - intros i Hi Hl. destruct (Hfields i ltac:(slia)) as (E1 & _ & _ & E4 & E5 & E6). unfold live in Hl.
    rewrite E1 in Hl. destruct (si_prio _ Hinv i Hi Hl) as (? & ? & ?). rewrite E4. auto.
  - intros i Hi. unfold ready_ok. destruct (Hp i ltac:(slia)) as [_ ->]. destruct (Hfields i ltac:(slia)) as (-> & _).
    by apply Hinv.
  - intros i Hi. destruct (Hfields i ltac:(slia)) as (-> & _). rewrite Hcu. by apply Hinv.
  - destruct (Hp 0 ltac:(slia)) as [_ ->]. apply Hinv.
  - destruct (Hfields 0 ltac:(slia)) as (-> & _). apply Hinv.
Qed.

(** The entries after a dispatch. *)
Lemma run_next_proc x s j :
  sized s -> 0 <= x < MAX_PROCESSES ->
  proc (run_next x s) j =
  if j =? x then set_quantums_left DEFAULT_QUANTUM (set_state PROCESS_RUNNING (proc s x)) else proc s j.
Proof.
  intros. unfold run_next. rewrite upd_proc_upd. autorewrite with sched.
  rewrite proc_upd by done. case_if; [|done]. by replace j with x by lia.
Qed.

Lemma run_next_rep x s Q : ready_rep s Q -> ready_rep (run_next x s) Q.
Proof.
  intros Hrep. unfold run_next. rewrite upd_proc_upd.
  assert (ready_rep (upd_proc x (fun p => set_quantums_left DEFAULT_QUANTUM (set_state PROCESS_RUNNING p)) s) Q) as Hr
    by (apply rr_upd_proc; done).
  by destruct Hr; split.
Qed.

(** Making entry [x], which the queues no longer hold, the running one. *)
Lemma run_next_inv x s1 s2 :
  sched_inv s1 -> (exists Q, ready_rep s2 Q) -> 0 <= x < MAX_PROCESSES -> live s1 x ->
  (forall j, proc s2 j = if (j =? x) && (0 <? x) then dispatched_entry (proc s1 x) else proc s1 j) ->
  process_count s2 = process_count s1 -> next_pid s2 = next_pid s1 ->
  (forall i, slot i -> state (proc s1 i) <> PROCESS_RUNNING) ->
  sched_inv (run_next x s2).
Proof.
  intros Hinv [Q Hrep] Hx Hl Hp Hc Hn Hnr. pose proof (rr_sized _ _ Hrep) as Hs.
  assert (forall j, proc (run_next x s2) j =
    if j =? x then set_quantums_left DEFAULT_QUANTUM (set_state PROCESS_RUNNING (proc s2 x)) else proc s1 j) as Hp3.
  { intros j. rewrite run_next_proc by done. case_if; [done|]. rewrite Hp. by rewrite Heqb. }
  destruct (si_idle _ Hinv) as (Hi1 & Hi2 & Hi3).
  assert (pid (proc s2 x) = pid (proc s1 x) /\ priority (proc s2 x) = priority (proc s1 x) /\
    (0 < x -> effective_priority (proc s2 x) = priority (proc s1 x) /\ ready_wait_ticks (proc s2 x) = 0) /\
    ctrue (in_ready_queue (proc s2 x)) = false) as (F1 & F2 & F3 & F4).
  { rewrite Hp, Z.eqb_refl. simpl. case_if; [done|]. replace x with 0 by lia. split_and!; done || lia. }
  apply (sched_inv_change s1); try done.
  - exists Q. by apply run_next_rep.
  - intros i Hi. unfold live. rewrite Hp3. case_if; simpl; [|split_and!; [done..|by apply Hinv]].
    replace i with x by lia. split_and!; done.
  - intros i Hi. unfold live. rewrite Hp3. case_if; simpl; [|by apply Hinv]. replace i with x in * by lia.
    intros _. destruct F3 as [F3 F5]; [slia|]. rewrite F2, F3, F5.
    destruct (si_prio _ Hinv x Hi Hl) as (? & ? & ?). done.
  - intros i Hi. unfold ready_ok. rewrite Hp3. case_if; simpl; [|by apply Hinv]. by rewrite F4.
  - intros i Hi. rewrite Hp3. case_if; simpl; [lia|]. intros E. exfalso. by apply (Hnr i).
  - rewrite Hp3. by case_if.
  - rewrite Hp3. case_if; [by left|done].
Qed.

(** What [dequeue_next_ready] selects: the head of the highest non-empty
    level of the aged queues, or the idle entry. *)
Lemma dequeue_next_ready_spec s Q :
  sched_inv s -> ready_rep s Q ->
  exists x s' Q', dequeue_next_ready s = (x, s') /\ 0 <= x < MAX_PROCESSES /\ ready_rep s' Q' /\
    (forall j, proc s' j = if (j =? x) && (0 <? x) then dispatched_entry (proc (age_ready_processes s) x)
                           else proc (age_ready_processes s) j) /\
    process_count s' = process_count s /\ next_pid s' = next_pid s /\
    let A := rq_aged s MAX_PROCESSES Q in
    ((x = 0 /\ rq_equiv Q' A /\ forall q, 0 <= q < PRIORITY_LEVELS -> A q = []) \/
     (slot x /\ exists m l, 0 <= m < PRIORITY_LEVELS /\ A m = x :: l /\
        (forall r, m < r < PRIORITY_LEVELS -> A r = []) /\ Q' = fupd A m l)).
Proof.
  intros Hinv Hrep. unfold dequeue_next_ready.
  destruct (age_ready_processes_spec s Q Hrep (inv_queued_prio s Hinv)) as (Hr1 & Hc1 & _ & Hn1 & _ & _).
  set (s1 := age_ready_processes s) in *. clearbody s1. set (A := rq_aged s MAX_PROCESSES Q) in *.
  destruct (dequeue_levels_spec s1 A Hr1) as [[E0 ->]|(x & l & s2 & Hm & HQ & Hup & -> & Hx & Hr2 & Hp2 & Hc2 & _ & Hn2 & _)].
  - exists 0, s1, A. destruct (highest_ready_priority_spec s1 A Hr1) as (_ & H0 & _).
    split_and!; try done; try slia.
    + intros j. by rewrite andb_false_r.
    + left. split_and!; try done. by apply H0.
  - exists x, s2, (fupd A (highest_ready_priority s1 - 1) l).
    split_and!; try done; try slia; try congruence.
    + intros j. rewrite Hp2. replace (0 <? x) with true by slia. by rewrite andb_true_r.
    + right. split; [done|]. exists (highest_ready_priority s1 - 1), l. split_and!; try done; slia.
Qed.

Lemma dispatch_next_eq s x s' :
  dequeue_next_ready s = (x, s') -> (dispatch_next s).2 = run_next x s'.
Proof. unfold dispatch_next. by intros ->. Qed.

Lemma aged_state s Q j :
  sched_inv s -> ready_rep s Q -> 0 <= j < MAX_PROCESSES ->
  state (proc (age_ready_processes s) j) = state (proc s j).
Proof.
  intros Hinv Hrep Hj.
  destruct (age_ready_processes_spec s Q Hrep (inv_queued_prio s Hinv)) as (_ & _ & _ & _ & _ & Hp).
  destruct (Hp j Hj) as [Hc _]. apply pcb_core_eq in Hc.
  destruct (age_entry_fields (proc s j)) as (_ & E & _). destr_and. case_if; congruence.
Qed.

Lemma dispatch_next_inv s :
  sched_inv s -> (forall i, slot i -> state (proc s i) <> PROCESS_RUNNING) ->
  sched_inv (dispatch_next s).2.
Proof.
  intros Hinv Hnr. destruct (si_rep _ Hinv) as [Q Hrep].
  destruct (dequeue_next_ready_spec s Q Hinv Hrep) as (x & s' & Q' & E & Hx & Hr & Hp & Hc & Hn & Hcase).
  rewrite (dispatch_next_eq _ _ _ E).
  pose proof (age_ready_processes_inv s Hinv) as Hinv1.
  destruct (age_ready_processes_spec s Q Hrep (inv_queued_prio s Hinv)) as (Hr1 & Hc1 & _ & Hn1 & _ & _).
  apply (run_next_inv x (age_ready_processes s)); try done; try congruence; [by exists Q'|..].
  - destruct Hcase as [(-> & _)|(Hsx & m & l & Hm & HA & _)].
    + unfold live. destruct (si_idle _ Hinv1) as (_ & _ & [->| ->]); done.
    + unfold live. assert (state (proc (age_ready_processes s) x) = PROCESS_READY) as ->; [|done].
      apply (si_ready _ Hinv1 x Hsx). eapply (rr_mem _ _ Hr1); [done|]. rewrite HA. by left.
  - intros i Hi. rewrite (aged_state s Q) by (done || slia). by apply Hnr.
Qed.

(** ** The timer tick *)

(** The state in which [scheduler_tick] dispatches: the stack pointer of the
    current process is saved and, if it was running, it is back in its queue. *)
Definition tick_requeue (current_rsp : Z) (s : Sched) : Sched :=
  let s1 := upd_proc (current_idx s) (set_rsp current_rsp) s in
  if state_is s1 (current_idx s) PROCESS_RUNNING then
    let s2 := upd_proc (current_idx s) (fun p => set_quantums_left (quantums_left p - 1) p) s1 in
    if current_idx s >? 0 then make_ready (current_idx s) true s2 else s2
  else s1.

(** The quantum is one tick, so the branch that keeps the current process
    is never taken: every tick dispatches. *)
Lemma tick_dispatches r s :
  sched_inv s -> scheduler_tick r s = dispatch_next (tick_requeue r s).
Proof.
  intros Hinv. pose proof (si_current _ Hinv) as Hc. destruct (si_rep _ Hinv) as [Q Hrep].
  pose proof (rr_sized _ _ Hrep) as Hs.
  unfold scheduler_tick, tick_requeue. replace (current_idx s >=? 0) with true by lia.
  cbn [current_idx upd_proc set_process_table]. fold (upd_proc (current_idx s) (set_rsp r) s).
  set (s1 := upd_proc (current_idx s) (set_rsp r) s).
  destruct (state_is s1 (current_idx s) PROCESS_RUNNING); [|done].
  set (s2 := upd_proc (current_idx s) (fun p => set_quantums_left (quantums_left p - 1) p) s1).
  assert (quantums_left (proc s2 (current_idx s)) <= 0) as Hq.
  { unfold s2, s1. rewrite upd_proc_upd, proc_upd_eq by done. simpl.
    pose proof (si_quantum _ Hinv _ Hc). slia. }
  change (current_idx s1) with (current_idx s). change (current_idx s2) with (current_idx s).
  fold s2. replace (quantums_left (proc s2 (current_idx s)) >? 0) with false by lia.
  by rewrite andb_false_r.
Qed.

Lemma tick_requeue_inv r s :
  sched_inv s -> sched_inv (tick_requeue r s) /\
  (forall i, slot i -> state (proc (tick_requeue r s) i) <> PROCESS_RUNNING).
Proof.
  intros Hinv. pose proof (si_current _ Hinv) as Hc. destruct (si_rep _ Hinv) as [Q Hrep].
  unfold tick_requeue. set (s1 := upd_proc (current_idx s) (set_rsp r) s).
  assert (sched_inv s1) as Hinv1 by (apply sched_inv_misc; done).
  assert (forall i, slot i -> state (proc s1 i) = PROCESS_RUNNING -> i = current_idx s) as Hrun.
  { intros i Hi. replace (current_idx s) with (current_idx s1) by done. by apply Hinv1. }
  case_if.
  2:{ split; [done|]. intros i Hi E. rewrite (Hrun i Hi E) in E. apply state_is_spec in E. congruence. }
  set (s2 := upd_proc (current_idx s) (fun p => set_quantums_left (quantums_left p - 1) p) s1).
  assert (sched_inv s2) as Hinv2 by (apply sched_inv_misc; try done; intros; simpl; slia).
  assert (forall j, state (proc s2 j) = state (proc s1 j)) as Hst by (intros; by apply proc_upd_field).
  case_if.
  - split; [by apply make_ready_inv|]. intros i Hi E.
    assert (slot (current_idx s)) as Hcs by slia.
    destruct (si_rep _ Hinv2) as [Q2 Hrep2]. apply state_is_spec in Heqb.
    destruct (make_ready_spec s2 Q2 Hrep2 (current_idx s) true Hcs) as (_ & Hu & _);
      [rewrite Hst; congruence..|].
    rewrite (one_upd_field state _ _ _ _ _ (fun _ => eq_refl) Hu) in E by slia.
    revert E. case_if; [done|]. rewrite Hst. intros E. apply Hrun in E; [lia|done].
  - split; [done|]. intros i Hi. rewrite Hst. intros E. apply Hrun in E; [|done]. slia.
Qed.

Lemma scheduler_tick_inv r s : sched_inv s -> sched_inv (scheduler_tick r s).2.
Proof.
  intros Hinv. rewrite tick_dispatches by done.
  destruct (tick_requeue_inv r s Hinv). by apply dispatch_next_inv.
Qed.

End Invariant.

(** No exceptions. *)
Definition none (i : Z) : Prop := False.

Notation sched_inv := (sched_inv_ex none).

(** An entry is queued exactly when it is READY. *)
Lemma ready_queued s i :
  sched_inv s -> slot i ->
  (ctrue (in_ready_queue (proc s i)) = true <-> state (proc s i) = PROCESS_READY).
Proof. intros Hinv Hi. destruct (si_ready _ Hinv i Hi) as [H1 H2]. split; [done|]. by intros [|[]]%H2. Qed.

(** ** Bounded waiting

    [rank_le s Q i n]: entry [i] is dispatched after at most [n] more
    dispatches.  Below the top level the rank counts the dispatches until
    aging has brought the entry to the top level, plus the size of the table;
    at the top level it is the position in the queue. *)

Definition rank_le (s : Sched) (Q : Z -> list Z) (i n : Z) : Prop :=
  (effective_priority (proc s i) = PROCESS_PRIORITY_MAX /\
   exists l1 l2, Q (PRIORITY_LEVELS - 1) = l1 ++ i :: l2 /\ Z.of_nat (length l1) <= n) \/
  (effective_priority (proc s i) < PROCESS_PRIORITY_MAX /\
   MAX_PROCESSES + AGING_THRESHOLD_TICKS * (PROCESS_PRIORITY_MAX - effective_priority (proc s i))
     - Z.min (ready_wait_ticks (proc s i)) (AGING_THRESHOLD_TICKS - 1) <= n).

(** The bound: [MAX_PROCESSES] plus four promotions. *)
Definition WAIT_BOUND : Z := MAX_PROCESSES + AGING_THRESHOLD_TICKS * 4.

Lemma rank_le_mono s Q i n m : rank_le s Q i n -> n <= m -> rank_le s Q i m.
Proof. intros [[E (l1 & l2 & H1 & H2)]|[E H]] Hle; [left|right]; split; try done; [exists l1, l2|lia]. split; [done|lia]. Qed.

(** Every queued process has a rank within the bound. *)
Lemma rank_bound s Q i :
  sched_inv s -> ready_rep s Q -> slot i -> state (proc s i) = PROCESS_READY ->
  rank_le s Q i WAIT_BOUND.
Proof.
  intros Hinv Hrep Hi Hst.
  assert (live s i) as Hl by (unfold live; congruence).
  destruct (si_prio _ Hinv i Hi Hl) as (_ & He & Hw).
  destruct (decide (effective_priority (proc s i) = PROCESS_PRIORITY_MAX)) as [E|E].
  - left. split; [done|].
    assert (i ∈ Q (PRIORITY_LEVELS - 1)) as Hin.
    { apply (rr_mem _ _ Hrep); [slia|]. split_and!; [done|by apply (ready_queued _ _ Hinv)|].
      rewrite E. reflexivity. }
    apply list_elem_of_split in Hin as (l1 & l2 & EQ). exists l1, l2. split; [done|].
    pose proof (rr_length _ _ Hrep (PRIORITY_LEVELS - 1) ltac:(slia)) as Hlen.
    rewrite EQ, length_app in Hlen. simpl in Hlen. unfold WAIT_BOUND. slia.
  - right. unfold WAIT_BOUND. slia.
Qed.

(** Aging keeps the top level and appends to it. *)
Lemma rq_aged_top s Q :
  ready_rep s Q -> exists l, rq_aged s MAX_PROCESSES Q (PRIORITY_LEVELS - 1) = Q (PRIORITY_LEVELS - 1) ++ l.
Proof.
  intros Hrep. unfold rq_aged. eexists. f_equal. apply filter_in_id. intros x Hx [_ Hp].
  apply (rr_mem _ _ Hrep) in Hx as (_ & _ & E); [|slia].
  unfold promoted in Hp. unfold priority_queue_index, clamp_priority in E. repeat case_if; slia.
Qed.

(** Where the entry of a process stands after a dispatch that chose another. *)
Lemma dispatch_other s Q x s' i :
  sched_inv s -> ready_rep s Q -> dequeue_next_ready s = (x, s') -> slot i -> i <> x ->
  state (proc s i) = PROCESS_READY -> 0 <= x < MAX_PROCESSES -> sized s' ->
  (forall j, proc s' j = if (j =? x) && (0 <? x) then dispatched_entry (proc (age_ready_processes s) x)
                         else proc (age_ready_processes s) j) ->
  pcb_core (proc (run_next x s') i) = pcb_core (age_entry (proc s i)) /\
  ctrue (in_ready_queue (proc (run_next x s') i)) = true.
Proof.
  intros Hinv Hrep E Hi Hne Hst Hx Hs Hp.
  rewrite run_next_proc by done. replace (i =? x) with false by lia. rewrite Hp.
  replace (i =? x) with false by lia. simpl.
  destruct (age_ready_processes_spec s Q Hrep (inv_queued_prio s Hinv)) as (_ & _ & _ & _ & _ & Hpa).
  destruct (Hpa i ltac:(slia)) as [Hc Hf]. replace (i =? 0) with false in Hc by slia.
  split; [done|]. rewrite Hf. by apply (ready_queued _ _ Hinv).
Qed.

Lemma age_entry_ready s i :
  sched_inv s -> slot i -> state (proc s i) = PROCESS_READY ->
  age_entry (proc s i) =
    if (ready_wait_ticks (proc s i) + 1 >=? AGING_THRESHOLD_TICKS) && (effective_priority (proc s i) <? PROCESS_PRIORITY_MAX)
    then set_ready_wait_ticks 0 (set_effective_priority (effective_priority (proc s i) + 1) (proc s i))
    else set_ready_wait_ticks (ready_wait_ticks (proc s i) + 1) (proc s i).
Proof.
  intros Hinv Hi Hst. unfold age_entry. rewrite Hst. destruct (ready_queued _ _ Hinv Hi) as [_ H].
  by rewrite (H Hst).
Qed.

Lemma dispatch_progress s Q i n :
  sched_inv s -> ready_rep s Q -> (forall j, slot j -> state (proc s j) <> PROCESS_RUNNING) ->
  slot i -> state (proc s i) = PROCESS_READY -> rank_le s Q i n ->
  let s' := (dispatch_next s).2 in
  current_idx s' = i \/
  (1 <= n /\ state (proc s' i) = PROCESS_READY /\ exists Q', ready_rep s' Q' /\ rank_le s' Q' i (n - 1)).
Proof.
  intros Hinv Hrep Hnr Hi Hst Hrank.
  destruct (dequeue_next_ready_spec s Q Hinv Hrep) as (x & s1 & Q1 & E & Hx & Hr & Hp & _ & _ & Hcase).
  pose proof (dispatch_next_inv s Hinv Hnr) as Hinv'.
  rewrite (dispatch_next_eq _ _ _ E) in *. cbv zeta.
  destruct (decide (x = i)) as [->|Hne]; [by left|right].
  destruct (dispatch_other s Q x s1 i Hinv Hrep E Hi) as [Hc Hf]; try done; [apply Hr|].
  assert (state (proc (run_next x s1) i) = PROCESS_READY) as Hst'.
  { apply pcb_core_eq in Hc. destruct (age_entry_fields (proc s i)) as (_ & Ea & _). destr_and. congruence. }
  pose proof (run_next_rep x s1 Q1 Hr) as Hr'.
  assert (effective_priority (proc (run_next x s1) i) = effective_priority (age_entry (proc s i)) /\
          ready_wait_ticks (proc (run_next x s1) i) = ready_wait_ticks (age_entry (proc s i))) as [Ee Ew].
  { apply pcb_core_eq in Hc. tauto. }
  pose proof (age_entry_ready s i Hinv Hi Hst) as Ea.
  destruct (rank_bound (run_next x s1) Q1 i Hinv' Hr' Hi Hst') as [[E5 (k1 & k2 & EK & _)]|[E5 _]];
    destruct Hrank as [[E1 (l1 & l2 & HQ & Hlen)]|[E1 Hlen]].
  - (* the entry is at the top level and moves one position forward *)
    destruct (rq_aged_top s Q Hrep) as [ext Htop]. rewrite HQ in Htop.
    destruct Hcase as [(_ & _ & Hnone)|(Hsx & m & l & Hm & HA & Hup & ->)].
    { exfalso. rewrite Hnone in Htop by slia. by destruct l1. }
    assert (m = PRIORITY_LEVELS - 1) as ->.
    { destruct (decide (m = PRIORITY_LEVELS - 1)) as [|Hm']; [done|]. exfalso.
      rewrite Hup in Htop by slia. by destruct l1. }
    rewrite Htop in HA. destruct l1 as [|y l1]; simpl in HA; injection HA as -> <-; [done|].
    simpl in Hlen. split; [lia|]. split; [done|]. eexists. split; [done|]. left. split; [done|].
    exists l1, (l2 ++ ext). split; [|lia]. unfold fupd. rewrite Z.eqb_refl. by rewrite <- app_assoc.
  - (* the entry reaches the top level *)
    pose proof (rr_length _ _ Hr' (PRIORITY_LEVELS - 1) ltac:(slia)) as Hl.
    rewrite EK, length_app in Hl. simpl in Hl.
    split; [slia|]. split; [done|]. exists Q1. split; [done|]. left. split; [done|].
    exists k1, k2. split; [done|]. slia.
  - exfalso. rewrite Ee, Ea in E5. repeat case_if; simpl in *; slia.
  - (* the entry stays below the top level and its waiting time grows *)
    assert (ready_wait_ticks (age_entry (proc s i)) >= 0).
    { assert (live s i) as Hl by (unfold live; congruence).
      destruct (si_prio _ Hinv i Hi Hl) as (_ & _ & ?). rewrite Ea. case_if; simpl; lia. }
    rewrite Ee in E5. rewrite Ea in E5.
    split; [slia|]. split; [done|]. exists Q1. split; [done|]. right.
    rewrite Ee, Ew, Ea. repeat case_if; simpl in *; slia.
Qed.

(** Requeueing the current process does not delay the others. *)
Lemma tick_requeue_rank r s Q i n :
  sched_inv s -> ready_rep s Q -> slot i -> state (proc s i) = PROCESS_READY -> rank_le s Q i n ->
  state (proc (tick_requeue r s) i) = PROCESS_READY /\
  exists Q', ready_rep (tick_requeue r s) Q' /\ rank_le (tick_requeue r s) Q' i n.
Proof.
  intros Hinv Hrep Hi Hst Hrank. pose proof (si_current _ Hinv) as Hc.
  unfold tick_requeue. set (s1 := upd_proc (current_idx s) (set_rsp r) s).
  assert (ready_rep s1 Q) as Hr1 by (apply rr_upd_proc; done).
  assert (forall B (g : PCB -> B), (forall v p, g (set_rsp v p) = g p) -> forall j, g (proc s1 j) = g (proc s j)) as G1.
  { intros B g Hg j. unfold s1. by apply proc_upd_field. }
  case_if.
  2:{ split; [by rewrite (G1 _ state)|]. exists Q. split; [done|].
      unfold rank_le in *. by rewrite (G1 _ effective_priority), (G1 _ ready_wait_ticks). }
  apply state_is_spec in Heqb. rewrite (G1 _ state) in Heqb by done.
  set (s2 := upd_proc (current_idx s) (fun p => set_quantums_left (quantums_left p - 1) p) s1).
  assert (ready_rep s2 Q) as Hr2 by (apply rr_upd_proc; done).
  assert (forall B (g : PCB -> B), (forall v p, g (set_rsp v p) = g p) ->
    (forall p, g (set_quantums_left (quantums_left p - 1) p) = g p) -> forall j, g (proc s2 j) = g (proc s j)) as G2.
  { intros B g Hg1 Hg2 j. unfold s2. rewrite proc_upd_field by done. by apply G1. }
  case_if.
  2:{ split; [by rewrite (G2 _ state)|]. exists Q. split; [done|].
      unfold rank_le in *. by rewrite (G2 _ effective_priority), (G2 _ ready_wait_ticks). }
  assert (slot (current_idx s)) as Hcs by slia.
  assert (i <> current_idx s) as Hne by (intros ->; congruence).
  destruct (make_ready_spec s2 Q Hr2 (current_idx s) true Hcs) as (Hr3 & Hu & _);
    [rewrite (G2 _ state) by done; congruence..|].
  assert (forall B (g : PCB -> B), (forall p, g p = g (pcb_core p)) ->
    g (proc (make_ready (current_idx s) true s2) i) = g (proc s2 i)) as G3.
  { intros B g Hg. rewrite (one_upd_field g _ _ _ _ _ Hg Hu) by slia. by replace (i =? current_idx s) with false by lia. }
  split; [rewrite (G3 _ state), (G2 _ state) by done; done|].
  eexists. split; [exact Hr3|]. unfold rank_le in *.
  rewrite (G3 _ effective_priority), (G2 _ effective_priority), (G3 _ ready_wait_ticks), (G2 _ ready_wait_ticks) by done.
  destruct Hrank as [[E1 (l1 & l2 & HQ & Hlen)]|?]; [left|by right]. split; [done|].
  assert (rq_equiv (rq_remove (current_idx s) Q) Q) as Heq.
  { apply (rq_remove_absent s2); [done|]. intros [_ Hf]. rewrite (G2 _ in_ready_queue) in Hf by done.
    apply (ready_queued _ _ Hinv) in Hf; [congruence|done]. }
  unfold rq_append, fupd. case_if.
  - replace (priority_queue_index _) with (PRIORITY_LEVELS - 1) by lia.
    rewrite Heq, HQ by slia. exists l1, (l2 ++ [current_idx s]). split; [by rewrite <- app_assoc|done].
  - rewrite Heq, HQ by slia. by exists l1, l2.
Qed.

(** A sequence of timer ticks, with the stack pointers they save. *)
Definition ticks (rs : list Z) (s : Sched) : Sched :=
  foldl (fun s r => (scheduler_tick r s).2) s rs.

Lemma ticks_inv rs s : sched_inv s -> sched_inv (ticks rs s).
Proof.
  revert s. induction rs as [|r rs IH]; intros s Hinv; [done|].
  apply IH. by apply scheduler_tick_inv.
Qed.

Lemma rank_dispatched n : forall s Q i rs,
  sched_inv s -> ready_rep s Q -> slot i -> state (proc s i) = PROCESS_READY ->
  rank_le s Q i (Z.of_nat n) -> (n < length rs)%nat ->
  exists k, (0 < k <= S n)%nat /\ current_idx (ticks (take k rs) s) = i.
Proof.
  induction n as [|n IH]; intros s Q i rs Hinv Hrep Hi Hst Hrank Hlen;
    (destruct rs as [|r rs]; [simpl in Hlen; lia|]).
  all: destruct (tick_requeue_rank r s Q i _ Hinv Hrep Hi Hst Hrank) as (Hst1 & Q1 & Hr1 & Hrank1).
  all: destruct (tick_requeue_inv r s Hinv) as [Hinv1 Hnr1].
  all: pose proof (tick_dispatches r s Hinv) as Et.
  all: pose proof (scheduler_tick_inv r s Hinv) as Hinv2.
  all: destruct (dispatch_progress (tick_requeue r s) Q1 i _ Hinv1 Hr1 Hnr1 Hi Hst1 Hrank1)
      as [Hcur|(Hn & Hst2 & Q2 & Hr2 & Hrank2)].
  all: try (exists 1%nat; split; [lia|]; unfold ticks; cbn [take foldl]; rewrite take_0; cbn [foldl]; rewrite Et; exact Hcur).
  - lia.
  - rewrite <- Et in Hst2, Hr2, Hrank2.
    destruct (IH (scheduler_tick r s).2 Q2 i rs) as (k & Hk & Hcur); try done.
    + eapply rank_le_mono; [done|]. lia.
    + simpl in Hlen. lia.
    + exists (S k). split; [lia|]. unfold ticks in *. exact Hcur.
Qed.
