(* ===== verification/Lifecycle.v ===== *)
(** * Adding and removing processes

    Lemmas on the scheduler invariant for the operations of
    [Kernel/scheduler.c] that fill or empty an entry of the process table, and
    the table that [scheduler_init] builds. *)

From S2P Require Import Prelude Process ReadyQueue Sched.
Local Open Scope Z_scope.

(** ** Counting live entries *)

Lemma live_count_flip s s' i :
  0 <= i < MAX_PROCESSES -> ~ live s i -> live s' i ->
  (forall j, 0 <= j < MAX_PROCESSES -> j <> i -> live s' j <-> live s j) ->
  live_count s' = live_count s + 1.
Proof.
  intros Hi Hn Hl Hrest. unfold live_count.
  assert (seqZ 0 MAX_PROCESSES = seqZ 0 i ++ i :: seqZ (i + 1) (MAX_PROCESSES - i - 1)) as ->.
  { replace MAX_PROCESSES with (i + (1 + (MAX_PROCESSES - i - 1))) at 1 by lia.
    rewrite (seqZ_app 0 i), (seqZ_app _ 1) by lia. done. }
  rewrite !list.filter_app, (filter_cons_False (live s)), (filter_cons_True (live s')) by done.
  rewrite (filter_in_iff (live s') (live s) (seqZ 0 i)), (filter_in_iff (live s') (live s) (seqZ (i + 1) _)).
  - rewrite !length_app. simpl. lia.
  - intros j Hj%elem_of_seqZ. apply Hrest; lia.
  - intros j Hj%elem_of_seqZ. apply Hrest; lia.
Qed.

(** ** Filling an entry *)

Lemma upd_proc_ext i f g s : f (proc s i) = g (proc s i) -> upd_proc i f s = upd_proc i g s.
Proof.
  intros E. unfold upd_proc. f_equal. unfold alteri, proc, geti in *. case_if; [|done].
  apply list_alter_ext; [|done]. intros x Hx. by rewrite (list_lookup_total_correct _ _ _ Hx) in E.
Qed.

Section Fill.
Context {X : Z -> Prop}.
Local Notation sched_inv := (sched_inv_ex X).

(** The table with a new process in slot [i], not yet queued. *)
Definition filled (i : Z) (f : PCB -> PCB) (s : Sched) : Sched :=
  set_process_count (process_count s + 1) (set_next_pid (next_pid s + 1) (upd_proc i f s)).

Lemma filled_inv s i f :
  sched_inv s -> slot i -> ~ live s i ->
  let p := f (proc s i) in
  pid p = next_pid s -> state p = PROCESS_BLOCKED -> ctrue (in_ready_queue p) = false ->
  PROCESS_PRIORITY_MIN <= priority p <= PROCESS_PRIORITY_MAX ->
  PROCESS_PRIORITY_MIN <= effective_priority p <= PROCESS_PRIORITY_MAX ->
  0 <= ready_wait_ticks p -> quantums_left p <= DEFAULT_QUANTUM ->
  sched_inv (filled i f s).
Proof.
  intros Hinv Hi Hn p Hpid Hst Hfl Hp He Hw Hq. destruct (si_rep _ Hinv) as [Q Hrep].
  pose proof (rr_sized _ _ Hrep) as Hs.
  assert (forall j, proc (filled i f s) j = if j =? i then p else proc s j) as Hproc.
  { intros j. unfold filled. autorewrite with sched. rewrite proc_upd by (done || slia).
    destruct (Z.eqb_spec j i) as [->|]; done. }
  assert (ctrue (in_ready_queue (proc s i)) = false) as Hout.
  { destruct (ctrue (in_ready_queue (proc s i))) eqn:E; [|done]. apply (si_ready _ Hinv) in E; [|done]. exfalso. apply Hn. unfold live. congruence. }
  assert (forall j, live (filled i f s) j <-> j = i \/ live s j) as Hlive.
  { intros j. unfold live. rewrite Hproc. destruct (Z.eqb_spec j i) as [->|]; [|tauto]. rewrite Hst. naive_solver. }
  split.
  - exists Q. assert (ready_rep (upd_proc i f s) Q) as Hr by (by apply rr_upd_out). destruct Hr; by split.
  - intros j Hj. unfold ready_ok. rewrite Hproc. destruct (Z.eqb_spec j i) as [->|]; [|by apply Hinv].
    apply flag_ok_iff. rewrite Hfl, Hst. done.
  - rewrite Hproc. replace (0 =? i) with false by slia. apply Hinv.
  - apply Hinv.
  - intros j Hj. rewrite Hproc. case_if; [rewrite Hst; done|]. by apply Hinv.
  - intros j Hj. rewrite Hlive, Hproc. destruct (Z.eqb_spec j i) as [->|]; [done|].
    intros [?|Hl]; [done|]. by apply Hinv.
  - intros j k Hj Hk. rewrite !Hlive, !Hproc.
    assert (forall x, 0 <= x < MAX_PROCESSES -> live s x -> pid (proc s x) < next_pid s) as Hfresh.
    { intros x Hx Hlx. destruct (decide (x = 0)) as [->|].
      - destruct (si_idle _ Hinv) as [-> _]. apply Hinv.
      - apply (si_fresh _ Hinv x); [slia|done]. }
    intros Hlj Hlk. destruct (Z.eqb_spec j i) as [->|Hj'], (Z.eqb_spec k i) as [->|Hk']; try done.
    + destruct Hlk as [|Hlk]; [done|]. intros E. specialize (Hfresh k Hk Hlk). lia.
    + destruct Hlj as [|Hlj]; [done|]. intros E. specialize (Hfresh j Hj Hlj). lia.
    + intros E. apply (si_unique _ Hinv); naive_solver.
  - intros j Hj. rewrite Hlive, Hproc. cbn [filled next_pid set_process_count set_next_pid].
    pose proof (si_next _ Hinv). destruct (Z.eqb_spec j i) as [->|]; [lia|].
    intros [?|Hl]; [done|]. pose proof (si_fresh _ Hinv j Hj Hl). lia.
  - pose proof (si_next _ Hinv). simpl. lia.
  - rewrite (live_count_flip s (filled i f s) i); [..|by apply Hlive; left|].
    + simpl. by rewrite (si_count _ Hinv).
    + slia.
    + done.
    + intros j _ Hne. rewrite Hlive. tauto.
  - intros j Hj. rewrite Hproc. case_if; [done|]. by apply Hinv.
Qed.

(** Whether a live entry is READY or BLOCKED makes no difference to
    [make_ready] when it is in no queue. *)
Lemma make_ready_state i b s :
  sized s -> slot i -> state (proc s i) = PROCESS_READY -> ctrue (in_ready_queue (proc s i)) = false ->
  make_ready i b s = make_ready i b (upd_proc i (set_state PROCESS_BLOCKED) s).
Proof.
  intros Hs Hi Hst Hfl. unfold make_ready, state_is.
  rewrite !proc_upd_eq by (done || slia). cbn [state set_state in_ready_queue]. rewrite Hst, Hfl.
  replace ((i <=? 0) || (i >=? MAX_PROCESSES)) with false by slia.
  change (is_state PROCESS_READY PROCESS_DEAD || is_state PROCESS_READY PROCESS_ZOMBIE) with false.
  destruct b; rewrite !upd_proc_upd; reflexivity.
Qed.

Lemma spawn_inv s i f b :
  sched_inv s -> slot i -> ~ live s i ->
  let p := f (proc s i) in
  pid p = next_pid s -> state p = PROCESS_READY -> ctrue (in_ready_queue p) = false ->
  PROCESS_PRIORITY_MIN <= priority p <= PROCESS_PRIORITY_MAX ->
  PROCESS_PRIORITY_MIN <= effective_priority p <= PROCESS_PRIORITY_MAX ->
  0 <= ready_wait_ticks p -> quantums_left p <= DEFAULT_QUANTUM ->
  sched_inv (make_ready i b (filled i f s)).
Proof.
  intros Hinv Hi Hn p Hpid Hst Hfl Hp He Hw Hq. destruct (si_rep _ Hinv) as [Q Hrep].
  pose proof (rr_sized _ _ Hrep) as Hs.
  assert (proc (filled i f s) i = p) as Hpi.
  { unfold filled. autorewrite with sched. by rewrite proc_upd_eq by (done || slia). }
  assert (sized (filled i f s)) as Hs' by (by apply (sized_upd_proc s i f)).
  rewrite make_ready_state by (done || by rewrite Hpi). apply make_ready_inv.
  assert (upd_proc i (set_state PROCESS_BLOCKED) (filled i f s) =
    filled i (fun p => set_state PROCESS_BLOCKED (f p)) s) as ->.
  { unfold filled. by rewrite <- (upd_proc_upd i (set_state PROCESS_BLOCKED) f s). }
  by apply filled_inv.
Qed.

End Fill.

(** ** Emptying an entry *)

(** The fields of an entry that the invariant constrains. *)
Definition inv_view (p : PCB) : Z * ProcState * Z * Z * Z * Z * bool :=
  (pid p, state p, priority p, effective_priority p, ready_wait_ticks p, quantums_left p,
   ctrue (in_ready_queue p)).

Lemma inv_view_eq p q : inv_view p = inv_view q ->
  pid p = pid q /\ state p = state q /\ priority p = priority q /\
  effective_priority p = effective_priority q /\ ready_wait_ticks p = ready_wait_ticks q /\
  quantums_left p = quantums_left q /\ ctrue (in_ready_queue p) = ctrue (in_ready_queue q).
Proof. unfold inv_view. intros [=]. done. Qed.

Lemma sched_inv_weaken (X Y : Z -> Prop) s :
  (forall i, X i -> Y i) -> sched_inv_ex X s -> sched_inv_ex Y s.
Proof.
  intros HXY [? Hr ? ? ? ? ? ? ? ? ?]. split; try done.
  intros i Hi. destruct (Hr i Hi) as [H1 H2]. split; [done|]. intros E. destruct (H2 E); auto.
Qed.

(** A change of the entry [i] alone that makes it a free slot. *)
Lemma retire_inv (X Y : Z -> Prop) s s' i :
  sched_inv_ex X s -> slot i -> live s i -> (forall j, X j -> j = i \/ Y j) ->
  (exists Q, ready_rep s' Q) ->
  process_count s' = process_count s - 1 -> next_pid s' = next_pid s -> current_idx s' = current_idx s ->
  (forall j, 0 <= j < MAX_PROCESSES -> j <> i -> inv_view (proc s' j) = inv_view (proc s j)) ->
  state (proc s' i) = PROCESS_DEAD -> ctrue (in_ready_queue (proc s' i)) = false ->
  quantums_left (proc s' i) <= DEFAULT_QUANTUM ->
  sched_inv_ex Y s'.
Proof.
  intros Hinv Hi Hl HXY Hrep Hc Hn Hcur Hv Hst Hfl Hq.
  assert (forall j, 0 <= j < MAX_PROCESSES -> live s' j <-> j <> i /\ live s j) as Hlive.
  { intros j Hj. unfold live. destruct (decide (j = i)) as [->|Hne]; [naive_solver|].
    pose proof (Hv j Hj Hne) as (_ & -> & _)%inv_view_eq. tauto. }
  assert (forall j, slot j -> 0 <= j < MAX_PROCESSES) as Hsl by (intros; slia).
  split; try done.
  - intros j Hj. unfold ready_ok. destruct (decide (j = i)) as [->|Hne].
    + apply flag_ok_iff. rewrite Hst, Hfl. done.
    + destruct (inv_view_eq _ _ (Hv j (Hsl j Hj) Hne)) as (_ & -> & _ & _ & _ & _ & ->).
      destruct (si_ready _ Hinv j Hj) as [H1 H2]. split; [done|]. intros E. destruct (H2 E) as [|HX]; [by left|].
      destruct (HXY _ HX); [done|by right].
  - destruct (inv_view_eq _ _ (Hv 0 ltac:(slia) ltac:(slia))) as (-> & -> & _ & _ & _ & _ & ->). apply Hinv.
  - rewrite Hcur. apply Hinv.
  - intros j Hj. rewrite Hcur. destruct (decide (j = i)) as [->|Hne]; [congruence|].
    destruct (inv_view_eq _ _ (Hv j (Hsl j Hj) Hne)) as (_ & -> & _). by apply Hinv.
  - intros j Hj [Hne Hlj]%Hlive; [|auto].
    destruct (inv_view_eq _ _ (Hv j (Hsl j Hj) Hne)) as (_ & _ & -> & -> & -> & _). by apply Hinv.
  - intros j k Hj Hk [Hnj Hlj]%Hlive [Hnk Hlk]%Hlive; try done.
    destruct (inv_view_eq _ _ (Hv j Hj Hnj)) as (-> & _), (inv_view_eq _ _ (Hv k Hk Hnk)) as (-> & _).
    by apply Hinv.
  - intros j Hj [Hne Hlj]%Hlive; [|auto]. rewrite Hn.
    destruct (inv_view_eq _ _ (Hv j (Hsl j Hj) Hne)) as (-> & _). by apply Hinv.
  - rewrite Hn. apply Hinv.
  - rewrite Hc, (si_count _ Hinv), (live_count_flip s' s i); [lia|slia| |done|].
    + rewrite Hlive by slia. tauto.
    + intros j Hj Hne. rewrite Hlive by done. tauto.
  - intros j Hj. destruct (decide (j = i)) as [->|Hne]; [done|].
    destruct (inv_view_eq _ _ (Hv j Hj Hne)) as (_ & _ & _ & _ & _ & -> & _). by apply Hinv.
Qed.

(** A change that the invariant does not see. *)
Lemma sched_inv_view X s s' :
  sched_inv_ex X s -> (exists Q, ready_rep s' Q) ->
  process_count s' = process_count s -> next_pid s' = next_pid s -> current_idx s' = current_idx s ->
  (forall j, 0 <= j < MAX_PROCESSES -> inv_view (proc s' j) = inv_view (proc s j)) ->
  sched_inv_ex X s'.
Proof.
  intros Hinv Hrep Hc Hn Hcur Hv.
  assert (forall j, slot j -> 0 <= j < MAX_PROCESSES) as Hsl by (intros; slia).
  apply (sched_inv_change s s'); try done.
  - rewrite Hcur. apply Hinv.
  - intros j Hj. unfold live. destruct (inv_view_eq _ _ (Hv j Hj)) as (-> & -> & _ & _ & _ & -> & _).
    split_and!; try done. by apply Hinv.
  - intros j Hj. unfold live. destruct (inv_view_eq _ _ (Hv j (Hsl j Hj))) as (_ & -> & -> & -> & -> & _).
    by apply Hinv.
  - intros j Hj. unfold ready_ok. destruct (inv_view_eq _ _ (Hv j (Hsl j Hj))) as (_ & -> & _ & _ & _ & _ & ->).
    by apply Hinv.
  - intros j Hj. rewrite Hcur. destruct (inv_view_eq _ _ (Hv j (Hsl j Hj))) as (_ & -> & _). by apply Hinv.
  - destruct (inv_view_eq _ _ (Hv 0 ltac:(slia))) as (_ & _ & _ & _ & _ & _ & ->). apply Hinv.
  - destruct (inv_view_eq _ _ (Hv 0 ltac:(slia))) as (_ & -> & _). apply Hinv.
Qed.

(** Taking a process out of its queue makes it the exception. *)
Lemma remove_exception s i :
  sched_inv s -> slot i -> sched_inv_ex (eq i) (remove_from_ready_queue i s).
Proof.
  intros Hinv Hi. destruct (si_rep _ Hinv) as [Q Hrep].
  pose proof (remove_rep s Q i Hrep) as Hr. pose proof (remove_frame s i) as Hf.
  assert (forall j, 0 <= j -> ctrue (in_ready_queue (proc (remove_from_ready_queue i s) j)) =
     ctrue (in_ready_queue (proc s j)) && negb (j =? i)) as Hfl.
  { intros j Hj. rewrite (remove_flag s Q) by done. slia. }
  set (s' := remove_from_ready_queue i s) in *. clearbody s'.
  assert (forall B (g : PCB -> B), (forall p, g p = g (pcb_core p)) -> forall j, g (proc s' j) = g (proc s j)) as Hg
    by (intros B g Hg; by apply rf_field).
  apply (sched_inv_weaken none (eq i)) in Hinv; [|done].
  apply (sched_inv_change s s'); try done; try (by apply Hf); try (by exists (rq_remove i Q)).
  - rewrite (rf_current _ _ Hf). apply Hinv.
  - intros j Hj. unfold live. rewrite (Hg _ pid), (Hg _ state), (Hg _ quantums_left) by done.
    split_and!; try done. by apply Hinv.
  - intros j Hj. unfold live. rewrite (Hg _ priority), (Hg _ state), (Hg _ effective_priority), (Hg _ ready_wait_ticks) by done.
    by apply Hinv.
  - intros j Hj. unfold ready_ok. rewrite (Hg _ state), Hfl by (done || slia).
    destruct (si_ready _ Hinv j Hj) as [H1 H2]. destruct (Z.eqb_spec j i) as [->|].
    + split; [rewrite andb_false_r; done|]. by right.
    + rewrite andb_true_r. by split.
  - intros j Hj. rewrite (Hg _ state), (rf_current _ _ Hf) by done. by apply Hinv.
  - rewrite Hfl by lia. destruct (si_idle _ Hinv) as (_ & -> & _). done.
  - rewrite (Hg _ state) by done. apply Hinv.
Qed.

(** A process that is in no queue becomes a zombie. *)
Lemma zombify_inv X s i :
  sched_inv_ex X s -> slot i -> live s i -> ctrue (in_ready_queue (proc s i)) = false ->
  sched_inv_ex X (upd_proc i (set_state PROCESS_ZOMBIE) s).
Proof.
  intros Hinv Hi Hl Hfl. destruct (si_rep _ Hinv) as [Q Hrep]. pose proof (rr_sized _ _ Hrep) as Hs.
  assert (0 <= i < MAX_PROCESSES) as Hi' by slia.
  apply (sched_inv_one_upd s _ i (set_state PROCESS_ZOMBIE)); try done.
  - by apply one_upd_upd.
  - exists Q. by apply (rr_upd_out s _ Hrep).
  - by apply (si_quantum _ Hinv).
  - intros _ _. by apply (si_prio _ Hinv).
  - intros j _ Hne. by rewrite proc_upd_ne.
  - intros _. apply flag_ok_iff. rewrite proc_upd_eq by done. simpl. by rewrite Hfl.
  - intros ->. slia.
Qed.

(** ** The table after [scheduler_init] *)

(** Entry 0 after initialisation, with the address of the idle stack and the
    initial stack pointer. *)
Definition idle_entry (stack sp : Z) (nm : list Z) : PCB :=
  mkPCB 0 0 nm PROCESS_RUNNING 1 1 1 READY_NONE 0 0 sp stack 0 (-1) 0 (replicate 8 (mkFD FD_NONE 0)).

(** A free entry: zeroed, DEAD, in no queue. *)
Definition dead_entry : PCB := set_ready_next READY_NONE (set_state PROCESS_DEAD zero_pcb).

Definition init_state (stack sp : Z) (nm : list Z) : Sched :=
  mkSched (idle_entry stack sp nm :: replicate 63 dead_entry) 1 0 1 0
    (replicate 5 (mkRQ READY_NONE READY_NONE)).

Lemma init_state_proc stack sp nm i :
  0 <= i < MAX_PROCESSES ->
  proc (init_state stack sp nm) i = if i =? 0 then idle_entry stack sp nm else dead_entry.
Proof.
  intros Hi. unfold proc, geti, init_state. cbn [process_table]. case_if; [|lia].
  destruct (Z.eqb_spec i 0) as [->|]; [done|].
  destruct (Z.to_nat i) as [|k] eqn:E; [lia|]. cbn [lookup_total list_lookup_total].
  change (replicate 63 dead_entry !!! k = dead_entry). apply lookup_total_replicate_2. slia.
Qed.

Lemma init_state_inv stack sp nm : sched_inv (init_state stack sp nm).
Proof.
  pose proof (init_state_proc stack sp nm) as Hp. set (s := init_state stack sp nm) in *.
  assert (forall i, slot i -> proc s i = dead_entry) as Hd.
  { intros i Hi. rewrite Hp by slia. replace (i =? 0) with false by slia. done. }
  assert (forall i, 0 <= i < MAX_PROCESSES -> live s i <-> i = 0) as Hl.
  { intros i Hi. unfold live. rewrite Hp by done. destruct (Z.eqb_spec i 0) as [->|]; simpl; naive_solver. }
  split.
  - exists (fun _ => []). split; [done|..].
    + intros q Hq. unfold queue, s. cbn [ready_queues init_state]. rewrite (geti_replicate (mkRQ READY_NONE READY_NONE) 5) by slia. done.
    + intros q Hq. unfold queue, s. cbn [ready_queues init_state].
      rewrite (geti_replicate (mkRQ READY_NONE READY_NONE) 5) by slia. done.
    + intros. constructor.
    + intros q i Hq. split; [by intros ?%elem_of_nil|]. intros (Hi & Hf & _). by rewrite Hd in Hf.
  - intros i Hi. unfold ready_ok. rewrite Hd by done. by apply flag_ok_iff.
  - rewrite Hp by slia. simpl. auto.
  - unfold s. simpl. slia.
  - intros i Hi. by rewrite Hd.
  - intros i Hi. rewrite Hl by slia. slia.
  - intros i j Hi Hj. rewrite !Hl by done. lia.
  - intros i Hi. rewrite Hl by slia. slia.
  - done.
  - reflexivity.
  - intros i Hi. rewrite Hp by done. by case_if.
Qed.

(** ** A concrete scheduler

    The table after initialisation and two processes of priorities 3 and 5,
    with the first tick having dispatched one of them. *)

Definition user_entry (p pr stack : Z) : PCB :=
  mkPCB p 0 (replicate 32 0) PROCESS_READY pr pr DEFAULT_QUANTUM READY_NONE 0 0 (stack + 3936) stack 0 (-1) 0
    (replicate 8 (mkFD FD_NONE (-1))).

Definition spawn (i pr stack : Z) (s : Sched) : Sched :=
  make_ready i true (filled i (fun _ => user_entry (next_pid s) pr stack) s).

Lemma spawn_user_inv i pr stack s :
  sched_inv s -> slot i -> ~ live s i -> PROCESS_PRIORITY_MIN <= pr <= PROCESS_PRIORITY_MAX ->
  sched_inv (spawn i pr stack s).
Proof. intros Hinv Hi Hl Hpr. apply spawn_inv; done. Qed.

Definition boot_sched : Sched := init_state 4096 8032 (replicate 32 0).

Definition two_ready : Sched := spawn 2 5 16384 (spawn 1 3 8192 boot_sched).

Definition demo_sched : Sched := (scheduler_tick 500 two_ready).2.

Lemma two_ready_inv : sched_inv two_ready.
Proof.
  assert (forall s i, state (proc s i) = PROCESS_DEAD -> ~ live s i) as Hd by (unfold live; auto).
  repeat apply spawn_user_inv; try slia; try (apply Hd; vm_compute; reflexivity). apply init_state_inv.
Qed.

Lemma demo_sched_inv : sched_inv demo_sched.
Proof. apply scheduler_tick_inv, two_ready_inv. Qed.
