(* ===== verification/SchedIface.v ===== *)
(** * What the semaphores and pipes see of the scheduler

    [Kernel/semaphore.c] and [Kernel/pipe.c] use the scheduler through
    [scheduler_getpid], [get_process_by_pid], [scheduler_block],
    [scheduler_unblock] and [scheduler_current].  The class states what they
    rely on; the instance is the scheduler of [Sched.v]. *)

From S2P Require Import Prelude Process ReadyQueue Sched.
Local Open Scope Z_scope.

(** [sch_find p s]: the [state] and [priority] fields of the process that
    [get_process_by_pid(p)] points to, [None] for [NULL]. *)
Class Scheduler (St : Type) := {
  sch_getpid : St -> Z;
  sch_find : Z -> St -> option (ProcState * Z);
  sch_block : Z -> St -> St;
  sch_unblock : Z -> St -> St
}.

(** The states the scheduler keeps to. *)
Class SchedInv (St : Type) := sch_inv : St -> Prop.

Class SchedulerLaws (St : Type) `{Scheduler St} `{SchedInv St} := {
  sch_block_inv s p : sch_inv s -> sch_inv (sch_block p s);
  sch_unblock_inv s p : sch_inv s -> sch_inv (sch_unblock p s);
  (** blocking a process sets its state and touches no other process *)
  sch_find_block s p q : sch_inv s ->
    sch_find q (sch_block p s) =
    if q =? p then (fun x => (PROCESS_BLOCKED, x.2)) <$> sch_find q s else sch_find q s;
  (** unblocking makes a blocked process ready and touches no other *)
  sch_find_unblock s p q : sch_inv s -> 0 < p ->
    sch_find q (sch_unblock p s) =
    if q =? p
    then (fun x => (if is_state x.1 PROCESS_BLOCKED then PROCESS_READY else x.1, x.2)) <$> sch_find q s
    else sch_find q s;
  (** the current process exists, and priorities are in range *)
  sch_getpid_block s p : sch_inv s -> sch_getpid (sch_block p s) = sch_getpid s;
  sch_getpid_unblock s p : sch_inv s -> sch_getpid (sch_unblock p s) = sch_getpid s;
  sch_find_prio s p st pr : sch_inv s -> 0 < p -> sch_find p s = Some (st, pr) ->
    PROCESS_PRIORITY_MIN <= pr <= PROCESS_PRIORITY_MAX
}.

(** Whether a process is blocked, as the test in [unblock_one_waiter]. *)
Definition blocked `{Scheduler St} (p : Z) (s : St) : bool :=
  match sch_find p s with
  | Some (st, _) => is_state st PROCESS_BLOCKED
  | None => false
  end.

(** ** The instance *)

Definition find_process (p : Z) (s : Sched) : option (ProcState * Z) :=
  let i := get_process_by_pid p s in
  if i <? 0 then None else Some (state (proc s i), priority (proc s i)).

#[export] Instance Sched_scheduler : Scheduler Sched := {
  sch_getpid := scheduler_getpid;
  sch_find := find_process;
  sch_block := scheduler_block;
  sch_unblock := scheduler_unblock
}.

#[export] Instance Sched_inv : SchedInv Sched := sched_inv_ex none.

Section Laws.
Context {X : Z -> Prop}.
Local Notation sched_inv := (sched_inv_ex X).

(** [s'] is [s] with the state of entry [i] set to [st]: what pid lookups see. *)
Definition state_upd (i : Z) (st : ProcState) (s s' : Sched) : Prop :=
  forall j, 0 <= j < MAX_PROCESSES ->
    pid (proc s' j) = pid (proc s j) /\ priority (proc s' j) = priority (proc s j) /\
    state (proc s' j) = if j =? i then st else state (proc s j).

Lemma one_upd_state_upd i f s s' st :
  one_upd i f s s' ->
  pid (f (proc s i)) = pid (proc s i) -> priority (f (proc s i)) = priority (proc s i) ->
  state (f (proc s i)) = st -> state_upd i st s s'.
Proof.
  intros Hu H1 H2 H3 j Hj.
  rewrite (one_upd_field pid _ _ _ _ _ (fun _ => eq_refl) Hu),
    (one_upd_field priority _ _ _ _ _ (fun _ => eq_refl) Hu),
    (one_upd_field state _ _ _ _ _ (fun _ => eq_refl) Hu) by done.
  destruct (Z.eqb_spec j i) as [->|]; done.
Qed.

(** The lookup after a change of state between live states. *)
Lemma find_process_upd i st s s' q :
  sched_inv s -> 0 <= i < MAX_PROCESSES -> live s i -> st <> PROCESS_DEAD -> state_upd i st s s' ->
  find_process q s' =
  if q =? pid (proc s i) then (fun x => (st, x.2)) <$> find_process q s else find_process q s.
Proof.
  intros Hinv Hi Hl Hst Hu.
  assert (get_process_by_pid q s' = get_process_by_pid q s) as E.
  { rewrite !get_process_by_pid_eq. apply find_idx_ext. intros j Hj.
    destruct (Hu j ltac:(lia)) as (E1 & _ & E3). unfold has_pid, state_is. rewrite E1, E3.
    destruct (Z.eqb_spec j i) as [->|]; [|done]. f_equal. f_equal.
    rewrite !(proj2 (is_state_neg _ _)); done. }
  unfold find_process. rewrite E, get_process_by_pid_eq. unfold find_index_by_pid.
  destruct (find_pid_cases s q) as [[-> _]|(j & -> & Hj & Hq & Hlj)]; [by case_if; case_if|].
  replace (j <? 0) with false by lia. destruct (Hu j Hj) as (_ & -> & ->).
  destruct (Z.eqb_spec j i) as [->|Hne].
  - by rewrite <- Hq, Z.eqb_refl.
  - destruct (Z.eqb_spec q (pid (proc s i))) as [E'|]; [|done].
    exfalso. apply Hne. apply (si_unique _ Hinv); congruence || done.
Qed.

Lemma one_upd_ext i f g s s' : (forall p, f p = g p) -> one_upd i f s s' -> one_upd i g s s'.
Proof. intros E [H1 H2 H3 H4]. split; try done. intros j Hj. rewrite H4 by done. by rewrite E. Qed.

(** Blocking changes the state of one entry, and its quantum if it runs. *)
Lemma scheduler_block_upd s p i :
  sched_inv s -> find_idx (has_pid s p) 0 MAX_PROCESSES = i -> 0 <= i < MAX_PROCESSES ->
  exists q, one_upd i (fun p => set_quantums_left (q p) (set_state PROCESS_BLOCKED p)) s (scheduler_block p s).
Proof.
  intros Hinv Hf Hi. destruct (si_rep _ Hinv) as [Q Hrep].
  unfold scheduler_block. rewrite Hf. case_if; [lia|].
  pose proof (remove_frame s i) as Hfr. pose proof (rr_sized _ _ (remove_rep s Q i Hrep)) as Hs.
  case_if; rewrite ?upd_proc_upd.
  - exists (fun _ => 0). apply one_upd_resched. eapply one_upd_frame_l; [core_tac|done|by apply one_upd_upd].
  - exists quantums_left. eapply one_upd_frame_l; [core_tac|done|]. eapply one_upd_ext; [|by apply one_upd_upd]. by intros [].
Qed.

Lemma scheduler_block_one s p i :
  sched_inv s -> find_idx (has_pid s p) 0 MAX_PROCESSES = i -> 0 <= i < MAX_PROCESSES ->
  state_upd i PROCESS_BLOCKED s (scheduler_block p s).
Proof. intros Hinv Hf Hi. destruct (scheduler_block_upd s p i Hinv Hf Hi) as [q Hq]. by eapply one_upd_state_upd. Qed.

Lemma find_process_block s p q :
  sched_inv s ->
  find_process q (scheduler_block p s) =
  if q =? p then (fun x => (PROCESS_BLOCKED, x.2)) <$> find_process q s else find_process q s.
Proof.
  intros Hinv. destruct (find_pid_cases s p) as [[E Hno]|(i & E & Hi & Hp & Hl)].
  - unfold scheduler_block. rewrite E. simpl. case_if; [|done].
    unfold find_process. rewrite get_process_by_pid_eq. unfold find_index_by_pid.
    replace q with p by lia. by rewrite E.
  - rewrite <- Hp at 2. apply find_process_upd; try done. by apply scheduler_block_one.
Qed.

Lemma unblock_cases s p :
  sched_inv s ->
  (scheduler_unblock p s = s /\
   forall i, 0 <= i < MAX_PROCESSES -> ~ (pid (proc s i) = p /\ state (proc s i) = PROCESS_BLOCKED)) \/
  (exists i, scheduler_unblock p s = make_ready i true s /\ 0 <= i < MAX_PROCESSES /\
     pid (proc s i) = p /\ state (proc s i) = PROCESS_BLOCKED).
Proof.
  intros Hinv. unfold scheduler_unblock.
  set (P := fun i => (pid (proc s i) =? p) && state_is s i PROCESS_BLOCKED).
  assert (forall i, P i = true <-> pid (proc s i) = p /\ state (proc s i) = PROCESS_BLOCKED) as HP.
  { intros i. unfold P. by rewrite andb_true_iff, Z.eqb_eq, state_is_spec. }
  destruct (find_idx_spec P 0 MAX_PROCESSES) as [[-> H]|(H1 & H2 & _)]; [slia|slia|left|right].
  - split; [done|]. intros i Hi. rewrite <- HP, H by lia. done.
  - exists (find_idx P 0 MAX_PROCESSES). case_if; [lia|]. split_and!; [done|lia|lia|by apply HP..].
Qed.

Lemma find_process_unblock s p q :
  sched_inv s -> 0 < p ->
  find_process q (scheduler_unblock p s) =
  if q =? p
  then (fun x => (if is_state x.1 PROCESS_BLOCKED then PROCESS_READY else x.1, x.2)) <$> find_process q s
  else find_process q s.
Proof.
  intros Hinv Hpos. destruct (unblock_cases s p Hinv) as [[-> Hno]|(i & -> & Hi & Hp & Hst)].
  - destruct (Z.eqb_spec q p) as [->|]; [|done].
    unfold find_process. rewrite get_process_by_pid_eq. unfold find_index_by_pid.
    destruct (find_pid_cases s p) as [[-> _]|(j & -> & Hj & Hp & _)]; [done|].
    case_if; [lia|]. simpl. do 2 f_equal. case_if; [|done]. apply is_state_spec in Heqb0.
    exfalso. by apply (Hno j).
  - assert (live s i) as Hl by (unfold live; congruence).
    assert (slot i) as Hsl.
    { destruct (decide (i = 0)) as [->|]; [|slia]. destruct (si_idle _ Hinv) as [? _]. lia. }
    destruct (si_rep _ Hinv) as [Q Hrep].
    destruct (make_ready_spec s Q Hrep i true Hsl) as (_ & Hu & _); [congruence..|].
    rewrite (find_process_upd i PROCESS_READY s) by (done || (eapply one_upd_state_upd; done)).
    rewrite Hp. case_if; [|done].
    unfold find_process. rewrite get_process_by_pid_eq. unfold find_index_by_pid.
    assert (q = pid (proc s i)) as -> by lia. rewrite find_pid_live by done.
    case_if; [done|]. simpl. by rewrite Hst.
Qed.

Lemma find_process_prio s p st pr :
  sched_inv s -> 0 < p -> find_process p s = Some (st, pr) ->
  PROCESS_PRIORITY_MIN <= pr <= PROCESS_PRIORITY_MAX.
Proof.
  intros Hinv Hp. unfold find_process. rewrite get_process_by_pid_eq. unfold find_index_by_pid.
  destruct (find_pid_cases s p) as [[-> _]|(j & -> & Hj & Hpj & Hl)]; [done|].
  case_if; [done|]. intros [= _ <-]. destruct (decide (j = 0)) as [->|].
  - destruct (si_idle _ Hinv) as [? _]. lia.
  - apply (si_prio _ Hinv); [slia|done].
Qed.

Lemma getpid_state_upd i st s s' :
  sched_inv s -> current_idx s' = current_idx s -> state_upd i st s s' ->
  scheduler_getpid s' = scheduler_getpid s.
Proof.
  intros Hinv Hc Hu. unfold scheduler_getpid. rewrite Hc. case_if; [done|].
  by apply Hu, (si_current _ Hinv).
Qed.

Lemma scheduler_block_current_idx s p : current_idx (scheduler_block p s) = current_idx s.
Proof.
  unfold scheduler_block. repeat case_if; try done; cbn; apply (rf_current _ _ (remove_frame s _)).
Qed.

(** The laws hold up to any set of exceptions. *)
Lemma Sched_laws_ex : @SchedulerLaws Sched _ (sched_inv_ex X).
Proof.
  split; simpl.
  - intros. by apply scheduler_block_inv.
  - intros. by apply scheduler_unblock_inv.
  - intros. by apply find_process_block.
  - intros. by apply find_process_unblock.
  - intros s p Hinv. destruct (find_pid_cases s p) as [[E _]|(i & E & Hi & _)].
    + unfold scheduler_block. by rewrite E.
    + apply (getpid_state_upd i PROCESS_BLOCKED); [done|apply scheduler_block_current_idx|by apply scheduler_block_one].
  - intros s p Hinv. destruct (unblock_cases s p Hinv) as [[-> _]|(i & -> & Hi & Hp & Hst)]; [done|].
    destruct (decide (slot i)) as [Hsl|Hno]; [|rewrite make_ready_skip; [done|tauto]].
    destruct (si_rep _ Hinv) as [Q Hrep].
    destruct (make_ready_spec s Q Hrep i true Hsl) as (_ & Hu & _); [congruence..|].
    apply (getpid_state_upd i PROCESS_READY); [done|apply Hu|]. by eapply one_upd_state_upd.
  - intros. by eapply find_process_prio.
Qed.

End Laws.

#[export] Instance Sched_laws : SchedulerLaws Sched.
Proof. apply Sched_laws_ex. Qed.
