(* ===== verification/SchedProps.v ===== *)
(** * Properties of the scheduler

    The theorems about [Kernel/scheduler.c] that concern the process table and
    the ready queues alone. *)

From S2P Require Import Prelude Process ReadyQueue Sched Lifecycle SchedIface.
Local Open Scope Z_scope.

(** C2: No starvation.  From any state of the scheduler, a READY process
    becomes the running one within 89 timer ticks, whatever the priorities of
    the others and whatever stack pointers the ticks save: at most
    [MAX_PROCESSES] plus 24 ticks of aging. *)
Theorem no_starvation (s : Sched) (i : Z) (rs : list Z) :
  sched_inv s -> slot i -> state (proc s i) = PROCESS_READY ->
  (Z.to_nat WAIT_BOUND < length rs)%nat ->
  exists k, (0 < k <= S (Z.to_nat WAIT_BOUND))%nat /\ current_idx (ticks (take k rs) s) = i.
Proof.
  intros Hinv Hi Hst Hlen. destruct (si_rep _ Hinv) as [Q Hrep].
  eapply rank_dispatched; try done. rewrite Z2Nat.id by (unfold WAIT_BOUND; slia).
  by apply rank_bound.
Qed.

Lemma no_starvation_witness :
  state (proc demo_sched 1) = PROCESS_READY /\
  exists k, (0 < k <= 89)%nat /\ current_idx (ticks (take k (replicate 89 0)) demo_sched) = 1.
Proof.
  split; [vm_compute; reflexivity|].
  apply (no_starvation demo_sched 1 (replicate 89 0) demo_sched_inv);
    [slia|vm_compute; reflexivity|vm_compute; lia].
Defined.

(** The invariant of the scheduler is preserved by the timer tick and by
    every operation a process can request: the queue links stay well formed,
    exactly the READY processes are queued, at most one process runs, pids
    are unique, priorities stay in range and [process_count] is right. *)
Theorem sched_ops_inv (s : Sched) :
  sched_inv s ->
  (forall r, sched_inv (scheduler_tick r s).2) /\
  (forall p, sched_inv (scheduler_block p s)) /\
  (forall p, sched_inv (scheduler_unblock p s)) /\
  (forall p pr, sched_inv (scheduler_nice p pr s).2) /\
  sched_inv (scheduler_yield s).
Proof.
  intros Hinv. split_and!; intros.
  - by apply scheduler_tick_inv.
  - by apply scheduler_block_inv.
  - by apply scheduler_unblock_inv.
  - by apply scheduler_nice_inv.
  - by apply scheduler_yield_inv.
Qed.

Lemma sched_ops_inv_witness :
  sched_inv demo_sched /\ sched_inv (scheduler_nice 1 5 demo_sched).2.
Proof.
  split; [exact demo_sched_inv|].
  exact (proj1 (proj2 (proj2 (proj2 (sched_ops_inv demo_sched demo_sched_inv)))) 1 5).
Defined.

(** C8: The tick runs the head of the highest non-empty queue.  The current
    process, if it was running, goes to the end of the queue of its priority;
    one round of aging follows; then the first process of the highest level
    that is not empty becomes the current one, RUNNING with a fresh quantum,
    and its saved stack pointer is the result.  The idle process runs exactly
    when every queue is empty. *)
Theorem tick_runs_highest (s : Sched) (r : Z) :
  sched_inv s ->
  exists Q, ready_rep (tick_requeue r s) Q /\
  let A := rq_aged (tick_requeue r s) MAX_PROCESSES Q in
  let '(sp, s') := scheduler_tick r s in
  let x := current_idx s' in
  sp = rsp (proc s' x) /\ state (proc s' x) = PROCESS_RUNNING /\
  quantums_left (proc s' x) = DEFAULT_QUANTUM /\ need_resched s' = 0 /\
  ((x = 0 /\ forall q, 0 <= q < PRIORITY_LEVELS -> A q = []) \/
   (slot x /\ exists m l, 0 <= m < PRIORITY_LEVELS /\ A m = x :: l /\
      (forall q, m < q < PRIORITY_LEVELS -> A q = []) /\ ready_rep s' (fupd A m l))).
Proof.
  intros Hinv. rewrite tick_dispatches by done.
  destruct (tick_requeue_inv r s Hinv) as [Hinv1 _]. destruct (si_rep _ Hinv1) as [Q Hrep].
  exists Q. split; [done|].
  destruct (dequeue_next_ready_spec _ Q Hinv1 Hrep) as (x & s1 & Q' & E & Hx & Hr & Hp & _ & _ & Hc).
  unfold dispatch_next. rewrite E. cbv zeta.
  change (current_idx (run_next x s1)) with x.
  rewrite run_next_proc, Z.eqb_refl by (done || apply Hr). cbn [state rsp quantums_left set_quantums_left set_state].
  split_and!; try done. destruct Hc as [(-> & _ & Hc)|(Hs & m & l & Hm & HA & Hup & ->)]; [by left|right].
  split; [done|]. exists m, l. split_and!; try done; try lia. by apply run_next_rep.
Qed.

Lemma tick_runs_highest_witness :
  sched_inv two_ready /\ (exists Q, ready_rep (tick_requeue 500 two_ready) Q) /\
  current_idx (scheduler_tick 500 two_ready).2 = 2.
Proof.
  split; [exact two_ready_inv|]. split; [|vm_compute; reflexivity].
  destruct (tick_runs_highest two_ready 500 two_ready_inv) as (Q & H & _). exists Q. exact H.
Defined.

(** C39: The ready queues are FIFO queues.  On links that represent the queues
    [Q], enqueueing an entry appends it to the queue of its effective
    priority, removing an entry deletes it wherever it stands, and dequeueing
    takes the head of the given level; each result is again well formed. *)
Theorem ready_queues_fifo (s : Sched) (Q : Z -> list Z) :
  ready_rep s Q ->
  (forall idx, slot idx -> ctrue (in_ready_queue (proc s idx)) = false ->
     ready_rep (enqueue_ready_queue idx s)
       (rq_append (priority_queue_index (effective_priority (proc s idx))) idx Q)) /\
  (forall idx, ready_rep (remove_from_ready_queue idx s) (rq_remove idx Q)) /\
  (forall pr, match Q (priority_queue_index pr) with
     | [] => dequeue_ready_queue pr s = (READY_NONE, s)
     | x :: l => exists s', dequeue_ready_queue pr s = (x, s') /\
         ready_rep s' (fupd Q (priority_queue_index pr) l)
     end).
Proof.
  intros Hrep. split_and!.
  - intros idx Hi Ho. by apply enqueue_rep.
  - intros idx. by apply remove_rep.
  - intros pr. pose proof (dequeue_spec s Q pr Hrep) as Hd. cbv zeta in Hd.
    destruct (Q (priority_queue_index pr)); [done|].
    destruct Hd as (s' & E & _ & Hr & _). by exists s'.
Qed.

Lemma ready_queues_fifo_witness :
  exists Q, ready_rep two_ready Q /\ ready_rep (remove_from_ready_queue 1 two_ready) (rq_remove 1 Q).
Proof.
  destruct (si_rep _ two_ready_inv) as [Q Hrep]. exists Q. split; [exact Hrep|].
  exact (proj1 (proj2 (ready_queues_fifo two_ready Q Hrep)) 1).
Defined.

(** The removal loop always ends.  Within the fuel it is given it reaches
    the entry it looks for, for every entry whose flag says it is queued: the
    fall-back of an exhausted loop is never used. *)
Theorem remove_loop_terminates (s : Sched) (Q : Z -> list Z) (idx : Z) :
  ready_rep s Q -> slot idx -> ctrue (in_ready_queue (proc s idx)) = true ->
  let q := priority_queue_index (effective_priority (proc s idx)) in
  exists s', remove_loop (Z.to_nat MAX_PROCESSES) q idx READY_NONE (rq_head (queue s q)) s = Some s'.
Proof.
  intros Hrep Hi Hin q. destruct (remove_split s Q Hrep idx Hi Hin) as (l1 & l2 & E & H1 & H2).
  eexists. apply (remove_loop_done s Q Hrep idx Hi Hin l1 l2); [done|done|].
  apply Nat.lt_le_incl, (rr_length _ _ Hrep), priority_queue_index_range.
Qed.

Lemma remove_loop_terminates_witness :
  ctrue (in_ready_queue (proc two_ready 2)) = true /\
  exists s', remove_loop (Z.to_nat MAX_PROCESSES) 4 2 READY_NONE (rq_head (queue two_ready 4)) two_ready = Some s'.
Proof.
  split; [vm_compute; reflexivity|]. destruct (si_rep _ two_ready_inv) as [Q Hrep].
  exact (remove_loop_terminates two_ready Q 2 Hrep ltac:(slia) ltac:(vm_compute; reflexivity)).
Defined.

(** One round of aging.  Every queued READY process waits one tick more;
    one that has waited [AGING_THRESHOLD_TICKS] ticks below the top priority
    moves to the end of the next higher queue with its waiting time reset;
    the order of the others does not change, and no process enters or leaves
    the queues. *)
Theorem aging_round (s : Sched) (Q : Z -> list Z) :
  sched_inv s -> ready_rep s Q ->
  let s' := age_ready_processes s in
  ready_rep s' (fun q =>
    filter (fun x => ~ (x < MAX_PROCESSES /\ promoted s x = true)) (Q q) ++
    filter (fun x => promoted s x = true /\ level s x + 1 = q) (seqZ 1 (MAX_PROCESSES - 1))) /\
  (forall i, slot i -> pcb_core (proc s' i) = pcb_core (age_entry (proc s i)) /\
     (ctrue (in_ready_queue (proc s' i)) = ctrue (in_ready_queue (proc s i)))) /\
  current_idx s' = current_idx s /\ need_resched s' = need_resched s.
Proof.
  intros Hinv Hrep s'.
  destruct (age_ready_processes_spec s Q Hrep (inv_queued_prio s Hinv)) as (Hr & _ & Hc & _ & Hn & Hp).
  split_and!; try done. intros i Hi. destruct (Hp i ltac:(slia)) as [H1 H2].
  replace (i =? 0) with false in H1 by slia. done.
Qed.

Lemma aging_round_witness :
  sched_inv two_ready /\ current_idx (age_ready_processes two_ready) = 0 /\
  ready_wait_ticks (proc (age_ready_processes two_ready) 1) = 1.
Proof.
  split; [exact two_ready_inv|]. split; [|vm_compute; reflexivity].
  destruct (si_rep _ two_ready_inv) as [Q Hrep].
  destruct (aging_round two_ready Q two_ready_inv Hrep) as (_ & _ & H & _). exact H.
Defined.

(** [scheduler_nice] rejects priorities outside 1..5 and unknown pids
    with -1 and no effect.  Otherwise it sets the priority and the effective
    priority of that process alone, resets its waiting time and moves it to
    the end of the queue of the new priority if it was queued. *)
Theorem nice_spec (s : Sched) (p pr : Z) :
  sched_inv s ->
  (~ (PROCESS_PRIORITY_MIN <= pr <= PROCESS_PRIORITY_MAX) \/ find_process p s = None ->
   scheduler_nice p pr s = (-1, s)) /\
  (forall i, PROCESS_PRIORITY_MIN <= pr <= PROCESS_PRIORITY_MAX -> get_process_by_pid p s = i -> 0 <= i ->
   let '(r, s') := scheduler_nice p pr s in
   r = 0 /\ sched_inv s' /\
   priority (proc s' i) = pr /\ effective_priority (proc s' i) = pr /\
   ready_wait_ticks (proc s' i) = 0 /\ state (proc s' i) = state (proc s i) /\
   forall j, 0 <= j < MAX_PROCESSES -> j <> i -> pcb_core (proc s' j) = pcb_core (proc s j)).
Proof.
  intros Hinv. split.
  - intros Hbad. unfold scheduler_nice. case_if; [done|].
    destruct Hbad as [Hbad|Hbad]; [slia|]. unfold find_process in Hbad. rewrite get_process_by_pid_eq in Hbad.
    unfold find_index_by_pid in Hbad. destruct (find_pid_cases s p) as [[-> _]|(j & Ej & Hj & _)]; [done|].
    rewrite Ej in Hbad. replace (j <? 0) with false in Hbad by lia. done.
  - intros i Hpr Hi Hge. pose proof (scheduler_nice_inv s p pr Hinv) as Hinv'.
    rewrite get_process_by_pid_eq in Hi. unfold find_index_by_pid in Hi.
    destruct (find_pid_cases s p) as [[E _]|(j & E & Hj & _)]; [lia|].
    assert (one_upd i (fun p => set_quantums_left DEFAULT_QUANTUM (set_ready_wait_ticks 0
      (set_effective_priority pr (set_priority pr p)))) s (scheduler_nice p pr s).2 /\ (scheduler_nice p pr s).1 = 0) as [Hu Hr].
    { unfold scheduler_nice. case_if; [slia|]. rewrite Hi. case_if; [lia|]. cbn [fst snd]. split; [|done].
      destruct (si_rep _ Hinv) as [Q Hrep]. pose proof (rr_sized _ _ Hrep) as Hs.
      set (f := fun q => set_quantums_left DEFAULT_QUANTUM _).
      assert (forall p q, pcb_core p = pcb_core q -> pcb_core (f p) = pcb_core (f q)) as Hf by (unfold f; core_tac).
      assert (one_upd i f s (if ctrue (in_ready_queue (proc s i))
        then enqueue_ready_queue i (upd_proc i f (if ctrue (in_ready_queue (proc s i)) then remove_from_ready_queue i s else s))
        else upd_proc i f (if ctrue (in_ready_queue (proc s i)) then remove_from_ready_queue i s else s))) as Hu.
      { destruct (ctrue (in_ready_queue (proc s i))).
        - eapply one_upd_frame_r; [|apply enqueue_frame]. eapply one_upd_frame_l; [exact Hf|apply remove_frame|].
          apply one_upd_upd; [|lia]. apply (rr_sized _ _ (remove_rep s Q i Hrep)).
        - apply one_upd_upd; [done|lia]. }
      case_if; [by apply one_upd_resched|done]. }
    destruct (scheduler_nice p pr s) as [r s']. cbn [fst snd] in *. subst r.
    assert (forall B (g : PCB -> B), (forall q, g q = g (pcb_core q)) -> forall j, 0 <= j < MAX_PROCESSES ->
      g (proc s' j) = if j =? i then g (set_quantums_left DEFAULT_QUANTUM (set_ready_wait_ticks 0
      (set_effective_priority pr (set_priority pr (proc s j))))) else g (proc s j)) as Hg
      by (intros; by apply (one_upd_field g i _ _ _ _ H Hu)).
    rewrite (Hg _ priority), (Hg _ effective_priority), (Hg _ ready_wait_ticks), (Hg _ state), !Z.eqb_refl by (done || lia).
    split_and!; try done. intros k Hk Hne. rewrite (ou_core _ _ _ _ Hu) by done.
    by replace (k =? i) with false by lia.
Qed.

Lemma nice_spec_witness :
  scheduler_nice 1 6 demo_sched = (-1, demo_sched) /\ priority (proc (scheduler_nice 1 5 demo_sched).2 1) = 5.
Proof.
  split; [|vm_compute; reflexivity]. apply (proj1 (nice_spec demo_sched 1 6 demo_sched_inv)). left. slia.
Defined.

(** Blocking and unblocking.  [scheduler_block] makes the process with
    that pid BLOCKED and takes it out of the ready queues; [scheduler_unblock]
    makes a BLOCKED process READY and queues it, and does nothing to a process
    in another state.  No other process changes state. *)
Theorem block_unblock_spec (s : Sched) (p q : Z) :
  sched_inv s -> 0 < p ->
  find_process q (scheduler_block p s) =
    (if q =? p then (fun x => (PROCESS_BLOCKED, x.2)) <$> find_process q s else find_process q s) /\
  find_process q (scheduler_unblock p s) =
    (if q =? p
     then (fun x => (if is_state x.1 PROCESS_BLOCKED then PROCESS_READY else x.1, x.2)) <$> find_process q s
     else find_process q s) /\
  (forall i, slot i -> (ctrue (in_ready_queue (proc (scheduler_unblock p s) i)) = true <->
     state (proc (scheduler_unblock p s) i) = PROCESS_READY)).
Proof.
  intros Hinv Hp. split_and!.
  - by apply (find_process_block (X := none)).
  - by apply (find_process_unblock (X := none)).
  - intros i Hi. apply ready_queued; [by apply scheduler_unblock_inv|done].
Qed.

Lemma block_unblock_spec_witness :
  find_process 1 (scheduler_block 1 demo_sched) = Some (PROCESS_BLOCKED, 3).
Proof. rewrite (proj1 (block_unblock_spec demo_sched 1 1 demo_sched_inv ltac:(lia))). vm_compute. reflexivity. Defined.

(** A finished process can be brought back.  [scheduler_block] also
    accepts a ZOMBIE process, whose exit is waiting to be collected, so that
    blocking and unblocking it makes it READY again. *)
Theorem zombie_resurrected (s : Sched) (p pr : Z) :
  sched_inv s -> 0 < p -> find_process p s = Some (PROCESS_ZOMBIE, pr) ->
  find_process p (scheduler_unblock p (scheduler_block p s)) = Some (PROCESS_READY, pr).
Proof.
  intros Hinv Hp Hz.
  rewrite (find_process_unblock (X := none)), (find_process_block (X := none)), Z.eqb_refl, Hz
    by (done || by apply scheduler_block_inv).
  done.
Qed.

(** A process that has exited: the running process of the concrete table. *)
Definition zombie_sched : Sched := upd_proc 2 (set_state PROCESS_ZOMBIE) demo_sched.

Lemma zombie_sched_inv : sched_inv zombie_sched.
Proof.
  apply zombify_inv; [apply demo_sched_inv|slia|unfold live; vm_compute; discriminate|vm_compute; reflexivity].
Qed.

Lemma zombie_resurrected_witness :
  find_process 2 (scheduler_unblock 2 (scheduler_block 2 zombie_sched)) = Some (PROCESS_READY, 5).
Proof.
  apply (zombie_resurrected zombie_sched 2 5 zombie_sched_inv); [lia|vm_compute; reflexivity].
Defined.

(** [scheduler_list] copies, in table order, the first [max] entries that
    are not DEAD, and returns how many it copied. *)
Theorem list_spec (s : Sched) (max : Z) :
  0 <= max ->
  scheduler_list max s =
  take (Z.to_nat max) (proc s <$> filter (fun i => state (proc s i) <> PROCESS_DEAD) (seqZ 0 MAX_PROCESSES)).
Proof.
  intros Hmax. unfold scheduler_list.
  set (P := fun i => state (proc s i) <> PROCESS_DEAD).
  assert (forall l out, Z.of_nat (length out) <= max ->
    foldl (fun out i => if (Z.of_nat (length out) <? max) && negb (state_is s i PROCESS_DEAD)
                        then out ++ [proc s i] else out) out l =
    take (Z.to_nat max) (out ++ (proc s <$> filter P l))) as H.
  { induction l as [|i l IH]; intros out Hout; simpl.
    - rewrite app_nil_r, take_ge by lia. done.
    - rewrite filter_cons. unfold P at 2. destruct (state_is s i PROCESS_DEAD) eqn:Est.
      + apply state_is_spec in Est. rewrite decide_False, andb_false_r by tauto. by apply IH.
      + apply is_state_neg in Est. rewrite decide_True, andb_true_r by done. case_if.
        * rewrite IH by (rewrite length_app; simpl; lia). by rewrite <- app_assoc.
        * rewrite IH by done. rewrite !take_app_le by lia. done. }
  rewrite H; [done|simpl; lia].
Qed.

Lemma list_spec_witness : 0 <= 2 /\ pid <$> scheduler_list 2 demo_sched = [0; 1].
Proof. split; [lia|]. rewrite (list_spec demo_sched 2 ltac:(lia)). vm_compute. reflexivity. Defined.
