(* ===== verification/Semaphore.v ===== *)
(** * Semaphores

    [Kernel/semaphore.c]: a table of named counting semaphores with explicit
    queues of waiting pids.  The operations are written against the scheduler
    interface of [SchedIface.v].  The theorems refine the array loops to list
    operations on the queue of waiters, state which waiter a post wakes, and
    prove that the counter and the queue stay consistent, so that no more
    processes pass a semaphore than its counter allows. *)

From S2P Require Import Prelude Process Lib SchedIface.
Local Open Scope Z_scope.

(** ** Data *)

Definition MAX_SEMAPHORES : Z := 64.
Definition MAX_WAITING : Z := 64.
Definition NAME_LEN : Z := 32.

Record Semaphore := mkSem {
  sname : list Z;
  value : Z;
  waiting : list Z;
  waiting_credit : list Z;
  wait_count : Z;
  active : Z;
  ref_count : Z
}.

Definition set_sname v m := mkSem v (value m) (waiting m) (waiting_credit m) (wait_count m) (active m) (ref_count m).
Definition set_value v m := mkSem (sname m) v (waiting m) (waiting_credit m) (wait_count m) (active m) (ref_count m).
Definition set_waiting v m := mkSem (sname m) (value m) v (waiting_credit m) (wait_count m) (active m) (ref_count m).
Definition set_waiting_credit v m := mkSem (sname m) (value m) (waiting m) v (wait_count m) (active m) (ref_count m).
Definition set_wait_count v m := mkSem (sname m) (value m) (waiting m) (waiting_credit m) v (active m) (ref_count m).
Definition set_active v m := mkSem (sname m) (value m) (waiting m) (waiting_credit m) (wait_count m) v (ref_count m).
Definition set_ref_count v m := mkSem (sname m) (value m) (waiting m) (waiting_credit m) (wait_count m) (active m) v.

(** The static table starts zeroed. *)
Definition zero_sem : Semaphore :=
  mkSem (replicate 32 0) 0 (replicate 64 0) (replicate 64 0) 0 0 0.

#[export] Instance Semaphore_inhabited : Inhabited Semaphore := populate zero_sem.

(** The table, and the scheduler it calls. *)
Record SemSt (St : Type) := mkSemSt { sem_sched : St; sem_table : list Semaphore }.
Arguments mkSemSt {St}.
Arguments sem_sched {St}.
Arguments sem_table {St}.

(** ** Operations *)

Section Ops.
Context {St : Type} `{Scheduler St}.
Implicit Types s : SemSt St.

Definition set_sem_sched (v : St) s : SemSt St := mkSemSt v (sem_table s).

(** [sem_table[i]] and assignments to its fields. *)
Definition sem s (i : Z) : Semaphore := (sem_table s).[i].

Definition upd_sem (i : Z) (f : Semaphore -> Semaphore) s : SemSt St :=
  mkSemSt (sem_sched s) (alteri f i (sem_table s)).

Definition find_by_name (nm : list Z) s : Z :=
  find_idx (fun i => (active (sem s i) =? 1) && (strcmp (sname (sem s i)) nm =? 0)) 0 MAX_SEMAPHORES.

Definition sem_find_free_slot s : Z :=
  find_idx (fun i => active (sem s i) =? 0) 0 MAX_SEMAPHORES.

Definition is_valid (id : Z) s : bool :=
  (0 <=? id) && (id <? MAX_SEMAPHORES) && (active (sem s id) =? 1).

(** [None]: the name does not fit and [strcpy] overwrites the fields after it. *)
Definition sem_open (nm : list Z) (initial_value : Z) s : option (Z * SemSt St) :=
  let id := find_by_name nm s in
  if negb (id =? -1) then
    Some (id, upd_sem id (fun m => set_ref_count (ref_count m + 1) m) s)
  else
    let id := sem_find_free_slot s in
    if id =? -1 then Some (-1, s)
    else
      buf ← strcpy (sname (sem s id)) nm;
      Some (id, upd_sem id (fun m => set_ref_count 1 (set_active 1 (set_wait_count 0
                  (set_value initial_value (set_sname buf m))))) s).

Definition sem_close (id : Z) s : Z * SemSt St :=
  if negb (is_valid id s) then (-1, s)
  else
    let s := upd_sem id (fun m => set_ref_count (ref_count m - 1) m) s in
    (0, if ref_count (sem s id) <=? 0
        then upd_sem id (fun m => set_wait_count 0 (set_active 0 m)) s else s).

End Ops.

(** Queue operations on one semaphore. *)

Definition shift_left (m : Semaphore) (i : Z) : Semaphore :=
  let m := set_waiting (seti i ((waiting m).[i + 1]) (waiting m)) m in
  set_waiting_credit (seti i ((waiting_credit m).[i + 1]) (waiting_credit m)) m.

Definition dequeue_at (index : Z) (m : Semaphore) : Z * Semaphore :=
  let p := (waiting m).[index] in
  let m := for_loop index (wait_count m - 1 - index) shift_left m in
  (p, set_wait_count (wait_count m - 1) m).

Definition age_waiter (selected_idx : Z) (m : Semaphore) (i : Z) : Semaphore :=
  if negb (i =? selected_idx) && ((waiting_credit m).[i] <? 5)
  then set_waiting_credit (seti i ((waiting_credit m).[i] + 1) (waiting_credit m)) m
  else m.

Definition age_waiters_except (selected_idx : Z) (m : Semaphore) : Semaphore :=
  for_loop 0 (wait_count m) (age_waiter selected_idx) m.

(** One iteration of [remove_waiting_pid_from_sem], with [write_idx] and
    [removed]. *)
Definition remove_step (p : Z) (x : Semaphore * Z * Z) (read_idx : Z) : Semaphore * Z * Z :=
  let '(m, write_idx, removed) := x in
  if negb ((waiting m).[read_idx] =? p) then
    let m := set_waiting (seti write_idx ((waiting m).[read_idx]) (waiting m)) m in
    let m := set_waiting_credit (seti write_idx ((waiting_credit m).[read_idx]) (waiting_credit m)) m in
    (m, write_idx + 1, removed)
  else (m, write_idx, removed + 1).

Definition remove_waiting_pid_from_sem (p : Z) (m : Semaphore) : Z * Semaphore :=
  let '(m, write_idx, removed) := for_loop 0 (wait_count m) (remove_step p) (m, 0, 0) in
  (removed, set_wait_count write_idx m).

Definition enqueue (p : Z) (m : Semaphore) : Z * Semaphore :=
  let '(_, m) := remove_waiting_pid_from_sem p m in
  if wait_count m >=? MAX_WAITING then (-1, m)
  else
    let m := set_waiting (seti (wait_count m) p (waiting m)) m in
    let m := set_waiting_credit (seti (wait_count m) 0 (waiting_credit m)) m in
    (0, set_wait_count (wait_count m + 1) m).

Section Waiting.
Context {St : Type} `{Scheduler St}.
Implicit Types s : SemSt St.

(** One iteration of the scan for the best waiter. *)
Definition scan_step (sch : St) (m : Semaphore) (best : Z * Z) (i : Z) : Z * Z :=
  match sch_find ((waiting m).[i]) sch with
  | Some (st, pr) =>
      let score := pr + (waiting_credit m).[i] in
      if is_state st PROCESS_BLOCKED && (score >? best.2) then (i, score) else best
  | None => best
  end.

Definition best_waiter (sch : St) (m : Semaphore) : Z :=
  (for_loop 0 (wait_count m) (scan_step sch m) (-1, -1)).1.

(** The [while] loop; each iteration that does not return removes a waiter. *)
Fixpoint unblock_loop (fuel : nat) (id : Z) s : option (Z * SemSt St) :=
  match fuel with
  | O => None
  | S fuel =>
      if wait_count (sem s id) >? 0 then
        let best_idx := best_waiter (sem_sched s) (sem s id) in
        if best_idx <? 0 then
          unblock_loop fuel id (upd_sem id (fun m => (dequeue_at 0 m).2) s)
        else
          let s := upd_sem id (age_waiters_except best_idx) s in
          let p := (dequeue_at best_idx (sem s id)).1 in
          let s := upd_sem id (fun m => (dequeue_at best_idx m).2) s in
          match sch_find p (sem_sched s) with
          | Some _ => Some (1, set_sem_sched (sch_unblock p (sem_sched s)) s)
          | None => unblock_loop fuel id s
          end
      else Some (0, s)
  end.

Definition unblock_one_waiter (id : Z) s : option (Z * SemSt St) :=
  unblock_loop (S (Z.to_nat (wait_count (sem s id)))) id s.

Definition sem_post (id : Z) s : option (Z * SemSt St) :=
  if negb (is_valid id s) then Some (-1, s)
  else
    let s := upd_sem id (fun m => set_value (value m + 1) m) s in
    if value (sem s id) <=? 0 then
      '(_, s) ← unblock_one_waiter id s; Some (0, s)
    else Some (0, s).

Fixpoint post_all_loop (fuel : nat) (id : Z) s : option (SemSt St) :=
  match fuel with
  | O => None
  | S fuel =>
      if wait_count (sem s id) >? 0 then
        let s := upd_sem id (fun m => set_value (value m + 1) m) s in
        '(_, s) ← unblock_one_waiter id s;
        post_all_loop fuel id s
      else Some s
  end.

Definition sem_post_all (id : Z) s : option (Z * SemSt St) :=
  if negb (is_valid id s) then Some (-1, s)
  else
    s ← post_all_loop (S (Z.to_nat (wait_count (sem s id)))) id s;
    Some (0, if value (sem s id) <? 0 then upd_sem id (set_value 0) s else s).

Definition sem_wait (id : Z) s : Z * SemSt St :=
  if negb (is_valid id s) then (-1, s)
  else
    let p := sch_getpid (sem_sched s) in
    let s := upd_sem id (fun m => set_value (value m - 1) m) s in
    if value (sem s id) >=? 0 then (0, s)
    else
      let r := (enqueue p (sem s id)).1 in
      let s := upd_sem id (fun m => (enqueue p m).2) s in
      if r <? 0 then (-1, upd_sem id (fun m => set_value (value m + 1) m) s)
      else (1, set_sem_sched (sch_block p (sem_sched s)) s).

Definition remove_waiting_sem (p : Z) (m : Semaphore) : Semaphore :=
  if ctrue (active m) then
    let '(removed, m) := remove_waiting_pid_from_sem p m in
    set_value (value m + removed) m
  else m.

Definition sem_remove_waiting_pid (p : Z) s : SemSt St :=
  for_loop 0 MAX_SEMAPHORES (fun s i => upd_sem i (remove_waiting_sem p) s) s.

End Waiting.

(** ** The queue of waiters

    [wlk n m]: the first [n] entries of the two arrays, as pairs of a pid and
    its credit.  [waiters m] is the queue. *)

Definition wait_at (m : Semaphore) (i : Z) : Z * Z := ((waiting m).[i], (waiting_credit m).[i]).

Definition wlk (n : Z) (m : Semaphore) : list (Z * Z) := wait_at m <$> seqZ 0 n.

Definition waiters (m : Semaphore) : list (Z * Z) := wlk (wait_count m) m.

(** The arrays keep their sizes and the count stays within them. *)
Record sem_wf (m : Semaphore) : Prop := {
  wf_waiting : length (waiting m) = 64%nat;
  wf_credit : length (waiting_credit m) = 64%nat;
  wf_name : length (sname m) = 32%nat /\ chars (sname m);
  wf_count : 0 <= wait_count m <= MAX_WAITING
}.

(** The two arrays of [m'] have the sizes of those of [m], and its other
    fields are the same except possibly [wait_count]. *)
Record queue_upd (m m' : Semaphore) : Prop := {
  qu_waiting : length (waiting m') = length (waiting m);
  qu_credit : length (waiting_credit m') = length (waiting_credit m);
  qu_name : sname m' = sname m;
  qu_value : value m' = value m;
  qu_active : active m' = active m;
  qu_ref : ref_count m' = ref_count m
}.

#[export] Instance queue_upd_preorder : PreOrder queue_upd.
Proof. split; [by intros m|]. intros m1 m2 m3 [] []. split; congruence. Qed.

Lemma queue_upd_wf m m' :
  queue_upd m m' -> sem_wf m -> 0 <= wait_count m' <= MAX_WAITING -> sem_wf m'.
Proof. intros [] []. split; congruence || done. Qed.

Lemma wlk_snoc n m : 0 <= n -> wlk (n + 1) m = wlk n m ++ [wait_at m n].
Proof. intros. unfold wlk. by rewrite seqZ_snoc, fmap_app by lia. Qed.

Lemma wlk_length n m : 0 <= n -> Z.of_nat (length (wlk n m)) = n.
Proof. intros. unfold wlk. rewrite length_fmap, length_seqZ. lia. Qed.

Lemma wlk_ext n m m' : (forall i, 0 <= i < n -> wait_at m' i = wait_at m i) -> wlk n m' = wlk n m.
Proof.
  intros Hext. unfold wlk. apply list_fmap_ext. intros k i Hi.
  apply list_elem_of_lookup_2, elem_of_seqZ in Hi. apply Hext. lia.
Qed.

Lemma wlk_lookup n m i : 0 <= i < n -> wlk n m !! Z.to_nat i = Some (wait_at m i).
Proof. intros. unfold wlk. rewrite list_lookup_fmap, lookup_seqZ_lt by lia. simpl. do 2 f_equal. lia. Qed.

(** Writing entry [i] of both arrays. *)
Definition put_waiter (i : Z) (x : Z * Z) (m : Semaphore) : Semaphore :=
  set_waiting_credit (seti i x.2 (waiting_credit m)) (set_waiting (seti i x.1 (waiting m)) m).

Lemma put_waiter_upd i x m : queue_upd m (put_waiter i x m) /\ wait_count (put_waiter i x m) = wait_count m.
Proof. split; [split|]; simpl; by rewrite ?length_seti. Qed.

Lemma put_waiter_at i x m j :
  sem_wf m -> 0 <= i < MAX_WAITING ->
  wait_at (put_waiter i x m) j = if j =? i then x else wait_at m j.
Proof.
  intros Hwf Hi. unfold wait_at, put_waiter. simpl. unfold MAX_WAITING in *.
  pose proof (wf_waiting _ Hwf). pose proof (wf_credit _ Hwf).
  destruct (Z.eqb_spec j i) as [->|].
  - rewrite !geti_seti_eq by lia. by destruct x.
  - by rewrite !geti_seti_ne.
Qed.

(** ** [dequeue_at] deletes from the queue *)

Lemma delete_snoc {A} (l : list A) i x :
  (i < length l)%nat -> delete i (l ++ [x]) = delete i l ++ [x].
Proof.
  revert i. induction l as [|y l IH]; intros i Hi; simpl in *; [lia|].
  destruct i; [done|]. simpl. f_equal. apply IH. lia.
Qed.

Lemma delete_last {A} (l : list A) x : delete (length l) (l ++ [x]) = l.
Proof. induction l; [done|]. simpl. by f_equal. Qed.

Lemma shift_left_put m i : shift_left m i = put_waiter i (wait_at m (i + 1)) m.
Proof. done. Qed.

Lemma dequeue_at_spec i m :
  sem_wf m -> 0 <= i < wait_count m ->
  let '(p, m') := dequeue_at i m in
  p = (wait_at m i).1 /\ queue_upd m m' /\ sem_wf m' /\ wait_count m' = wait_count m - 1 /\
  waiters m' = delete (Z.to_nat i) (waiters m).
Proof.
  intros Hwf Hi. pose proof (wf_count _ Hwf) as Hc. unfold dequeue_at.
  set (I := fun k m' => queue_upd m m' /\ wait_count m' = wait_count m /\
    wlk k m' = delete (Z.to_nat i) (wlk (k + 1) m) /\
    forall j, k < j -> wait_at m' j = wait_at m j).
  assert (I (i + (wait_count m - 1 - i)) (for_loop i (wait_count m - 1 - i) shift_left m)) as HI.
  { apply for_loop_ind; [lia|..]; unfold I.
    - split_and!; try done. rewrite wlk_snoc by lia.
      replace (Z.to_nat i) with (length (wlk i m)) by (pose proof (wlk_length i m); lia).
      by rewrite delete_last.
    - intros k m1 Hk (Hq & Hwc & Hw & Hj). rewrite shift_left_put.
      assert (sem_wf m1) as Hwf1 by (eapply queue_upd_wf; [done..|lia]).
      destruct (put_waiter_upd k (wait_at m1 (k + 1)) m1) as [Hq' Hwc'].
      split_and!; [by etrans|congruence|..].
      + rewrite wlk_snoc, (wlk_ext k m1) by (lia || (intros; rewrite put_waiter_at by (done || lia); case_if; [lia|done])).
        rewrite put_waiter_at, Z.eqb_refl by (done || lia). rewrite Hw, Hj by lia.
        rewrite (wlk_snoc (k + 1)), delete_snoc by (pose proof (wlk_length (k + 1) m); lia). done.
      + intros j Hj'. rewrite put_waiter_at by (done || lia). case_if; [lia|]. apply Hj. lia. }
  replace (i + (wait_count m - 1 - i)) with (wait_count m - 1) in HI by lia.
  set (m1 := for_loop _ _ _ _) in *. clearbody m1. destruct HI as (Hq & Hwc & Hw & _).
  assert (queue_upd m (set_wait_count (wait_count m1 - 1) m1)) as Hq2 by (destruct Hq; split; done).
  split_and!; [done|done| |simpl; lia|].
  - eapply queue_upd_wf; [done..|]. simpl. lia.
  - unfold waiters. simpl. rewrite Hwc. unfold wlk, wait_at in *. simpl.
    by replace (wait_count m - 1 + 1) with (wait_count m) in Hw by lia.
Qed.

(** ** [remove_waiting_pid_from_sem] filters the queue *)

Lemma remove_waiting_spec p m :
  sem_wf m ->
  let '(removed, m') := remove_waiting_pid_from_sem p m in
  queue_upd m m' /\ sem_wf m' /\
  waiters m' = filter (fun x => x.1 <> p) (waiters m) /\
  wait_count m' = wait_count m - removed /\ 0 <= removed.
Proof.
  intros Hwf. pose proof (wf_count _ Hwf) as Hc. unfold remove_waiting_pid_from_sem.
  set (I := fun k (x : Semaphore * Z * Z) => let '(m', w, r) := x in
    queue_upd m m' /\ wait_count m' = wait_count m /\ 0 <= w /\ 0 <= r /\ w + r = k /\
    wlk w m' = filter (fun x => x.1 <> p) (wlk k m) /\
    forall j, k <= j -> wait_at m' j = wait_at m j).
  assert (I (0 + wait_count m) (for_loop 0 (wait_count m) (remove_step p) (m, 0, 0))) as HI.
  { apply for_loop_ind; [lia|..]; unfold I.
    - split_and!; done.
    - intros k [[m1 w] r] Hk (Hq & Hwc & Hw0 & Hr0 & Hwr & Hw & Hj). unfold remove_step.
      assert (sem_wf m1) as Hwf1 by (eapply queue_upd_wf; [done..|lia]).
      assert ((waiting m1).[k] = (wait_at m k).1) as E by (by rewrite <- (Hj k) by lia).
      rewrite (wlk_snoc k m), list.filter_app by lia. case_if.
      + change (set_waiting_credit _ _) with (put_waiter w (wait_at m1 k) m1).
        destruct (put_waiter_upd w (wait_at m1 k) m1) as [Hq' Hwc'].
        split_and!; try lia; [by etrans|..].
        * rewrite wlk_snoc, (wlk_ext w m1) by (lia || (intros; rewrite put_waiter_at by (done || lia); case_if; [lia|done])).
          rewrite put_waiter_at, Z.eqb_refl by (done || lia). rewrite Hw, (Hj k) by lia.
          rewrite filter_cons_True by (rewrite E in Heqb; lia). done.
        * intros j Hj'. rewrite put_waiter_at by (done || lia). case_if; [lia|]. apply Hj. lia.
      + split_and!; try lia; [done|..].
        * rewrite filter_cons_False by (rewrite E in Heqb; lia). by rewrite app_nil_r.
        * intros j Hj'. apply Hj. lia. }
  rewrite Z.add_0_l in HI. destruct (for_loop _ _ _ _) as [[m1 w] r].
  destruct HI as (Hq & Hwc & Hw0 & Hr0 & Hwr & Hw & _).
  assert (queue_upd m (set_wait_count w m1)) as Hq2 by (destruct Hq; split; done).
  split_and!; try done; [|simpl; lia]. eapply queue_upd_wf; [done..|]. simpl. lia.
Qed.

(** ** [enqueue] *)

Lemma enqueue_spec p m :
  sem_wf m ->
  let W := filter (fun x => x.1 <> p) (waiters m) in
  let '(r, m') := enqueue p m in
  queue_upd m m' /\ sem_wf m' /\
  ((r = -1 /\ Z.of_nat (length W) = MAX_WAITING /\ waiters m' = W) \/
   (r = 0 /\ Z.of_nat (length W) < MAX_WAITING /\ waiters m' = W ++ [(p, 0)])).
Proof.
  intros Hwf W. unfold enqueue. pose proof (remove_waiting_spec p m Hwf) as Hr.
  destruct (remove_waiting_pid_from_sem p m) as [r m1]. destruct Hr as (Hq & Hwf1 & Hw & _).
  pose proof (wf_count _ Hwf1) as Hc. fold W in Hw.
  assert (Z.of_nat (length W) = wait_count m1) as Hlen by (rewrite <- Hw; apply wlk_length; lia).
  case_if.
  - split_and!; try done. left. split_and!; [done|lia|done].
  - change (set_waiting_credit _ _) with (put_waiter (wait_count m1) (p, 0) m1).
    destruct (put_waiter_upd (wait_count m1) (p, 0) m1) as [Hq' Hwc'].
    set (m2 := put_waiter _ _ m1) in *.
    assert (queue_upd m (set_wait_count (wait_count m2 + 1) m2)) as Hq2.
    { etrans; [exact Hq|]. destruct Hq'. split; done. }
    split_and!; [done|..].
    + eapply queue_upd_wf; [done..|]. simpl. lia.
    + right. split_and!; [done|lia|]. unfold waiters. cbn [wait_count set_wait_count].
      change (wlk _ (set_wait_count _ m2)) with (wlk (wait_count m1 + 1) m2).
      rewrite wlk_snoc, (wlk_ext _ m1) by (lia || (intros; unfold m2; rewrite put_waiter_at by (done || lia); case_if; [lia|done])).
      fold (waiters m1). rewrite Hw. unfold m2. rewrite put_waiter_at, Z.eqb_refl by (done || lia). done.
Qed.

(** ** [age_waiters_except] gives credit to the waiters passed over *)

Definition aged (sel : nat) (W : list (Z * Z)) : list (Z * Z) :=
  imap (fun n x => if negb (n =? sel)%nat && (x.2 <? 5) then (x.1, x.2 + 1) else x) W.

Lemma age_waiters_spec sel m :
  sem_wf m -> 0 <= sel ->
  let m' := age_waiters_except sel m in
  queue_upd m m' /\ sem_wf m' /\ wait_count m' = wait_count m /\
  waiters m' = aged (Z.to_nat sel) (waiters m).
Proof.
  intros Hwf Hsel. pose proof (wf_count _ Hwf) as Hc. unfold age_waiters_except.
  set (I := fun k m' => queue_upd m m' /\ wait_count m' = wait_count m /\ 0 <= k /\
    wlk k m' = aged (Z.to_nat sel) (wlk k m) /\ forall j, k <= j -> wait_at m' j = wait_at m j).
  assert (I (0 + wait_count m) (for_loop 0 (wait_count m) (age_waiter sel) m)) as HI.
  { apply for_loop_ind; [lia|by split_and!|].
    intros k m1 Hk (Hq & Hwc & _ & Hw & Hj).
    assert (sem_wf m1) as Hwf1 by (eapply queue_upd_wf; [done..|lia]).
    assert (forall j, wait_at (age_waiter sel m1 k) j =
      if j =? k then (if negb (k =? sel) && ((wait_at m k).2 <? 5) then ((wait_at m k).1, (wait_at m k).2 + 1) else wait_at m k)
      else wait_at m1 j) as Hat.
    { intros j. rewrite <- (Hj k) by lia. unfold age_waiter, wait_at. cbn [fst snd].
      case_if; simpl; destruct (Z.eqb_spec j k) as [->|]; try done.
      - rewrite geti_seti_eq; [done|]. rewrite (wf_credit _ Hwf1). unfold MAX_WAITING in *. lia.
      - by rewrite geti_seti_ne. }
    assert (queue_upd m (age_waiter sel m1 k) /\ wait_count (age_waiter sel m1 k) = wait_count m) as [Hq1 Hwc1].
    { unfold age_waiter. case_if; [|done]. split; [|done].
      destruct Hq. split; simpl; rewrite ?length_seti; done. }
    split_and!; [done|done|lia|..].
    - rewrite wlk_snoc, (wlk_ext k m1) by (lia || (intros; rewrite Hat; case_if; [lia|done])).
      rewrite Hw, Hat, Z.eqb_refl, (wlk_snoc k m) by lia. unfold aged. rewrite imap_app. simpl.
      do 2 f_equal. replace (length (wlk k m) + 0 =? Z.to_nat sel)%nat with (k =? sel); [done|].
      pose proof (wlk_length k m). lia.
    - intros j Hj'. rewrite Hat. case_if; [lia|]. apply Hj. lia. }
  rewrite Z.add_0_l in HI. destruct HI as (Hq & Hwc & _ & Hw & _).
  split_and!; try done; [eapply queue_upd_wf; [done..|lia]|]. unfold waiters. by rewrite Hwc.
Qed.

(** ** The scan for the best waiter *)

Section Scan.
Context {St : Type} `{Hlaws : SchedulerLaws St}.

(** The score of a waiter that can be woken: priority plus credit. *)
Definition score (sch : St) (x : Z * Z) : option Z :=
  '(st, pr) ← sch_find x.1 sch;
  if is_state st PROCESS_BLOCKED then Some (pr + x.2) else None.

(** Waiters are processes other than the idle one, with credits from 0 to 5. *)
Definition waiters_ok (W : list (Z * Z)) : Prop := Forall (fun x => 0 < x.1 /\ 0 <= x.2 <= 5) W.

(** [n] is the position of the first waiter of greatest score. *)
Definition is_best (sch : St) (W : list (Z * Z)) (n : nat) : Prop :=
  exists x v, W !! n = Some x /\ score sch x = Some v /\
  forall k y u, W !! k = Some y -> score sch y = Some u -> u <= v /\ ((k < n)%nat -> u < v).

Lemma scan_step_score sch m best i :
  scan_step sch m best i =
  match score sch (wait_at m i) with
  | Some v => if v >? best.2 then (i, v) else best
  | None => best
  end.
Proof.
  unfold scan_step, score, wait_at. simpl. destruct (sch_find _ sch) as [[st pr]|]; simpl; [|done].
  by destruct (is_state st PROCESS_BLOCKED).
Qed.

Lemma score_range sch x v :
  sch_inv sch -> 0 < x.1 -> 0 <= x.2 -> score sch x = Some v -> 0 < v.
Proof.
  intros Hinv Hp Hc. unfold score. destruct (sch_find x.1 sch) as [[st pr]|] eqn:E; simpl; [|done].
  case_if; [|done]. intros [= <-]. apply sch_find_prio in E; [|done..]. slia.
Qed.

Lemma best_waiter_spec sch m :
  sch_inv sch -> sem_wf m -> waiters_ok (waiters m) ->
  let b := best_waiter sch m in
  (b = -1 /\ Forall (fun x => score sch x = None) (waiters m)) \/
  (0 <= b < wait_count m /\ is_best sch (waiters m) (Z.to_nat b)).
Proof.
  intros Hinv Hwf Hok. pose proof (wf_count _ Hwf) as Hc. unfold best_waiter.
  set (I := fun k (best : Z * Z) =>
    (best = (-1, -1) /\ forall i, 0 <= i < k -> score sch (wait_at m i) = None) \/
    (0 <= best.1 < k /\ score sch (wait_at m best.1) = Some best.2 /\
     forall i u, 0 <= i < k -> score sch (wait_at m i) = Some u -> u <= best.2 /\ (i < best.1 -> u < best.2))).
  assert (forall i, 0 <= i < wait_count m -> 0 < (wait_at m i).1 /\ 0 <= (wait_at m i).2) as Hat.
  { intros i Hi. unfold waiters_ok in Hok. rewrite list.Forall_lookup in Hok.
    destruct (Hok _ _ (wlk_lookup _ _ _ Hi)). lia. }
  assert (I (0 + wait_count m) (for_loop 0 (wait_count m) (scan_step sch m) (-1, -1))) as HI.
  { apply for_loop_ind; [lia|left; split; [done|lia]|].
    intros k best Hk HI. rewrite scan_step_score.
    destruct (score sch (wait_at m k)) as [v|] eqn:Ev.
    - destruct (Hat k ltac:(lia)). assert (0 < v) by (by eapply score_range; [| | |done]).
      destruct HI as [[-> Hnone]|(Hb & Hs & Hmax)]; simpl.
      + replace (v >? -1) with true by lia. right. simpl. split_and!; try done; try lia.
        intros i u Hi Hu. destruct (decide (i = k)) as [->|]; [simplify_eq; lia|].
        rewrite Hnone in Hu by lia. done.
      + case_if; right; simpl; split_and!; try done; try lia; intros i u Hi Hu;
          (destruct (decide (i = k)) as [->|]; [simplify_eq; lia|]);
          destruct (Hmax i u ltac:(lia) Hu); lia.
    - destruct HI as [[-> Hnone]|(Hb & Hs & Hmax)]; [left|right].
      + split; [done|]. intros i Hi. destruct (decide (i = k)) as [->|]; [done|]. apply Hnone. lia.
      + split_and!; try done; try lia. intros i u Hi Hu.
        destruct (decide (i = k)) as [->|]; [congruence|]. apply Hmax; [lia|done]. }
  rewrite Z.add_0_l in HI. destruct (for_loop _ _ _ _) as [b v]. simpl.
  assert (forall k y, waiters m !! k = Some y -> y = wait_at m (Z.of_nat k) /\ 0 <= Z.of_nat k < wait_count m) as Hlk.
  { intros k y Hy. pose proof (lookup_lt_Some _ _ _ Hy) as Hlt. unfold waiters in *.
    pose proof (wlk_length (wait_count m) m ltac:(lia)).
    pose proof (wlk_lookup (wait_count m) m (Z.of_nat k) ltac:(lia)) as E. rewrite Nat2Z.id in E.
    split; [congruence|lia]. }
  destruct HI as [[[= -> ->] Hnone]|(Hb & Hs & Hmax)]; simpl in *; [left|right].
  - split; [done|]. apply list.Forall_lookup. intros k y [-> Hk]%Hlk. by apply Hnone.
  - split; [done|]. exists (wait_at m b), v. split; [by apply wlk_lookup|]. split; [done|].
    intros k y u [-> Hk]%Hlk Hu. destruct (Hmax _ _ Hk Hu). split; [done|]. lia.
Qed.

End Scan.

(** ** Updates of the table *)

Section Table.
Context {St : Type} `{Hlaws : SchedulerLaws St}.
Implicit Types s : SemSt St.

Record table_wf s : Prop := {
  tw_length : length (sem_table s) = 64%nat;
  tw_sem i : 0 <= i < MAX_SEMAPHORES -> sem_wf (sem s i)
}.

Lemma sem_upd s i f j :
  table_wf s -> 0 <= i < MAX_SEMAPHORES ->
  sem (upd_sem i f s) j = if j =? i then f (sem s j) else sem s j.
Proof.
  intros Hwf Hi. unfold sem, upd_sem. simpl. destruct (Z.eqb_spec j i) as [->|].
  - apply geti_alteri_eq. rewrite (tw_length _ Hwf). unfold MAX_SEMAPHORES in *. lia.
  - by apply geti_alteri_ne.
Qed.

Lemma sem_upd_eq s i f :
  table_wf s -> 0 <= i < MAX_SEMAPHORES -> sem (upd_sem i f s) i = f (sem s i).
Proof. intros. rewrite sem_upd, Z.eqb_refl by done. done. Qed.

Lemma table_wf_upd s i f :
  table_wf s -> 0 <= i < MAX_SEMAPHORES -> sem_wf (f (sem s i)) -> table_wf (upd_sem i f s).
Proof.
  intros Hwf Hi Hf. split; [simpl; rewrite length_alteri; by apply Hwf|].
  intros j Hj. rewrite sem_upd by done. destruct (Z.eqb_spec j i) as [->|]; [done|]. by apply Hwf.
Qed.

Lemma table_wf_sched s x : table_wf s -> table_wf (set_sem_sched x s).
Proof. intros [H1 H2]. by split. Qed.

(** [s'] differs from [s] at most in semaphore [id] and the scheduler. *)
Definition only_sem (id : Z) s s' : Prop := forall j, j <> id -> sem s' j = sem s j.

Lemma only_sem_upd s i f : table_wf s -> 0 <= i < MAX_SEMAPHORES -> only_sem i s (upd_sem i f s).
Proof. intros ? ? j Hj. rewrite sem_upd by done. case_if; [lia|done]. Qed.

Lemma only_sem_trans id s1 s2 s3 : only_sem id s1 s2 -> only_sem id s2 s3 -> only_sem id s1 s3.
Proof. intros H1 H2 j Hj. rewrite H2, H1; done. Qed.

(** ** [unblock_one_waiter] *)

Lemma unblock_drain id : forall fuel s,
  table_wf s -> 0 <= id < MAX_SEMAPHORES -> sch_inv (sem_sched s) -> waiters_ok (waiters (sem s id)) ->
  Forall (fun x => score (sem_sched s) x = None) (waiters (sem s id)) ->
  (Z.to_nat (wait_count (sem s id)) < fuel)%nat ->
  exists s', unblock_loop fuel id s = Some (0, s') /\ table_wf s' /\ sem_sched s' = sem_sched s /\
    only_sem id s s' /\ queue_upd (sem s id) (sem s' id) /\ waiters (sem s' id) = [].
Proof.
  induction fuel as [|fuel IH]; intros s Hwf Hid Hinv Hok Hnone Hfuel; [lia|].
  pose proof (tw_sem _ Hwf id Hid) as Hsw. pose proof (wf_count _ Hsw) as Hc.
  cbn [unblock_loop]. destruct (wait_count (sem s id) >? 0) eqn:Hwc.
  2:{ exists s. split_and!; try done. unfold waiters. by replace (wait_count (sem s id)) with 0 by lia. }
  destruct (best_waiter_spec (sem_sched s) (sem s id) Hinv Hsw Hok) as [[-> _]|(Hb & x & v & Hx & Hv & _)].
  2:{ rewrite list.Forall_lookup in Hnone. apply Hnone in Hx. congruence. }
  change (-1 <? 0) with true. cbv iota. set (s1 := upd_sem id _ s).
  pose proof (dequeue_at_spec 0 (sem s id) Hsw ltac:(lia)) as Hd.
  destruct (dequeue_at 0 (sem s id)) as [p m'] eqn:Ed. destruct Hd as (_ & Hq & Hw' & Hwc' & HW).
  assert (sem s1 id = m') as Em by (unfold s1; rewrite sem_upd_eq by done; cbv beta; by rewrite Ed).
  assert (exists y, waiters (sem s id) = y :: waiters m') as [y Ey].
  { rewrite HW. destruct (waiters (sem s id)) as [|y l] eqn:E; [|by exists y].
    unfold waiters in E. pose proof (wlk_length (wait_count (sem s id)) (sem s id)). rewrite E in *. simpl in *. lia. }
  rewrite Ey in Hok, Hnone. apply list.Forall_cons in Hok as [_ Hok]. apply list.Forall_cons in Hnone as [_ Hnone].
  destruct (IH s1) as (s' & Hrun & Hwf' & Hsch & Hon & Hq' & HW'); rewrite ?Em; try done.
  - apply table_wf_upd; try done. cbv beta. by rewrite Ed.
  - lia.
  - exists s'. split_and!; try done.
    + eapply only_sem_trans; [by apply only_sem_upd|done].
    + etrans; [done|]. by rewrite <- Em.
Qed.

Lemma unblock_spec id s :
  table_wf s -> 0 <= id < MAX_SEMAPHORES -> sch_inv (sem_sched s) -> waiters_ok (waiters (sem s id)) ->
  let W := waiters (sem s id) in
  exists r s', unblock_one_waiter id s = Some (r, s') /\ table_wf s' /\ only_sem id s s' /\
    queue_upd (sem s id) (sem s' id) /\
    ((r = 0 /\ Forall (fun x => score (sem_sched s) x = None) W /\ waiters (sem s' id) = [] /\
      sem_sched s' = sem_sched s) \/
     (r = 1 /\ exists n x, is_best (sem_sched s) W n /\ W !! n = Some x /\
      waiters (sem s' id) = delete n (aged n W) /\ sem_sched s' = sch_unblock x.1 (sem_sched s))).
Proof.
  intros Hwf Hid Hinv Hok W. pose proof (tw_sem _ Hwf id Hid) as Hsw. pose proof (wf_count _ Hsw) as Hc.
  unfold unblock_one_waiter.
  destruct (best_waiter_spec (sem_sched s) (sem s id) Hinv Hsw Hok) as [[Eb Hnone]|(Hb & Hbest)].
  - destruct (unblock_drain id (S (Z.to_nat (wait_count (sem s id)))) s) as (s' & Hrun & ? & ? & ? & ? & ?); try done; [lia|].
    exists 0, s'. split_and!; try done. by left.
  - cbn [unblock_loop]. replace (wait_count (sem s id) >? 0) with true by lia.
    set (b := best_waiter (sem_sched s) (sem s id)) in *. replace (b <? 0) with false by lia.
    destruct (age_waiters_spec b (sem s id) Hsw ltac:(lia)) as (Hq1 & Hw1 & Hwc1 & HW1).
    set (s1 := upd_sem id (age_waiters_except b) s).
    assert (sem s1 id = age_waiters_except b (sem s id)) as E1 by (by apply sem_upd_eq).
    assert (table_wf s1) as Hwf1 by (by apply table_wf_upd).
    pose proof (dequeue_at_spec b (sem s1 id)) as Hd. rewrite E1 in Hd. specialize (Hd Hw1 ltac:(lia)).
    set (s2 := upd_sem id (fun m => (dequeue_at b m).2) s1).
    destruct (dequeue_at b (age_waiters_except b (sem s id))) as [p m2] eqn:Ed.
    destruct Hd as (Hp & Hq2 & Hw2 & Hwc2 & HW2).
    assert (sem s2 id = m2) as E2 by (unfold s2; rewrite sem_upd_eq by done; cbv beta; by rewrite E1, Ed).
    rewrite E1, Ed. cbn [fst]. fold W in Hbest, HW1.
    pose proof Hbest as (x & v & Hx & Hv & _).
    assert (p = x.1) as ->.
    { pose proof (wlk_lookup (wait_count (age_waiters_except b (sem s id))) (age_waiters_except b (sem s id)) b ltac:(lia)) as El.
      fold (waiters (age_waiters_except b (sem s id))) in El. rewrite HW1 in El. unfold aged in El.
      rewrite list_lookup_imap, Hx in El. simpl in El. rewrite Nat.eqb_refl in El. simpl in El. congruence. }
    unfold score in Hv. destruct (sch_find x.1 (sem_sched s)) as [y|] eqn:Ef; [|done].
    change (sem_sched s2) with (sem_sched s). rewrite Ef.
    exists 1, (set_sem_sched (sch_unblock x.1 (sem_sched s)) s2).
    assert (queue_upd (sem s id) m2) as Hq by (by etrans).
    split; [done|]. split.
    { apply table_wf_sched. unfold s2. apply table_wf_upd; try done. cbv beta. by rewrite E1, Ed. }
    split. { intros j Hj. change (sem s2 j = sem s j). unfold s2, s1. rewrite !sem_upd by done. case_if; [lia|done]. }
    change (sem (set_sem_sched _ s2) id) with (sem s2 id). rewrite E2. split; [done|]. right.
    split; [done|]. exists (Z.to_nat b), x. split_and!; try done. by rewrite HW2, HW1.
Qed.

End Table.

(** ** Lemmas on queues *)

Lemma fmap_delete {A B} (f : A -> B) n (l : list A) : f <$> delete n l = delete n (f <$> l).
Proof. revert n. induction l as [|x l IH]; intros [|n]; simpl; try done. by f_equal. Qed.

Lemma aged_fst n W : (aged n W).*1 = W.*1.
Proof.
  unfold aged. apply list_eq. intros k. rewrite !list_lookup_fmap, list_lookup_imap.
  destruct (W !! k); simpl; [|done]. by case_if.
Qed.

Lemma aged_ok n W : waiters_ok W -> waiters_ok (aged n W).
Proof.
  unfold waiters_ok, aged. rewrite !list.Forall_lookup. intros HW k x.
  rewrite list_lookup_imap. destruct (W !! k) as [y|] eqn:E; simpl; [|done]. intros [= <-].
  destruct (HW _ _ E). case_if; simpl; lia.
Qed.

Lemma delete_elem {A} n (l : list A) x : x ∈ delete n l -> x ∈ l.
Proof.
  revert n. induction l as [|y l IH]; intros [|n]; simpl; try done; [by right|].
  rewrite !elem_of_cons. intros [?|?%IH]; auto.
Qed.

Lemma waiters_ok_delete n W : waiters_ok W -> waiters_ok (delete n W).
Proof. unfold waiters_ok. rewrite !list.Forall_forall. intros HW x Hx. by eapply HW, delete_elem. Qed.

Lemma NoDup_delete_elem {A} n (l : list A) x :
  NoDup l -> l !! n = Some x -> NoDup (delete n l) /\ x ∉ delete n l.
Proof.
  revert n. induction l as [|y l IH]; intros [|n]; simpl; try done.
  - intros [Hy Hl]%list.NoDup_cons [= <-]. done.
  - intros [Hy Hl]%list.NoDup_cons Hn. destruct (IH n Hl Hn) as [H1 H2]. split.
    + apply list.NoDup_cons. split; [|done]. by intros ?%delete_elem.
    + rewrite not_elem_of_cons. split; [|done]. intros ->. apply Hy. by eapply list_elem_of_lookup_2.
Qed.

(** ** The invariant of the semaphore table *)

Section Inv.
Context {St : Type} `{Hlaws : SchedulerLaws St}.
Implicit Types s : SemSt St.

(** The pids queued on semaphore [i]. *)
Definition queued s (i : Z) : list Z := (waiters (sem s i)).*1.

Record sem_inv s : Prop := {
  sv_wf : table_wf s;
  sv_sched : sch_inv (sem_sched s);
  sv_active i : 0 <= i < MAX_SEMAPHORES ->
    (active (sem s i) = 0 /\ waiters (sem s i) = []) \/
    (active (sem s i) = 1 /\ wait_count (sem s i) = Z.max 0 (- value (sem s i)));
  sv_ok i : 0 <= i < MAX_SEMAPHORES -> waiters_ok (waiters (sem s i));
  (** a pid is queued at most once, on at most one semaphore, while blocked *)
  sv_nodup i : 0 <= i < MAX_SEMAPHORES -> NoDup (queued s i);
  sv_unique i j p : 0 <= i < MAX_SEMAPHORES -> 0 <= j < MAX_SEMAPHORES ->
    p ∈ queued s i -> p ∈ queued s j -> i = j;
  sv_blocked i p : 0 <= i < MAX_SEMAPHORES -> p ∈ queued s i -> blocked p (sem_sched s) = true
}.

(** The conditions on one semaphore. *)
Definition sem_good (m : Semaphore) : Prop :=
  ((active m = 0 /\ waiters m = []) \/ (active m = 1 /\ wait_count m = Z.max 0 (- value m))) /\
  waiters_ok (waiters m) /\ NoDup (waiters m).*1.

Lemma sem_inv_change id s s' :
  sem_inv s -> 0 <= id < MAX_SEMAPHORES -> only_sem id s s' -> table_wf s' -> sch_inv (sem_sched s') ->
  sem_good (sem s' id) ->
  (forall p, p ∈ queued s' id -> p ∈ queued s id \/ blocked p (sem_sched s) = false) ->
  (forall i p, 0 <= i < MAX_SEMAPHORES -> p ∈ queued s' i -> blocked p (sem_sched s') = true) ->
  sem_inv s'.
Proof.
  intros Hinv Hid Hon Hwf Hsch (Hact & Hok & Hnd) Hnew Hbl.
  assert (forall i, i <> id -> queued s' i = queued s i) as Hq by (intros; unfold queued; by rewrite Hon).
  assert (forall i p, 0 <= i < MAX_SEMAPHORES -> i <> id -> p ∈ queued s' id -> p ∈ queued s' i -> False) as Hone.
  { intros i p Hi Hne Hp Hpi. rewrite Hq in Hpi by done. apply Hnew in Hp as [Hp|Hp].
    - apply Hne. by apply (sv_unique _ Hinv i id p).
    - apply (sv_blocked _ Hinv) in Hpi; [congruence|done]. }
  split; try done.
  - intros i Hi. destruct (decide (i = id)) as [->|]; [done|]. rewrite Hon by done. by apply Hinv.
  - intros i Hi. destruct (decide (i = id)) as [->|]; [done|]. rewrite Hon by done. by apply Hinv.
  - intros i Hi. destruct (decide (i = id)) as [->|]; [done|]. rewrite Hq by done. by apply Hinv.
  - intros i j p Hi Hj Hpi Hpj.
    destruct (decide (i = id)) as [->|], (decide (j = id)) as [->|]; try done.
    + exfalso. by eapply (Hone j).
    + exfalso. by eapply (Hone i).
    + rewrite Hq in Hpi, Hpj by done. by apply (sv_unique _ Hinv i j p).
Qed.

Lemma wait_count_length m : sem_wf m -> wait_count m = Z.of_nat (length (waiters m)).
Proof. intros Hwf. unfold waiters. rewrite wlk_length; [done|]. pose proof (wf_count _ Hwf). lia. Qed.

Lemma blocked_block (s : St) p q :
  sch_inv s -> is_Some (sch_find p s) -> blocked q (sch_block p s) = blocked q s || (q =? p).
Proof.
  intros Hinv [[st pr] Hf]. unfold blocked. rewrite sch_find_block by done.
  destruct (Z.eqb_spec q p) as [->|]; [|by rewrite orb_false_r]. rewrite Hf. simpl. by rewrite orb_true_r.
Qed.

Lemma blocked_unblock (s : St) p q :
  sch_inv s -> 0 < p -> blocked q (sch_unblock p s) = blocked q s && negb (q =? p).
Proof.
  intros Hinv Hp. unfold blocked. rewrite sch_find_unblock by done.
  destruct (Z.eqb_spec q p) as [->|]; [|by rewrite andb_true_r].
  rewrite andb_false_r. destruct (sch_find p s) as [[st pr]|]; simpl; [|done].
  destruct (is_state st PROCESS_BLOCKED) eqn:E; done.
Qed.

Lemma score_blocked (s : St) x : is_Some (score s x) <-> blocked x.1 s = true.
Proof.
  unfold score, blocked. destruct (sch_find x.1 s) as [[st pr]|]; simpl; [|split; [by intros []|done]].
  destruct (is_state st PROCESS_BLOCKED); simpl; unfold is_Some; naive_solver.
Qed.

Lemma is_valid_spec id s : is_valid id s = true <-> 0 <= id < MAX_SEMAPHORES /\ active (sem s id) = 1.
Proof. unfold is_valid. lia. Qed.

(** A field update that leaves the queue alone. *)
Lemma waiters_ext m m' :
  waiting m' = waiting m -> waiting_credit m' = waiting_credit m -> wait_count m' = wait_count m ->
  waiters m' = waiters m.
Proof. intros E1 E2 E3. unfold waiters. rewrite E3. apply wlk_ext. intros. unfold wait_at. by rewrite E1, E2. Qed.

Lemma queue_upd_good m m' v :
  queue_upd m m' -> value m' = v -> active m = 1 -> sem_wf m' ->
  Z.of_nat (length (waiters m')) = Z.max 0 (- v) -> waiters_ok (waiters m') -> NoDup (waiters m').*1 ->
  sem_good m'.
Proof.
  intros Hq Hv Ha Hwf Hl Hok Hnd. split_and!; try done. right.
  rewrite (qu_active _ _ Hq), wait_count_length by done. by subst.
Qed.

End Inv.

(** ** The operations *)

Section Spec.
Context {St : Type} `{Hlaws : SchedulerLaws St}.
Implicit Types s : SemSt St.

(** The caller exists, is not the idle process and is not blocked. *)
Definition runnable (p : Z) (sch : St) : Prop :=
  0 < p /\ is_Some (sch_find p sch) /\ blocked p sch = false.

Lemma filter_unqueued p (W : list (Z * Z)) : p ∉ W.*1 -> filter (fun x => x.1 <> p) W = W.
Proof.
  intros Hp. apply filter_in_id. intros x Hx E. apply Hp. rewrite <- E. by apply list_elem_of_fmap_2.
Qed.

Lemma queued_blocked s i p :
  sem_inv s -> 0 <= i < MAX_SEMAPHORES -> blocked p (sem_sched s) = false -> p ∉ queued s i.
Proof. intros Hinv Hi Hb Hp. apply (sv_blocked _ Hinv) in Hp; [congruence|done]. Qed.

Lemma sem_wf_value v m : sem_wf m -> sem_wf (set_value v m).
Proof. intros []. by split. Qed.

Lemma waiters_value v m : waiters (set_value v m) = waiters m.
Proof. done. Qed.

(** What [sem_wait] does to the semaphore and the scheduler. *)
Lemma sem_wait_spec id s :
  sem_inv s -> is_valid id s = true -> runnable (sch_getpid (sem_sched s)) (sem_sched s) ->
  let p := sch_getpid (sem_sched s) in
  let m := sem s id in
  let '(r, s') := sem_wait id s in
  let m' := sem s' id in
  only_sem id s s' /\ table_wf s' /\ active m' = active m /\
  ((r = 0 /\ 0 < value m /\ value m' = value m - 1 /\ waiters m' = waiters m /\
    sem_sched s' = sem_sched s) \/
   (r = 1 /\ value m <= 0 /\ value m' = value m - 1 /\ waiters m' = waiters m ++ [(p, 0)] /\
    sem_sched s' = sch_block p (sem_sched s)) \/
   (r = -1 /\ value m <= 0 /\ length (waiters m) = 64%nat /\ value m' = value m /\
    waiters m' = waiters m /\ sem_sched s' = sem_sched s)).
Proof.
  intros Hinv [Hid Hact]%is_valid_spec (Hp & Hf & Hb) p m.
  pose proof (sv_wf _ Hinv) as Hwf. pose proof (tw_sem _ Hwf id Hid) as Hsw.
  unfold sem_wait. rewrite (proj2 (is_valid_spec id s)) by done. cbn [negb]. fold p.
  set (s1 := upd_sem id (fun m => set_value (value m - 1) m) s).
  assert (sem s1 id = set_value (value m - 1) m) as E1 by (unfold s1; by rewrite sem_upd_eq).
  assert (table_wf s1) as Hwf1 by (apply table_wf_upd; try done; by apply sem_wf_value).
  assert (only_sem id s s1) as Hon1 by (by apply only_sem_upd).
  rewrite E1. cbn [value set_value]. case_if.
  { split_and!; try done; rewrite ?E1; [done|]. left. rewrite waiters_value. simpl. split_and!; try done; lia. }
  pose proof (enqueue_spec p (set_value (value m - 1) m)) as He.
  specialize (He (sem_wf_value _ _ Hsw)). rewrite waiters_value in He.
  rewrite (filter_unqueued p (waiters m)) in He by (by apply (queued_blocked s id)).
  set (s2 := upd_sem id (fun m => (enqueue p m).2) s1).
  destruct (enqueue p (set_value (value m - 1) m)) as [r m2] eqn:Ee.
  destruct He as (Hq & Hw2 & Hcase). cbn [fst].
  assert (sem s2 id = m2) as E2 by (unfold s2; rewrite sem_upd_eq by done; cbv beta; by rewrite E1, Ee).
  assert (table_wf s2) as Hwf2 by (unfold s2; apply table_wf_upd; try done; cbv beta; by rewrite E1, Ee).
  assert (only_sem id s s2) as Hon2 by (eapply only_sem_trans; [done|by apply only_sem_upd]).
  destruct Hq as [_ _ _ Hv Ha _]. simpl in Hv, Ha.
  destruct Hcase as [(-> & Hl & HW)|(-> & Hl & HW)].
  - change (-1 <? 0) with true. cbv iota.
    set (s3 := upd_sem id _ s2). assert (sem s3 id = set_value (value m2 + 1) m2) as E3
      by (unfold s3; rewrite sem_upd_eq by done; by rewrite E2).
    split_and!.
    + eapply only_sem_trans; [done|by apply only_sem_upd].
    + apply table_wf_upd; try done. rewrite E2. by apply sem_wf_value.
    + rewrite E3. done.
    + right; right. rewrite E3, waiters_value. simpl. unfold MAX_WAITING in *. split_and!; try done; lia.
  - change (0 <? 0) with false. cbv iota.
    change (sem (set_sem_sched _ s2) id) with (sem s2 id). rewrite E2.
    split_and!; try done; [by apply table_wf_sched|]. right; left. split_and!; try done; lia.
Qed.

Lemma sem_wait_inv id s :
  sem_inv s -> runnable (sch_getpid (sem_sched s)) (sem_sched s) -> sem_inv (sem_wait id s).2.
Proof.
  intros Hinv Hrun. destruct (is_valid id s) eqn:Hv.
  2:{ unfold sem_wait. by rewrite Hv. }
  pose proof (sem_wait_spec id s Hinv Hv Hrun) as Hs. apply is_valid_spec in Hv as [Hid Hact].
  destruct (sem_wait id s) as [r s']. cbn [snd]. destruct Hs as (Hon & Hwf & Ha & Hcase).
  pose proof (tw_sem _ Hwf id Hid) as Hsw'. pose proof (tw_sem _ (sv_wf _ Hinv) id Hid) as Hsw.
  destruct (sv_active _ Hinv id Hid) as [[? _]|[_ Hcnt]]; [congruence|].
  pose proof (sv_ok _ Hinv id Hid) as Hok. pose proof (sv_nodup _ Hinv id Hid) as Hnd.
  set (p := sch_getpid (sem_sched s)) in *. destruct Hrun as (Hp & Hf & Hb).
  assert (waiters (sem s' id) = waiters (sem s id) /\ sem_sched s' = sem_sched s /\
    Z.max 0 (- value (sem s' id)) = Z.max 0 (- value (sem s id)) -> sem_inv s') as Hsame.
  { intros (HW & Hsch & Hval). apply (sem_inv_change id s); try done; rewrite ?Hsch; try by apply Hinv.
    - split_and!; rewrite ?HW; try done. right.
      rewrite Ha, (wait_count_length _ Hsw'), HW, <- (wait_count_length _ Hsw). split; [done|lia].
    - intros q Hq. left. unfold queued in *. by rewrite HW in Hq.
    - intros i q Hi Hq. apply (sv_blocked _ Hinv i); [done|].
      destruct (decide (i = id)) as [->|]; unfold queued in *; [by rewrite HW in Hq|by rewrite Hon in Hq]. }
  destruct Hcase as [(_ & Hv & Hv' & HW & Hsch)|[(_ & Hv & Hv' & HW & Hsch)|(_ & Hv & _ & Hv' & HW & Hsch)]].
  - apply Hsame. split_and!; [done|done|lia].
  - assert (p ∉ queued s id) as Hpn by (by apply (queued_blocked s id)).
    assert (queued s' id = queued s id ++ [p]) as Hq by (unfold queued; by rewrite HW, fmap_app).
    assert (forall q, blocked q (sem_sched s') = blocked q (sem_sched s) || (q =? p)) as Hbl.
    { intros q. rewrite Hsch. apply blocked_block; [apply Hinv|done]. }
    apply (sem_inv_change id s); try done.
    + rewrite Hsch. apply sch_block_inv, Hinv.
    + split_and!.
      * right. rewrite Ha, (wait_count_length _ Hsw'), HW, length_app. rewrite (wait_count_length _ Hsw) in Hcnt.
        simpl. split; [done|lia].
      * rewrite HW. apply list.Forall_app. split; [done|]. apply list.Forall_cons. split; [simpl; lia|constructor].
      * change (NoDup (queued s' id)). rewrite Hq. apply list.NoDup_app. split_and!; [done| |apply NoDup_singleton].
        intros q Hq1 Hq2. apply list_elem_of_singleton in Hq2 as ->. done.
    + intros q. rewrite Hq, elem_of_app, list_elem_of_singleton. intros [?| ->]; [by left|by right].
    + intros i q Hi Hqi. rewrite Hbl. destruct (decide (i = id)) as [->|].
      * rewrite Hq, elem_of_app, list_elem_of_singleton in Hqi. destruct Hqi as [Hqi| ->]; [|lia].
        by rewrite (sv_blocked _ Hinv id q).
      * unfold queued in Hqi. rewrite Hon in Hqi by done. by rewrite (sv_blocked _ Hinv i q).
  - apply Hsame. split_and!; [done|done|lia].
Qed.

End Spec.

Section Post.
Context {St : Type} `{Hlaws : SchedulerLaws St}.
Implicit Types s : SemSt St.

(** One waiter leaves the queue: the one of greatest score, first in the
    queue among equals; the others gain credit. *)
Definition woken (id : Z) s s' : Prop :=
  let W := waiters (sem s id) in
  exists n x, is_best (sem_sched s) W n /\ W !! n = Some x /\
    waiters (sem s' id) = delete n (aged n W) /\ sem_sched s' = sch_unblock x.1 (sem_sched s).

(** Incrementing a negative counter and waking a waiter. *)
Lemma post_step_spec id s :
  sem_inv s -> 0 <= id < MAX_SEMAPHORES -> active (sem s id) = 1 -> value (sem s id) < 0 ->
  exists s', unblock_one_waiter id (upd_sem id (fun m => set_value (value m + 1) m) s) = Some (1, s') /\
    only_sem id s s' /\ table_wf s' /\ active (sem s' id) = active (sem s id) /\
    value (sem s' id) = value (sem s id) + 1 /\ woken id s s'.
Proof.
  intros Hinv Hid Hact Hv. pose proof (sv_wf _ Hinv) as Hwf. pose proof (tw_sem _ Hwf id Hid) as Hsw.
  set (s1 := upd_sem id _ s).
  assert (sem s1 id = set_value (value (sem s id) + 1) (sem s id)) as E1 by (unfold s1; by rewrite sem_upd_eq).
  assert (table_wf s1) as Hwf1 by (apply table_wf_upd; try done; by apply sem_wf_value).
  pose proof (sv_ok _ Hinv id Hid) as Hok.
  destruct (unblock_spec id s1 Hwf1 Hid) as (r & s' & Hrun & Hwf' & Hon & Hq & Hcase).
  { apply Hinv. } { by rewrite E1, waiters_value. }
  rewrite E1 in Hq. rewrite E1, waiters_value in Hcase. change (sem_sched s1) with (sem_sched s) in Hcase.
  destruct Hcase as [(_ & Hnone & _)|(-> & Hbest)].
  - exfalso. destruct (sv_active _ Hinv id Hid) as [[? _]|[_ Hcnt]]; [congruence|].
    rewrite (wait_count_length _ Hsw) in Hcnt. destruct (waiters (sem s id)) as [|x W] eqn:EW; [simpl in Hcnt; lia|].
    apply list.Forall_cons in Hnone as [Hx _].
    assert (is_Some (score (sem_sched s) x)) as [? ?]; [|congruence].
    apply score_blocked, (sv_blocked _ Hinv id); [done|]. unfold queued. rewrite EW. by left.
  - exists s'. split; [done|]. destruct Hq as [_ _ _ Hqv Hqa _]. simpl in Hqv, Hqa.
    split_and!; try done. eapply only_sem_trans; [by apply only_sem_upd|done].
Qed.

Lemma woken_inv id s s' :
  sem_inv s -> 0 <= id < MAX_SEMAPHORES -> active (sem s id) = 1 -> value (sem s id) < 0 ->
  only_sem id s s' -> table_wf s' -> active (sem s' id) = active (sem s id) ->
  value (sem s' id) = value (sem s id) + 1 -> woken id s s' -> sem_inv s'.
Proof.
  intros Hinv Hid Hact Hv Hon Hwf Ha Hv' (n & x & _ & Hx & HW & Hsch).
  pose proof (tw_sem _ Hwf id Hid) as Hsw'. pose proof (tw_sem _ (sv_wf _ Hinv) id Hid) as Hsw.
  destruct (sv_active _ Hinv id Hid) as [[? _]|[_ Hcnt]]; [congruence|].
  pose proof (sv_ok _ Hinv id Hid) as Hok. pose proof (sv_nodup _ Hinv id Hid) as Hnd.
  assert (0 < x.1) as Hpos.
  { unfold waiters_ok in Hok. rewrite list.Forall_lookup in Hok. by destruct (Hok _ _ Hx). }
  assert (queued s' id = delete n (queued s id)) as Hq by (unfold queued; by rewrite HW, fmap_delete, aged_fst).
  assert (queued s id !! n = Some x.1) as Hxq by (unfold queued; by rewrite list_lookup_fmap, Hx).
  destruct (NoDup_delete_elem _ _ _ Hnd Hxq) as [Hnd' Hnx].
  apply (sem_inv_change id s); try done.
  - rewrite Hsch. apply sch_unblock_inv, Hinv.
  - split_and!.
    + right. rewrite Ha, (wait_count_length _ Hsw'). rewrite (wait_count_length _ Hsw) in Hcnt.
      pose proof (lookup_lt_Some _ _ _ Hx). rewrite HW, length_delete.
      * unfold aged. rewrite length_imap. split; [done|lia].
      * unfold aged. rewrite list_lookup_imap, Hx. by eexists.
    + rewrite HW. by apply waiters_ok_delete, aged_ok.
    + change (NoDup (queued s' id)). by rewrite Hq.
  - intros p. rewrite Hq. intros ?%delete_elem. by left.
  - intros i p Hi Hp. rewrite Hsch, blocked_unblock by (done || apply Hinv).
    assert (p ∈ queued s i /\ p <> x.1) as [Hpi Hne].
    { destruct (decide (i = id)) as [->|Hne].
      - rewrite Hq in Hp. split; [by eapply delete_elem|]. by intros ->.
      - unfold queued in Hp. rewrite Hon in Hp by done. split; [done|]. intros ->. apply Hne.
        apply (sv_unique _ Hinv i id x.1); try done. by eapply list_elem_of_lookup_2. }
    rewrite (sv_blocked _ Hinv i p) by done. lia.
Qed.

Lemma sem_post_spec id s :
  sem_inv s -> is_valid id s = true ->
  exists s', sem_post id s = Some (0, s') /\ only_sem id s s' /\ sem_inv s' /\
    active (sem s' id) = 1 /\ value (sem s' id) = value (sem s id) + 1 /\
    ((0 <= value (sem s id) /\ waiters (sem s id) = [] /\ waiters (sem s' id) = [] /\
      sem_sched s' = sem_sched s) \/
     (value (sem s id) < 0 /\ woken id s s')).
Proof.
  intros Hinv [Hid Hact]%is_valid_spec. pose proof (sv_wf _ Hinv) as Hwf.
  pose proof (tw_sem _ Hwf id Hid) as Hsw.
  unfold sem_post. rewrite (proj2 (is_valid_spec id s)) by done. cbn [negb].
  rewrite sem_upd_eq by done. cbn [value set_value]. case_if.
  - destruct (post_step_spec id s Hinv Hid Hact ltac:(lia)) as (s' & -> & Hon & Hwf' & Ha & Hv & Hw).
    exists s'. split; [done|]. split; [done|]. split; [by eapply woken_inv; try done; lia|].
    split_and!; [congruence|done|]. right. split; [lia|done].
  - set (s1 := upd_sem id _ s). exists s1.
    assert (sem s1 id = set_value (value (sem s id) + 1) (sem s id)) as E1 by (unfold s1; by rewrite sem_upd_eq).
    assert (only_sem id s s1) as Hon by (by apply only_sem_upd).
    destruct (sv_active _ Hinv id Hid) as [[? _]|[_ Hcnt]]; [congruence|].
    assert (waiters (sem s id) = []) as HW by (unfold waiters; by replace (wait_count (sem s id)) with 0 by lia).
    rewrite E1. split_and!; try done.
    + apply (sem_inv_change id s); try done; try by apply Hinv.
      * apply table_wf_upd; try done. by apply sem_wf_value.
      * rewrite E1. split; [right; simpl; split; [done|lia]|]. rewrite waiters_value, HW. split; constructor.
      * unfold queued. rewrite E1, waiters_value, HW. set_solver.
      * intros i p Hi Hp. apply (sv_blocked _ Hinv i); [done|]. unfold queued in *.
        destruct (decide (i = id)) as [->|]; [by rewrite E1 in Hp|by rewrite Hon in Hp].
    + left. split_and!; try done; lia.
Qed.

End Post.

Section Rest.
Context {St : Type} `{Hlaws : SchedulerLaws St}.
Implicit Types s : SemSt St.

Lemma woken_blocked id s s' :
  sem_inv s -> 0 <= id < MAX_SEMAPHORES -> woken id s s' ->
  exists x, x ∈ queued s id /\ queued s id ≡ₚ x :: queued s' id /\
    forall p, blocked p (sem_sched s') = blocked p (sem_sched s) && negb (p =? x).
Proof.
  intros Hinv Hid (n & x & _ & Hx & HW & Hsch). exists x.1.
  assert (queued s id !! n = Some x.1) as Hxq by (unfold queued; by rewrite list_lookup_fmap, Hx).
  split_and!; [by eapply list_elem_of_lookup_2|..].
  - unfold queued at 2. rewrite HW, fmap_delete, aged_fst. fold (queued s id). by apply delete_Permutation.
  - intros p. rewrite Hsch. apply blocked_unblock; [apply Hinv|].
    pose proof (sv_ok _ Hinv id Hid) as Hok. unfold waiters_ok in Hok. rewrite list.Forall_lookup in Hok.
    by destruct (Hok _ _ Hx).
Qed.

Lemma post_all_loop_spec id : forall fuel s,
  sem_inv s -> 0 <= id < MAX_SEMAPHORES -> active (sem s id) = 1 ->
  (Z.to_nat (wait_count (sem s id)) < fuel)%nat ->
  exists s', post_all_loop fuel id s = Some s' /\ only_sem id s s' /\ sem_inv s' /\
    active (sem s' id) = 1 /\ waiters (sem s' id) = [] /\ value (sem s' id) = Z.max 0 (value (sem s id)) /\
    forall p, blocked p (sem_sched s') = blocked p (sem_sched s) && bool_decide (p ∉ queued s id).
Proof.
  induction fuel as [|fuel IH]; intros s Hinv Hid Hact Hfuel; [lia|].
  destruct (sv_active _ Hinv id Hid) as [[? _]|[_ Hcnt]]; [congruence|].
  cbn [post_all_loop]. destruct (wait_count (sem s id) >? 0) eqn:Hwc.
  2:{ assert (waiters (sem s id) = []) as HW by (unfold waiters; by replace (wait_count (sem s id)) with 0 by lia).
      exists s. split_and!; try done; [lia|]. intros p. unfold queued. rewrite HW.
      rewrite bool_decide_true by set_solver. by rewrite andb_true_r. }
  destruct (post_step_spec id s Hinv Hid Hact ltac:(lia)) as (s1 & -> & Hon & Hwf' & Ha & Hv & Hw).
  cbn [mbind option_bind].
  assert (sem_inv s1) as Hinv1 by (by eapply woken_inv; try done; lia).
  destruct (woken_blocked id s s1 Hinv Hid Hw) as (x & Hxq & Hperm & Hbl).
  destruct (sv_active _ Hinv1 id Hid) as [[? _]|[_ Hcnt1]]; [congruence|].
  destruct (IH s1 Hinv1 Hid) as (s' & Hrun & Hon' & Hinv' & Ha' & HW' & Hv' & Hbl'); [congruence|lia|].
  exists s'. split_and!; try done; [by eapply only_sem_trans|lia|].
  intros p. rewrite Hbl', Hbl, <- andb_assoc. f_equal.
  destruct (Z.eqb_spec p x) as [->|Hne]; simpl.
  - by rewrite bool_decide_false by naive_solver.
  - apply bool_decide_ext. rewrite Hperm. rewrite not_elem_of_cons. tauto.
Qed.

Lemma sem_post_all_spec id s :
  sem_inv s -> is_valid id s = true ->
  exists s', sem_post_all id s = Some (0, s') /\ only_sem id s s' /\ sem_inv s' /\
    active (sem s' id) = 1 /\ waiters (sem s' id) = [] /\ value (sem s' id) = Z.max 0 (value (sem s id)) /\
    forall p, blocked p (sem_sched s') = blocked p (sem_sched s) && bool_decide (p ∉ queued s id).
Proof.
  intros Hinv Hv. pose proof Hv as [Hid Hact]%is_valid_spec. unfold sem_post_all. rewrite Hv. cbn [negb].
  destruct (post_all_loop_spec id (S (Z.to_nat (wait_count (sem s id)))) s Hinv Hid Hact ltac:(lia))
    as (s' & -> & Hrest). cbn [mbind option_bind]. destruct Hrest as (? & ? & ? & ? & Hv' & ?).
  case_if; [lia|]. by exists s'.
Qed.

(** ** [sem_close] *)

Lemma sem_close_spec id s :
  sem_inv s -> is_valid id s = true ->
  let '(r, s') := sem_close id s in
  r = 0 /\ only_sem id s s' /\ sem_inv s' /\ sem_sched s' = sem_sched s /\
  ref_count (sem s' id) = ref_count (sem s id) - 1 /\
  if ref_count (sem s id) <=? 1 then active (sem s' id) = 0 /\ waiters (sem s' id) = []
  else active (sem s' id) = 1 /\ waiters (sem s' id) = waiters (sem s id) /\ value (sem s' id) = value (sem s id).
Proof.
  intros Hinv Hv. pose proof Hv as [Hid Hact]%is_valid_spec. unfold sem_close. rewrite Hv. cbn [negb].
  pose proof (sv_wf _ Hinv) as Hwf. pose proof (tw_sem _ Hwf id Hid) as Hsw.
  set (s1 := upd_sem id _ s).
  assert (sem s1 id = set_ref_count (ref_count (sem s id) - 1) (sem s id)) as E1 by (unfold s1; by rewrite sem_upd_eq).
  assert (table_wf s1) as Hwf1 by (apply table_wf_upd; try done; by destruct Hsw).
  rewrite E1. cbn [ref_count set_ref_count].
  replace (ref_count (sem s id) - 1 <=? 0) with (ref_count (sem s id) <=? 1) by lia.
  assert (forall s', only_sem id s s' -> table_wf s' -> sem_sched s' = sem_sched s ->
    (active (sem s' id) = 0 /\ waiters (sem s' id) = [] \/
     active (sem s' id) = 1 /\ waiters (sem s' id) = waiters (sem s id) /\ value (sem s' id) = value (sem s id)) ->
    sem_inv s') as Hgen.
  { intros s' Hon Hwf' Hsch Hc. pose proof (tw_sem _ Hwf' id Hid) as Hsw'.
    assert (waiters (sem s' id) = [] \/ waiters (sem s' id) = waiters (sem s id)) as HW by naive_solver.
    apply (sem_inv_change id s); try done; rewrite ?Hsch; try by apply Hinv.
    - split; [|destruct HW as [-> | ->]; [split; constructor|split; by apply Hinv]].
      destruct Hc as [Hc|(Ha & HWc & Hvc)]; [by left|right].
      destruct (sv_active _ Hinv id Hid) as [[? _]|[_ Hcnt]]; [congruence|].
      rewrite (wait_count_length _ Hsw'), HWc, Hvc, <- (wait_count_length _ Hsw). done.
    - intros p Hp. left. unfold queued in *. destruct HW as [E|E]; rewrite E in Hp; [set_solver|done].
    - intros i p Hi Hp. apply (sv_blocked _ Hinv i); [done|]. unfold queued in *.
      destruct (decide (i = id)) as [->|]; [|by rewrite Hon in Hp].
      destruct HW as [E|E]; rewrite E in Hp; [set_solver|done]. }
  destruct (ref_count (sem s id) <=? 1).
  - set (s2 := upd_sem id _ s1).
    assert (sem s2 id = set_wait_count 0 (set_active 0 (sem s1 id))) as E2 by (unfold s2; by rewrite sem_upd_eq).
    assert (only_sem id s s2) as Hon by (eapply only_sem_trans; by apply only_sem_upd).
    rewrite E2, E1. split_and!; try done. apply Hgen; try done.
    + apply table_wf_upd; try done. rewrite E1. destruct Hsw. split; simpl; try done.
    + rewrite E2. by left.
  - assert (only_sem id s s1) as Hon by (by apply only_sem_upd).
    rewrite E1. split_and!; try done. apply Hgen; try done. rewrite E1. by right.
Qed.

End Rest.

Section OpenRemove.
Context {St : Type} `{Hlaws : SchedulerLaws St}.
Implicit Types s : SemSt St.

(** ** [sem_open] *)

(** An operation that keeps every queue and the scheduler. *)
Lemma sem_inv_keep id s s' :
  sem_inv s -> 0 <= id < MAX_SEMAPHORES -> only_sem id s s' -> table_wf s' ->
  sem_sched s' = sem_sched s -> waiters (sem s' id) = waiters (sem s id) ->
  (active (sem s' id) = 1 /\ wait_count (sem s' id) = Z.max 0 (- value (sem s' id))) -> sem_inv s'.
Proof.
  intros Hinv Hid Hon Hwf Hsch HW Hact.
  apply (sem_inv_change id s); try done; rewrite ?Hsch; try by apply Hinv.
  - split; [by right|]. rewrite HW. split; by apply Hinv.
  - intros p Hp. left. unfold queued in *. by rewrite HW in Hp.
  - intros i p Hi Hp. apply (sv_blocked _ Hinv i); [done|]. unfold queued in *.
    destruct (decide (i = id)) as [->|]; [by rewrite HW in Hp|by rewrite Hon in Hp].
Qed.

Definition has_name (nm : list Z) s (i : Z) : Prop :=
  active (sem s i) = 1 /\ cstr (sname (sem s i)) = cstr nm.

Lemma find_by_name_spec nm s :
  sem_inv s -> chars nm ->
  (find_by_name nm s = -1 /\ forall i, 0 <= i < MAX_SEMAPHORES -> ~ has_name nm s i) \/
  (0 <= find_by_name nm s < MAX_SEMAPHORES /\ has_name nm s (find_by_name nm s)).
Proof.
  intros Hinv Hnm. unfold find_by_name. set (P := fun i => (active (sem s i) =? 1) && _).
  assert (forall i, 0 <= i < MAX_SEMAPHORES -> P i = true <-> has_name nm s i) as HP.
  { intros i Hi. unfold P, has_name. rewrite andb_true_iff, !Z.eqb_eq. f_equiv. apply strcmp_eq; [|done].
    apply (tw_sem _ (sv_wf _ Hinv) i Hi). }
  destruct (find_idx_spec P 0 MAX_SEMAPHORES) as [[-> Hn]|(Hr & Ht & _)]; [lia|done|left|right].
  - split; [done|]. intros i Hi. rewrite <- HP, Hn by lia. done.
  - split; [lia|]. apply HP; [lia|done].
Qed.

Lemma sem_open_spec nm v s :
  sem_inv s -> 0 <= v -> chars nm -> (length (cstr nm) < 32)%nat ->
  exists id s', sem_open nm v s = Some (id, s') /\ sem_inv s' /\ sem_sched s' = sem_sched s /\
    ((0 <= id < MAX_SEMAPHORES /\ has_name nm s id /\ only_sem id s s' /\
      sem s' id = set_ref_count (ref_count (sem s id) + 1) (sem s id)) \/
     (0 <= id < MAX_SEMAPHORES /\ (forall i, 0 <= i < MAX_SEMAPHORES -> ~ has_name nm s i) /\
      active (sem s id) = 0 /\ only_sem id s s' /\ has_name nm s' id /\ value (sem s' id) = v /\
      waiters (sem s' id) = [] /\ ref_count (sem s' id) = 1) \/
     (id = -1 /\ s' = s /\ (forall i, 0 <= i < MAX_SEMAPHORES -> ~ has_name nm s i) /\
      forall i, 0 <= i < MAX_SEMAPHORES -> active (sem s i) = 1)).
Proof.
  intros Hinv Hv Hnm Hlen. pose proof (sv_wf _ Hinv) as Hwf. unfold sem_open.
  destruct (find_by_name_spec nm s Hinv Hnm) as [[-> Hno]|(Hid & Hname)]; cbn [Z.eqb negb].
  2:{ set (id := find_by_name nm s) in *. replace (id =? -1) with false by lia. cbn [negb].
      pose proof (tw_sem _ Hwf id Hid) as Hsw. set (s' := upd_sem id _ s).
      assert (sem s' id = set_ref_count (ref_count (sem s id) + 1) (sem s id)) as E by (unfold s'; by rewrite sem_upd_eq).
      assert (only_sem id s s') as Hon by (by apply only_sem_upd).
      exists id, s'. split; [done|]. split; [|split; [done|by left]].
      destruct (sv_active _ Hinv id Hid) as [[? _]|[Ha Hcnt]]; [by destruct Hname; congruence|].
      apply (sem_inv_keep id s); try done; rewrite ?E; try done. apply table_wf_upd; try done. by destruct Hsw. }
  change (negb (-1 =? -1)) with false. cbv iota.
  unfold sem_find_free_slot. set (P := fun i => active (sem s i) =? 0).
  destruct (find_idx_spec P 0 MAX_SEMAPHORES) as [[-> Hn]|(Hid & Ht & _)]; [lia|done|..].
  { exists (-1), s. split_and!; try done. right; right. split_and!; try done. intros i Hi.
    specialize (Hn i ltac:(lia)). unfold P in Hn. destruct (sv_active _ Hinv i Hi); lia. }
  set (id := find_idx P 0 MAX_SEMAPHORES) in *. replace (id =? -1) with false by lia.
  pose proof (tw_sem _ Hwf id ltac:(lia)) as Hsw. destruct (wf_name _ Hsw) as [Hnl Hnc].
  assert (is_Some (strcpy (sname (sem s id)) nm)) as [buf Hbuf] by (apply strcpy_fits; lia).
  rewrite Hbuf. cbn [mbind option_bind]. set (s' := upd_sem id _ s).
  destruct (strcpy_cstr _ _ _ Hbuf) as [Hcs Hbl].
  assert (sem s' id = set_ref_count 1 (set_active 1 (set_wait_count 0 (set_value v (set_sname buf (sem s id)))))) as E
    by (unfold s'; by rewrite sem_upd_eq by (done || lia)).
  assert (only_sem id s s') as Hon by (apply only_sem_upd; [done|lia]).
  exists id, s'. split; [done|]. split.
  - assert (0 <= id < MAX_SEMAPHORES) as Hid0 by lia. apply (sem_inv_keep id s); try done.
    + apply table_wf_upd; [done|lia|]. destruct Hsw. split; simpl; try done. split; [congruence|].
      by apply (strcpy_chars (sname (sem s id)) nm).
    + destruct (sv_active _ Hinv id ltac:(lia)) as [[_ ->]|[? _]]; [|unfold P in Ht; lia]. by rewrite E.
    + rewrite E. simpl. lia.
  - split; [done|]. right; left. unfold has_name. rewrite !E. simpl.
    split_and!; try done; try lia. unfold P in Ht. lia.
Qed.

(** ** [sem_remove_waiting_pid] *)

Lemma remove_waiting_sem_spec p m :
  sem_wf m -> active m = 1 ->
  let m' := remove_waiting_sem p m in
  sem_wf m' /\ active m' = 1 /\ waiters m' = filter (fun x => x.1 <> p) (waiters m) /\
  value m' - wait_count m = value m - wait_count m'.
Proof.
  intros Hwf Ha. unfold remove_waiting_sem. rewrite Ha. change (ctrue 1) with true. cbv iota.
  pose proof (remove_waiting_spec p m Hwf) as Hr.
  destruct (remove_waiting_pid_from_sem p m) as [r m']. destruct Hr as (Hq & Hw & HW & Hc & Hr).
  destruct Hq as [_ _ _ Hv Hact _]. split_and!; [by apply sem_wf_value|simpl; congruence|done|simpl; lia].
Qed.

Lemma sem_remove_waiting_pid_sem p s :
  sem_inv s ->
  let s' := sem_remove_waiting_pid p s in
  sem_sched s' = sem_sched s /\ length (sem_table s') = 64%nat /\
  forall i, 0 <= i < MAX_SEMAPHORES -> sem s' i = remove_waiting_sem p (sem s i).
Proof.
  intros Hinv. pose proof (sv_wf _ Hinv) as Hwf. unfold sem_remove_waiting_pid.
  set (I := fun k s' => sem_sched s' = sem_sched s /\ length (sem_table s') = 64%nat /\
    forall i, 0 <= i < MAX_SEMAPHORES -> sem s' i = if i <? k then remove_waiting_sem p (sem s i) else sem s i).
  assert (I (0 + MAX_SEMAPHORES) (for_loop 0 MAX_SEMAPHORES (fun s i => upd_sem i (remove_waiting_sem p) s) s)) as HI.
  { apply for_loop_ind; [done|..].
    - split_and!; [done|by apply Hwf|]. intros i Hi. case_if; [lia|done].
    - intros k s1 Hk (Hsch & Hl & Hs). split_and!; [done|by simpl; rewrite length_alteri|].
      intros i Hi. unfold sem, upd_sem. simpl. destruct (Z.eqb_spec i k) as [->|Hne].
      + rewrite geti_alteri_eq by (rewrite Hl; unfold MAX_SEMAPHORES in *; lia).
        change (geti (sem_table s1) k) with (sem s1 k). rewrite Hs by done. replace (k <? k) with false by lia.
        by replace (k <? k + 1) with true by lia.
      + rewrite geti_alteri_ne by done. change (geti (sem_table s1) i) with (sem s1 i). rewrite Hs by done.
        replace (i <? k + 1) with (i <? k) by lia. done. }
  destruct HI as (Hsch & Hl & Hs). split_and!; try done.
  intros i Hi. rewrite Hs by done. by replace (i <? 0 + MAX_SEMAPHORES) with true by lia.
Qed.

Lemma sem_remove_waiting_pid_queued p s i :
  sem_inv s -> 0 <= i < MAX_SEMAPHORES ->
  waiters (sem (sem_remove_waiting_pid p s) i) = filter (fun x => x.1 <> p) (waiters (sem s i)).
Proof.
  intros Hinv Hi. destruct (sem_remove_waiting_pid_sem p s Hinv) as (_ & _ & Hs). rewrite Hs by done.
  destruct (sv_active _ Hinv i Hi) as [[Ha HW]|[Ha _]].
  - unfold remove_waiting_sem. rewrite Ha. change (ctrue 0) with false. cbv iota. by rewrite HW.
  - by apply remove_waiting_sem_spec; [apply Hinv|].
Qed.

Lemma sem_remove_waiting_pid_inv p s : sem_inv s -> sem_inv (sem_remove_waiting_pid p s).
Proof.
  intros Hinv. destruct (sem_remove_waiting_pid_sem p s Hinv) as (Hsch & Hl & Hs).
  pose proof (fun i => sem_remove_waiting_pid_queued p s i Hinv) as HW.
  set (s' := sem_remove_waiting_pid p s) in *. clearbody s'.
  assert (forall i q, 0 <= i < MAX_SEMAPHORES -> q ∈ queued s' i -> q ∈ queued s i) as Hsub.
  { intros i q Hi. unfold queued. rewrite HW by done. rewrite !list_elem_of_fmap.
    intros (x & -> & [_ Hx]%list_elem_of_filter). by exists x. }
  assert (table_wf s') as Hwf.
  { split; [done|]. intros i Hi. rewrite Hs by done. destruct (sv_active _ Hinv i Hi) as [[Ha _]|[Ha _]].
    - unfold remove_waiting_sem. rewrite Ha. change (ctrue 0) with false. by apply Hinv.
    - by apply remove_waiting_sem_spec; [apply Hinv|]. }
  split; try done; rewrite ?Hsch.
  - apply Hinv.
  - intros i Hi. rewrite HW by done. destruct (sv_active _ Hinv i Hi) as [[Ha HWi]|[Ha Hc]]; [left|right].
    + rewrite HWi, Hs by done. unfold remove_waiting_sem. by rewrite Ha.
    + destruct (remove_waiting_sem_spec p (sem s i)) as (Hsw & Ha' & HW' & Hv); [by apply Hinv|done|].
      rewrite Hs by done. split; [done|]. pose proof (wf_count _ Hsw).
      assert (wait_count (remove_waiting_sem p (sem s i)) <= wait_count (sem s i)); [|lia].
      rewrite (wait_count_length _ Hsw), HW', (wait_count_length (sem s i)) by (by apply Hinv).
      pose proof (list.length_filter (fun x : Z * Z => x.1 <> p) (waiters (sem s i))). lia.
  - intros i Hi. rewrite HW by done. apply list.Forall_forall. intros x [_ Hx]%list_elem_of_filter.
    pose proof (sv_ok _ Hinv i Hi) as Hok. unfold waiters_ok in Hok. rewrite list.Forall_forall in Hok. by apply Hok.
  - intros i Hi. unfold queued. rewrite HW by done. eapply sublist_NoDup; [by apply (sv_nodup _ Hinv i)|].
    apply fmap_sublist, sublist_filter.
  - intros i j q Hi Hj Hqi Hqj. eapply (sv_unique _ Hinv); eauto.
  - intros i q Hi Hq. eapply (sv_blocked _ Hinv); eauto.
Qed.

End OpenRemove.
