(* ===== verification/SemaphoreProps.v ===== *)
(** * Properties of the semaphores

    The theorems about [Kernel/semaphore.c], stated for any scheduler that
    meets the interface of [SchedIface.v] and applied to the kernel's. *)

From S2P Require Import Prelude Process Lib Sched Lifecycle SchedIface Semaphore.
Local Open Scope Z_scope.

Section Generic.
Context {St : Type} `{Hlaws : SchedulerLaws St}.
Implicit Types s : SemSt St.

(** The table at boot. *)
Definition sem_boot (sch : St) : SemSt St := mkSemSt sch (replicate 64 zero_sem).

Lemma sem_boot_inv sch : sch_inv sch -> sem_inv (sem_boot sch).
Proof.
  intros Hs. assert (forall i, 0 <= i < MAX_SEMAPHORES -> sem (sem_boot sch) i = zero_sem) as Hz.
  { intros i Hi. unfold sem, sem_boot. cbn [sem_table]. apply geti_replicate. unfold MAX_SEMAPHORES in *. lia. }
  assert (sem_wf zero_sem) as Hwf.
  { split; try done. split; [done|]. apply list.Forall_forall. intros x Hx.
    apply elem_of_replicate in Hx as [-> _]. lia. }
  split; try done.
  - split; [done|]. intros i Hi. by rewrite Hz.
  - intros i Hi. rewrite Hz by done. by left.
  - intros i Hi. rewrite Hz by done. constructor.
  - intros i Hi. unfold queued. rewrite Hz by done. constructor.
  - intros i j p Hi Hj. unfold queued. rewrite Hz by done. by intros ?%elem_of_nil.
  - intros i p Hi. unfold queued. rewrite Hz by done. by intros ?%elem_of_nil.
Qed.

(** ** Runs of one semaphore

    [sem_run id v0 e p s]: a history of semaphore [id], created with value
    [v0], in which [e] waits have been passed (at once, or by being woken) and
    [p] posts made.  Between these steps the rest of the system does anything
    that keeps the invariant and does not touch this semaphore. *)

Inductive sem_run (id v0 : Z) : Z -> Z -> SemSt St -> Prop :=
| run_open s :
    sem_inv s -> is_valid id s = true -> value (sem s id) = v0 -> 0 <= v0 ->
    sem_run id v0 0 0 s
| run_wait e p s s' r :
    sem_run id v0 e p s -> runnable (sch_getpid (sem_sched s)) (sem_sched s) ->
    sem_wait id s = (r, s') -> sem_run id v0 (if r =? 0 then e + 1 else e) p s'
| run_post e p s s' w :
    sem_run id v0 e p s -> sem_post id s = Some (0, s') ->
    w = wait_count (sem s id) - wait_count (sem s' id) ->
    sem_run id v0 (e + w) (p + 1) s'
| run_kill e p s q :
    sem_run id v0 e p s -> sem_run id v0 e p (sem_remove_waiting_pid q s)
| run_other e p s s' :
    sem_run id v0 e p s -> sem_inv s' -> sem s' id = sem s id -> sem_run id v0 e p s'.

Lemma sem_run_count id v0 e p s :
  sem_run id v0 e p s ->
  sem_inv s /\ is_valid id s = true /\ e + Z.max 0 (value (sem s id)) = v0 + p.
Proof.
  assert (forall s, sem_inv s -> is_valid id s = true ->
    wait_count (sem s id) = Z.max 0 (- value (sem s id)) /\ sem_wf (sem s id)) as Hcnt.
  { intros s0 Hi [Hr Ha]%is_valid_spec. destruct (sv_active _ Hi id Hr) as [[? _]|[_ ?]]; [lia|].
    split; [done|]. by apply Hi. }
  induction 1 as [s Hinv Hv Hval Hv0|e p s s' r _ IH Hr E|e p s s' w _ IH E Hw|e p s q _ IH|e p s s' _ IH Hinv E].
  - split_and!; [done|done|lia].
  - destruct IH as (Hinv & Hv & Heq). pose proof (sem_wait_inv id s Hinv Hr) as Hinv'.
    pose proof (sem_wait_spec id s Hinv Hv Hr) as Hs. rewrite E in *. destruct Hs as (_ & _ & Ha & Hcase).
    assert (is_valid id s' = true) as Hv' by (apply is_valid_spec in Hv as [? ?]; apply is_valid_spec; split; [done|lia]).
    split_and!; [done|done|].
    destruct Hcase as [(-> & ? & ? & _)|[(-> & ? & ? & _)|(-> & ? & _ & ? & _)]]; simpl; lia.
  - destruct IH as (Hinv & Hv & Heq). destruct (sem_post_spec id s Hinv Hv) as (s1 & E1 & _ & Hinv' & Ha & Hval & _).
    rewrite E in E1. injection E1 as <-. pose proof Hv as [Hid _]%is_valid_spec.
    assert (is_valid id s' = true) as Hv' by (by apply is_valid_spec).
    destruct (Hcnt _ Hinv Hv), (Hcnt _ Hinv' Hv'). split_and!; [done|done|lia].
  - destruct IH as (Hinv & Hv & Heq). pose proof (sem_remove_waiting_pid_inv q s Hinv) as Hinv'.
    pose proof Hv as [Hid Ha]%is_valid_spec.
    destruct (sem_remove_waiting_pid_sem q s Hinv) as (_ & _ & Hs). specialize (Hs id Hid).
    destruct (remove_waiting_sem_spec q (sem s id)) as (Hw & Ha' & HW & Hval); [by apply Hinv|done|].
    assert (is_valid id (sem_remove_waiting_pid q s) = true) as Hv' by (apply is_valid_spec; by rewrite Hs).
    destruct (Hcnt _ Hinv Hv), (Hcnt _ Hinv' Hv') as [Hc' _]. rewrite Hs in *.
    split_and!; [done|done|].
    assert (wait_count (remove_waiting_sem q (sem s id)) <= wait_count (sem s id)); [|lia].
    rewrite (wait_count_length _ Hw), HW, (wait_count_length (sem s id)) by (by apply Hinv).
    pose proof (list.length_filter (fun x : Z * Z => x.1 <> q) (waiters (sem s id))). lia.
  - destruct IH as (_ & Hv & Heq). unfold is_valid in *. rewrite E in *. done.
Qed.

End Generic.


(** ** The kernel's semaphores *)

(** The table of the concrete scheduler with one semaphore, of value 0, and
    the state after the running process has waited on it. *)
Definition sem_name : list Z := [109].

Definition demo_sems : SemSt Sched :=
  default (sem_boot demo_sched) (snd <$> sem_open sem_name 0 (sem_boot demo_sched)).

Definition demo_waiting : SemSt Sched := (sem_wait 0 demo_sems).2.

Lemma demo_sems_open :
  exists id s', sem_open sem_name 0 (sem_boot demo_sched) = Some (id, s') /\ sem_inv s'.
Proof.
  destruct (sem_open_spec sem_name 0 (sem_boot demo_sched)) as (id & s' & E & Hinv & _).
  - apply sem_boot_inv, demo_sched_inv.
  - lia.
  - apply list.Forall_forall. intros x ->%list_elem_of_singleton. lia.
  - vm_compute. lia.
  - by exists id, s'.
Qed.

Lemma demo_sems_inv : sem_inv demo_sems.
Proof. destruct demo_sems_open as (id & s' & E & Hinv). unfold demo_sems. by rewrite E. Qed.

Lemma demo_runnable : runnable (sch_getpid (sem_sched demo_sems)) (sem_sched demo_sems).
Proof. split_and!; [vm_compute; reflexivity|by vm_compute; eexists|vm_compute; reflexivity]. Qed.

Lemma demo_waiting_inv : sem_inv demo_waiting.
Proof. apply sem_wait_inv; [exact demo_sems_inv|exact demo_runnable]. Qed.


(** [sem_wait].  On a positive counter the caller passes: the counter is
    decremented, nothing else changes and the result is 0.  Otherwise the
    caller is put at the end of the queue with no credit and blocked, and the
    result is 1 (or -1, with no effect, if 64 processes wait already).  An
    invalid semaphore gives -1 and no effect.  The invariant is preserved. *)
Theorem wait_spec {St : Type} `{Hlaws : SchedulerLaws St} (id : Z) (s : SemSt St) :
  sem_inv s -> runnable (sch_getpid (sem_sched s)) (sem_sched s) ->
  let p := sch_getpid (sem_sched s) in
  let m := sem s id in
  let '(r, s') := sem_wait id s in
  let m' := sem s' id in
  sem_inv s' /\ only_sem id s s' /\
  (is_valid id s = false -> r = -1 /\ s' = s) /\
  (is_valid id s = true ->
   (r = 0 /\ 0 < value m /\ value m' = value m - 1 /\ waiters m' = waiters m /\
    sem_sched s' = sem_sched s) \/
   (r = 1 /\ value m <= 0 /\ value m' = value m - 1 /\ waiters m' = waiters m ++ [(p, 0)] /\
    sem_sched s' = sch_block p (sem_sched s)) \/
   (r = -1 /\ value m <= 0 /\ length (waiters m) = 64%nat /\ value m' = value m /\
    waiters m' = waiters m /\ sem_sched s' = sem_sched s)).
Proof.
  intros Hinv Hr p m. pose proof (sem_wait_inv id s Hinv Hr) as Hinv'.
  destruct (is_valid id s) eqn:Hv.
  - pose proof (sem_wait_spec id s Hinv Hv Hr) as Hs. destruct (sem_wait id s) as [r s'].
    destruct Hs as (Hon & _ & _ & Hcase). split_and!; done.
  - unfold sem_wait in *. rewrite Hv in *. by split_and!.
Qed.

Lemma wait_spec_witness :
  sem_inv demo_sems /\ waiters (sem demo_waiting 0) = [(2, 0)] /\ sem_inv demo_waiting.
Proof.
  split; [exact demo_sems_inv|]. split; [vm_compute; reflexivity|].
  pose proof (wait_spec 0 demo_sems demo_sems_inv demo_runnable) as H. unfold demo_waiting.
  destruct (sem_wait 0 demo_sems) as [r s']. exact (proj1 H).
Defined.

(** C9: [sem_post] on a semaphore with waiters wakes exactly one of them, the
    one with the greatest sum of priority and credit and, among equals, the
    one that came first; that process leaves the queue and becomes READY, the
    others keep their order and gain one credit, up to 5.  Without waiters it
    only increments the counter.  The loop always ends, and the invariant is
    preserved. *)
Theorem post_spec {St : Type} `{Hlaws : SchedulerLaws St} (id : Z) (s : SemSt St) :
  sem_inv s -> is_valid id s = true ->
  exists s', sem_post id s = Some (0, s') /\ sem_inv s' /\ only_sem id s s' /\
    value (sem s' id) = value (sem s id) + 1 /\
    ((waiters (sem s id) = [] /\ waiters (sem s' id) = [] /\ sem_sched s' = sem_sched s) \/
     (exists n x, is_best (sem_sched s) (waiters (sem s id)) n /\ waiters (sem s id) !! n = Some x /\
        waiters (sem s' id) = delete n (aged n (waiters (sem s id))) /\
        sem_sched s' = sch_unblock x.1 (sem_sched s) /\
        blocked x.1 (sem_sched s) = true /\ blocked x.1 (sem_sched s') = false)).
Proof.
  intros Hinv Hv. destruct (sem_post_spec id s Hinv Hv) as (s' & E & Hon & Hinv' & _ & Hval & Hcase).
  exists s'. split_and!; try done. destruct Hcase as [(_ & ? & ? & ?)|(_ & n & x & Hb & Hx & HW & Hsch)]; [by left|right].
  exists n, x. pose proof Hv as [Hid _]%is_valid_spec.
  assert (0 < x.1) as Hpos.
  { pose proof (sv_ok _ Hinv id Hid) as Hok. unfold waiters_ok in Hok. rewrite list.Forall_lookup in Hok.
    by destruct (Hok _ _ Hx). }
  assert (blocked x.1 (sem_sched s) = true) as Hbl.
  { apply (sv_blocked _ Hinv id); [done|]. apply (list_elem_of_lookup_2 _ n). unfold queued.
    by rewrite list_lookup_fmap, Hx. }
  split_and!; try done. rewrite Hsch, blocked_unblock, Z.eqb_refl, andb_false_r by (done || apply Hinv). done.
Qed.

Lemma post_spec_witness :
  is_valid 0 demo_waiting = true /\
  exists s', sem_post 0 demo_waiting = Some (0, s') /\ sem_inv s' /\
    value (sem s' 0) = 0.
Proof.
  split; [vm_compute; reflexivity|].
  destruct (post_spec 0 demo_waiting demo_waiting_inv ltac:(vm_compute; reflexivity)) as (s' & H1 & H2 & _ & H3 & _).
  exists s'. split; [exact H1|]. split; [exact H2|]. rewrite H3. vm_compute. reflexivity.
Defined.

(** [sem_post_all] wakes every waiter and nobody else, and leaves the
    counter at 0 if it was negative; its loops always end. *)
Theorem post_all_spec {St : Type} `{Hlaws : SchedulerLaws St} (id : Z) (s : SemSt St) :
  sem_inv s -> is_valid id s = true ->
  exists s', sem_post_all id s = Some (0, s') /\ sem_inv s' /\ only_sem id s s' /\
    waiters (sem s' id) = [] /\ value (sem s' id) = Z.max 0 (value (sem s id)) /\
    forall p, blocked p (sem_sched s') = blocked p (sem_sched s) && bool_decide (p ∉ queued s id).
Proof.
  intros Hinv Hv. destruct (sem_post_all_spec id s Hinv Hv) as (s' & ? & ? & ? & _ & ? & ? & ?). by exists s'.
Qed.

Lemma post_all_spec_witness :
  is_valid 0 demo_waiting = true /\
  exists s', sem_post_all 0 demo_waiting = Some (0, s') /\ waiters (sem s' 0) = [].
Proof.
  split; [vm_compute; reflexivity|].
  destruct (post_all_spec 0 demo_waiting demo_waiting_inv ltac:(vm_compute; reflexivity)) as (s' & H1 & _ & _ & H2 & _).
  exists s'. exact (conj H1 H2).
Defined.

(** [sem_open].  With a name that fits its field and a non-negative
    initial value, opening an existing name returns that semaphore with its
    reference count incremented and its counter untouched; a new name takes a
    free slot with the given counter and an empty queue; -1 is returned only
    when no semaphore has the name and all slots are in use. *)
Theorem open_spec {St : Type} `{Hlaws : SchedulerLaws St} (nm : list Z) (v : Z) (s : SemSt St) :
  sem_inv s -> 0 <= v -> chars nm -> (length (cstr nm) < 32)%nat ->
  exists id s', sem_open nm v s = Some (id, s') /\ sem_inv s' /\ sem_sched s' = sem_sched s /\
    ((0 <= id < MAX_SEMAPHORES /\ has_name nm s id /\ only_sem id s s' /\
      sem s' id = set_ref_count (ref_count (sem s id) + 1) (sem s id)) \/
     (0 <= id < MAX_SEMAPHORES /\ (forall i, 0 <= i < MAX_SEMAPHORES -> ~ has_name nm s i) /\
      active (sem s id) = 0 /\ only_sem id s s' /\ has_name nm s' id /\ value (sem s' id) = v /\
      waiters (sem s' id) = [] /\ ref_count (sem s' id) = 1) \/
     (id = -1 /\ s' = s /\ (forall i, 0 <= i < MAX_SEMAPHORES -> ~ has_name nm s i) /\
      forall i, 0 <= i < MAX_SEMAPHORES -> active (sem s i) = 1)).
Proof. apply sem_open_spec. Qed.

Lemma open_spec_witness :
  exists id s', sem_open sem_name 5 demo_sems = Some (id, s') /\ sem_inv s'.
Proof.
  assert (chars sem_name) as Hc by (apply list.Forall_forall; intros x ->%list_elem_of_singleton; lia).
  destruct (open_spec sem_name 5 demo_sems demo_sems_inv ltac:(lia) Hc ltac:(vm_compute; lia))
    as (id & s' & H1 & H2 & _).
  exists id, s'. exact (conj H1 H2).
Defined.

(** A name of 32 bytes or more overruns the 32-byte field: [sem_open] of
    a new name copies it without checking its length. *)
Theorem open_name_overrun {St : Type} `{Hlaws : SchedulerLaws St} (nm : list Z) (v : Z) (s : SemSt St) :
  sem_inv s -> chars nm -> (32 <= length (cstr nm))%nat ->
  (exists i, 0 <= i < MAX_SEMAPHORES /\ active (sem s i) = 0) ->
  (forall i, 0 <= i < MAX_SEMAPHORES -> ~ has_name nm s i) ->
  sem_open nm v s = None.
Proof.
  intros Hinv Hc Hlen (i & Hi & Ha) Hno. unfold sem_open.
  destruct (find_by_name_spec nm s Hinv Hc) as [[-> _]|(Hid & Hname)]; [|by destruct (Hno _ Hid)].
  change (negb (-1 =? -1)) with false. cbv iota. unfold sem_find_free_slot.
  destruct (find_idx_spec (fun i => active (sem s i) =? 0) 0 MAX_SEMAPHORES) as [[_ Hn]|(Hid & _)]; [lia|done|..].
  - specialize (Hn i ltac:(lia)). cbv beta in Hn. lia.
  - set (id := find_idx _ 0 MAX_SEMAPHORES) in *. replace (id =? -1) with false by lia.
    destruct (wf_name _ (tw_sem _ (sv_wf _ Hinv) id ltac:(lia))) as [Hnl _].
    destruct (strcpy (sname (sem s id)) nm) eqn:E; [|done].
    assert (is_Some (strcpy (sname (sem s id)) nm)) as Hs by (by eexists). apply strcpy_fits in Hs. lia.
Qed.

Lemma open_name_overrun_witness :
  sem_open (replicate 32 97) 1 (sem_boot demo_sched) = None.
Proof.
  assert (forall i, 0 <= i < MAX_SEMAPHORES -> active (sem (sem_boot demo_sched) i) = 0) as Hz.
  { intros i Hi. unfold sem, sem_boot. cbn [sem_table]. rewrite geti_replicate; [reflexivity|].
    unfold MAX_SEMAPHORES in Hi. lia. }
  apply (open_name_overrun (replicate 32 97) 1 (sem_boot demo_sched)).
  - apply sem_boot_inv, demo_sched_inv.
  - apply list.Forall_forall. intros x Hx. apply elem_of_replicate in Hx as [-> _]. lia.
  - vm_compute. lia.
  - exists 0. split; [unfold MAX_SEMAPHORES; lia|]. apply Hz. unfold MAX_SEMAPHORES. lia.
  - intros i Hi [Ha _]. rewrite Hz in Ha by exact Hi. discriminate.
Defined.

(** When a process is killed, [sem_remove_waiting_pid] takes it out of
    every queue, keeps the order of the others, and gives back to each counter
    what the process had taken, so that the invariant is preserved. *)
Theorem remove_waiting_pid_spec {St : Type} `{Hlaws : SchedulerLaws St} (p : Z) (s : SemSt St) :
  sem_inv s ->
  let s' := sem_remove_waiting_pid p s in
  sem_inv s' /\ sem_sched s' = sem_sched s /\
  forall i, 0 <= i < MAX_SEMAPHORES ->
    waiters (sem s' i) = filter (fun x => x.1 <> p) (waiters (sem s i)) /\
    active (sem s' i) = active (sem s i) /\
    (active (sem s i) = 1 ->
     value (sem s' i) + wait_count (sem s' i) = value (sem s i) + wait_count (sem s i)).
Proof.
  intros Hinv s'. split; [by apply sem_remove_waiting_pid_inv|].
  destruct (sem_remove_waiting_pid_sem p s Hinv) as (Hsch & _ & Hs). split; [done|].
  intros i Hi. split; [by apply sem_remove_waiting_pid_queued|].
  unfold s'. rewrite Hs by done. destruct (sv_active _ Hinv i Hi) as [[Ha _]|[Ha _]].
  - unfold remove_waiting_sem. rewrite Ha. simpl. split; [done|]. lia.
  - destruct (remove_waiting_sem_spec p (sem s i)) as (_ & Ha' & _ & Hv); [by apply Hinv|done|].
    split; [congruence|]. lia.
Qed.

Lemma remove_waiting_pid_spec_witness :
  sem_inv (sem_remove_waiting_pid 2 demo_waiting) /\ value (sem (sem_remove_waiting_pid 2 demo_waiting) 0) = 0.
Proof. split; [exact (proj1 (remove_waiting_pid_spec 2 demo_waiting demo_waiting_inv))|vm_compute; reflexivity]. Defined.

(** Closing the last reference strands the waiters.  [sem_close] empties
    the queue without waking anybody: each process that was waiting stays
    BLOCKED, and a later post on that semaphore is refused. *)
Theorem close_strands_waiters {St : Type} `{Hlaws : SchedulerLaws St} (id p : Z) (s : SemSt St) :
  sem_inv s -> is_valid id s = true -> ref_count (sem s id) <= 1 -> p ∈ queued s id ->
  let s' := (sem_close id s).2 in
  blocked p (sem_sched s') = true /\ waiters (sem s' id) = [] /\ sem_post id s' = Some (-1, s').
Proof.
  intros Hinv Hv Hr Hp s'. pose proof (sem_close_spec id s Hinv Hv) as Hc. unfold s'.
  destruct (sem_close id s) as [r s1]. destruct Hc as (_ & _ & _ & Hsch & _ & Hc). cbn [snd].
  replace (ref_count (sem s id) <=? 1) with true in Hc by lia. destruct Hc as [Ha HW].
  pose proof Hv as [Hid _]%is_valid_spec. rewrite Hsch. split_and!; [by apply (sv_blocked _ Hinv id)|done|].
  unfold sem_post. destruct (is_valid id s1) eqn:E; [|done]. apply is_valid_spec in E. lia.
Qed.

Lemma close_strands_waiters_witness :
  blocked 2 (sem_sched (sem_close 0 demo_waiting).2) = true /\
  waiters (sem (sem_close 0 demo_waiting).2 0) = [] /\
  sem_post 0 (sem_close 0 demo_waiting).2 = Some (-1, (sem_close 0 demo_waiting).2).
Proof.
  apply (close_strands_waiters 0 2 demo_waiting demo_waiting_inv);
    [vm_compute; reflexivity|vm_compute; discriminate|].
  unfold queued. replace (waiters (sem demo_waiting 0)) with [(2, 0)] by (vm_compute; reflexivity).
  apply list_elem_of_singleton. reflexivity.
Defined.

(** Unblocking a waiter from outside lets it through without a post.
    [scheduler_unblock] on a process that waits on a semaphore of value 0
    makes it READY while it stays queued and the counter stays at -1. *)
Theorem unblock_bypasses_wait :
  let s := mkSemSt (scheduler_unblock 2 (sem_sched demo_waiting)) (sem_table demo_waiting) in
  blocked 2 (sem_sched demo_waiting) = true /\
  find_process 2 (sem_sched s) = Some (PROCESS_READY, 5) /\
  value (sem s 0) = -1 /\ waiters (sem s 0) = [(2, 0)].
Proof. vm_compute. split_and!; reflexivity. Qed.
