(* ===== verification/Memory.v ===== *)
(** * The memory manager interface

    [Kernel/include/memManager.h]: the operations the kernel is linked with.
    Two implementations exist; the kernel contains one of them. *)

From S2P Require Import Prelude.
Local Open Scope Z_scope.

Definition MM_KIND_FREE_LIST : Z := 0.
Definition MM_KIND_BUDDY : Z := 1.

(** The blocks in use: address of the payload to its length. *)
Notation regions := (gmap Z Z).

(** Two regions share no byte. *)
Definition disjoint_regions (p n q k : Z) : Prop := p + n <= q \/ q + k <= p.

(** A manager as the kernel sees it.  [mm_live] and [mm_inv] are its
    specification state: the blocks handed out, and its representation
    invariant.  [mm_freeable] restricts which of them may be given back.
    [None] is a run that does not return. *)
Class MemManager (M : Type) := {
  mm_alloc : Z -> M -> option (Z * M);
  mm_free : Z -> M -> option M;
  mm_info : M -> option (Z * Z * Z);
  mm_kind : Z;
  mm_inv : M -> Prop;
  mm_live : M -> regions;
  mm_freeable : M -> Z -> Prop;
  mm_heap : M -> Z * Z
}.

(** What the kernel relies on. *)
Class MemManagerLaws (M : Type) `{MemManager M} := {
  (** an allocation fails without effect or returns a new block of the heap
      that no block in use overlaps *)
  mm_alloc_spec m n : mm_inv m -> 0 < n <= 2 ^ 32 ->
    exists p m', mm_alloc n m = Some (p, m') /\ mm_inv m' /\ mm_heap m' = mm_heap m /\
      ((p = 0 /\ m' = m) \/
       (exists k, n <= k /\ 0 < p /\ mm_live m' = <[p := k]> (mm_live m) /\
          fst (mm_heap m) <= p /\ p + k <= fst (mm_heap m) + snd (mm_heap m) /\
          forall q j, mm_live m !! q = Some j -> disjoint_regions p k q j));
  (** giving a block back removes exactly that block *)
  mm_free_spec m p k : mm_inv m -> mm_live m !! p = Some k -> mm_freeable m p ->
    exists m', mm_free p m = Some m' /\ mm_inv m' /\ mm_heap m' = mm_heap m /\
      mm_live m' = delete p (mm_live m);
  (** blocks in use lie in the heap, are not empty and do not overlap *)
  mm_live_heap m p k : mm_inv m -> mm_live m !! p = Some k ->
    0 < k /\ fst (mm_heap m) <= p /\ p + k <= fst (mm_heap m) + snd (mm_heap m);
  mm_live_disjoint m p k q j : mm_inv m -> mm_live m !! p = Some k -> mm_live m !! q = Some j ->
    p <> q -> disjoint_regions p k q j
}.
