(* ===== verification/FreeList.v ===== *)
(** * The first-fit memory manager

    [Kernel/memory/memManager.c]: a singly linked list of blocks that tile the
    heap, each a 24-byte header followed by its payload.  The memory of the
    headers is a finite map from addresses; reading an address that holds no
    header, and exhausting the fuel of a list traversal, give [None].  The
    theorems relate the pointer structure to the list of blocks it represents
    and show that allocation is first fit on that list, that freeing is
    coalescing, and that the live blocks never overlap. *)

From S2P Require Import Prelude Memory.
Local Open Scope Z_scope.

Module FreeList.

(** ** Data *)

Definition MIN_BLOCK_SIZE : Z := 8.

(** [sizeof(block_t)]: a [uint64_t], an [int] padded to 8 bytes, a pointer. *)
Definition SIZEOF_BLOCK : Z := 24.

Record block_t := mkBlock { bsize : Z; is_free : Z; next : Z }.

Definition set_bsize v b := mkBlock v (is_free b) (next b).
Definition set_is_free v b := mkBlock (bsize b) v (next b).
Definition set_next v b := mkBlock (bsize b) (is_free b) v.

(** The static variables, and the headers in memory. *)
Record MM := mkMM {
  heap_start : Z;
  heap_size : Z;
  first_block : Z;
  headers : gmap Z block_t
}.

Definition set_headers v m := mkMM (heap_start m) (heap_size m) (first_block m) v.

(** Store a header; update fields of a header that is there. *)
Definition store (a : Z) (b : block_t) (m : MM) : MM := set_headers (<[a := b]> (headers m)) m.

Definition modify (f : block_t -> block_t) (a : Z) (m : MM) : option MM :=
  b ← headers m !! a; Some (store a (f b) m).

(** Each block takes more than 24 bytes of the heap, so a traversal makes at
    most [heap_size / 24] steps. *)
Definition fuel_of (m : MM) : nat := S (Z.to_nat (heap_size m / SIZEOF_BLOCK)).

(** ** Operations *)

Definition mm_init (heapStart heapSize : Z) (m : MM) : MM :=
  let m := mkMM heapStart heapSize heapStart (headers m) in
  store heapStart (mkBlock (u64 (heapSize - SIZEOF_BLOCK)) 1 0) m.

(** [(size + 7) & ~7] on [uint64_t]. *)
Definition align8 (size : Z) : Z := Z.land (u64 (size + 7)) (u64 (Z.lnot 7)).

(** The body of the search when block [current] is taken. *)
Definition take_block (current : Z) (b : block_t) (size : Z) (m : MM) : option (Z * MM) :=
  m ← (if bsize b >=? u64 (size + SIZEOF_BLOCK + MIN_BLOCK_SIZE) then
         let new_block := u64 (current + SIZEOF_BLOCK + size) in
         let m := store new_block (mkBlock (u64 (bsize b - size - SIZEOF_BLOCK)) 1 (next b)) m in
         m ← modify (set_bsize size) current m;
         modify (set_next new_block) current m
       else Some m);
  m ← modify (set_is_free 0) current m;
  Some (u64 (current + SIZEOF_BLOCK), m).

Fixpoint alloc_loop (fuel : nat) (current size : Z) (m : MM) : option (Z * MM) :=
  match fuel with
  | O => None
  | S fuel =>
      if current =? 0 then Some (0, m)
      else
        b ← headers m !! current;
        if ctrue (is_free b) && (bsize b >=? size) then take_block current b size m
        else alloc_loop fuel (next b) size m
  end.

Definition mm_alloc (size : Z) (m : MM) : option (Z * MM) :=
  if size =? 0 then Some (0, m)
  else alloc_loop (S (fuel_of m)) (first_block m) (align8 size) m.

(** [while (prev->next != NULL && prev->next != block) prev = prev->next;] *)
Fixpoint find_prev (fuel : nat) (prev block : Z) (m : MM) : option Z :=
  match fuel with
  | O => None
  | S fuel =>
      b ← headers m !! prev;
      if negb (next b =? 0) && negb (next b =? block) then find_prev fuel (next b) block m
      else Some prev
  end.

Definition merge_next (block : Z) (m : MM) : option MM :=
  b ← headers m !! block;
  if next b =? 0 then Some m
  else
    n ← headers m !! next b;
    if ctrue (is_free n) then
      m ← modify (set_bsize (u64 (bsize b + (SIZEOF_BLOCK + bsize n)))) block m;
      modify (set_next (next n)) block m
    else Some m.

Definition merge_prev (block : Z) (m : MM) : option MM :=
  prev ← find_prev (S (fuel_of m)) (first_block m) block m;
  p ← headers m !! prev;
  b ← headers m !! block;
  if negb (prev =? block) && ctrue (is_free p) then
    m ← modify (set_bsize (u64 (bsize p + (SIZEOF_BLOCK + bsize b)))) prev m;
    modify (set_next (next b)) prev m
  else Some m.

Definition mm_free (ptr : Z) (m : MM) : option MM :=
  if ptr =? 0 then Some m
  else if (ptr <? heap_start m) || (ptr >=? u64 (heap_start m + heap_size m)) then Some m
  else
    let block := u64 (ptr - SIZEOF_BLOCK) in
    b ← headers m !! block;
    if ctrue (is_free b) then Some m
    else
      m ← modify (set_is_free 1) block m;
      m ← merge_next block m;
      merge_prev block m.

(** The loop of [mm_info], accumulating [*used] and [*free_bytes]. *)
Fixpoint info_loop (fuel : nat) (current used free_bytes : Z) (m : MM) : option (Z * Z) :=
  match fuel with
  | O => None
  | S fuel =>
      if current =? 0 then Some (used, free_bytes)
      else
        b ← headers m !! current;
        if ctrue (is_free b)
        then info_loop fuel (next b) used (u64 (free_bytes + bsize b)) m
        else info_loop fuel (next b) (u64 (used + bsize b)) free_bytes m
  end.

(** [(total, used, free_bytes)]. *)
Definition mm_info (m : MM) : option (Z * Z * Z) :=
  '(used, free_bytes) ← info_loop (S (fuel_of m)) (first_block m) 0 0 m;
  Some (heap_size m, used, free_bytes).

Definition mm_kind : Z := MM_KIND_FREE_LIST.

(** ** The blocks that the headers represent

    [link l n a] is the [next] field of a block followed by the blocks [l] at
    address [a].  [seg h a l e n]: from address [a], the headers describe the blocks [l]
    (payload size and free flag), each starting where the previous one ends;
    the last ends at [e] and its [next] field is [n]. *)

Definition link (l : list (Z * bool)) (n a : Z) : Z :=
  match l with [] => n | _ :: _ => a end.

Fixpoint seg (h : gmap Z block_t) (a : Z) (l : list (Z * bool)) (e n : Z) : Prop :=
  match l with
  | [] => a = e
  | (sz, fr) :: l =>
      (exists f, ctrue f = fr /\
         h !! a = Some (mkBlock sz f (link l n (a + SIZEOF_BLOCK + sz)))) /\
      seg h (a + SIZEOF_BLOCK + sz) l e n
  end.

(** Payload sizes are positive multiples of 8. *)
Definition sizes_ok (l : list (Z * bool)) : Prop :=
  Forall (fun b => MIN_BLOCK_SIZE <= b.1 /\ b.1 mod 8 = 0) l.

(** The pointers of [m] represent the block list [l]. *)
Record fl_rep (m : MM) (l : list (Z * bool)) : Prop := {
  fr_first : first_block m = heap_start m;
  fr_start : 0 < heap_start m;
  fr_size : 0 <= heap_size m /\ heap_start m + heap_size m + 64 < 2 ^ 64;
  fr_seg : seg (headers m) (heap_start m) l (heap_start m + heap_size m) 0;
  fr_sizes : sizes_ok l;
  fr_nonempty : l <> []
}.

(** First fit on the block list: the payload address and the new list. *)
Fixpoint first_fit (a size : Z) (l : list (Z * bool)) : option (Z * list (Z * bool)) :=
  match l with
  | [] => None
  | (sz, fr) :: l =>
      if fr && (size <=? sz) then
        Some (a + SIZEOF_BLOCK,
              if size + SIZEOF_BLOCK + MIN_BLOCK_SIZE <=? sz
              then (size, false) :: (sz - size - SIZEOF_BLOCK, true) :: l
              else (sz, false) :: l)
      else
        '(p, l') ← first_fit (a + SIZEOF_BLOCK + sz) size l; Some (p, (sz, fr) :: l')
  end.

(** Bytes of the heap a block list takes, headers included. *)
Definition span (l : list (Z * bool)) : Z := foldr (fun b n => SIZEOF_BLOCK + b.1 + n) 0 l.

(** The payloads in use of the blocks that start at address [a]. *)
Fixpoint live_from (a : Z) (l : list (Z * bool)) : regions :=
  match l with
  | [] => ∅
  | (sz, fr) :: l =>
      let r := live_from (a + SIZEOF_BLOCK + sz) l in
      if fr then r else <[a + SIZEOF_BLOCK := sz]> r
  end.

Ltac flia := unfold SIZEOF_BLOCK, MIN_BLOCK_SIZE in *; lia.

(** ** Segments *)

Lemma seg_app h a l1 l2 e n :
  seg h a (l1 ++ l2) e n <->
  exists m, seg h a l1 m (link l2 n m) /\ seg h m l2 e n.
Proof.
  revert a. induction l1 as [|[sz fr] l1 IH]; intros a; simpl.
  - split; [|naive_solver]. intros H. by exists a.
  - rewrite IH. destruct l1 as [|b l1]; simpl.
    + split.
      * intros (Hb & m & E & Hs). exists m. split; [split; [|done]|done].
        destruct Hb as (f & Hf & Hb). exists f. split; [done|]. destruct l2; [done|]. congruence.
      * intros (m & ((f & Hf & Hb) & E) & Hs). split; [|by exists m].
        exists f. split; [done|]. destruct l2; [done|]. congruence.
    + naive_solver.
Qed.

Lemma seg_span h a l e n : seg h a l e n -> e = a + span l.
Proof.
  revert a. induction l as [|[sz fr] l IH]; intros a; simpl; [lia|].
  intros [_ Hs%IH]. lia.
Qed.

Lemma span_app l1 l2 : span (l1 ++ l2) = span l1 + span l2.
Proof. induction l1; simpl; lia. Qed.

Lemma sizes_app l1 l2 : sizes_ok (l1 ++ l2) <-> sizes_ok l1 /\ sizes_ok l2.
Proof. apply list.Forall_app. Qed.

Lemma sizes_cons b l : sizes_ok (b :: l) <-> (MIN_BLOCK_SIZE <= b.1 /\ b.1 mod 8 = 0) /\ sizes_ok l.
Proof. unfold sizes_ok. by rewrite list.Forall_cons. Qed.

Lemma span_length l : sizes_ok l -> 32 * Z.of_nat (length l) <= span l.
Proof.
  induction l as [|b l IH]; simpl; [lia|]. intros [[Hb Hmod] Hl]%sizes_cons.
  specialize (IH Hl). flia.
Qed.

(** Headers outside a segment may change. *)
Lemma seg_store h a l e n x b :
  sizes_ok l -> ~ (a <= x < e) -> seg h a l e n -> seg (<[x := b]> h) a l e n.
Proof.
  revert a. induction l as [|[sz fr] l IH]; intros a Hsz Hx; simpl; [done|].
  apply sizes_cons in Hsz as [[Hb Hmod] Hsz]. simpl in Hb.
  intros [(f & Hf & Hh) Hs]. pose proof (span_length l Hsz). pose proof (seg_span _ _ _ _ _ Hs). split.
  - exists f. split; [done|]. rewrite lookup_insert_ne by flia. done.
  - apply IH; [done| |done]. flia.
Qed.

(** A segment determines the blocks: the list can be read back. *)
Fixpoint blocks_from (fuel : nat) (a : Z) (m : MM) : list (Z * bool) :=
  match fuel with
  | O => []
  | S fuel =>
      if a =? 0 then []
      else match headers m !! a with
           | Some b => (bsize b, ctrue (is_free b)) :: blocks_from fuel (next b) m
           | None => []
           end
  end.

Definition blocks_of (m : MM) : list (Z * bool) := blocks_from (fuel_of m) (first_block m) m.

Lemma blocks_from_seg fuel m a l e :
  seg (headers m) a l e 0 -> sizes_ok l -> 0 < a -> (length l <= fuel)%nat ->
  blocks_from fuel (link l 0 a) m = l.
Proof.
  revert a fuel. induction l as [|[sz fr] l IH]; intros a fuel.
  { intros _ _ _ _. by destruct fuel. }
  intros [(f & <- & Hh) Hs] Hsz Ha Hlen. apply sizes_cons in Hsz as [[Hb Hmod] Hsz]. simpl in Hb, Hmod, Hlen.
  destruct fuel as [|fuel]; [lia|]. cbn [blocks_from link].
  replace (a =? 0) with false by lia. rewrite Hh. cbn [next bsize is_free]. f_equal.
  apply IH; [done|done|flia|lia].
Qed.

(** ** Blocks in use *)

Lemma live_from_range a l q k :
  sizes_ok l -> live_from a l !! q = Some k ->
  MIN_BLOCK_SIZE <= k /\ a + SIZEOF_BLOCK <= q /\ q + k <= a + span l.
Proof.
  revert a. induction l as [|[sz fr] l IH]; intros a Hl; simpl; [done|].
  apply sizes_cons in Hl as [[Hb Hmod] Hl]. simpl in Hb. pose proof (span_length l Hl).
  destruct fr.
  - intros Hq. apply IH in Hq; [flia|done].
  - rewrite lookup_insert_Some. intros [[<- <-]|[Hne Hq]]; [flia|]. apply IH in Hq; [flia|done].
Qed.

Lemma live_from_app a l1 l2 :
  live_from a (l1 ++ l2) = live_from a l1 ∪ live_from (a + span l1) l2.
Proof.
  revert a. induction l1 as [|[sz fr] l1 IH]; intros a; simpl.
  - rewrite (left_id_L ∅ (∪)). f_equal. lia.
  - rewrite IH. replace (a + SIZEOF_BLOCK + sz + span l1) with (a + (SIZEOF_BLOCK + sz + span l1)) by lia.
    destruct fr; [done|]. by rewrite insert_union_l.
Qed.

Lemma live_from_disjoint a l p k q j :
  sizes_ok l -> live_from a l !! p = Some k -> live_from a l !! q = Some j -> p <> q ->
  disjoint_regions p k q j.
Proof.
  revert a. induction l as [|[sz fr] l IH]; intros a Hl; simpl; [done|].
  apply sizes_cons in Hl as [[Hb Hmod] Hl].
  destruct fr; [by apply IH|]. rewrite !lookup_insert_Some.
  unfold disjoint_regions in *.
  intros [[<- <-]|[Hp Hkp]] [[<- <-]|[Hq Hkq]] Hne; [done| | |by eapply IH].
  - apply live_from_range in Hkq; [flia|done].
  - apply live_from_range in Hkp; [flia|done].
Qed.

(** The block at a position of the list, when it is in use. *)
Lemma live_from_mid a l1 sz l2 :
  sizes_ok (l1 ++ (sz, false) :: l2) ->
  live_from a (l1 ++ (sz, false) :: l2) =
    <[a + span l1 + SIZEOF_BLOCK := sz]> (live_from a (l1 ++ (sz, true) :: l2)) /\
  live_from a (l1 ++ (sz, true) :: l2) !! (a + span l1 + SIZEOF_BLOCK) = None.
Proof.
  intros Hl. apply sizes_app in Hl as [H1 H2]. apply sizes_cons in H2 as [[Hb Hmod] H2]. simpl in Hb.
  rewrite !live_from_app. simpl.
  assert (live_from a l1 !! (a + span l1 + SIZEOF_BLOCK) = None) as Hn1.
  { destruct (live_from a l1 !! _) eqn:E; [|done]. apply live_from_range in E; [flia|done]. }
  assert (live_from (a + span l1 + SIZEOF_BLOCK + sz) l2 !! (a + span l1 + SIZEOF_BLOCK) = None) as Hn2.
  { destruct (live_from _ l2 !! _) eqn:E; [|done]. apply live_from_range in E; [flia|done]. }
  split; [by rewrite insert_union_r|]. by apply lookup_union_None.
Qed.

(** Conversely, a block in use is a position of the list. *)
Lemma live_from_split a l p k :
  live_from a l !! p = Some k ->
  exists l1 l2, l = l1 ++ (k, false) :: l2 /\ p = a + span l1 + SIZEOF_BLOCK.
Proof.
  revert a. induction l as [|[sz fr] l IH]; intros a; simpl; [done|].
  assert (live_from (a + SIZEOF_BLOCK + sz) l !! p = Some k ->
    exists l1 l2, (sz, fr) :: l = l1 ++ (k, false) :: l2 /\ p = a + span l1 + SIZEOF_BLOCK) as Hrec.
  { intros (l1 & l2 & -> & ->)%IH. exists ((sz, fr) :: l1), l2. simpl. split; [done|lia]. }
  destruct fr; [done|]. rewrite lookup_insert_Some. intros [[<- <-]|[_ H]]; [|auto].
  exists [], l. simpl. split; [done|lia].
Qed.

(** ** Rounding *)

Lemma align8_spec size :
  0 <= size -> size + 7 < 2 ^ 64 ->
  size <= align8 size < size + 8 /\ align8 size mod 8 = 0.
Proof.
  intros H0 Hle. unfold align8. rewrite u64_small by lia.
  assert (u64 (Z.lnot 7) = Z.ldiff (Z.ones 64) (Z.ones 3)) as -> by reflexivity.
  assert (Z.land (size + 7) (Z.ldiff (Z.ones 64) (Z.ones 3)) = (size + 7) / 8 * 8) as ->.
  { transitivity (Z.ldiff (Z.land (size + 7) (Z.ones 64)) (Z.ones 3)).
    - apply Z.bits_inj'. intros n Hn. rewrite Z.land_spec, !Z.ldiff_spec, Z.land_spec. apply andb_assoc.
    - rewrite Z.land_ones, Z.mod_small, Z.ldiff_ones_r, Z.shiftl_mul_pow2, Z.shiftr_div_pow2 by lia. done. }
  pose proof (Z.div_mod (size + 7) 8 ltac:(lia)). pose proof (Z.mod_pos_bound (size + 7) 8 ltac:(lia)).
  split; [lia|]. apply Z.mod_mul. lia.
Qed.

(** ** Stores *)

Lemma modify_store f a b m :
  modify f a (store a b m) = Some (store a (f b) m).
Proof. unfold modify, store. simpl. rewrite lookup_insert_eq. simpl. by rewrite insert_insert_eq. Qed.

Lemma modify_lookup f a b m :
  headers m !! a = Some b -> modify f a m = Some (store a (f b) m).
Proof. intros H. unfold modify. by rewrite H. Qed.

Lemma store_lookup_ne a x b m : a <> x -> headers (store a b m) !! x = headers m !! x.
Proof. intros. unfold store. simpl. by rewrite lookup_insert_ne. Qed.

(** The static variables do not change. *)
Definition same_heap (m m' : MM) : Prop :=
  heap_start m' = heap_start m /\ heap_size m' = heap_size m /\ first_block m' = first_block m.

(** ** Taking a block *)

Lemma take_block_spec m a sz f nx size :
  headers m !! a = Some (mkBlock sz f nx) ->
  0 < a -> a + SIZEOF_BLOCK + sz + 64 < 2 ^ 64 -> 0 <= size <= sz ->
  let nb := a + SIZEOF_BLOCK + size in
  take_block a (mkBlock sz f nx) size m =
  Some (a + SIZEOF_BLOCK,
        if size + SIZEOF_BLOCK + MIN_BLOCK_SIZE <=? sz
        then store a (mkBlock size 0 nb) (store nb (mkBlock (sz - size - SIZEOF_BLOCK) 1 nx) m)
        else store a (mkBlock sz 0 nx) m).
Proof.
  intros Hh Ha Hb Hsz nb. unfold take_block. cbn [bsize next].
  rewrite !u64_small by flia.
  replace (sz >=? size + SIZEOF_BLOCK + MIN_BLOCK_SIZE) with (size + SIZEOF_BLOCK + MIN_BLOCK_SIZE <=? sz) by lia.
  case_if.
  - rewrite (u64_small (sz - size - SIZEOF_BLOCK)) by flia. fold nb.
    rewrite (modify_lookup _ a (mkBlock sz f nx)) by (rewrite store_lookup_ne by (unfold nb; flia); done).
    cbn [mbind option_bind]. rewrite modify_store. cbn [mbind option_bind]. by rewrite modify_store.
  - cbn [mbind option_bind]. by rewrite (modify_lookup _ a (mkBlock sz f nx)).
Qed.

Lemma first_fit_nonempty a size l p l' : first_fit a size l = Some (p, l') -> l <> [] /\ l' <> [].
Proof.
  destruct l as [|[sz fr] l]; simpl; [done|]. case_if.
  - intros [= _ <-]. case_if; done.
  - destruct (first_fit _ _ l) as [[q l0]|]; simpl; [|done]. by intros [= _ <-].
Qed.

Lemma link_eq l l' n a : (l = [] <-> l' = []) -> link l n a = link l' n a.
Proof. destruct l, l'; naive_solver. Qed.

(** The search of [mm_alloc] is first fit. *)
Lemma alloc_loop_spec l : forall fuel a e size m,
  seg (headers m) a l e 0 -> sizes_ok l -> 0 < a -> e + 64 < 2 ^ 64 ->
  (length l < fuel)%nat -> 0 <= size ->
  match first_fit a size l with
  | None => alloc_loop fuel (link l 0 a) size m = Some (0, m)
  | Some (p, l') => exists m', alloc_loop fuel (link l 0 a) size m = Some (p, m') /\
      seg (headers m') a l' e 0 /\ same_heap m m' /\
      (forall x, x < a -> headers m' !! x = headers m !! x)
  end.
Proof.
  induction l as [|[sz fr] l IH]; intros fuel a e size m Hs Hsz Ha He Hfuel Hsize;
    (destruct fuel as [|fuel]; [simpl in Hfuel; lia|]); [done|].
  destruct Hs as [(f & <- & Hh) Hs]. apply sizes_cons in Hsz as [[Hb Hmod] Hsz]. simpl in Hb, Hfuel.
  pose proof (seg_span _ _ _ _ _ Hs) as Hspan. pose proof (span_length l Hsz) as Hlen.
  cbn [alloc_loop link first_fit]. replace (a =? 0) with false by lia. rewrite Hh.
  cbn [mbind option_bind is_free bsize next].
  replace (sz >=? size) with (size <=? sz) by lia. case_if.
  - rewrite take_block_spec by (done || flia). eexists. split; [done|].
    case_if; (split; [|split; [done|]]).
    2,4: intros x Hx; rewrite ?store_lookup_ne by flia; done.
    + simpl. split; [|split].
      * exists 0. split; [done|]. by rewrite lookup_insert_eq.
      * exists 1. split; [done|]. rewrite lookup_insert_ne, lookup_insert_eq by flia.
        do 2 f_equal. f_equal. lia.
      * replace (a + SIZEOF_BLOCK + size + SIZEOF_BLOCK + (sz - size - SIZEOF_BLOCK))
          with (a + SIZEOF_BLOCK + sz) by lia.
        apply seg_store; [done|flia|]. apply seg_store; [done|flia|done].
    + simpl. split; [exists 0; split; [done|by rewrite lookup_insert_eq]|].
      apply seg_store; [done|flia|done].
  - specialize (IH fuel (a + SIZEOF_BLOCK + sz) e size m Hs Hsz ltac:(flia) He ltac:(lia) Hsize).
    destruct (first_fit _ size l) as [[p l']|] eqn:Hff; simpl; [|done].
    destruct IH as (m' & Hrun & Hs' & Hsame & Hfr). exists m'. split; [done|]. split; [|split; [done|]].
    + split; [|done]. exists f. split; [done|]. rewrite Hfr by flia. rewrite Hh. do 2 f_equal.
      apply link_eq. destruct (first_fit_nonempty _ _ _ _ _ Hff). done.
    + intros x Hx. apply Hfr. flia.
Qed.

(** ** First fit on block lists *)

Lemma first_fit_spec size l : forall a p l',
  first_fit a size l = Some (p, l') ->
  exists l1 sz l2 k l2', l = l1 ++ (sz, true) :: l2 /\ l' = l1 ++ (k, false) :: l2' /\
    p = a + span l1 + SIZEOF_BLOCK /\ size <= k <= sz /\
    Forall (fun b => b.2 = true -> b.1 < size) l1 /\
    ((k = sz /\ l2' = l2 /\ sz < size + SIZEOF_BLOCK + MIN_BLOCK_SIZE) \/
     (k = size /\ size + SIZEOF_BLOCK + MIN_BLOCK_SIZE <= sz /\
      l2' = (sz - size - SIZEOF_BLOCK, true) :: l2)).
Proof.
  induction l as [|[sz fr] l IH]; intros a p l'; simpl; [done|]. case_if.
  - intros [= <- <-]. apply andb_true_iff in Heqb as [-> Hle].
    exists [], sz, l. simpl. case_if.
    + exists size, ((sz - size - SIZEOF_BLOCK, true) :: l). split_and!; try done; try flia. right. split_and!; [done|lia|done].
    + exists sz, l. split_and!; try done; try flia. left. split_and!; [done|done|lia].
  - destruct (first_fit _ size l) as [[q l0]|] eqn:E; simpl; [|done]. intros [= <- <-].
    destruct (IH _ _ _ E) as (l1 & sz1 & l2 & k & l2' & -> & -> & -> & Hk & Hl1 & Hcase).
    exists ((sz, fr) :: l1), sz1, l2, k, l2'. split_and!; try done; try (simpl; lia).
    constructor; [|done]. simpl. intros ->. lia.
Qed.

(** Every free block is too small when the search fails. *)
Lemma first_fit_none size l : forall a,
  first_fit a size l = None <-> Forall (fun b => b.2 = true -> b.1 < size) l.
Proof.
  induction l as [|[sz fr] l IH]; intros a; simpl; [by split|].
  rewrite list.Forall_cons, <- (IH (a + SIZEOF_BLOCK + sz)). simpl.
  destruct (first_fit _ size l) as [[q l0]|], fr; simpl; repeat case_if; split; try naive_solver lia.
  all: intros [H _]; specialize (H eq_refl); lia.
Qed.

(** What an allocation does to a block list. *)
Lemma first_fit_ok size l a p l' :
  first_fit a size l = Some (p, l') -> sizes_ok l -> MIN_BLOCK_SIZE <= size -> size mod 8 = 0 ->
  sizes_ok l' /\ span l' = span l /\
  exists k, size <= k /\ live_from a l' = <[p := k]> (live_from a l) /\
    live_from a l !! p = None /\ live_from a l' !! p = Some k.
Proof.
  intros Hff Hsz Hs8 Hs0.
  destruct (first_fit_spec _ _ _ _ _ Hff) as (l1 & sz & l2 & k & l2' & -> & -> & -> & Hk & _ & Hcase).
  assert (sizes_ok (l1 ++ (k, false) :: l2') /\ span (l1 ++ (k, false) :: l2') = span (l1 ++ (sz, true) :: l2) /\
    live_from a (l1 ++ (k, true) :: l2') = live_from a (l1 ++ (sz, true) :: l2)) as (H1 & H2 & H3).
  { apply sizes_app in Hsz as [Hl1 [[Hb Hmod] Hl2]%sizes_cons]. simpl in Hb, Hmod.
    rewrite sizes_app, !span_app, !live_from_app. cbn [span foldr fst live_from].
    destruct Hcase as [(-> & -> & _)|(-> & Hle & ->)].
    - split_and!; [done| |done..]. by apply sizes_cons.
    - split_and!; [done|..].
      + rewrite !sizes_cons. cbn [fst]. split_and!; try done; [flia|].
        unfold SIZEOF_BLOCK. rewrite <- Z.sub_add_distr, Zminus_mod, Hmod, Zplus_mod, Hs0. done.
      + cbn [foldr fst]. lia.
      + cbn [live_from]. do 2 f_equal. lia. }
  split_and!; [done|done|]. exists k. split; [lia|].
  destruct (live_from_mid a l1 k l2' H1) as [E1 E2]. rewrite E1, H3 in *.
  split_and!; [done|done|apply lookup_insert_eq].
Qed.

(** ** [mm_alloc] *)

Lemma fr_length m l : fl_rep m l -> (length l <= fuel_of m)%nat.
Proof.
  intros [_ _ _ Hs Hsz _]. apply seg_span in Hs. pose proof (span_length l Hsz).
  unfold fuel_of, SIZEOF_BLOCK. assert (Z.of_nat (length l) <= heap_size m / 24); [|lia].
  apply Z.div_le_lower_bound; lia.
Qed.

Lemma fr_blocks m l : fl_rep m l -> blocks_of m = l.
Proof.
  intros Hrep. pose proof (fr_length _ _ Hrep). destruct Hrep as [Hf H0 _ Hs Hsz Hne].
  unfold blocks_of. rewrite Hf. pose proof (blocks_from_seg (fuel_of m) m _ l _ Hs Hsz H0 H) as E.
  by destruct l.
Qed.

Lemma mm_alloc_rep m l size :
  fl_rep m l -> 0 < size -> size + 7 < 2 ^ 64 ->
  match first_fit (heap_start m) (align8 size) l with
  | None => mm_alloc size m = Some (0, m)
  | Some (p, l') => exists m', mm_alloc size m = Some (p, m') /\ fl_rep m' l' /\ same_heap m m'
  end.
Proof.
  intros Hrep H0 Hw. pose proof (fr_length _ _ Hrep) as Hlen.
  destruct Hrep as [Hf Hst [Hge Hlt] Hs Hsz Hne].
  destruct (align8_spec size ltac:(lia) Hw) as [Ha Hm].
  assert (MIN_BLOCK_SIZE <= align8 size) as H8.
  { unfold MIN_BLOCK_SIZE. pose proof (Z.div_mod (align8 size) 8 ltac:(lia)). lia. }
  pose proof (alloc_loop_spec l (S (fuel_of m)) (heap_start m) _ (align8 size) m Hs Hsz Hst
    ltac:(lia) ltac:(lia) ltac:(lia)) as Hl.
  unfold mm_alloc. replace (size =? 0) with false by lia. rewrite Hf.
  replace (link l 0 (heap_start m)) with (heap_start m) in Hl by (by destruct l).
  destruct (first_fit _ _ l) as [[p l']|] eqn:Hff; [|done].
  destruct Hl as (m' & Hrun & Hs' & (E1 & E2 & E3) & _). exists m'. split; [done|]. split; [|done].
  destruct (first_fit_ok _ _ _ _ _ Hff Hsz H8 Hm) as (Hok & _ & _).
  split; rewrite ?E1, ?E2, ?E3; try done. by destruct (first_fit_nonempty _ _ _ _ _ Hff).
Qed.

(** ** Replacing a block of a segment *)

Lemma seg_mid h a l1 sz fr l2 e n :
  seg h a (l1 ++ (sz, fr) :: l2) e n ->
  let x := a + span l1 in
  seg h a l1 x x /\ seg h (x + SIZEOF_BLOCK + sz) l2 e n /\
  exists f, ctrue f = fr /\ h !! x = Some (mkBlock sz f (link l2 n (x + SIZEOF_BLOCK + sz))).
Proof.
  intros (x & H1 & Hf & H2)%seg_app. pose proof (seg_span _ _ _ _ _ H1) as ->. done.
Qed.

Lemma seg_put h a l1 x sz f l2 e n :
  seg h a l1 x x -> seg h (x + SIZEOF_BLOCK + sz) l2 e n -> sizes_ok l1 -> sizes_ok l2 -> 0 <= sz ->
  seg (<[x := mkBlock sz f (link l2 n (x + SIZEOF_BLOCK + sz))]> h) a (l1 ++ (sz, ctrue f) :: l2) e n.
Proof.
  intros H1 H2 Hl1 Hl2 Hsz. apply seg_app. exists x. simpl. split; [|split].
  - apply seg_store; [done|lia|done].
  - exists f. split; [done|]. apply lookup_insert_eq.
  - apply seg_store; [done|flia|done].
Qed.

(** ** Freeing on block lists *)

(** A block absorbs the free block that follows it. *)
Definition absorb (sz : Z) (l2 : list (Z * bool)) : Z * list (Z * bool) :=
  match l2 with
  | (sz2, true) :: l2 => (sz + SIZEOF_BLOCK + sz2, l2)
  | _ => (sz, l2)
  end.

(** The block list after block [(sz, false)] between [l1] and [l2] is freed. *)
Definition coalesce (l1 : list (Z * bool)) (sz : Z) (l2 : list (Z * bool)) : list (Z * bool) :=
  let '(sz, l2) := absorb sz l2 in
  match list.last l1 with
  | Some (szp, true) => removelast l1 ++ (szp + SIZEOF_BLOCK + sz, true) :: l2
  | _ => l1 ++ (sz, true) :: l2
  end.

(** The search for the predecessor is correct unless the block is the first
    of the list: it then stops at the last block, and a free last block is
    taken for the predecessor. *)
Definition prev_sound (l1 : list (Z * bool)) (sz : Z) (l2 : list (Z * bool)) : Prop :=
  l1 <> [] \/ forall szl l, (absorb sz l2).2 <> l ++ [(szl, true)].

Lemma find_prev_pred m l1 szp frp x : forall fuel a,
  seg (headers m) a (l1 ++ [(szp, frp)]) x x -> sizes_ok (l1 ++ [(szp, frp)]) -> 0 < a ->
  (length l1 < fuel)%nat ->
  find_prev fuel a x m = Some (a + span l1).
Proof.
  induction l1 as [|[sz fr] l1 IH]; intros fuel a Hs Hsz Ha Hfuel;
    (destruct fuel as [|fuel]; [simpl in Hfuel; lia|]); simpl.
  - destruct Hs as [(f & _ & ->) _]. simpl. rewrite Z.eqb_refl, andb_false_r. f_equal. lia.
  - destruct Hs as [(f & _ & ->) Hs]. simpl in Hsz. apply sizes_cons in Hsz as [[Hb _] Hsz].
    simpl in Hb, Hfuel. fold (app l1 [(szp, frp)]) in *. cbn [mbind option_bind next].
    pose proof (seg_span _ _ _ _ _ Hs) as Hx. rewrite span_app in Hx. simpl in Hx.
    pose proof Hsz as [Hl1 [[Hp _] _]%sizes_cons]%sizes_app. simpl in Hp.
    pose proof (span_length l1 Hl1).
    replace (link (l1 ++ [(szp, frp)]) x (a + SIZEOF_BLOCK + sz)) with (a + SIZEOF_BLOCK + sz)
      by (by destruct l1).
    replace (a + SIZEOF_BLOCK + sz =? 0) with false by flia.
    replace (a + SIZEOF_BLOCK + sz =? x) with false by flia. simpl.
    rewrite IH; [f_equal; lia|done|done|flia|lia].
Qed.

Lemma find_prev_last m l szl frl x e : forall fuel a,
  seg (headers m) a (l ++ [(szl, frl)]) e 0 -> sizes_ok (l ++ [(szl, frl)]) -> 0 < a ->
  x <= a -> (length l < fuel)%nat ->
  find_prev fuel a x m = Some (a + span l).
Proof.
  induction l as [|[sz fr] l IH]; intros fuel a Hs Hsz Ha Hx Hfuel;
    (destruct fuel as [|fuel]; [simpl in Hfuel; lia|]); simpl.
  - destruct Hs as [(f & _ & ->) _]. simpl. f_equal. lia.
  - destruct Hs as [(f & _ & ->) Hs]. simpl in Hsz. apply sizes_cons in Hsz as [[Hb _] Hsz].
    simpl in Hb, Hfuel. fold (app l [(szl, frl)]) in *. cbn [mbind option_bind next].
    replace (link (l ++ [(szl, frl)]) 0 (a + SIZEOF_BLOCK + sz)) with (a + SIZEOF_BLOCK + sz)
      by (by destruct l).
    replace (a + SIZEOF_BLOCK + sz =? 0) with false by flia.
    replace (a + SIZEOF_BLOCK + sz =? x) with false by flia. simpl.
    rewrite IH; [f_equal; lia|done|done|flia|flia|lia].
Qed.

Lemma merge_next_spec m a l1 sz l2 e :
  seg (headers m) a (l1 ++ (sz, true) :: l2) e 0 -> sizes_ok (l1 ++ (sz, true) :: l2) ->
  0 < a -> e + 64 < 2 ^ 64 ->
  let '(sz', l2') := absorb sz l2 in
  exists m', merge_next (a + span l1) m = Some m' /\ same_heap m m' /\
    seg (headers m') a (l1 ++ (sz', true) :: l2') e 0 /\ sizes_ok (l1 ++ (sz', true) :: l2') /\
    (length l2' <= length l2)%nat.
Proof.
  intros Hs Hsz Ha He. destruct (seg_mid _ _ _ _ _ _ _ _ Hs) as (H1 & H2 & f & Hf & Hh).
  apply sizes_app in Hsz as [Hl1 [[Hb Hmod] Hl2]%sizes_cons]. simpl in Hb, Hmod.
  pose proof (span_length l1 Hl1). unfold merge_next. rewrite Hh. cbn [mbind option_bind next].
  assert (sizes_ok (l1 ++ (sz, true) :: l2)) as Hsame by (by apply sizes_app; split; [|apply sizes_cons]).
  destruct l2 as [|[sz2 fr2] l2]; cbn [link absorb].
  { exists m. done. }
  replace (a + span l1 + SIZEOF_BLOCK + sz =? 0) with false by flia.
  pose proof H2 as [(f2 & Hf2 & Hh2) H3]. rewrite Hh2. cbn [mbind option_bind is_free].
  rewrite Hf2. destruct fr2; [|by exists m].
  apply sizes_cons in Hl2 as [[Hb2 Hmod2] Hl2]. simpl in Hb2, Hmod2.
  pose proof (seg_span _ _ _ _ _ H3). pose proof (span_length l2 Hl2).
  rewrite (modify_lookup _ _ _ _ Hh). cbn [mbind option_bind]. rewrite modify_store.
  cbn [bsize next set_bsize set_next is_free]. rewrite u64_small by flia.
  eexists. split; [done|]. split; [done|].
  replace (sz + (SIZEOF_BLOCK + sz2)) with (sz + SIZEOF_BLOCK + sz2) by lia.
  replace (a + span l1 + SIZEOF_BLOCK + sz + SIZEOF_BLOCK + sz2)
    with (a + span l1 + SIZEOF_BLOCK + (sz + SIZEOF_BLOCK + sz2)) in * by lia.
  split; [|split; [|simpl; lia]].
  - rewrite <- Hf. cbn [store set_headers headers]. apply seg_put; try done. flia.
  - apply sizes_app. split; [done|]. apply sizes_cons. cbn [fst]. split; [|done]. split; [flia|].
    unfold SIZEOF_BLOCK. rewrite Zplus_mod, Hmod2, (Zplus_mod sz), Hmod. done.
Qed.

(** The second half of [coalesce]: the free predecessor absorbs the block. *)
Definition into_prev (l1 : list (Z * bool)) (sz : Z) (l2 : list (Z * bool)) : list (Z * bool) :=
  match list.last l1 with
  | Some (szp, true) => removelast l1 ++ (szp + SIZEOF_BLOCK + sz, true) :: l2
  | _ => l1 ++ (sz, true) :: l2
  end.

Lemma removelast_snoc {A} (l : list A) x : removelast (l ++ [x]) = l.
Proof. apply removelast_last. Qed.

Lemma into_prev_sizes l1 sz l2 :
  sizes_ok (l1 ++ (sz, true) :: l2) ->
  sizes_ok (into_prev l1 sz l2) /\ span (into_prev l1 sz l2) = span (l1 ++ (sz, true) :: l2).
Proof.
  intros Hsz. unfold into_prev. destruct l1 as [|[szp frp] l1 _] using rev_ind; [done|].
  rewrite last_snoc, removelast_snoc. destruct frp; [|done].
  rewrite <- app_assoc in *. simpl in *. rewrite !span_app in *. simpl.
  apply sizes_app in Hsz as [H1 [[Hb Hm] [[Hb' Hm'] H2]%sizes_cons]%sizes_cons]. simpl in *.
  split; [|lia]. apply sizes_app. split; [done|]. apply sizes_cons. simpl. split; [|done].
  split; [flia|]. unfold SIZEOF_BLOCK. rewrite Zplus_mod, Hm', (Zplus_mod szp), Hm. done.
Qed.

Lemma merge_prev_spec m l1 sz l2 e :
  seg (headers m) (heap_start m) (l1 ++ (sz, true) :: l2) e 0 -> sizes_ok (l1 ++ (sz, true) :: l2) ->
  0 < heap_start m -> e + 64 < 2 ^ 64 -> first_block m = heap_start m ->
  (length (l1 ++ (sz, true) :: l2) <= fuel_of m)%nat ->
  (l1 <> [] \/ forall szl l, l2 <> l ++ [(szl, true)]) ->
  exists m', merge_prev (heap_start m + span l1) m = Some m' /\ same_heap m m' /\
    seg (headers m') (heap_start m) (into_prev l1 sz l2) e 0.
Proof.
  intros Hs Hsz Ha He Hfirst Hfuel Hsound. set (a := heap_start m) in *.
  destruct (seg_mid _ _ _ _ _ _ _ _ Hs) as (H1 & H2 & f & Hf & Hh).
  pose proof Hsz as [Hl1 [[Hb Hmod] Hl2]%sizes_cons]%sizes_app. simpl in Hb, Hmod.
  rewrite length_app in Hfuel. simpl in Hfuel.
  unfold merge_prev, into_prev. rewrite Hfirst.
  destruct l1 as [|[szp frp] l1 _] using rev_ind.
  - destruct Hsound as [Hsound|Hsound]; [done|]. cbn [span foldr app list.last].
    destruct l2 as [|[szl frl] l2 _] using rev_ind.
    + change [(sz, true)] with ([] ++ [(sz, true)]) in Hs.
      rewrite (find_prev_last m [] sz true (a + 0) e) by (done || simpl; lia).
      cbn [span foldr mbind option_bind] in Hh |- *. rewrite Hh. cbn [mbind option_bind]. rewrite Z.eqb_refl. by exists m.
    + change ((sz, true) :: l2 ++ [(szl, frl)]) with (((sz, true) :: l2) ++ [(szl, frl)]) in Hs, Hsz.
      rewrite length_app in Hfuel. simpl in Hfuel.
      rewrite (find_prev_last m ((sz, true) :: l2) szl frl (a + 0) e) by (done || simpl; lia).
      cbn [mbind option_bind]. destruct (seg_mid _ _ ((sz, true) :: l2) szl frl [] _ _ Hs) as (_ & _ & fl & Hfl & Hhl).
      rewrite Hhl. cbn [mbind option_bind]. change (a + span []) with (a + 0) in Hh. rewrite Hh. cbn [mbind option_bind is_free].
      rewrite Hfl. destruct frl; [by destruct (Hsound szl l2)|]. rewrite andb_false_r. by exists m.
  - clear Hsound. rewrite length_app in Hfuel. simpl in Hfuel.
    rewrite (find_prev_pred m l1 szp frp) by (done || lia). cbn [mbind option_bind].
    rewrite last_snoc, removelast_snoc.
    pose proof Hl1 as [Hl1' [[Hbp Hmp] _]%sizes_cons]%sizes_app. simpl in Hbp, Hmp.
    rewrite span_app in *. cbn [span foldr fst] in *. fold (span l1) in *.
    pose proof (span_length l1 Hl1').
    destruct (seg_mid _ _ _ _ _ _ _ _ H1) as (H1' & _ & fp & Hfp & Hhp).
    rewrite Hhp, Hh. cbn [mbind option_bind is_free bsize next]. rewrite Hfp.
    replace (a + span l1 =? a + (span l1 + (SIZEOF_BLOCK + szp + 0))) with false by flia.
    destruct frp; [|by exists m]. cbn [negb andb].
    pose proof (seg_span _ _ _ _ _ H2). pose proof (span_length l2 Hl2).
    rewrite (modify_lookup _ _ _ _ Hhp). cbn [mbind option_bind]. rewrite modify_store.
    cbn [bsize next set_bsize set_next is_free]. rewrite u64_small by flia.
    eexists. split; [done|]. split; [done|]. rewrite <- Hfp. cbn [store set_headers headers].
    replace (szp + (SIZEOF_BLOCK + sz)) with (szp + SIZEOF_BLOCK + sz) by lia.
    replace (a + (span l1 + (SIZEOF_BLOCK + szp + 0)) + SIZEOF_BLOCK + sz)
      with (a + span l1 + SIZEOF_BLOCK + (szp + SIZEOF_BLOCK + sz)) in * by lia.
    apply seg_put; try done. flia.
Qed.

Lemma absorb_ok l1 sz l2 sz' l2' :
  absorb sz l2 = (sz', l2') -> span (l1 ++ (sz', true) :: l2') = span (l1 ++ (sz, true) :: l2).
Proof.
  intros E. rewrite !span_app. simpl. f_equal. unfold absorb in E.
  destruct l2 as [|[sz2 [|]] l2]; injection E as <- <-; simpl; lia.
Qed.

Lemma mm_free_rep m l1 sz l2 :
  fl_rep m (l1 ++ (sz, false) :: l2) -> prev_sound l1 sz l2 ->
  exists m', mm_free (heap_start m + span l1 + SIZEOF_BLOCK) m = Some m' /\
    fl_rep m' (coalesce l1 sz l2) /\ same_heap m m'.
Proof.
  intros Hrep Hsound. pose proof (fr_length _ _ Hrep) as Hlen.
  destruct Hrep as [Hf Ha [Hge Hlt] Hs Hsz _].
  destruct (seg_mid _ _ _ _ _ _ _ _ Hs) as (H1 & H2 & f & Hff & Hh).
  pose proof Hsz as [Hl1 [[Hb Hmod] Hl2]%sizes_cons]%sizes_app. simpl in Hb, Hmod.
  pose proof (span_length l1 Hl1). pose proof (span_length l2 Hl2). pose proof (seg_span _ _ _ _ _ H2).
  set (x := heap_start m + span l1) in *.
  unfold mm_free. replace (x + SIZEOF_BLOCK =? 0) with false by flia.
  rewrite !u64_small by flia. case_if; [flia|]. clear Heqb.
  replace (x + SIZEOF_BLOCK - SIZEOF_BLOCK) with x by lia.
  rewrite Hh. cbn [mbind option_bind is_free]. rewrite Hff. rewrite (modify_lookup _ _ _ _ Hh).
  cbn [mbind option_bind set_is_free bsize next].
  set (m1 := store x _ m).
  assert (seg (headers m1) (heap_start m) (l1 ++ (sz, true) :: l2) (heap_start m + heap_size m) 0) as Hs1.
  { unfold m1. cbn [store set_headers headers]. change true with (ctrue 1). apply seg_put; try done. flia. }
  assert (sizes_ok (l1 ++ (sz, true) :: l2)) as Hsz1 by (by apply sizes_app; split; [|apply sizes_cons]).
  pose proof (merge_next_spec m1 _ l1 sz l2 _ Hs1 Hsz1 Ha ltac:(lia)) as Hmn.
  unfold coalesce, prev_sound in *. destruct (absorb sz l2) as [sz' l2'] eqn:Eab.
  destruct Hmn as (m2 & Em2 & (E1 & E2 & E3) & Hs2 & Hsz2 & Hlen2).
  fold x in Em2. rewrite Em2. cbn [mbind option_bind].
  cbn [m1 store set_headers heap_start heap_size first_block] in E1, E2, E3.
  assert (fuel_of m2 = fuel_of m) as Efuel by (unfold fuel_of; by rewrite E2).
  destruct (merge_prev_spec m2 l1 sz' l2' (heap_start m + heap_size m)) as (m3 & Em3 & (F1 & F2 & F3) & Hs3).
  { by rewrite E1. } { done. } { by rewrite E1. } { lia. } { congruence. }
  { rewrite Efuel. rewrite !length_app in *. simpl in *. lia. } { done. }
  rewrite E1 in Em3. fold x in Em3. rewrite Em3. exists m3. split; [done|].
  fold (into_prev l1 sz' l2'). destruct (into_prev_sizes _ _ _ Hsz2) as [Hok _].
  rewrite E1 in Hs3, F1. rewrite E2 in F2. rewrite E3 in F3.
  split; [|done]. split; rewrite ?F1, ?F2, ?F3; try done.
  unfold into_prev. destruct (list.last l1) as [[szp [|]]|]; [destruct (removelast l1)| |]; try done; by destruct l1.
Qed.

(** ** Blocks in use after a free *)

Lemma live_from_absorb a l1 sz l2 sz' l2' :
  absorb sz l2 = (sz', l2') ->
  live_from a (l1 ++ (sz', true) :: l2') = live_from a (l1 ++ (sz, true) :: l2).
Proof.
  intros E. rewrite !live_from_app. f_equal. unfold absorb in E. simpl.
  destruct l2 as [|[sz2 [|]] l2]; injection E as <- <-; simpl; try done. f_equal. lia.
Qed.

Lemma live_from_into_prev a l1 sz l2 :
  live_from a (into_prev l1 sz l2) = live_from a (l1 ++ (sz, true) :: l2).
Proof.
  unfold into_prev. destruct l1 as [|[szp frp] l1 _] using rev_ind; [done|].
  rewrite last_snoc, removelast_snoc. destruct frp; [|done].
  rewrite <- app_assoc, !live_from_app. simpl.
  by rewrite (left_id_L ∅ (∪)), !Z.add_assoc, Z.add_0_r.
Qed.

Lemma live_from_coalesce a l1 sz l2 :
  sizes_ok (l1 ++ (sz, false) :: l2) ->
  live_from a (coalesce l1 sz l2) =
    delete (a + span l1 + SIZEOF_BLOCK) (live_from a (l1 ++ (sz, false) :: l2)).
Proof.
  intros Hsz. unfold coalesce. destruct (absorb sz l2) as [sz' l2'] eqn:E.
  fold (into_prev l1 sz' l2'). rewrite live_from_into_prev, (live_from_absorb _ _ _ _ _ _ E).
  destruct (live_from_mid a l1 sz l2 Hsz) as [-> Hn]. by rewrite delete_insert_id.
Qed.

(** ** Adjacent free blocks *)

(** No two neighbours are free: freeing merged them all. *)
Fixpoint no_adj (l : list (Z * bool)) : Prop :=
  match l with
  | b1 :: ((b2 :: _) as l) => b1.2 && b2.2 = false /\ no_adj l
  | _ => True
  end.

Lemma no_adj_app l1 l2 :
  no_adj (l1 ++ l2) <->
  no_adj l1 /\ no_adj l2 /\ (forall b1 b2, list.last l1 = Some b1 -> head l2 = Some b2 -> b1.2 && b2.2 = false).
Proof.
  induction l1 as [|b l1 IH]; [naive_solver|]. destruct l1 as [|b' l1]; simpl.
  - destruct l2; naive_solver.
  - simpl in IH. rewrite IH. tauto.
Qed.

Lemma no_adj_cons b l :
  no_adj (b :: l) <-> (forall b', head l = Some b' -> b.2 && b'.2 = false) /\ no_adj l.
Proof. destruct l; naive_solver. Qed.

Lemma first_fit_no_adj size l a p l' : first_fit a size l = Some (p, l') -> no_adj l -> no_adj l'.
Proof.
  intros Hff. destruct (first_fit_spec _ _ _ _ _ Hff) as (l1 & sz & l2 & k & l2' & -> & -> & _ & _ & _ & Hc).
  rewrite !no_adj_app, !no_adj_cons. intros (H1 & [H2 H3] & _).
  assert (no_adj l2') as Hl2'.
  { destruct Hc as [(_ & -> & _)|(_ & _ & ->)]; [done|]. by apply no_adj_cons. }
  split_and!; try done. intros b1 b2 _ [= <-]. simpl. apply andb_false_r.
Qed.

Lemma coalesce_no_adj l1 sz l2 : no_adj (l1 ++ (sz, false) :: l2) -> no_adj (coalesce l1 sz l2).
Proof.
  intros (H1 & [_ H2]%no_adj_cons & _)%no_adj_app. unfold coalesce.
  destruct (absorb sz l2) as [sz' l2'] eqn:E.
  assert (no_adj l2' /\ forall b', head l2' = Some b' -> b'.2 = false) as [H3 H4].
  { unfold absorb in E. destruct l2 as [|[sz2 [|]] l2]; injection E as <- <-; [done| |].
    - apply no_adj_cons in H2 as [H2 H3]. split; [done|]. intros b' Hb. by apply H2 in Hb.
    - split; [done|]. by intros b' [= <-]. }
  destruct l1 as [|[szp frp] l1 _] using rev_ind; [by apply (no_adj_cons (sz', true))|].
  rewrite last_snoc, removelast_snoc. destruct frp.
  - apply no_adj_app in H1 as (H1 & _ & H5). rewrite no_adj_app, no_adj_cons.
    split_and!; try done. intros b1 b2 Hb1 [= <-]. simpl. by apply (H5 _ _ Hb1 eq_refl).
  - rewrite no_adj_app, no_adj_cons. split_and!; try done.
    intros b1 b2 Hb1 [= <-]. rewrite last_snoc in Hb1. by injection Hb1 as <-.
Qed.

(** Freeing the block that an allocation has just taken undoes it. *)
Lemma coalesce_first_fit size l a p l' :
  first_fit a size l = Some (p, l') -> no_adj l ->
  exists l1 k l2', l' = l1 ++ (k, false) :: l2' /\ p = a + span l1 + SIZEOF_BLOCK /\
    coalesce l1 k l2' = l.
Proof.
  intros Hff. destruct (first_fit_spec _ _ _ _ _ Hff) as (l1 & sz & l2 & k & l2' & -> & -> & -> & _ & _ & Hc).
  intros (_ & [H2 _]%no_adj_cons & H3)%no_adj_app. exists l1, k, l2'. split_and!; [done|done|].
  assert (absorb k l2' = (sz, l2)) as E.
  { destruct Hc as [(-> & -> & _)|(-> & _ & ->)]; unfold absorb.
    - destruct l2 as [|[sz2 [|]] l2]; try done. by specialize (H2 _ eq_refl).
    - f_equal. lia. }
  unfold coalesce. rewrite E. destruct (list.last l1) as [[szp [|]]|] eqn:El; try done.
  by specialize (H3 _ _ eq_refl eq_refl).
Qed.

(** ** [mm_info] *)

Definition used_bytes (l : list (Z * bool)) : Z := foldr (fun (b : Z * bool) n => (if b.2 then 0 else b.1) + n) 0 l.
Definition free_bytes (l : list (Z * bool)) : Z := foldr (fun (b : Z * bool) n => (if b.2 then b.1 else 0) + n) 0 l.

Lemma bytes_span l : sizes_ok l ->
  0 <= used_bytes l /\ 0 <= free_bytes l /\
  used_bytes l + free_bytes l + SIZEOF_BLOCK * Z.of_nat (length l) = span l.
Proof.
  induction l as [|[sz fr] l IH]; simpl; [lia|]. intros [[Hb _] Hl]%sizes_cons. simpl in Hb.
  destruct (IH Hl) as (? & ? & ?). destruct fr; simpl; flia.
Qed.

Lemma info_loop_spec m e l : forall fuel a u f,
  seg (headers m) a l e 0 -> sizes_ok l -> 0 < a -> (length l < fuel)%nat ->
  0 <= u -> 0 <= f -> u + f + span l < 2 ^ 64 ->
  info_loop fuel (link l 0 a) u f m = Some (u + used_bytes l, f + free_bytes l).
Proof.
  induction l as [|[sz fr] l IH]; intros fuel a u f Hs Hsz Ha Hfuel Hu Hf Hlt;
    (destruct fuel as [|fuel]; [simpl in Hfuel; lia|]).
  { simpl. do 2 f_equal; lia. }
  destruct Hs as [(fl & <- & Hh) Hs]. apply sizes_cons in Hsz as [[Hb _] Hsz]. simpl in Hb, Hfuel, Hlt.
  pose proof (span_length l Hsz). cbn [link info_loop]. replace (a =? 0) with false by lia.
  rewrite Hh. cbn [mbind option_bind is_free next bsize]. cbn [used_bytes free_bytes foldr snd fst].
  fold (used_bytes l) (free_bytes l).
  case_if; rewrite u64_small by flia; (rewrite IH; [do 2 f_equal; lia|done|done|flia|lia|flia|flia|flia]).
Qed.

Lemma mm_info_rep m l :
  fl_rep m l -> mm_info m = Some (heap_size m, used_bytes l, free_bytes l).
Proof.
  intros Hrep. pose proof (fr_length _ _ Hrep) as Hlen. destruct Hrep as [Hf Ha [Hge Hlt] Hs Hsz Hne].
  unfold mm_info. pose proof (seg_span _ _ _ _ _ Hs).
  pose proof (info_loop_spec m _ l (S (fuel_of m)) _ 0 0 Hs Hsz Ha ltac:(lia) ltac:(lia) ltac:(lia) ltac:(lia)) as E.
  rewrite Hf. replace (link l 0 (heap_start m)) with (heap_start m) in E by (by destruct l).
  by rewrite E.
Qed.

(** ** [mm_init] *)

Lemma mm_init_rep a n m :
  0 < a -> SIZEOF_BLOCK + MIN_BLOCK_SIZE <= n -> n mod 8 = 0 -> a + n + 64 < 2 ^ 64 ->
  fl_rep (mm_init a n m) [(n - SIZEOF_BLOCK, true)].
Proof.
  intros Ha Hn Hm Hlt. unfold mm_init. rewrite u64_small by flia.
  split; cbn [first_block heap_start heap_size headers store set_headers]; try done; [flia|..].
  - simpl. split; [|lia]. exists 1. split; [done|]. apply lookup_insert_eq.
  - apply sizes_cons. simpl. split; [|constructor]. split; [flia|].
    unfold SIZEOF_BLOCK. by rewrite Zminus_mod, Hm.
Qed.

(** ** The manager as an instance of the interface *)

Definition fl_inv (m : MM) : Prop := fl_rep m (blocks_of m) /\ no_adj (blocks_of m).

Lemma fl_inv_intro m l : fl_rep m l -> no_adj l -> fl_inv m.
Proof. intros Hrep Hadj. unfold fl_inv. by rewrite (fr_blocks _ _ Hrep). Qed.

Definition live (m : MM) : regions := live_from (heap_start m) (blocks_of m).

Lemma live_rep m l : fl_rep m l -> live m = live_from (heap_start m) l.
Proof. intros Hrep. unfold live. by rewrite (fr_blocks _ _ Hrep). Qed.

(** Any block but the first may be freed. *)
Definition freeable (m : MM) (p : Z) : Prop := p <> heap_start m + SIZEOF_BLOCK.

#[export] Instance FreeList_manager : MemManager MM := {
  Memory.mm_alloc := mm_alloc;
  Memory.mm_free := mm_free;
  Memory.mm_info := mm_info;
  Memory.mm_kind := mm_kind;
  Memory.mm_inv := fl_inv;
  Memory.mm_live := live;
  Memory.mm_freeable := freeable;
  Memory.mm_heap m := (heap_start m, heap_size m)
}.

Lemma live_heap m p k : fl_inv m -> live m !! p = Some k ->
  MIN_BLOCK_SIZE <= k /\ heap_start m + SIZEOF_BLOCK <= p /\ p + k <= heap_start m + heap_size m.
Proof.
  intros [Hrep _] Hp. apply live_from_range in Hp; [|apply Hrep].
  pose proof (seg_span _ _ _ _ _ (fr_seg _ _ Hrep)). flia.
Qed.

Lemma span_mod l : sizes_ok l -> span l mod 8 = 0.
Proof.
  induction l as [|[sz fr] l IH]; [done|]. intros [[_ Hm] Hl]%sizes_cons. simpl in *.
  unfold SIZEOF_BLOCK. by rewrite Zplus_mod, (IH Hl), (Zplus_mod 24), Hm.
Qed.

Lemma live_aligned m p k : fl_inv m -> live m !! p = Some k -> (p - heap_start m) mod 8 = 0.
Proof.
  intros [Hrep _] (l1 & l2 & E & ->)%live_from_split. pose proof (fr_sizes _ _ Hrep) as Hsz.
  rewrite E in Hsz. apply sizes_app in Hsz as [Hl1 _]. apply span_mod in Hl1.
  replace (heap_start m + span l1 + SIZEOF_BLOCK - heap_start m) with (span l1 + 3 * 8) by flia.
  by rewrite Z_mod_plus_full.
Qed.

(** An allocation, in terms of the blocks in use. *)
Lemma mm_alloc_live m size :
  fl_inv m -> 0 < size -> size + 7 < 2 ^ 64 ->
  exists p m', mm_alloc size m = Some (p, m') /\ fl_inv m' /\ same_heap m m' /\
    ((p = 0 /\ m' = m /\ Forall (fun b => b.2 = true -> b.1 < align8 size) (blocks_of m)) \/
     (exists k, size <= k /\ live m' = <[p := k]> (live m) /\ live m !! p = None)).
Proof.
  intros [Hrep Hadj] H0 Hw. pose proof (mm_alloc_rep m _ size Hrep H0 Hw) as Hal.
  destruct (align8_spec size ltac:(lia) Hw) as [Ha Hm].
  assert (MIN_BLOCK_SIZE <= align8 size) as H8.
  { unfold MIN_BLOCK_SIZE. pose proof (Z.div_mod (align8 size) 8 ltac:(lia)). lia. }
  destruct (first_fit _ _ _) as [[p l']|] eqn:Hff.
  - destruct Hal as (m' & Hrun & Hrep' & Hsame). exists p, m'. split; [done|].
    split; [eapply fl_inv_intro; [done|by eapply first_fit_no_adj]|]. split; [done|]. right.
    destruct (first_fit_ok _ _ _ _ _ Hff (fr_sizes _ _ Hrep) H8 Hm) as (_ & _ & k & Hk & Hl & Hn & _).
    exists k. rewrite (live_rep _ _ Hrep'), (live_rep _ _ Hrep). destruct Hsame as (-> & _).
    split_and!; [lia|done|done].
  - exists 0, m. split_and!; try done. left. split_and!; try done. by eapply first_fit_none.
Qed.

Lemma mm_free_live m p k :
  fl_inv m -> live m !! p = Some k -> freeable m p ->
  exists m', mm_free p m = Some m' /\ fl_inv m' /\ same_heap m m' /\ live m' = delete p (live m).
Proof.
  intros [Hrep Hadj] Hp Hfr. destruct (live_from_split _ _ _ _ Hp) as (l1 & l2 & E & ->).
  rewrite E in Hrep, Hadj. destruct (mm_free_rep m l1 k l2 Hrep) as (m' & Hrun & Hrep' & Hsame).
  { left. intros ->. apply Hfr. simpl. lia. }
  exists m'. split; [done|]. split; [eapply fl_inv_intro; [done|by apply coalesce_no_adj]|]. split; [done|].
  rewrite (live_rep _ _ Hrep'), (live_rep _ _ Hrep). destruct Hsame as (-> & _).
  apply live_from_coalesce, Hrep.
Qed.

#[export] Instance FreeList_laws : MemManagerLaws MM.
Proof.
  split; simpl.
  - intros m n Hinv Hn.
    destruct (mm_alloc_live m n Hinv) as (p & m' & Hrun & Hinv' & (E1 & E2 & E3) & Hc); [lia..|].
    exists p, m'. split; [done|]. split; [done|]. split; [by rewrite E1, E2|].
    destruct Hc as [(-> & -> & _)|(k & Hk & Hl & Hn')]; [by left|right].
    assert (live m' !! p = Some k) as Hp by (rewrite Hl; apply lookup_insert_eq).
    destruct (live_heap _ _ _ Hinv' Hp) as (H1 & H2 & H3). rewrite E1, E2 in *.
    pose proof (fr_start _ _ (proj1 Hinv)). exists k. split_and!; try done; try flia.
    intros q j Hq. assert (p <> q) by congruence.
    apply (live_from_disjoint (heap_start m') (blocks_of m')); [apply Hinv'|done| |done].
    fold (live m'). rewrite Hl. by rewrite lookup_insert_ne.
  - intros m p k Hinv Hp Hfr. destruct (mm_free_live m p k Hinv Hp Hfr) as (m' & Hrun & Hi & (E1 & E2 & _) & Hl).
    exists m'. split_and!; try done. by rewrite E1, E2.
  - intros m p k Hinv Hp. destruct (live_heap _ _ _ Hinv Hp). flia.
  - intros m p k q j [Hrep _] Hp Hq Hne. by eapply live_from_disjoint; [apply Hrep|..].
Qed.

(** ** Properties *)

(** A heap of 1024 bytes at address 4096, just initialised, and the same heap
    with two blocks in use. *)
Definition demo : MM := mm_init 4096 1024 (mkMM 0 0 0 ∅).

Definition demo2 : MM :=
  default demo ('(_, m) ← mm_alloc 16 demo; '(_, m) ← mm_alloc 30 m; Some m).

Lemma demo_rep : fl_rep demo [(1000, true)].
Proof. by apply (mm_init_rep 4096 1024). Qed.

Lemma demo_inv : fl_inv demo.
Proof. by apply (fl_inv_intro _ _ demo_rep). Qed.

Lemma demo2_rep : fl_rep demo2 [(16, false); (32, false); (904, true)].
Proof.
  split; try (vm_compute; done).
  - simpl. split_and!; [exists 0|exists 0|exists 1|]; done.
  - repeat constructor; done.
Qed.

(** C38: The search of [mm_alloc] is first fit.  On a heap that represents the
    block list [l], a request of [size] bytes, rounded up to a multiple of 8,
    takes the first free block that is large enough, splitting it when the
    rest can hold a header and 8 bytes, and the resulting heap represents the
    resulting block list; when no free block is large enough the result is
    [NULL] and nothing changes. *)
Theorem alloc_refines_first_fit (m : MM) (l : list (Z * bool)) (size : Z) :
  fl_rep m l -> 0 < size -> size + 7 < 2 ^ 64 ->
  match first_fit (heap_start m) (align8 size) l with
  | None => mm_alloc size m = Some (0, m)
  | Some (p, l') => exists m', mm_alloc size m = Some (p, m') /\ fl_rep m' l' /\ same_heap m m'
  end.
Proof. apply mm_alloc_rep. Qed.

Lemma alloc_refines_first_fit_witness :
  exists m', mm_alloc 30 demo = Some (4120, m') /\ fl_rep m' [(32, false); (944, true)] /\ same_heap demo m'.
Proof. exact (alloc_refines_first_fit demo _ 30 demo_rep ltac:(lia) ltac:(lia)). Defined.

(** C6: A successful allocation returns a block of at least [size] bytes that
    lies inside the heap, is aligned like the heap and overlaps no block in
    use; the blocks in use before stay as they were.  A failed one returns
    [NULL], changes nothing, and happens only when every free block is too
    small. *)
Theorem alloc_safe (m : MM) (size : Z) :
  fl_inv m -> 0 < size -> size + 7 < 2 ^ 64 ->
  exists p m', mm_alloc size m = Some (p, m') /\ fl_inv m' /\
    ((p = 0 /\ m' = m /\ Forall (fun b => b.2 = true -> b.1 < align8 size) (blocks_of m)) \/
     (exists k, size <= k /\ live m' = <[p := k]> (live m) /\ (p - heap_start m) mod 8 = 0 /\
        heap_start m + SIZEOF_BLOCK <= p /\ p + k <= heap_start m + heap_size m /\
        (forall q j, live m !! q = Some j -> disjoint_regions p k q j))).
Proof.
  intros Hinv H0 Hw. destruct (mm_alloc_live m size Hinv H0 Hw) as (p & m' & Hrun & Hinv' & (E1 & E2 & _) & Hc).
  exists p, m'. split; [done|]. split; [done|]. destruct Hc as [Hc|(k & Hk & Hl & Hn)]; [by left|right].
  assert (live m' !! p = Some k) as Hp by (rewrite Hl; apply lookup_insert_eq).
  destruct (live_heap _ _ _ Hinv' Hp) as (H1 & H2 & H3).
  pose proof (live_aligned _ _ _ Hinv' Hp) as H4. rewrite E1, E2 in *.
  exists k. split_and!; try done. intros q j Hq. assert (p <> q) by congruence.
  apply (live_from_disjoint (heap_start m') (blocks_of m')); [apply Hinv'|done| |done].
  fold (live m'). rewrite Hl. by rewrite lookup_insert_ne.
Qed.

Lemma alloc_safe_witness :
  fl_inv demo /\ exists p m', mm_alloc 16 demo = Some (p, m') /\ fl_inv m'.
Proof.
  split; [exact demo_inv|].
  destruct (alloc_safe demo 16 demo_inv ltac:(lia) ltac:(lia)) as (p & m' & H1 & H2 & _).
  exists p, m'. exact (conj H1 H2).
Defined.



(** Freeing the block that an allocation returned restores the block list
    of the heap before the allocation: no byte is lost to fragmentation by an
    allocation and its free. *)
Theorem alloc_free_roundtrip (m : MM) (size p : Z) (m' : MM) :
  fl_inv m -> 0 < size -> size + 7 < 2 ^ 64 -> mm_alloc size m = Some (p, m') ->
  p <> 0 -> freeable m p ->
  exists m'', mm_free p m' = Some m'' /\ fl_rep m'' (blocks_of m) /\ live m'' = live m.
Proof.
  intros [Hrep Hadj] H0 Hw Hal Hp Hfr. pose proof (mm_alloc_rep m _ size Hrep H0 Hw) as Hsp.
  destruct (first_fit _ _ _) as [[q l']|] eqn:Hff; [|congruence].
  destruct Hsp as (m1 & Hal' & Hrep' & Hsame). rewrite Hal in Hal'. injection Hal' as <- <-.
  destruct (coalesce_first_fit _ _ _ _ _ Hff Hadj) as (l1 & k & l2 & -> & -> & Hco).
  destruct Hsame as (Es & E2 & E3). rewrite <- Es.
  destruct (mm_free_rep m' l1 k l2 Hrep') as (m2 & Hrun & Hrep2 & Es2 & _).
  { left. intros ->. apply Hfr. simpl. lia. }
  exists m2. rewrite Hco in Hrep2. split_and!; [done|done|].
  rewrite (live_rep _ _ Hrep2), (live_rep _ _ Hrep). congruence.
Qed.

Lemma alloc_free_roundtrip_witness :
  fl_inv demo2 /\ exists m', mm_alloc 8 demo2 = Some (4216, m') /\
  exists m'', mm_free 4216 m' = Some m'' /\ fl_rep m'' (blocks_of demo2) /\ live m'' = live demo2.
Proof.
  assert (fl_inv demo2) as Hinv by (apply (fl_inv_intro _ _ demo2_rep); repeat split; reflexivity).
  split; [exact Hinv|]. destruct (mm_alloc 8 demo2) as [[p m']|] eqn:E; [|vm_compute in E; discriminate].
  assert (p = 4216) as -> by (vm_compute in E; congruence).
  exists m'. split; [reflexivity|].
  refine (alloc_free_roundtrip demo2 8 4216 m' Hinv _ _ E _ _); [lia|lia|lia|].
  unfold freeable. vm_compute. discriminate.
Defined.

(** [mm_info] reports the heap size, the bytes of the blocks in use and
    the bytes of the free blocks; together with one 24-byte header per block
    they are the whole heap. *)
Theorem info_accounts (m : MM) :
  fl_inv m ->
  exists used free, mm_info m = Some (heap_size m, used, free) /\ 0 <= used /\ 0 <= free /\
    used + free + SIZEOF_BLOCK * Z.of_nat (length (blocks_of m)) = heap_size m.
Proof.
  intros [Hrep _]. exists (used_bytes (blocks_of m)), (free_bytes (blocks_of m)).
  pose proof (bytes_span _ (fr_sizes _ _ Hrep)) as (? & ? & ?).
  pose proof (seg_span _ _ _ _ _ (fr_seg _ _ Hrep)).
  split_and!; try done; [by apply mm_info_rep|lia].
Qed.

Lemma info_accounts_witness :
  fl_inv demo /\ exists used free, mm_info demo = Some (1024, used, free) /\ used + free + 24 = 1024.
Proof.
  split; [exact demo_inv|]. destruct (info_accounts demo demo_inv) as (u & f & H1 & _ & _ & H2).
  exists u, f. split; [exact H1|exact H2].
Defined.

(** Freeing the first block of the heap while the last block is free
    corrupts the list.  With blocks of 16 and 32 bytes in use, freeing the
    first makes the [next] pointers of the second and the last block point to
    each other, so that [mm_info] never reaches the end of the list, whatever
    the number of steps. *)
Theorem free_first_block_cycle :
  exists m, mm_free 4120 demo2 = Some m /\
    option_map next (headers m !! 4136) = Some 4192 /\ option_map next (headers m !! 4192) = Some 4136 /\
    forall fuel, info_loop fuel (first_block m) 0 0 m = None.
Proof.
  destruct (mm_free 4120 demo2) as [m|] eqn:E; [|vm_compute in E; discriminate]. exists m.
  assert (exists b0 b1 b2, headers m !! 4096 = Some b0 /\ headers m !! 4136 = Some b1 /\
    headers m !! 4192 = Some b2 /\ next b0 = 4136 /\ next b1 = 4192 /\ next b2 = 4136 /\
    first_block m = 4096) as (b0 & b1 & b2 & H0 & H1 & H2 & N0 & N1 & N2 & Hf).
  { vm_compute in E. injection E as <-. do 3 eexists. vm_compute. split_and!; reflexivity. }
  rewrite H1, H2. simpl. rewrite N1, N2, Hf. split_and!; try done.
  assert (forall fuel u f, info_loop fuel 4136 u f m = None /\ info_loop fuel 4192 u f m = None) as Hloop.
  { induction fuel as [|fuel IH]; intros u f; [done|].
    cbn [info_loop Z.eqb]. rewrite H1, H2. cbn [mbind option_bind]. rewrite N1, N2.
    split; case_if; apply IH. }
  intros [|fuel]; [done|]. cbn [info_loop Z.eqb]. rewrite H0. cbn [mbind option_bind]. rewrite N0.
  case_if; apply Hloop.
Qed.

(** A request within 7 bytes of [2^64] is rounded up to 0: [mm_alloc]
    does not fail but returns a block of zero bytes. *)
Theorem alloc_size_wraps (size : Z) :
  2 ^ 64 - 7 <= size < 2 ^ 64 ->
  exists m', mm_alloc size demo = Some (4120, m') /\ option_map bsize (headers m' !! 4096) = Some 0.
Proof.
  intros H. assert (align8 size = 0) as E.
  { unfold align8. replace (u64 (size + 7)) with (size + 7 - 2 ^ 64).
    - assert (exists r, size + 7 - 2 ^ 64 = r /\ 0 <= r < 7) as (r & -> & Hr) by (eexists; split; [done|lia]).
      assert (r = 0 \/ r = 1 \/ r = 2 \/ r = 3 \/ r = 4 \/ r = 5 \/ r = 6) as Hr7 by lia.
      by destruct Hr7 as [->|[->|[->|[->|[->|[->| ->]]]]]].
    - unfold u64. rewrite <- (Z.mod_small (size + 7 - 2 ^ 64) (2 ^ 64)) by lia.
      rewrite Zminus_mod, Z_mod_same_full, Z.sub_0_r, Z.mod_mod by lia. done. }
  unfold mm_alloc. replace (size =? 0) with false by lia. rewrite E.
  eexists. split; vm_compute; reflexivity.
Qed.

Lemma alloc_size_wraps_witness :
  exists m', mm_alloc (2 ^ 64 - 1) demo = Some (4120, m') /\ option_map bsize (headers m' !! 4096) = Some 0.
Proof. apply (alloc_size_wraps (2 ^ 64 - 1)). lia. Defined.

End FreeList.
