(* ===== verification/Buddy.v ===== *)
(** * The buddy memory manager

    [Kernel/memory/buddyManager.c]: blocks of 2^5 to 2^20 bytes at offsets
    that are multiples of their size, one doubly linked list of free blocks per
    order.  The memory of the headers is a finite map from addresses; reading
    an address where nothing was written, an undefined shift, and exhausting
    the fuel of a traversal give [None].  The theorems relate the headers and
    the lists to the map of blocks they represent, and show that blocks in use
    never overlap, that allocation succeeds when a large enough block is free,
    and that freeing merges a block with its buddies. *)

From S2P Require Import Prelude Memory.
Local Open Scope Z_scope.

Module Buddy.

(** ** Data *)

Definition MIN_ORDER : Z := 5.
Definition MAX_ORDER : Z := 20.
Definition NUM_ORDERS : Z := MAX_ORDER - MIN_ORDER + 1.

(** [sizeof(BlockHeader)] *)
Definition SIZEOF_HEADER : Z := 8.

Record FreeBlock := mkFB { order : Z; next : Z; prev : Z }.

Definition set_order v b := mkFB v (next b) (prev b).
Definition set_next v b := mkFB (order b) v (prev b).
Definition set_prev v b := mkFB (order b) (next b) v.

Record BM := mkBM {
  free_lists : list Z;
  heap_base : Z;
  heap_size : Z;
  blocks : gmap Z FreeBlock
}.

Definition set_free_lists v m := mkBM v (heap_base m) (heap_size m) (blocks m).
Definition set_blocks v m := mkBM (free_lists m) (heap_base m) (heap_size m) v.

(** A store into a field of the block at [a]. *)
Definition write (f : FreeBlock -> FreeBlock) (a : Z) (m : BM) : BM :=
  set_blocks (<[a := f (default (mkFB 0 0 0) (blocks m !! a))]> (blocks m)) m.

(** ** The lists *)

Definition list_index (o : Z) : Z := o - MIN_ORDER.

Definition list_push (o block : Z) (m : BM) : BM :=
  let idx := list_index o in
  let m := write (set_next ((free_lists m).[idx])) block m in
  let m := write (set_prev 0) block m in
  let m := if negb ((free_lists m).[idx] =? 0) then write (set_prev block) ((free_lists m).[idx]) m else m in
  set_free_lists (seti idx block (free_lists m)) m.

Definition list_remove (o block : Z) (m : BM) : option BM :=
  let idx := list_index o in
  m ← (if negb ((free_lists m).[idx] =? 0) then
         b ← blocks m !! block;
         let m :=
           if negb (prev b =? 0) then write (set_next (next b)) (prev b) m
           else set_free_lists (seti idx (next b) (free_lists m)) m in
         b ← blocks m !! block;
         Some (if negb (next b =? 0) then write (set_prev (prev b)) (next b) m else m)
       else Some m);
  let m := write (set_next 0) block m in
  Some (write (set_prev 0) block m).

(** [while ((1ULL << order) < size) order++;] a shift by 64 is undefined. *)
Fixpoint order_loop (fuel : nat) (o size : Z) : option Z :=
  match fuel with
  | O => None
  | S fuel => if 2 ^ o <? size then order_loop fuel (o + 1) size else Some o
  end.

Definition order_for_size (size : Z) : option Z :=
  o ← order_loop (Z.to_nat (64 - MIN_ORDER)) MIN_ORDER size;
  Some (if o >? MAX_ORDER then -1 else o).

(** ** Initialisation *)

(** [while (remaining >= block_size)], with enough fuel for [remaining]. *)
Fixpoint carve (fuel : nat) (o : Z) (x : Z * Z * BM) : option (Z * Z * BM) :=
  match fuel with
  | O => None
  | S fuel =>
      let '(remaining, offset, m) := x in
      if remaining >=? 2 ^ o then
        let block := heap_base m + offset in
        let m := write (set_order o) block m in
        let m := list_push o block m in
        carve fuel o (remaining - 2 ^ o, offset + 2 ^ o, m)
      else Some x
  end.

(** [for (order = MAX_ORDER; order >= MIN_ORDER && remaining > 0; order--)] *)
Fixpoint carve_orders (os : list Z) (x : Z * Z * BM) : option (Z * Z * BM) :=
  match os with
  | [] => Some x
  | o :: os =>
      if x.1.1 >? 0 then
        x ← carve (S (Z.to_nat (x.1.1 / 2 ^ o))) o x;
        carve_orders os x
      else Some x
  end.

(** [MAX_ORDER], ..., [MIN_ORDER] *)
Definition orders_down : list Z := (fun i => MAX_ORDER - i) <$> seqZ 0 NUM_ORDERS.

Definition mm_init (heapStart heapSize : Z) (m : BM) : option BM :=
  let m := mkBM (free_lists m) heapStart heapSize (blocks m) in
  let m := for_loop 0 NUM_ORDERS (fun m i => set_free_lists (seti i 0 (free_lists m)) m) m in
  '(_, _, m) ← carve_orders orders_down (heapSize, 0, m);
  Some m.

(** ** Allocation *)

(** [while (found > order)] splits the block and keeps its first half. *)
Fixpoint split_loop (n : nat) (found block : Z) (m : BM) : BM :=
  match n with
  | O => m
  | S n =>
      let found := found - 1 in
      let second_half := block + 2 ^ found in
      let m := write (set_order found) second_half m in
      split_loop n found block (list_push found second_half m)
  end.

Definition mm_alloc (size : Z) (m : BM) : option (Z * BM) :=
  if size =? 0 then Some (0, m)
  else
    o ← order_for_size (u64 (size + SIZEOF_HEADER));
    if o =? -1 then Some (0, m)
    else
      let found := find_idx (fun i => negb ((free_lists m).[list_index i] =? 0)) o (MAX_ORDER - o + 1) in
      if found =? -1 then Some (0, m)
      else
        let block := (free_lists m).[list_index found] in
        m ← list_remove found block m;
        let m := split_loop (Z.to_nat (found - o)) found block m in
        let m := write (set_order o) block m in
        Some (block + SIZEOF_HEADER, m).

(** ** Freeing *)

(** Is [buddy] in the list that starts at [current]? *)
Fixpoint in_list (fuel : nat) (current buddy : Z) (m : BM) : option bool :=
  match fuel with
  | O => None
  | S fuel =>
      if current =? 0 then Some false
      else if current =? buddy then Some true
      else b ← blocks m !! current; in_list fuel (next b) buddy m
  end.

(** A list holds no more blocks than have been written. *)
Definition list_fuel (m : BM) : nat := S (size (blocks m)).

(** [while (order < MAX_ORDER && can_merge)] *)
Fixpoint merge_loop (fuel : nat) (block o block_size : Z) (m : BM) : option (Z * Z * BM) :=
  match fuel with
  | O => None
  | S fuel =>
      if o <? MAX_ORDER then
        let offset := u64 (block - heap_base m) in
        let buddy_offset := Z.lxor offset block_size in
        let buddy := u64 (heap_base m + buddy_offset) in
        found ← in_list (list_fuel m) ((free_lists m).[list_index o]) buddy m;
        if (found : bool) then
          m ← list_remove o buddy m;
          merge_loop fuel (if buddy <? block then buddy else block) (o + 1) (u64 (block_size * 2)) m
        else Some (block, o, m)
      else Some (block, o, m)
  end.

(** Each iteration that goes on raises the order. *)
Definition mm_free (ptr : Z) (m : BM) : option BM :=
  if ptr =? 0 then Some m
  else
    let block := u64 (ptr - SIZEOF_HEADER) in
    b ← blocks m !! block;
    let o := i32 (order b) in
    if (0 <=? o) && (o <? 64) then
      '(block, o, m) ← merge_loop (S (Z.to_nat (MAX_ORDER - o))) block o (2 ^ o) m;
      let m := write (set_order o) block m in
      Some (list_push o block m)
    else None.

(** ** Statistics *)

Fixpoint count_loop (fuel : nat) (current o available : Z) (m : BM) : option Z :=
  match fuel with
  | O => None
  | S fuel =>
      if current =? 0 then Some available
      else b ← blocks m !! current; count_loop fuel (next b) o (u64 (available + 2 ^ o)) m
  end.

(** [(total, used, free_bytes)] *)
Definition mm_info (m : BM) : option (Z * Z * Z) :=
  available ← for_loop MIN_ORDER NUM_ORDERS (fun acc o =>
                available ← acc; count_loop (list_fuel m) ((free_lists m).[list_index o]) o available m) (Some 0);
  Some (heap_size m, u64 (heap_size m - available), available).

Definition mm_kind : Z := MM_KIND_BUDDY.

End Buddy.
