(* ===== verification/BuddyRep.v ===== *)
(** * The structure of the buddy manager

    The doubly linked lists of [Buddy.v] as lists of addresses, and the map of
    blocks that the headers and the lists represent. *)

From S2P Require Import Prelude Memory Buddy.
Import Buddy.
Local Open Scope Z_scope.

(** ** Doubly linked segments *)

Definition first_or (n : Z) (l : list Z) : Z := match l with [] => n | a :: _ => a end.

Fixpoint last_or (p : Z) (l : list Z) : Z := match l with [] => p | a :: l => last_or a l end.

(** From the predecessor [p] to the successor [n]. *)
Fixpoint dseg (h : gmap Z FreeBlock) (p : Z) (l : list Z) (n : Z) : Prop :=
  match l with
  | [] => True
  | a :: l => a <> 0 /\ (exists b, h !! a = Some b /\ prev b = p /\ next b = first_or n l) /\ dseg h a l n
  end.

Lemma first_or_app n l1 l2 : first_or n (l1 ++ l2) = first_or (first_or n l2) l1.
Proof. by destruct l1. Qed.

Lemma dseg_app h p l1 l2 n : dseg h p (l1 ++ l2) n <-> dseg h p l1 (first_or n l2) /\ dseg h (last_or p l1) l2 n.
Proof.
  revert p. induction l1 as [|a l1 IH]; intros p; simpl; [tauto|]. rewrite IH, first_or_app. tauto.
Qed.

Lemma dseg_frame h h' p l n : (forall a, a ∈ l -> h' !! a = h !! a) -> dseg h p l n -> dseg h' p l n.
Proof.
  revert p. induction l as [|a l IH]; intros p Hf; [done|]. intros (H0 & (b & Hb & E) & Hl). split; [done|]. split.
  - exists b. rewrite Hf by left. done.
  - apply IH; [|done]. intros x Hx. apply Hf. by right.
Qed.

Lemma dseg_nonzero h p l n a : dseg h p l n -> a ∈ l -> a <> 0 /\ is_Some (h !! a).
Proof.
  revert p. induction l as [|x l IH]; intros p; [by intros _ ?%elem_of_nil|].
  intros (H0 & (b & Hb & _) & Hl) [->|Ha]%elem_of_cons; [by eauto|]. by eapply IH.
Qed.

(** Redirecting the last [next] field and the first [prev] field. *)
Lemma dseg_set_next h p l a b n n' :
  h !! a = Some b -> a ∉ l -> dseg h p (l ++ [a]) n -> dseg (<[a := set_next n' b]> h) p (l ++ [a]) n'.
Proof.
  intros Hb Ha. rewrite !dseg_app. intros [Hl (H0 & (b' & Hb' & E1 & E2) & _)]. rewrite Hb in Hb'. simplify_eq. split.
  - eapply dseg_frame; [|done]. intros x Hx. apply lookup_insert_ne. by intros ->.
  - split; [done|]. split; [|done]. eexists. by rewrite lookup_insert_eq.
Qed.

Lemma dseg_set_prev h p l a b n p' :
  h !! a = Some b -> a ∉ l -> dseg h p (a :: l) n -> dseg (<[a := set_prev p' b]> h) p' (a :: l) n.
Proof.
  intros Hb Ha (H0 & (b' & Hb' & E1 & E2) & Hl). rewrite Hb in Hb'. simplify_eq. split; [done|]. split.
  - eexists. by rewrite lookup_insert_eq.
  - eapply dseg_frame; [|done]. intros x Hx. apply lookup_insert_ne. by intros ->.
Qed.

(** ** The table of lists *)

Definition order_range (o : Z) : Prop := MIN_ORDER <= o <= MAX_ORDER.

Record lists_ok (m : BM) (L : Z -> list Z) : Prop := {
  lo_len : length (free_lists m) = 16%nat;
  lo_head o : order_range o -> (free_lists m).[list_index o] = first_or 0 (L o);
  lo_seg o : order_range o -> dseg (blocks m) 0 (L o) 0;
  lo_nodup o : order_range o -> NoDup (L o);
  lo_apart o o' a : order_range o -> order_range o' -> a ∈ L o -> a ∈ L o' -> o = o'
}.

(** The recorded orders of the blocks that were written do not change. *)
Record keeps (m m' : BM) : Prop := {
  ke_base : heap_base m' = heap_base m;
  ke_size : heap_size m' = heap_size m;
  ke_order a b : blocks m !! a = Some b -> exists b', blocks m' !! a = Some b' /\ order b' = order b
}.

Lemma keeps_refl m : keeps m m.
Proof. split; eauto. Qed.

Lemma keeps_trans m1 m2 m3 : keeps m1 m2 -> keeps m2 m3 -> keeps m1 m3.
Proof.
  intros [B1 S1 O1] [B2 S2 O2]. split; try congruence. intros a b (b1 & Hb & E1)%O1.
  destruct (O2 _ _ Hb) as (b2 & ? & ?). exists b2. split; congruence.
Qed.

(** A store into the link fields. *)
Lemma keeps_write f a m : (forall b, order (f b) = order b) -> keeps m (write f a m).
Proof.
  intros Hf. split; try done. intros x b Hb. unfold write. simpl. destruct (decide (a = x)) as [->|Hne].
  - rewrite lookup_insert_eq, Hb. eauto.
  - rewrite lookup_insert_ne by done. eauto.
Qed.

Lemma keeps_lists v m : keeps m (set_free_lists v m).
Proof. split; eauto. Qed.

(** The blocks after a store. *)
Lemma write_eq f a m b : blocks m !! a = Some b -> blocks (write f a m) = <[a := f b]> (blocks m).
Proof. intros Hb. unfold write. simpl. by rewrite Hb. Qed.

Lemma write_ne f a m x : x <> a -> blocks (write f a m) !! x = blocks m !! x.
Proof. intros. unfold write. simpl. by rewrite lookup_insert_ne. Qed.

Lemma write_present f a m : is_Some (blocks (write f a m) !! a).
Proof. unfold write. simpl. rewrite lookup_insert_eq. eauto. Qed.

Ltac olia := unfold order_range, list_index, NUM_ORDERS, MIN_ORDER, MAX_ORDER, SIZEOF_HEADER in *; lia.

(** The lists after a change of level [o] alone: its new list is well linked,
    its blocks are in no other level, and the links of the other levels are
    untouched. *)
Lemma lists_ok_level m m' L o l :
  lists_ok m L -> order_range o -> length (free_lists m') = 16%nat ->
  (forall o', order_range o' -> (free_lists m').[list_index o'] =
     if o' =? o then first_or 0 l else (free_lists m).[list_index o']) ->
  dseg (blocks m') 0 l 0 -> NoDup l ->
  (forall x o', order_range o' -> o' <> o -> x ∈ L o' -> x ∉ l /\ blocks m' !! x = blocks m !! x) ->
  lists_ok m' (fupd L o l).
Proof.
  intros [Hlen Hhd Hseg Hnd Hap] Ho Hlen' Hhd' Hseg' Hnd' Hx. unfold fupd. split; [done|..].
  - intros o' Ho'. rewrite Hhd' by done. case_if; [done|by apply Hhd].
  - intros o' Ho'. destruct (Z.eqb_spec o' o) as [->|Hne]; [done|].
    eapply dseg_frame; [|by apply Hseg]. intros x Hin. by eapply Hx.
  - intros o' Ho'. case_if; [done|by apply Hnd].
  - intros o1 o2 x H1 H2.
    destruct (Z.eqb_spec o1 o) as [->|N1], (Z.eqb_spec o2 o) as [->|N2]; [done|..|by apply Hap].
    + intros Hl Hin. by destruct (Hx x o2 H2 N2 Hin).
    + intros Hin Hl. by destruct (Hx x o1 H1 N1 Hin).
Qed.

Lemma list_push_ok m L o a :
  lists_ok m L -> order_range o -> a <> 0 -> (forall o', order_range o' -> a ∉ L o') ->
  lists_ok (list_push o a m) (fupd L o (a :: L o)) /\ keeps m (list_push o a m) /\
  forall x, x <> a -> x ∉ L o -> blocks (list_push o a m) !! x = blocks m !! x.
Proof.
  intros [Hlen Hhd Hseg Hnd Hap] Ho Ha Hn. unfold list_push. cbv zeta.
  set (m1 := write (set_prev 0) a _).
  assert (free_lists m1 = free_lists m) as El by done. rewrite El, Hhd by done.
  assert (blocks m1 !! a = Some (mkFB (order (default (mkFB 0 0 0) (blocks m !! a))) (first_or 0 (L o)) 0)) as E1.
  { unfold m1, write. simpl. rewrite !lookup_insert_eq. simpl. by rewrite Hhd. }
  assert (forall x, x <> a -> blocks m1 !! x = blocks m !! x) as F1 by (intros; unfold m1; by rewrite !write_ne).
  assert (keeps m m1) as K1 by (eapply keeps_trans; apply keeps_write; done).
  set (m2 := if negb (first_or 0 (L o) =? 0) then write (set_prev a) (first_or 0 (L o)) m1 else m1).
  assert (keeps m1 m2) as K2 by (unfold m2; case_if; [by apply keeps_write|apply keeps_refl]).
  assert (free_lists m2 = free_lists m) as El2 by (unfold m2; by case_if).
  assert (dseg (blocks m2) a (L o) 0 /\ (forall x, x ∉ L o -> blocks m2 !! x = blocks m1 !! x)) as [S2 F2].
  { specialize (Hseg o Ho). specialize (Hnd o Ho). specialize (Hn o Ho). unfold m2. destruct (L o) as [|h l]; simpl first_or; [done|].
    apply list.NoDup_cons in Hnd as [Hh Hnd]. apply not_elem_of_cons in Hn as [Hah Hal].
    destruct Hseg as (Hh0 & (b & Hb & Hp & Hnx) & Hl). replace (negb (h =? 0)) with true by lia.
    assert (blocks m1 !! h = Some b) as Hb1 by (by rewrite F1). split.
    - rewrite (write_eq _ _ _ _ Hb1). eapply dseg_set_prev; [done|done|].
      eapply (dseg_frame (blocks m)); [|by split; [|split; [exists b|]]].
      intros x Hx. apply F1. intros ->. apply elem_of_cons in Hx as [?|?]; done.
    - intros x Hx. apply write_ne. intros ->. apply Hx. left. }
  assert (blocks m2 !! a = blocks m1 !! a) as E2 by (by apply F2, Hn).
  split; [|split].
  - eapply (lists_ok_level m); [done|done|..].
    + simpl. by rewrite length_seti, El2.
    + intros o' Ho'. simpl. rewrite El2. destruct (Z.eqb_spec o' o) as [->|Hne].
      * by rewrite geti_seti_eq by olia.
      * by rewrite geti_seti_ne by olia.
    + simpl. split; [done|]. split; [|done]. rewrite E2, E1. by eexists.
    + apply list.NoDup_cons. split; [by apply Hn|by apply Hnd].
    + intros x o' Ho' Hne Hx. assert (x <> a) by (intros ->; by apply (Hn o')).
      assert (x ∉ L o) by (intros Hx'; by apply Hne, (Hap o' o x)).
      split; [by apply not_elem_of_cons|]. simpl. by rewrite F2, F1.
  - eapply keeps_trans; [exact K1|]. eapply keeps_trans; [exact K2|]. apply keeps_lists.
  - intros x Hx Hl. simpl. rewrite F2, F1; done.
Qed.

Lemma last_or_snoc p l a : last_or p (l ++ [a]) = a.
Proof. revert p. induction l as [|x l IH]; intros p; [done|]. apply IH. Qed.

(** The two stores that unlink a block. *)
Lemma unlink_prev m l1 a l2 :
  dseg (blocks m) 0 (l1 ++ a :: l2) 0 -> NoDup (l1 ++ a :: l2) ->
  let m1 := if negb (last_or 0 l1 =? 0) then write (set_next (first_or 0 l2)) (last_or 0 l1) m else m in
  dseg (blocks m1) 0 l1 (first_or 0 l2) /\ free_lists m1 = free_lists m /\ (negb (last_or 0 l1 =? 0) = false <-> l1 = []) /\
  keeps m m1 /\ forall x, x ∉ l1 -> blocks m1 !! x = blocks m !! x.
Proof.
  intros Hs (Hnd & _ & _)%list.NoDup_app. apply dseg_app in Hs as [Hs _].
  destruct l1 as [|q l1 _] using rev_ind; [simpl; split_and!; try done; apply keeps_refl|].
  apply list.NoDup_app in Hnd as (_ & Hq & _). assert (q ∉ l1) as Hq' by (intros ?; by eapply Hq; [|left]).
  rewrite last_or_snoc. pose proof (dseg_nonzero _ _ _ _ q Hs) as [Hq0 [b Hb]]; [apply elem_of_app; right; left|].
  replace (negb (q =? 0)) with true by lia. cbv zeta. split_and!.
  - rewrite (write_eq _ _ _ _ Hb). eapply dseg_set_next; done.
  - done.
  - split; [done|]. intros E. by destruct l1.
  - by apply keeps_write.
  - intros x Hx. apply write_ne. intros ->. apply Hx, elem_of_app. right. left.
Qed.

Lemma unlink_next m p l2 p' :
  dseg (blocks m) p l2 0 -> NoDup l2 ->
  let m2 := if negb (first_or 0 l2 =? 0) then write (set_prev p') (first_or 0 l2) m else m in
  dseg (blocks m2) p' l2 0 /\ free_lists m2 = free_lists m /\ keeps m m2 /\ forall x, x ∉ l2 -> blocks m2 !! x = blocks m !! x.
Proof.
  intros Hs Hnd. destruct l2 as [|r l2]; [simpl; split_and!; try done; apply keeps_refl|]. simpl first_or.
  apply list.NoDup_cons in Hnd as [Hr Hnd]. pose proof (dseg_nonzero _ _ _ _ r Hs) as [Hr0 [b Hb]]; [left|].
  replace (negb (r =? 0)) with true by lia. cbv zeta. split_and!.
  - rewrite (write_eq _ _ _ _ Hb). by eapply dseg_set_prev.
  - done.
  - by apply keeps_write.
  - intros x Hx. apply write_ne. intros ->. apply Hx. left.
Qed.

Lemma list_remove_ok m L o l1 a l2 :
  lists_ok m L -> order_range o -> L o = l1 ++ a :: l2 ->
  exists m', list_remove o a m = Some m' /\ lists_ok m' (fupd L o (l1 ++ l2)) /\ keeps m m'.
Proof.
  intros [Hlen Hhd Hseg Hnd Hap] Ho EL.
  pose proof (Hseg o Ho) as Hs. pose proof (Hnd o Ho) as Hn. rewrite EL in Hs, Hn.
  destruct (unlink_prev m l1 a l2 Hs Hn) as (S1 & El1 & E0 & K1 & F1).
  pose proof (dseg_nonzero _ _ _ _ a Hs) as [Ha0 _]; [apply elem_of_app; right; left|].
  apply dseg_app in Hs as [_ (_ & (b & Hb & Ep & En) & Hl2)].
  pose proof Hn as (Hn1 & Hd & Hn2)%list.NoDup_app. apply list.NoDup_cons in Hn2 as [Ha2 Hn2].
  assert (a ∉ l1) as Ha1 by (intros ?; by eapply Hd; [|left]).
  set (m0 := if negb (prev b =? 0) then write (set_next (next b)) (prev b) m else set_free_lists (seti (list_index o) (next b) (free_lists m)) m).
  assert (blocks m0 = blocks (if negb (last_or 0 l1 =? 0) then write (set_next (first_or 0 l2)) (last_or 0 l1) m else m)) as Eb0.
  { unfold m0. rewrite Ep, En. by case_if. }
  assert (keeps m m0) as K0 by (unfold m0; case_if; [by apply keeps_write|apply keeps_lists]).
  assert (free_lists m0 = if negb (last_or 0 l1 =? 0) then free_lists m else seti (list_index o) (first_or 0 l2) (free_lists m)) as El0.
  { unfold m0. rewrite Ep, En. by case_if. }
  assert (dseg (blocks m0) a l2 0) as Hl20.
  { rewrite Eb0. eapply dseg_frame; [|done]. intros x Hx. apply F1. intros Hx1. eapply Hd; [done|]. by right. }
  destruct (unlink_next m0 a l2 (last_or 0 l1) Hl20 Hn2) as (S2 & El2 & K2 & F2).
  set (m2 := if negb (first_or 0 l2 =? 0) then _ else _) in *.
  exists (write (set_prev 0) a (write (set_next 0) a m2)).
  assert (forall x, x <> a -> blocks (write (set_prev 0) a (write (set_next 0) a m2)) !! x = blocks m2 !! x) as F3 by (intros; by rewrite !write_ne).
  split; [|split].
  - unfold list_remove. cbv zeta. rewrite Hhd, EL, first_or_app by done. simpl first_or.
    replace (negb (first_or a l1 =? 0)) with true.
    + rewrite Hb. simpl. fold m0. replace (blocks m0 !! a) with (Some b) by (rewrite Eb0, F1; done). simpl.
      rewrite Ep, En. done.
    + destruct l1 as [|q l1]; [simpl; lia|]. simpl. destruct S1 as [? _]. lia.
  - eapply (lists_ok_level m); [done|done|..].
    + change (free_lists (write _ _ _)) with (free_lists m2). rewrite El2, El0. case_if; by rewrite ?length_seti.
    + intros o' Ho'. change (free_lists (write _ _ _)) with (free_lists m2). rewrite El2, El0.
      destruct (Z.eqb_spec o' o) as [->|Hne].
      * destruct (negb (last_or 0 l1 =? 0)) eqn:E.
        -- rewrite Hhd, EL, !first_or_app by done. destruct l1; [|done]. by destruct (proj2 E0).
        -- rewrite geti_seti_eq by olia. by rewrite (proj1 E0).
      * case_if; [done|]. by rewrite geti_seti_ne by olia.
    + apply dseg_app. split.
      * eapply dseg_frame; [|exact S1]. intros x Hx. rewrite F3 by (intros E; by rewrite E in Hx).
        rewrite F2 by (intros Hx2; eapply Hd; [done|by right]). by rewrite Eb0.
      * eapply dseg_frame; [|exact S2]. intros x Hx. apply F3. intros E. by rewrite E in Hx.
    + apply list.NoDup_app. split_and!; try done. intros x Hx Hx'. eapply Hd; [done|by right].
    + intros x o' Ho' Hne Hx.
      assert (x ∉ L o) as Hxo by (intros Hx'; by apply Hne, (Hap o' o x)). rewrite EL in Hxo.
      apply not_elem_of_app in Hxo as [? [? ?]%not_elem_of_cons].
      split; [by apply not_elem_of_app|]. rewrite F3, F2 by done. by rewrite Eb0, F1.
  - eapply keeps_trans; [exact K0|]. eapply keeps_trans; [exact K2|]. eapply keeps_trans; by apply keeps_write.
Qed.

(** Searching and counting visit each block once. *)
Lemma list_size m L o : lists_ok m L -> order_range o -> (length (L o) <= size (blocks m))%nat.
Proof.
  intros [_ _ Hseg Hnd _] Ho. rewrite <- (size_list_to_set (C := gset Z)) by (by apply Hnd).
  rewrite <- size_dom. apply subseteq_size. intros x Hx%elem_of_list_to_set. apply elem_of_dom.
  by eapply dseg_nonzero; [apply Hseg|].
Qed.

Lemma in_list_spec fuel m p l x :
  dseg (blocks m) p l 0 -> (length l < fuel)%nat -> in_list fuel (first_or 0 l) x m = Some (bool_decide (x ∈ l)).
Proof.
  revert p l. induction fuel as [|fuel IH]; intros p l Hs Hf; [lia|]. destruct l as [|a l]; [done|].
  destruct Hs as (H0 & (b & Hb & _ & Hn) & Hl). simpl. replace (a =? 0) with false by lia.
  destruct (Z.eqb_spec a x) as [->|Hne].
  - rewrite bool_decide_true; [done|left].
  - rewrite Hb. simpl. rewrite Hn, (IH a l Hl) by (simpl in Hf; lia). f_equal. apply bool_decide_ext.
    rewrite elem_of_cons. split; [by right|]. by intros [->|?].
Qed.

(** ** The blocks *)

(** Address of a block to its order and whether it is free. *)
Notation blockmap := (gmap Z (Z * bool)).

(** A block of order [o] at [a] lies in the heap at a multiple of its size. *)
Definition blk (m : BM) (a o : Z) : Prop :=
  order_range o /\ heap_base m <= a /\ a + 2 ^ o <= heap_base m + heap_size m /\ (a - heap_base m) mod 2 ^ o = 0.

Definition apart (a o a' o' : Z) : Prop := a + 2 ^ o <= a' \/ a' + 2 ^ o' <= a.

(** The block of order [o] at [a] overlaps no block of [B]. *)
Definition fresh (m : BM) (B : blockmap) (a o : Z) : Prop :=
  blk m a o /\ forall a' o' fr, B !! a' = Some (o', fr) -> apart a o a' o'.

Record bd_rep (m : BM) (B : blockmap) : Prop := {
  br_heap : 0 < heap_base m /\ 0 <= heap_size m /\ heap_base m + heap_size m < 2 ^ 64;
  br_lists : exists L, lists_ok m L /\ forall o a, order_range o -> a ∈ L o <-> B !! a = Some (o, true);
  br_block a o fr : B !! a = Some (o, fr) -> blk m a o /\ exists b, blocks m !! a = Some b /\ order b = o;
  br_apart a o fr a' o' fr' : B !! a = Some (o, fr) -> B !! a' = Some (o', fr') -> a <> a' -> apart a o a' o'
}.

Lemma order_pow o : order_range o -> 32 <= 2 ^ o <= 2 ^ 20.
Proof.
  intros Ho. change 32 with (2 ^ 5). split; apply Z.pow_le_mono_r; olia.
Qed.

Lemma keeps_blk m m' a o : keeps m m' -> blk m a o -> blk m' a o.
Proof. intros [Eb Es _]. unfold blk. by rewrite Eb, Es. Qed.

Lemma fresh_none m B a o : bd_rep m B -> fresh m B a o -> B !! a = None.
Proof.
  intros Hr [[Ho _] Hf]. destruct (B !! a) as [[o' fr]|] eqn:E; [|done]. exfalso.
  destruct (br_block _ _ Hr _ _ _ E) as [[Ho' _] _]. pose proof (order_pow o Ho). pose proof (order_pow o' Ho').
  specialize (Hf _ _ _ E). unfold apart in Hf. lia.
Qed.

Lemma keeps_fresh m m' B a o : keeps m m' -> fresh m B a o -> fresh m' B a o.
Proof. intros K [Hb Hf]. split; [by eapply keeps_blk|done]. Qed.

(** Taking a free block off its list. *)
Lemma take_free m B a o :
  bd_rep m B -> B !! a = Some (o, true) ->
  exists m', list_remove o a m = Some m' /\ bd_rep m' (delete a B) /\ fresh m' (delete a B) a o /\ keeps m m'.
Proof.
  intros [Hh (L & HL & HB) Hblk Hap] Ha. destruct (Hblk _ _ _ Ha) as [Hbl _]. pose proof Hbl as [Ho _].
  assert (a ∈ L o) as (l1 & l2 & EL)%list_elem_of_split by (by apply HB).
  destruct (list_remove_ok m L o l1 a l2 HL Ho EL) as (m' & Hm & HL' & K). exists m'. split; [done|].
  pose proof K as [Eb Es Eo]. assert (NoDup (L o)) as Hnd by (by apply (lo_nodup _ _ HL)).
  rewrite EL in Hnd. apply list.NoDup_app in Hnd as (_ & Hd & [Ha2 _]%list.NoDup_cons).
  split_and!; [split|..].
  - by rewrite Eb, Es.
  - exists (fupd L o (l1 ++ l2)). split; [done|]. intros o' x Ho'. unfold fupd. destruct (Z.eqb_spec o' o) as [->|Hne].
    + destruct (decide (x = a)) as [->|Hxa].
      * rewrite lookup_delete_eq. split; [|done]. intros [H1|H1]%elem_of_app; [|done]. exfalso. by eapply Hd; [|left].
      * rewrite lookup_delete_ne, <- HB, EL by done. rewrite !elem_of_app, elem_of_cons. naive_solver.
    + rewrite HB by done. destruct (decide (x = a)) as [->|Hxa].
      * rewrite lookup_delete_eq. split; [|done]. intros. congruence.
      * by rewrite lookup_delete_ne.
  - intros x o' fr [Hx Hb]%lookup_delete_Some. destruct (Hblk _ _ _ Hb) as [H1 (b & H2 & H3)].
    split; [by eapply keeps_blk|]. destruct (Eo _ _ H2) as (b' & ? & ?). exists b'. split; congruence.
  - intros x o1 f1 y o2 f2 [_ H1]%lookup_delete_Some [_ H2]%lookup_delete_Some. by eapply Hap.
  - split; [by eapply keeps_blk|]. intros x o' fr [Hx Hb]%lookup_delete_Some. by eapply Hap.
  - done.
Qed.

(** Setting aside a block in use. *)
Lemma take_used m B a o :
  bd_rep m B -> B !! a = Some (o, false) -> bd_rep m (delete a B) /\ fresh m (delete a B) a o.
Proof.
  intros [Hh (L & HL & HB) Hblk Hap] Ha. split; [split|split].
  - done.
  - exists L. split; [done|]. intros o' x Ho'. rewrite HB by done. destruct (decide (x = a)) as [->|].
    + rewrite lookup_delete_eq. split; [|done]. intros. congruence.
    + by rewrite lookup_delete_ne.
  - intros x o' fr [_ Hb]%lookup_delete_Some. by eapply Hblk.
  - intros x o1 f1 y o2 f2 [_ H1]%lookup_delete_Some [_ H2]%lookup_delete_Some. by eapply Hap.
  - by eapply Hblk.
  - intros x o' fr [Hx Hb]%lookup_delete_Some. by eapply Hap.
Qed.

(** Writing the header of a block that is in no list. *)
Lemma lists_write m L f a : lists_ok m L -> (forall o, order_range o -> a ∉ L o) -> lists_ok (write f a m) L.
Proof.
  intros [Hlen Hhd Hseg Hnd Hap] Ha. split; try done. intros o Ho. eapply dseg_frame; [|by apply Hseg].
  intros x Hx. apply write_ne. intros ->. by apply (Ha o).
Qed.

Lemma fresh_write m B a o x f : fresh m B a o -> fresh (write f x m) B a o.
Proof. done. Qed.

(** The map with one more block represents the state after the header is
    written, given what the lists hold. *)
Lemma add_block m m' B a o fr :
  bd_rep m B -> fresh m B a o -> keeps m m' \/ m' = write (set_order o) a m ->
  heap_base m' = heap_base m -> heap_size m' = heap_size m ->
  (exists L, lists_ok m' L /\ forall o' x, order_range o' -> x ∈ L o' <-> <[a := (o, fr)]> B !! x = Some (o', true)) ->
  (exists b, blocks m' !! a = Some b /\ order b = o) ->
  bd_rep m' (<[a := (o, fr)]> B).
Proof.
  intros Hr Hf K Eb Es HL Ha. pose proof (fresh_none _ _ _ _ Hr Hf) as Hn. destruct Hr as [Hh _ Hblk Hap]. destruct Hf as [Hbl Hf].
  assert (forall x o', blk m x o' -> blk m' x o') as Hb by (intros x o'; unfold blk; by rewrite Eb, Es). split.
  - by rewrite Eb, Es.
  - done.
  - intros x o' fr' [[<- [= <- <-]]|[Hx Hb']]%lookup_insert_Some; [by split; [apply Hb|]|].
    destruct (Hblk _ _ _ Hb') as [H1 (b & H2 & H3)]. split; [by apply Hb|]. destruct K as [[_ _ Eo]| ->].
    + destruct (Eo _ _ H2) as (b' & ? & ?). exists b'. split; congruence.
    + exists b. by rewrite write_ne.
  - intros x o1 f1 y o2 f2 [[<- [= <- <-]]|[Hx H1]]%lookup_insert_Some [[<- [= <- <-]]|[Hy H2]]%lookup_insert_Some Hne; try done.
    + by eapply Hf.
    + destruct (Hf _ _ _ H1); [right|left]; done.
    + by eapply Hap.
Qed.

(** Handing a block out. *)
Lemma put_used m B a o : bd_rep m B -> fresh m B a o -> bd_rep (write (set_order o) a m) (<[a := (o, false)]> B).
Proof.
  intros Hr Hf. pose proof (fresh_none _ _ _ _ Hr Hf) as Hn. eapply add_block; try done; [by right|..].
  - destruct (br_lists _ _ Hr) as (L & HL & HB). exists L. split.
    + apply lists_write; [done|]. intros o' Ho'. rewrite HB, Hn by done. done.
    + intros o' x Ho'. rewrite HB by done. destruct (decide (x = a)) as [->|].
      * rewrite lookup_insert_eq, Hn. done.
      * by rewrite lookup_insert_ne.
  - unfold write. simpl. rewrite lookup_insert_eq. by eexists.
Qed.

(** Putting a block on its list. *)
Lemma put_free m B a o :
  bd_rep m B -> fresh m B a o ->
  let m' := list_push o a (write (set_order o) a m) in
  bd_rep m' (<[a := (o, true)]> B) /\ heap_base m' = heap_base m /\ heap_size m' = heap_size m.
Proof.
  intros Hr Hf. pose proof (fresh_none _ _ _ _ Hr Hf) as Hn. pose proof (put_used m B a o Hr Hf) as Hu.
  destruct (br_lists _ _ Hr) as (L & HL & HB). pose proof Hf as [[Ho [Hlo _]] _].
  assert (forall o', order_range o' -> a ∉ L o') as Hna by (intros o' Ho'; rewrite HB, Hn by done; done).
  assert (a <> 0) as Ha0 by (pose proof (br_heap _ _ Hr); lia).
  set (m1 := write (set_order o) a m) in *.
  destruct (list_push_ok m1 L o a) as (HL' & K & _); [by apply lists_write|done..|].
  pose proof K as [Eb Es Eo]. cbv zeta. split_and!; [|done..].
  destruct (take_used m1 _ a o Hu) as [Hr1 Hf1]; [by rewrite lookup_insert_eq|].
  rewrite delete_insert_id in Hr1, Hf1 by done.
  eapply (add_block m1); [done|done|by left|done|done|..].
  - exists (fupd L o (a :: L o)). split; [done|]. intros o' x Ho'. unfold fupd.
    destruct (decide (x = a)) as [->|Hxa].
    + rewrite lookup_insert_eq. destruct (Z.eqb_spec o' o) as [->|Hne].
      * split; [done|]. intros _. left.
      * split; [intros ?%(Hna o'); done|congruence].
    + rewrite lookup_insert_ne by done. rewrite <- HB by done. destruct (Z.eqb_spec o' o) as [->|]; [|done].
      rewrite elem_of_cons. naive_solver.
  - destruct (br_block _ _ Hu a o false) as [_ (b & Hb & <-)]; [by rewrite lookup_insert_eq|]. by apply Eo.
Qed.
