(* ===== verification/BuddyOps.v ===== *)
(** * Splitting and merging

    Allocation and freeing of [Buddy.v] on the map of blocks. *)

From S2P Require Import Prelude Memory Buddy BuddyRep.
Import Buddy.
Local Open Scope Z_scope.

(** ** Buddies *)

(** The address of the buddy of the block of order [o] at [a]. *)
Definition buddy (base a o : Z) : Z := base + Z.lxor (a - base) (2 ^ o).

Lemma lxor_1 q : Z.lxor q 1 = if Z.even q then q + 1 else q - 1.
Proof.
  assert (forall k, Z.lxor (2 * k) 1 = 2 * k + 1) as He.
  { intros k. symmetry. apply Z.add_nocarry_lxor. apply Z.bits_inj_0. intros n. rewrite Z.land_spec.
    destruct (decide (n = 0)) as [->|]; [by rewrite Z.testbit_even_0|].
    destruct (decide (n < 0)); [by rewrite !Z.testbit_neg_r by done|]. 
    rewrite (Z.bits_above_log2 1 n), andb_false_r; [done|done|]. change (Z.log2 1) with 0. lia. }
  destruct (Z.Even_or_Odd q) as [[k ->]|[k ->]].
  - rewrite He. by rewrite Z.even_mul.
  - rewrite <- (He k), Z.lxor_assoc, Z.lxor_nilpotent, Z.lxor_0_r. rewrite (He k).
    replace (Z.even (2 * k + 1)) with false by (rewrite Z.even_add, Z.even_mul; done). lia.
Qed.

Lemma buddy_cases base a o :
  0 <= o -> base <= a -> (a - base) mod 2 ^ o = 0 ->
  (buddy base a o = a + 2 ^ o /\ (a - base) mod 2 ^ (o + 1) = 0) \/
  (buddy base a o = a - 2 ^ o /\ base <= a - 2 ^ o /\ (a - 2 ^ o - base) mod 2 ^ (o + 1) = 0).
Proof.
  intros Ho Ha Hm. pose proof (Z.pow_pos_nonneg 2 o ltac:(lia) Ho) as Hp.
  pose proof (Z.div_mod (a - base) (2 ^ o) ltac:(lia)) as Hd. set (q := (a - base) / 2 ^ o) in *.
  assert (a - base = Z.shiftl q o) as E by (rewrite Z.shiftl_mul_pow2 by done; lia).
  assert (buddy base a o = base + Z.lxor q 1 * 2 ^ o) as Eb.
  { unfold buddy. rewrite E. replace (2 ^ o) with (Z.shiftl 1 o) at 1 by (rewrite Z.shiftl_mul_pow2 by done; lia).
    by rewrite <- Z.shiftl_lxor, Z.shiftl_mul_pow2. }
  rewrite Eb, lxor_1. rewrite Z.pow_add_r, Z.pow_1_r by lia.
  destruct (Z.Even_or_Odd q) as [[k Ek]|[k Ek]]; rewrite Ek in *.
  - left. rewrite Z.even_mul. cbn [Z.even orb]. split; [lia|].
    replace (a - base) with (k * (2 ^ o * 2)) by lia. apply Z.mod_mul. lia.
  - right. rewrite Z.even_add, Z.even_mul. cbn [Z.even orb eqb]. assert (0 <= k) by nia. split_and!; [lia|nia|].
    replace (a - 2 ^ o - base) with (k * (2 ^ o * 2)) by lia. apply Z.mod_mul. lia.
Qed.

Lemma buddy_invol base a o : buddy base (buddy base a o) o = a.
Proof.
  unfold buddy. replace (base + Z.lxor (a - base) (2 ^ o) - base) with (Z.lxor (a - base) (2 ^ o)) by lia.
  rewrite Z.lxor_assoc, Z.lxor_nilpotent, Z.lxor_0_r. lia.
Qed.

(** The buddy of the first half of a block is the second half. *)
Lemma buddy_first base a o : 0 <= o -> base <= a -> (a - base) mod 2 ^ (o + 1) = 0 -> buddy base a o = a + 2 ^ o.
Proof.
  intros Ho Ha Hm. pose proof (Z.pow_pos_nonneg 2 o ltac:(lia) Ho) as Hp.
  rewrite Z.pow_add_r, Z.pow_1_r in Hm by lia. apply Z.mod_divide in Hm as [q Hq]; [|lia].
  destruct (buddy_cases base a o) as [[-> _]|(_ & Hb & Hd)]; [done|done| |done|].
  - rewrite Hq. replace (q * (2 ^ o * 2)) with (q * 2 * 2 ^ o) by lia. apply Z.mod_mul. lia.
  - exfalso. rewrite Z.pow_add_r, Z.pow_1_r in Hd by lia. apply Z.mod_divide in Hd as [r Hd]; [|lia].
    assert (2 ^ o * (2 * (q - r) - 1) = 0) as Hz by nia. apply Z.mul_eq_0 in Hz as [Hz|Hz]; lia.
Qed.

(** The two halves of a block. *)
Lemma blk_halves m a o :
  blk m a (o + 1) -> MIN_ORDER <= o -> blk m a o /\ blk m (a + 2 ^ o) o /\ buddy (heap_base m) a o = a + 2 ^ o.
Proof.
  intros (Ho & Hlo & Hhi & Hm) Hmin. assert (order_range o) as Hr by olia. pose proof (order_pow o Hr).
  rewrite Z.pow_add_r, Z.pow_1_r in * by olia.
  apply Z.mod_divide in Hm as [q Hq]; [|lia]. 
  assert ((a - heap_base m) mod 2 ^ o = 0) as H1 by (rewrite Hq; replace (q * (2 ^ o * 2)) with (q * 2 * 2 ^ o) by lia; apply Z.mod_mul; lia).
  split_and!.
  - split_and!; [done|done|lia|done].
  - split_and!; [done|lia|lia|]. replace (a + 2 ^ o - heap_base m) with ((q * 2 + 1) * 2 ^ o) by lia. apply Z.mod_mul. lia.
  - apply buddy_first; [olia|done|]. rewrite Z.pow_add_r, Z.pow_1_r by olia. rewrite Hq. apply Z.mod_mul. lia.
Qed.

(** A block and its free buddy form a block of the next order. *)
Lemma blk_merge m a o :
  blk m a o -> blk m (buddy (heap_base m) a o) o -> o < MAX_ORDER -> blk m (Z.min a (buddy (heap_base m) a o)) (o + 1).
Proof.
  intros (Ho & Hlo & Hhi & Hm) (_ & Hlo' & Hhi' & _) Hmax. pose proof (order_pow o Ho).
  assert (order_range (o + 1)) by olia.
  destruct (buddy_cases (heap_base m) a o) as [[E Hm']|(E & Hb & Hm')]; [olia|done..| |]; rewrite E in *.
  - rewrite Z.min_l by lia. split_and!; [done|done| |done]. rewrite Z.pow_add_r by olia. lia.
  - rewrite Z.min_r by lia. split_and!; [done|done| |done]. rewrite Z.pow_add_r by olia. lia.
Qed.

(** ** Splitting *)

Fixpoint split (n : nat) (found block : Z) (B : blockmap) : blockmap :=
  match n with
  | O => B
  | S n => split n (found - 1) block (<[block + 2 ^ (found - 1) := (found - 1, true)]> B)
  end.

(** One half goes on the free list, the other stays at hand. *)
Lemma fresh_halves m B a o :
  fresh m B a (o + 1) -> MIN_ORDER <= o ->
  fresh m B (a + 2 ^ o) o /\ fresh m (<[a + 2 ^ o := (o, true)]> B) a o.
Proof.
  intros [Hb Hf] Hmin. destruct (blk_halves m a o Hb Hmin) as (B1 & B2 & _).
  assert (2 ^ (o + 1) = 2 * 2 ^ o) as E by (rewrite Z.pow_add_r by olia; lia).
  split; (split; [done|]).
  - intros x o' fr Hx. specialize (Hf _ _ _ Hx). unfold apart in *. lia.
  - intros x o' fr [[<- [= <- <-]]|[Hne Hx]]%lookup_insert_Some; [unfold apart; lia|].
    specialize (Hf _ _ _ Hx). pose proof (order_pow o (proj1 B1)). unfold apart in *. lia.
Qed.

Lemma split_loop_rep n m B found a :
  bd_rep m B -> fresh m B a found -> MIN_ORDER <= found - Z.of_nat n ->
  let m' := split_loop n found a m in
  bd_rep m' (split n found a B) /\ fresh m' (split n found a B) a (found - Z.of_nat n) /\
  heap_base m' = heap_base m /\ heap_size m' = heap_size m.
Proof.
  revert m B found. induction n as [|n IH]; intros m B found Hr Hf Hmin.
  - simpl. rewrite Z.sub_0_r. done.
  - cbn [split_loop split]. set (m1 := list_push _ _ _).
    replace found with (found - 1 + 1) in Hf by lia.
    destruct (fresh_halves m B a (found - 1) Hf ltac:(lia)) as [F1 F2].
    destruct (put_free m B (a + 2 ^ (found - 1)) (found - 1) Hr F1) as (R1 & E1 & E2). fold m1 in R1, E1, E2.
    assert (fresh m1 (<[a + 2 ^ (found - 1) := (found - 1, true)]> B) a (found - 1)) as F3.
    { destruct F2 as [Hb F2]. split; [|done]. unfold blk. by rewrite E1, E2. }
    destruct (IH m1 _ (found - 1) R1 F3 ltac:(lia)) as (R & F & E3 & E4).
    replace (found - Z.of_nat (S n)) with (found - 1 - Z.of_nat n) by lia. split_and!; congruence || done.
Qed.

(** ** Merging *)

Fixpoint merge (n : nat) (base a o : Z) (B : blockmap) : Z * Z * blockmap :=
  match n with
  | O => (a, o, B)
  | S n =>
      if decide (B !! buddy base a o = Some (o, true))
      then merge n base (Z.min a (buddy base a o)) (o + 1) (delete (buddy base a o) B)
      else (a, o, B)
  end.

Lemma fresh_merge m B a o :
  bd_rep m B -> fresh m B a o -> o < MAX_ORDER -> B !! buddy (heap_base m) a o = Some (o, true) ->
  fresh m (delete (buddy (heap_base m) a o) B) (Z.min a (buddy (heap_base m) a o)) (o + 1).
Proof.
  intros Hr [Hb Hf] Hmax Hx. destruct (br_block _ _ Hr _ _ _ Hx) as [Hb' _]. split; [by apply blk_merge|].
  intros x o' fr [Hne Hy]%lookup_delete_Some. pose proof (Hf _ _ _ Hy) as H1.
  pose proof (br_apart _ _ Hr _ _ _ _ _ _ Hx Hy Hne) as H2.
  assert (2 ^ (o + 1) = 2 * 2 ^ o) as E by (destruct Hb as [? _]; rewrite Z.pow_add_r by olia; lia).
  destruct (br_block _ _ Hr _ _ _ Hy) as [[Ho' _] _]. pose proof (order_pow o' Ho'). pose proof (order_pow o (proj1 Hb)).
  destruct Hb as (Ho & Hlo & Hhi & Hm).
  destruct (buddy_cases (heap_base m) a o) as [[E' _]|(E' & _ & _)]; [olia|done..| |]; rewrite E' in *; unfold apart in *; lia.
Qed.

Lemma merge_loop_rep n m B a o :
  bd_rep m B -> fresh m B a o -> Z.of_nat n = MAX_ORDER - o ->
  let '(a', o', B') := merge n (heap_base m) a o B in
  exists m', merge_loop (S n) a o (2 ^ o) m = Some (a', o', m') /\ bd_rep m' B' /\ fresh m' B' a' o' /\
    heap_base m' = heap_base m /\ heap_size m' = heap_size m.
Proof.
  revert m B a o. induction n as [|n IH]; intros m B a o Hr Hf Hn.
  - simpl. exists m. replace (o <? MAX_ORDER) with false by lia. done.
  - cbn [merge]. remember (S n) as fuel eqn:Efuel. cbn [merge_loop]. replace (o <? MAX_ORDER) with true by lia. cbv zeta.
    pose proof Hf as [(Ho & Hlo & Hhi & Hm) _]. pose proof (br_heap _ _ Hr) as (H0 & H1 & H2). pose proof (order_pow o Ho) as Hpow.
    assert (u64 (a - heap_base m) = a - heap_base m) as -> by (apply u64_small; lia).
    fold (buddy (heap_base m) a o).
    assert (heap_base m <= buddy (heap_base m) a o < 2 ^ 64) as Hbr.
    { destruct (buddy_cases (heap_base m) a o) as [[-> _]|(-> & ? & _)]; [olia|done..|lia|lia]. }
    change (heap_base m + Z.lxor (a - heap_base m) (2 ^ o)) with (buddy (heap_base m) a o).
    rewrite (u64_small (buddy _ _ _)) by lia. set (b := buddy (heap_base m) a o) in *.
    destruct (br_lists _ _ Hr) as (L & HL & HB).
    rewrite (lo_head _ _ HL o Ho). rewrite (in_list_spec _ m 0 (L o)); [|by apply (lo_seg _ _ HL)|].
    2:{ unfold list_fuel. pose proof (list_size m L o HL Ho). lia. }
    cbn [mbind option_bind]. destruct (decide (B !! b = Some (o, true))) as [Hb|Hb].
    + rewrite bool_decide_true by (by apply HB).
      destruct (take_free m B b o Hr Hb) as (m1 & -> & R1 & _ & K). cbn [mbind option_bind].
      pose proof (fresh_merge m B a o Hr Hf ltac:(lia) Hb) as F1. fold b in F1. pose proof K as [E1 E2 _].
      specialize (IH m1 (delete b B) (Z.min a b) (o + 1) R1 (keeps_fresh _ _ _ _ _ K F1) ltac:(lia)).
      rewrite E1, E2 in IH. destruct (merge n _ _ _ _) as [[a' o'] B'].
      replace (if b <? a then b else a) with (Z.min a b) by (case_if; lia).
      rewrite u64_small by lia. replace (2 ^ o * 2) with (2 ^ (o + 1)) by (rewrite Z.pow_add_r by olia; lia).
      exact IH.
    + rewrite bool_decide_false by (by rewrite HB). by exists m.
Qed.

(** ** No two free buddies *)

Definition coalesced (base : Z) (B : blockmap) : Prop :=
  forall a o, B !! a = Some (o, true) -> o < MAX_ORDER -> B !! buddy base a o <> Some (o, true).

Lemma buddy_ne base a o : 0 <= o -> buddy base a o <> a.
Proof.
  intros Ho E. unfold buddy in E. assert (Z.lxor (a - base) (2 ^ o) = a - base) as E' by lia.
  apply (f_equal (Z.lxor (a - base))) in E'. rewrite <- Z.lxor_assoc, Z.lxor_nilpotent, Z.lxor_0_l in E'.
  pose proof (Z.pow_pos_nonneg 2 o). lia.
Qed.

Lemma coalesced_insert base B a o :
  0 <= o -> coalesced base B -> (o < MAX_ORDER -> B !! buddy base a o <> Some (o, true)) ->
  coalesced base (<[a := (o, true)]> B).
Proof.
  intros Ho Hc Ha x o' [[<- [= <-]]|[Hne Hx]]%lookup_insert_Some Hmax.
  - rewrite lookup_insert_ne by (intros E; by apply (buddy_ne base a o)). by apply Ha.
  - intros [[E [= ->]]|[_ Hb]]%lookup_insert_Some; [|by apply (Hc x o')].
    apply Ha; [done|]. by rewrite E, buddy_invol.
Qed.

Lemma coalesced_used base B a o : coalesced base B -> coalesced base (<[a := (o, false)]> B).
Proof.
  intros Hc x o' [[_ ?]|[_ Hx]]%lookup_insert_Some Hmax; [congruence|].
  intros [[_ ?]|[_ Hb]]%lookup_insert_Some; [congruence|]. by apply (Hc x o').
Qed.

Lemma coalesced_delete base B a : coalesced base B -> coalesced base (delete a B).
Proof. intros Hc x o [_ Hx]%lookup_delete_Some Hmax [_ Hb]%lookup_delete_Some. by apply (Hc x o). Qed.

(** The blocks in use. *)
Definition same_used (B B' : blockmap) : Prop := forall x o, B' !! x = Some (o, false) <-> B !! x = Some (o, false).

Lemma same_used_free B a o : B !! a = None -> same_used B (<[a := (o, true)]> B).
Proof.
  intros Hn x o'. destruct (decide (x = a)) as [->|]; [rewrite lookup_insert_eq, Hn; naive_solver|].
  by rewrite lookup_insert_ne.
Qed.

Lemma same_used_delete B a o : B !! a = Some (o, true) -> same_used B (delete a B).
Proof.
  intros Hn x o'. destruct (decide (x = a)) as [->|]; [rewrite lookup_delete_eq, Hn; naive_solver|].
  by rewrite lookup_delete_ne.
Qed.

Lemma same_used_trans B1 B2 B3 : same_used B1 B2 -> same_used B2 B3 -> same_used B1 B3.
Proof. intros H1 H2 x o. rewrite (H2 x o). apply H1. Qed.

(** Splitting a block at hand leaves the blocks in use and free buddies
    alone, and gives the block back when its pieces are merged. *)
Lemma split_props n m B found a :
  bd_rep m B -> fresh m B a found -> MIN_ORDER <= found - Z.of_nat n ->
  same_used B (split n found a B) /\ (coalesced (heap_base m) B -> coalesced (heap_base m) (split n found a B)) /\
  forall k, merge (n + k) (heap_base m) a (found - Z.of_nat n) (split n found a B) = merge k (heap_base m) a found B.
Proof.
  revert m B found. induction n as [|n IH]; intros m B found Hr Hf Hmin.
  - split; [done|]. split; [done|]. intros k. by rewrite Z.sub_0_r.
  - set (o := found - 1). replace found with (o + 1) in Hf by lia. assert (MIN_ORDER <= o) as Hmo by lia.
    destruct (fresh_halves m B a o Hf Hmo) as [F1 F2]. destruct (put_free m B (a + 2 ^ o) o Hr F1) as (R1 & E1 & E2).
    pose proof (fresh_none _ _ _ _ Hr F1) as N1. pose proof (fresh_none _ _ _ _ Hr Hf) as N2.
    destruct Hf as [Hb _]. destruct (blk_halves m a o Hb Hmo) as (B1 & _ & Eb). pose proof (order_pow o (proj1 B1)).
    assert (buddy (heap_base m) (a + 2 ^ o) o = a) as Eb' by (by rewrite <- Eb, buddy_invol).
    destruct (IH (list_push o (a + 2 ^ o) (write (set_order o) (a + 2 ^ o) m)) _ o R1) as (U & C & Mg).
    { destruct F2 as [Hb2 F2]. split; [|done]. unfold blk. by rewrite E1, E2. }
    { lia. }
    rewrite E1 in C, Mg. cbn [split]. fold o. split_and!.
    + eapply same_used_trans; [|exact U]. by apply same_used_free.
    + intros Hc. apply C, coalesced_insert; [olia|done|]. intros _. rewrite Eb', N2. congruence.
    + intros k. replace (S n + k)%nat with (n + S k)%nat by lia. replace (found - Z.of_nat (S n)) with (o - Z.of_nat n) by lia.
      rewrite Mg. cbn [merge]. rewrite Eb, lookup_insert_eq. rewrite decide_True by done.
      rewrite delete_insert_id by done. f_equal; lia.
Qed.

Lemma merge_props n base a o B :
  let '(a', o', B') := merge n base a o B in
  same_used B B' /\ (coalesced base B -> coalesced base B') /\
  (Z.of_nat n = MAX_ORDER - o -> o' < MAX_ORDER -> B' !! buddy base a' o' <> Some (o', true)).
Proof.
  revert a o B. induction n as [|n IH]; intros a o B; cbn [merge].
  - split_and!; try done. lia.
  - destruct (decide _) as [Hb|Hb]; [|done]. specialize (IH (Z.min a (buddy base a o)) (o + 1) (delete (buddy base a o) B)).
    destruct (merge n _ _ _ _) as [[a' o'] B']. destruct IH as (U & C & Hs). split_and!.
    + eapply same_used_trans; [|exact U]. by eapply same_used_delete.
    + intros Hc. by apply C, coalesced_delete.
    + intros Hn. apply Hs. lia.
Qed.

(** ** Allocation *)

Lemma order_loop_spec fuel o n :
  (0 < fuel)%nat -> n <= 2 ^ (o + Z.of_nat fuel - 1) ->
  exists o', order_loop fuel o n = Some o' /\ o <= o' /\ n <= 2 ^ o' /\ (o < o' -> 2 ^ (o' - 1) < n).
Proof.
  revert o. induction fuel as [|fuel IH]; intros o Hf Hn; [lia|]. cbn [order_loop].
  destruct (Z.ltb_spec (2 ^ o) n) as [Hl|Hl]; [|exists o; split_and!; [done|lia|done|lia]].
  assert (0 < fuel)%nat as Hf'.
  { destruct fuel; [|lia]. replace (o + Z.of_nat 1 - 1) with o in Hn by lia. lia. }
  destruct (IH (o + 1) Hf') as (o' & E & H1 & H2 & H3).
  { replace (o + 1 + Z.of_nat fuel - 1) with (o + Z.of_nat (S fuel) - 1) by lia. done. }
  exists o'. split_and!; [done|lia|done|]. intros _. destruct (decide (o + 1 < o')); [by apply H3|].
  replace (o' - 1) with o by lia. done.
Qed.

(** The order of a request: the smallest block that holds it and a header. *)
Definition fits (o n : Z) : Prop := n <= 2 ^ o /\ (MIN_ORDER < o -> 2 ^ (o - 1) < n).

Lemma order_for_size_spec n :
  n <= 2 ^ 63 ->
  (2 ^ 20 < n /\ order_for_size n = Some (-1)) \/
  (exists o, order_for_size n = Some o /\ order_range o /\ fits o n).
Proof.
  intros Hn. unfold order_for_size. destruct (order_loop_spec (Z.to_nat (64 - MIN_ORDER)) MIN_ORDER n) as (o & -> & H1 & H2 & H3); [olia|done|].
  simpl. destruct (Z.gtb_spec o MAX_ORDER) as [Hg|Hg].
  - left. split; [|done]. specialize (H3 ltac:(olia)). pose proof (Z.pow_le_mono_r 2 20 (o - 1)). olia.
  - right. exists o. split_and!; [done|olia|]. by split.
Qed.

(** The blocks after block [a] of order [found] was split down to [o]. *)
Definition alloced (a found o : Z) (B : blockmap) : blockmap :=
  <[a := (o, false)]> (split (Z.to_nat (found - o)) found a (delete a B)).

Lemma mm_alloc_run m B size o :
  bd_rep m B -> 0 < size < 2 ^ 63 -> order_for_size (size + SIZEOF_HEADER) = Some o -> order_range o ->
  (mm_alloc size m = Some (0, m) /\ forall x o', B !! x = Some (o', true) -> o' < o) \/
  (exists a found m', mm_alloc size m = Some (a + SIZEOF_HEADER, m') /\ B !! a = Some (found, true) /\ o <= found /\
     (forall x o', B !! x = Some (o', true) -> o' < o \/ found <= o') /\
     bd_rep m' (alloced a found o B) /\ heap_base m' = heap_base m /\ heap_size m' = heap_size m).
Proof.
  intros Hr Hs Eo Ho. destruct (br_lists _ _ Hr) as (L & HL & HB). unfold mm_alloc.
  replace (size =? 0) with false by lia. rewrite u64_small, Eo by olia. cbn [mbind option_bind].
  replace (o =? -1) with false by olia. cbv zeta.
  assert (forall i, order_range i -> negb ((free_lists m).[list_index i] =? 0) = false -> L i = []) as Hempty.
  { intros i Hi. rewrite (lo_head _ _ HL i Hi). pose proof (lo_seg _ _ HL i Hi) as Hsg. destruct (L i); [done|]. destruct Hsg as [? _].
    simpl. lia. }
  assert (forall x o', B !! x = Some (o', true) -> order_range o' /\ x ∈ L o') as Hin.
  { intros x o' Hx. destruct (br_block _ _ Hr _ _ _ Hx) as [[Ho' _] _]. split; [done|]. by apply HB. }
  match goal with |- context [find_idx ?P _ _] => destruct (find_idx_spec P o (MAX_ORDER - o + 1)) as [[-> Hnone]|(Hf1 & Hf2 & Hf3)]; [olia|olia|..] end.
  - left. split; [done|]. intros x o' Hx. destruct (Hin x o' Hx) as [Ho' Hx']. destruct (decide (o' < o)); [done|]. exfalso.
    rewrite (Hempty o') in Hx' by (done || apply Hnone; olia). by apply elem_of_nil in Hx'.
  - right. set (found := find_idx _ _ _) in *. clearbody found. replace (found =? -1) with false by olia.
    assert (order_range found) as Hfr by olia. set (a := (free_lists m).[list_index found]) in *.
    assert (a ∈ L found) as Ha.
    { unfold a in *. rewrite (lo_head _ _ HL found Hfr) in *. destruct (L found); simpl in *; [done|left]. }
    assert (B !! a = Some (found, true)) as HBa by (by apply HB).
    destruct (take_free m B a found Hr HBa) as (m1 & -> & R1 & F1 & K1). cbn [mbind option_bind].
    destruct (split_loop_rep (Z.to_nat (found - o)) m1 (delete a B) found a R1 F1 ltac:(olia)) as (R2 & F2 & E1 & E2).
    replace (found - Z.of_nat (Z.to_nat (found - o))) with o in F2 by lia. set (m2 := split_loop _ _ _ m1) in *.
    exists a, found, (write (set_order o) a m2). split_and!; try done; try lia.
    + intros x o' Hx. destruct (Hin x o' Hx) as [Ho' Hx']. destruct (decide (o' < o)) as [|Hge]; [by left|right].
      destruct (decide (found <= o')); [done|]. exfalso.
      rewrite (Hempty o') in Hx' by (done || apply Hf3; lia). by apply elem_of_nil in Hx'.
    + by apply put_used.
    + destruct K1. simpl. congruence.
    + destruct K1. simpl. congruence.
Qed.

(** Allocation on the map of blocks. *)
Lemma alloced_props m B a found o :
  bd_rep m B -> B !! a = Some (found, true) -> order_range o -> o <= found ->
  (forall x o', alloced a found o B !! x = Some (o', false) <-> (x = a /\ o' = o) \/ B !! x = Some (o', false)) /\
  (coalesced (heap_base m) B -> coalesced (heap_base m) (alloced a found o B)) /\
  (forall k, merge (Z.to_nat (found - o) + k) (heap_base m) a o (delete a (alloced a found o B)) =
     merge k (heap_base m) a found (delete a B)).
Proof.
  intros Hr Ha Ho Hle. destruct (take_free m B a found Hr Ha) as (m1 & _ & R1 & F1 & [Eb _ _]).
  destruct (split_loop_rep (Z.to_nat (found - o)) m1 (delete a B) found a R1 F1 ltac:(olia)) as (R2 & F2 & _).
  pose proof (fresh_none _ _ _ _ R2 F2) as Hn.
  destruct (split_props (Z.to_nat (found - o)) m1 (delete a B) found a R1 F1 ltac:(olia)) as (U & C & Mg). rewrite Eb in C, Mg.
  replace (found - Z.of_nat (Z.to_nat (found - o))) with o in Mg by lia. unfold alloced. split_and!.
  - intros x o'. destruct (decide (x = a)) as [->|Hne].
    + rewrite lookup_insert_eq, Ha. naive_solver.
    + rewrite lookup_insert_ne by done. rewrite (U x o'), lookup_delete_ne by done. naive_solver.
  - intros Hc. by apply coalesced_used, C, coalesced_delete.
  - intros k. rewrite delete_insert_id by done. apply Mg.
Qed.

(** ** Freeing *)

Definition freed (base a o : Z) (B : blockmap) : blockmap :=
  let '(a', o', B') := merge (Z.to_nat (MAX_ORDER - o)) base a o (delete a B) in <[a' := (o', true)]> B'.

Lemma mm_free_run m B a o :
  bd_rep m B -> B !! a = Some (o, false) ->
  exists m', mm_free (a + SIZEOF_HEADER) m = Some m' /\ bd_rep m' (freed (heap_base m) a o B) /\
    heap_base m' = heap_base m /\ heap_size m' = heap_size m.
Proof.
  intros Hr Ha. destruct (br_block _ _ Hr _ _ _ Ha) as [(Ho & Hlo & Hhi & _) (b & Hb & Eb)]. pose proof (br_heap _ _ Hr).
  pose proof (order_pow o Ho). destruct (take_used m B a o Hr Ha) as [R1 F1]. unfold mm_free.
  replace (a + SIZEOF_HEADER =? 0) with false by olia. rewrite u64_small by olia.
  replace (a + SIZEOF_HEADER - SIZEOF_HEADER) with a by lia. rewrite Hb. cbn [mbind option_bind].
  rewrite Eb, i32_small by olia. replace ((0 <=? o) && (o <? 64)) with true by olia.
  pose proof (merge_loop_rep (Z.to_nat (MAX_ORDER - o)) m (delete a B) a o R1 F1 ltac:(olia)) as Hm. unfold freed.
  destruct (merge _ _ _ _ _) as [[a' o'] B']. destruct Hm as (m1 & -> & R2 & F2 & E1 & E2). cbn [mbind option_bind].
  eexists. split; [done|]. destruct (put_free m1 B' a' o' R2 F2) as (R3 & E3 & E4). split_and!; [done|congruence..].
Qed.

Lemma freed_props m B a o :
  bd_rep m B -> B !! a = Some (o, false) ->
  (forall x o', freed (heap_base m) a o B !! x = Some (o', false) <-> x <> a /\ B !! x = Some (o', false)) /\
  (coalesced (heap_base m) B -> coalesced (heap_base m) (freed (heap_base m) a o B)).
Proof.
  intros Hr Ha. destruct (br_block _ _ Hr _ _ _ Ha) as [(Ho & _) _]. destruct (take_used m B a o Hr Ha) as [R1 F1].
  pose proof (merge_loop_rep (Z.to_nat (MAX_ORDER - o)) m (delete a B) a o R1 F1 ltac:(olia)) as Hm.
  pose proof (merge_props (Z.to_nat (MAX_ORDER - o)) (heap_base m) a o (delete a B)) as Hp. unfold freed.
  destruct (merge _ _ _ _ _) as [[a' o'] B']. destruct Hm as (m1 & _ & R2 & F2 & _). destruct Hp as (U & C & Hs).
  pose proof (fresh_none _ _ _ _ R2 F2) as Hn. destruct F2 as [[Ho' _] _]. split.
  - intros x y. rewrite (same_used_free B' a' o' Hn x y), (U x y), lookup_delete_Some. naive_solver.
  - intros Hc. apply coalesced_insert; [olia|by apply C, coalesced_delete|]. apply Hs. olia.
Qed.

(** A block that was just allocated is merged back. *)
Lemma freed_alloced m B a found o :
  bd_rep m B -> coalesced (heap_base m) B -> B !! a = Some (found, true) -> order_range o -> o <= found ->
  freed (heap_base m) a o (alloced a found o B) = B.
Proof.
  intros Hr Hc Ha Ho Hle. destruct (alloced_props m B a found o Hr Ha Ho Hle) as (_ & _ & Mg). unfold freed.
  destruct (br_block _ _ Hr _ _ _ Ha) as [(Hf & _) _].
  replace (Z.to_nat (MAX_ORDER - o)) with (Z.to_nat (found - o) + Z.to_nat (MAX_ORDER - found))%nat by olia. rewrite Mg.
  assert (merge (Z.to_nat (MAX_ORDER - found)) (heap_base m) a found (delete a B) = (a, found, delete a B)) as ->.
  { destruct (Z.to_nat (MAX_ORDER - found)) as [|n] eqn:En; [done|]. cbn [merge].
    rewrite decide_False; [done|]. intros [_ Hb]%lookup_delete_Some. by apply (Hc a found); [|lia|]. }
  by apply insert_delete_id.
Qed.

(** ** Bytes *)

Definition bytes (B : blockmap) : Z := map_fold (fun (_ : Z) (x : Z * bool) (n : Z) => 2 ^ x.1 + n) 0 B.

Definition free_bytes (B : blockmap) : Z := map_fold (fun (_ : Z) (x : Z * bool) (n : Z) => (if x.2 then 2 ^ x.1 else 0) + n) 0 B.

Lemma bytes_insert B a (x : Z * bool) : B !! a = None -> bytes (<[a := x]> B) = 2 ^ x.1 + bytes B.
Proof. intros Hn. unfold bytes. apply (map_fold_insert_L (fun (_ : Z) (x : Z * bool) (n : Z) => 2 ^ x.1 + n)); [intros; lia|done]. Qed.

Lemma free_bytes_insert B a (x : Z * bool) : B !! a = None -> free_bytes (<[a := x]> B) = (if x.2 then 2 ^ x.1 else 0) + free_bytes B.
Proof.
  intros Hn. unfold free_bytes.
  apply (map_fold_insert_L (fun (_ : Z) (x : Z * bool) (n : Z) => (if x.2 then 2 ^ x.1 else 0) + n)); [intros; lia|done].
Qed.

Lemma bytes_delete B a (x : Z * bool) : B !! a = Some x -> bytes B = 2 ^ x.1 + bytes (delete a B).
Proof. intros Ha. rewrite <- (bytes_insert (delete a B) a x) by apply lookup_delete_eq. by rewrite insert_delete_id. Qed.

Lemma free_bytes_le B : 0 <= free_bytes B <= bytes B.
Proof.
  induction B as [|a x B Hn IH] using map_ind; [done|]. rewrite free_bytes_insert, bytes_insert by done.
  pose proof (Z.pow_nonneg 2 x.1). case_if; lia.
Qed.

(** Splitting and merging keep the number of bytes. *)
Lemma split_bytes n m B found a :
  bd_rep m B -> fresh m B a found -> MIN_ORDER <= found - Z.of_nat n ->
  bytes (split n found a B) + 2 ^ (found - Z.of_nat n) = bytes B + 2 ^ found.
Proof.
  revert m B found. induction n as [|n IH]; intros m B found Hr Hf Hmin; [simpl; by rewrite Z.sub_0_r|].
  set (o := found - 1). assert (found = o + 1) as Ef by lia. rewrite Ef in Hf.
  destruct (fresh_halves m B a o Hf ltac:(lia)) as [F1 F2]. destruct (put_free m B (a + 2 ^ o) o Hr F1) as (R1 & E1 & E2).
  cbn [split]. fold o. replace (found - Z.of_nat (S n)) with (o - Z.of_nat n) by lia.
  rewrite (IH (list_push o (a + 2 ^ o) (write (set_order o) (a + 2 ^ o) m)) _ o R1); [|split; [|apply F2]|lia].
  - rewrite bytes_insert by (by eapply fresh_none). simpl. rewrite Ef, Z.pow_add_r by olia. lia.
  - unfold blk. rewrite E1, E2. apply F2.
Qed.

Lemma merge_bytes n base a o B :
  0 <= o -> let '(a', o', B') := merge n base a o B in bytes B' + 2 ^ o' = bytes B + 2 ^ o.
Proof.
  revert a o B. induction n as [|n IH]; intros a o B Ho; cbn [merge]; [done|].
  destruct (decide _) as [Hb|Hb]; [|done]. specialize (IH (Z.min a (buddy base a o)) (o + 1) (delete (buddy base a o) B) ltac:(lia)).
  destruct (merge n _ _ _ _) as [[a' o'] B']. rewrite IH. rewrite (bytes_delete B _ _ Hb). simpl. rewrite Z.pow_add_r by lia. lia.
Qed.

Lemma alloced_bytes m B a found o :
  bd_rep m B -> B !! a = Some (found, true) -> order_range o -> o <= found -> bytes (alloced a found o B) = bytes B.
Proof.
  intros Hr Ha Ho Hle. destruct (take_free m B a found Hr Ha) as (m1 & _ & R1 & F1 & _).
  destruct (split_loop_rep (Z.to_nat (found - o)) m1 (delete a B) found a R1 F1 ltac:(olia)) as (R2 & F2 & _).
  pose proof (split_bytes (Z.to_nat (found - o)) m1 (delete a B) found a R1 F1 ltac:(olia)) as E.
  replace (found - Z.of_nat (Z.to_nat (found - o))) with o in * by lia. unfold alloced.
  rewrite bytes_insert by (by eapply fresh_none). rewrite (bytes_delete B a _ Ha). simpl. lia.
Qed.

Lemma freed_bytes m B a o :
  bd_rep m B -> B !! a = Some (o, false) -> bytes (freed (heap_base m) a o B) = bytes B.
Proof.
  intros Hr Ha. destruct (br_block _ _ Hr _ _ _ Ha) as [(Ho & _) _]. destruct (take_used m B a o Hr Ha) as [R1 F1].
  pose proof (merge_loop_rep (Z.to_nat (MAX_ORDER - o)) m (delete a B) a o R1 F1 ltac:(olia)) as Hm.
  pose proof (merge_bytes (Z.to_nat (MAX_ORDER - o)) (heap_base m) a o (delete a B) ltac:(olia)) as E. unfold freed.
  destruct (merge _ _ _ _ _) as [[a' o'] B']. destruct Hm as (m1 & _ & R2 & F2 & _).
  rewrite bytes_insert by (by eapply fresh_none). rewrite (bytes_delete B a _ Ha). simpl in *. lia.
Qed.

(** ** Initialisation *)

(** Part of the heap has been cut into free blocks. *)
Record carving (rem off : Z) (m : BM) (B : blockmap) : Prop := {
  cv_rep : bd_rep m B;
  cv_below x o fr : B !! x = Some (o, fr) -> fr = true /\ x + 2 ^ o <= heap_base m + off;
  cv_coalesced : coalesced (heap_base m) B;
  cv_rem : rem = heap_size m - off /\ 0 <= off /\ 0 <= rem;
  cv_bytes : bytes B = off
}.

(** Cutting one block of order [o]. *)
Lemma carve_one rem off m B o :
  carving rem off m B -> order_range o -> 2 ^ o <= rem -> off mod 2 ^ o = 0 -> (o < MAX_ORDER -> off mod 2 ^ (o + 1) = 0) ->
  let m' := list_push o (heap_base m + off) (write (set_order o) (heap_base m + off) m) in
  exists B', carving (rem - 2 ^ o) (off + 2 ^ o) m' B' /\ heap_base m' = heap_base m /\ heap_size m' = heap_size m /\
    B ⊆ B' /\ B' !! (heap_base m + off) = Some (o, true).
Proof.
  intros [Hr Hbl Hc Hrem Hby] Ho Hle Hm Hm1. pose proof (order_pow o Ho) as Hp. set (a := heap_base m + off).
  assert (fresh m B a o) as Hf.
  { split; [unfold blk, a; split_and!; try done; [lia|lia|]; by replace (heap_base m + off - heap_base m) with off by lia|].
    intros x o' fr Hx. right. apply Hbl in Hx as [_ Hx]. exact Hx. }
  destruct (put_free m B a o Hr Hf) as (R & E1 & E2). exists (<[a := (o, true)]> B).
  pose proof (fresh_none _ _ _ _ Hr Hf) as Hn. split; [|split_and!; [done|done|by apply insert_subseteq|apply lookup_insert_eq]]. split.
  - done.
  - rewrite E1. intros x o' fr [[<- [= <- <-]]|[Hne Hx]]%lookup_insert_Some; [unfold a; split; [done|lia]|].
    apply Hbl in Hx as [? ?]. split; [done|lia].
  - rewrite E1. apply coalesced_insert; [olia|done|]. intros Hmax Hb. apply Hbl in Hb as [_ Hb].
    rewrite buddy_first in Hb; [unfold a in Hb; lia|olia|unfold a; lia|].
    replace (a - heap_base m) with off by (unfold a; lia). by apply Hm1.
  - rewrite E2. lia.
  - rewrite bytes_insert by done. simpl. lia.
Qed.

Lemma carve_rep fuel o rem off m B :
  carving rem off m B -> order_range o -> off mod 2 ^ o = 0 ->
  (o < MAX_ORDER -> rem < 2 ^ o \/ (rem < 2 ^ (o + 1) /\ off mod 2 ^ (o + 1) = 0)) -> rem / 2 ^ o < Z.of_nat fuel ->
  exists rem' off' m' B', carve fuel o (rem, off, m) = Some (rem', off', m') /\ carving rem' off' m' B' /\
    rem' < 2 ^ o /\ off' mod 2 ^ o = 0 /\ heap_base m' = heap_base m /\ heap_size m' = heap_size m /\
    B ⊆ B' /\ (rem < 2 ^ o -> rem' = rem) /\ (2 ^ o <= rem -> exists a, B' !! a = Some (o, true)).
Proof.
  intros Hcv Ho. revert rem off m B Hcv. induction fuel as [|fuel IH]; intros rem off m B Hcv Hm Hmax Hf.
  { pose proof (order_pow o Ho). pose proof (Z.div_pos rem (2 ^ o)). destruct (cv_rem _ _ _ _ Hcv). lia. }
  pose proof (order_pow o Ho) as Hp. cbn [carve]. destruct (Z.geb_spec rem (2 ^ o)) as [Hge|Hlt]; [|exists rem, off, m, B; split_and!; done || lia].
  destruct (carve_one rem off m B o Hcv Ho Hge Hm) as (B1 & Hcv1 & E1 & E2 & E3 & E4).
  { intros Hlt. destruct (Hmax Hlt) as [?|[_ ?]]; [lia|done]. }
  destruct (IH _ _ _ _ Hcv1) as (rem' & off' & m' & B' & R1 & R2 & R3 & R4 & R5 & R6 & R7 & _).
  - rewrite <- (Z.mul_1_l (2 ^ o)) at 1. by rewrite Z.mod_add by lia.
  - intros Hlt. left. destruct (Hmax Hlt) as [?|[Hr _]]; [lia|]. rewrite Z.pow_add_r in Hr by olia. lia.
  - replace (rem - 2 ^ o) with (rem + (-1) * 2 ^ o) by lia. rewrite Z.div_add by lia. lia.
  - exists rem', off', m', B'. split_and!; try done; [congruence|congruence|by etrans|lia|].
    intros _. eexists. by eapply lookup_weaken.
Qed.

Lemma orders_down_eq : orders_down = [20; 19; 18; 17; 16; 15; 14; 13; 12; 11; 10; 9; 8; 7; 6; 5].
Proof. reflexivity. Qed.

(** The orders still to try, from [o] down. *)
Fixpoint descending (o : Z) (os : list Z) : Prop :=
  match os with [] => o < MIN_ORDER | o' :: os => o' = o /\ MIN_ORDER <= o /\ descending (o - 1) os end.

Lemma carve_orders_rep os o rem off m B :
  carving rem off m B -> descending o os -> o <= MAX_ORDER -> off mod 2 ^ (o + 1) = 0 \/ o = MAX_ORDER ->
  off mod 2 ^ Z.max o 0 = 0 -> (o < MAX_ORDER -> rem < 2 ^ (o + 1)) ->
  exists rem' off' m' B', carve_orders os (rem, off, m) = Some (rem', off', m') /\ carving rem' off' m' B' /\
    rem' < 2 ^ MIN_ORDER /\ heap_base m' = heap_base m /\ heap_size m' = heap_size m /\
    B ⊆ B' /\ (forall q, order_range q -> q <= o -> 2 ^ q <= rem -> exists a o', q <= o' /\ B' !! a = Some (o', true)).
Proof.
  revert o rem off m B. induction os as [|o' os IH]; intros o rem off m B Hcv Hos Hmax Hal Hm Hrem.
  - simpl in Hos. specialize (Hrem ltac:(olia)). pose proof (Z.pow_le_mono_r 2 (o + 1) MIN_ORDER).
    exists rem, off, m, B. split_and!; try done; [olia|]. intros q. olia.
  - destruct Hos as (-> & Hmin & Hos). assert (order_range o) as Ho by olia. pose proof (order_pow o Ho) as Hp.
    rewrite Z.max_l in Hm by olia. cbn [carve_orders fst].
    destruct (Z.gtb_spec rem 0) as [Hgt|Hle].
    + destruct (carve_rep (S (Z.to_nat (rem / 2 ^ o))) o rem off m B Hcv Ho Hm) as (rem1 & off1 & m1 & B1 & -> & C1 & C2 & C3 & C4 & C5 & C6 & C7 & C8).
      * intros Hlt. right. split; [by apply Hrem|]. destruct Hal; [done|lia].
      * pose proof (Z.div_pos rem (2 ^ o)). lia.
      * cbn [mbind option_bind]. destruct (IH (o - 1) rem1 off1 m1 B1 C1 Hos) as (rem' & off' & m' & B' & R1 & R2 & R3 & R4 & R5 & R6 & R7).
        -- lia.
        -- left. by replace (o - 1 + 1) with o by lia.
        -- rewrite Z.max_l by olia. replace o with (1 + (o - 1)) in C3 by lia. rewrite Z.pow_add_r in C3 by olia.
           pose proof (Z.pow_pos_nonneg 2 (o - 1)). apply Z.mod_divide in C3 as [q ->]; [|olia].
           replace (q * (2 ^ 1 * 2 ^ (o - 1))) with (q * 2 * 2 ^ (o - 1)) by lia. apply Z.mod_mul. olia.
        -- intros _. by replace (o - 1 + 1) with o by lia.
        -- exists rem', off', m', B'. split_and!; try done; [congruence|congruence|by etrans|]. intros q Hq Hqo Hle.
           destruct (Z.lt_ge_cases rem (2 ^ o)) as [Hlt|Hge].
           ++ apply (R7 q Hq); [|by rewrite C7]. destruct (Z.eq_dec q o) as [->|]; lia.
           ++ destruct (C8 Hge) as [a Ha]. exists a, o. split; [done|by eapply lookup_weaken].
    + exists rem, off, m, B. split_and!; try done; [unfold MIN_ORDER; lia|]. intros q Hq _ ?. pose proof (order_pow q Hq). lia.
Qed.

(** Any contents of the heap, and any lists, before [mm_init]. *)
Lemma buddy_init_rep start len m :
  length (free_lists m) = 16%nat -> 0 < start -> 0 <= len -> start + len < 2 ^ 64 ->
  exists m' B, mm_init start len m = Some m' /\ bd_rep m' B /\ coalesced start B /\
    heap_base m' = start /\ heap_size m' = len /\ (forall x o fr, B !! x = Some (o, fr) -> fr = true) /\
    len - 32 < bytes B <= len /\
    (forall q, order_range q -> 2 ^ q <= len -> exists a o, q <= o /\ B !! a = Some (o, true)).
Proof.
  intros Hl Hs Hn Hw. unfold mm_init. set (m0 := for_loop _ _ _ _).
  assert (free_lists m0 = replicate 16 0 /\ heap_base m0 = start /\ heap_size m0 = len) as (El & Eb & Es).
  { unfold m0. destruct m as [fl hb hs bl]. simpl in Hl. do 16 (destruct fl as [|? fl]; [done|]). destruct fl; done. }
  assert (carving len 0 m0 ∅) as Hcv.
  { split.
    - split; [by rewrite Eb, Es| |by intros ? ? ? ?%lookup_empty_Some|by intros ? ? ? ? ? ? ?%lookup_empty_Some]. exists (fun _ => []). split.
      + split; try done.
        * by rewrite El.
        * intros o Ho. rewrite El. unfold geti, list_index. replace (0 <=? o - MIN_ORDER) with true by olia.
          simpl first_or. apply lookup_total_replicate_2. olia.
        * intros. constructor.
        * by intros o o' a _ _ ?%elem_of_nil.
      + intros. by rewrite lookup_empty, elem_of_nil.
    - by intros ? ? ? ?%lookup_empty_Some.
    - by intros ? ? ?%lookup_empty_Some.
    - rewrite Es. lia.
    - done. }
  destruct (carve_orders_rep orders_down MAX_ORDER len 0 m0 ∅ Hcv) as (rem & off & m' & B & -> & [Hr Hbl Hc Hrem Hby] & Hr32 & E1 & E2 & _ & Hroom);
    [rewrite orders_down_eq; unfold descending, MAX_ORDER, MIN_ORDER; lia|lia|by right|done|lia|].
  simpl. exists m', B. rewrite E1, Eb, E2, Es in *. split_and!; try done; try lia.
  - intros x o fr Hx. by apply Hbl in Hx as [-> _].
  - unfold MIN_ORDER in Hr32. lia.
  - intros q Hq. apply (Hroom q Hq). olia.
Qed.

(** ** Statistics *)

(** The free bytes in blocks of an order below [k]. *)
Definition free_below (B : blockmap) (k : Z) : Z :=
  map_fold (fun (_ : Z) (x : Z * bool) (n : Z) => (if x.2 && (x.1 <? k) then 2 ^ x.1 else 0) + n) 0 B.

Lemma free_below_insert B k a (x : Z * bool) :
  B !! a = None -> free_below (<[a := x]> B) k = (if x.2 && (x.1 <? k) then 2 ^ x.1 else 0) + free_below B k.
Proof.
  intros Hn. unfold free_below.
  apply (map_fold_insert_L (fun (_ : Z) (x : Z * bool) (n : Z) => (if x.2 && (x.1 <? k) then 2 ^ x.1 else 0) + n)); [intros; lia|done].
Qed.

(** Two bounds with no free block of an order between them. *)
Lemma free_below_eq B k k' :
  (forall a o, B !! a = Some (o, true) -> (o <? k) = (o <? k')) -> free_below B k = free_below B k'.
Proof.
  induction B as [|a x B Hn IH] using map_ind; intros H; [done|]. rewrite !free_below_insert by done. f_equal.
  - destruct x as [o [|]]; [|done]. simpl. by rewrite (H a o) by apply lookup_insert_eq.
  - apply IH. intros b o Hb. apply (H b). rewrite lookup_insert_ne; [done|]. intros ->. congruence.
Qed.

Lemma free_below_step B o l :
  NoDup l -> (forall a, a ∈ l <-> B !! a = Some (o, true)) ->
  free_below B (o + 1) = free_below B o + 2 ^ o * Z.of_nat (length l).
Proof.
  revert B. induction l as [|a l IH]; intros B Hnd Hl.
  - simpl. rewrite Z.mul_0_r, Z.add_0_r. apply free_below_eq. intros b o' Hb.
    destruct (decide (o' = o)) as [->|]; [|lia]. apply Hl, elem_of_nil in Hb. done.
  - apply list.NoDup_cons in Hnd as [Ha Hnd]. assert (B !! a = Some (o, true)) as HB by (apply Hl; left).
    rewrite <- (insert_delete_id B a (o, true)) at 1 2 by done. rewrite !free_below_insert by apply lookup_delete_eq.
    rewrite (IH (delete a B)); [cbn [fst snd andb length]; case_if; case_if; lia|done|].
    intros b. rewrite lookup_delete_Some, <- Hl, elem_of_cons. naive_solver.
Qed.

Lemma count_loop_spec fuel m p l o n :
  dseg (blocks m) p l 0 -> (length l < fuel)%nat -> 0 <= o -> 0 <= n -> n + 2 ^ o * Z.of_nat (length l) < 2 ^ 64 ->
  count_loop fuel (first_or 0 l) o n m = Some (n + 2 ^ o * Z.of_nat (length l)).
Proof.
  intros Hs Hf Ho. pose proof (Z.pow_pos_nonneg 2 o ltac:(lia) Ho). revert p l n Hs Hf.
  induction fuel as [|fuel IH]; intros p l n Hs Hf Hn Hw; [lia|].
  destruct l as [|a l]; [simpl; f_equal; lia|]. destruct Hs as (H0 & (b & Hb & _ & Hnx) & Hl).
  cbn [count_loop first_or]. replace (a =? 0) with false by lia. rewrite Hb. cbn [mbind option_bind]. cbn [length] in *.
  rewrite Nat2Z.inj_succ in *. rewrite u64_small by nia. rewrite Hnx, (IH a l); [f_equal; lia|done|lia|lia|lia].
Qed.

Lemma free_below_range B k : 0 <= free_below B k <= free_bytes B.
Proof.
  induction B as [|a x B Hn IH] using map_ind; [done|]. rewrite free_below_insert, free_bytes_insert by done.
  pose proof (Z.pow_nonneg 2 x.1). destruct x.2; simpl; [case_if|]; lia.
Qed.

Lemma buddy_info_rep m B :
  bd_rep m B -> bytes B <= heap_size m ->
  mm_info m = Some (heap_size m, heap_size m - free_bytes B, free_bytes B).
Proof.
  intros Hr Hby. pose proof (free_bytes_le B) as Hfb. pose proof (br_heap _ _ Hr) as (Hb0 & Hsz & Hw).
  destruct (br_lists _ _ Hr) as (L & HL & HB). unfold mm_info.
  assert (forall a o fr, B !! a = Some (o, fr) -> order_range o) as Hor.
  { intros a o fr Ha. by destruct (br_block _ _ Hr _ _ _ Ha) as [[? _] _]. }
  match goal with |- context [for_loop ?lo ?n ?f ?s] => assert (for_loop lo n f s = Some (free_below B (lo + n))) as -> end.
  { apply (for_loop_ind (fun k acc => acc = Some (free_below B k))); [done|..].
    - f_equal. symmetry. rewrite (free_below_eq B MIN_ORDER (-1)).
      + clear. induction B as [|a x B Hn IH] using map_ind; [done|]. rewrite free_below_insert, IH by done.
        destruct x as [o [|]]; [|done]. simpl. case_if; [|done]. rewrite Z.pow_neg_r by lia. done.
      + intros a o Ha%Hor. olia.
    - intros o acc Ho ->. cbn [mbind option_bind]. assert (order_range o) as Ho' by olia.
      assert (free_below B (o + 1) = free_below B o + 2 ^ o * Z.of_nat (length (L o))) as E.
      { apply free_below_step; [by apply (lo_nodup _ _ HL)|]. intros a. by apply HB. }
      pose proof (free_below_range B o). pose proof (free_below_range B (o + 1)).
      rewrite (lo_head _ _ HL o Ho'). rewrite (count_loop_spec _ m 0 (L o)); [by rewrite E|by apply (lo_seg _ _ HL)|..].
      + unfold list_fuel. pose proof (list_size m L o HL Ho'). lia.
      + olia.
      + lia.
      + lia. }
  cbn [mbind option_bind].
  replace (free_below B (MIN_ORDER + NUM_ORDERS)) with (free_bytes B).
  - rewrite u64_small by lia. done.
  - clear - Hor. induction B as [|a x B Hn IH] using map_ind; [done|]. rewrite free_below_insert, free_bytes_insert by done.
    rewrite <- IH.
    + destruct x as [o [|]]; [|done]. pose proof (Hor a o true (lookup_insert_eq _ _ _)). simpl. case_if; [done|olia].
    + intros b o fr Hb. apply (Hor b o fr). rewrite lookup_insert_ne; [done|]. intros ->. congruence.
Qed.
