(* ===== verification/BuddyProps.v ===== *)
(** * Properties of the buddy manager

    The theorems about [Kernel/memory/buddyManager.c], and the manager as an
    instance of the interface of [Memory.v]. *)

From S2P Require Import Prelude Memory Buddy BuddyRep BuddyOps.
Import Buddy.
Local Open Scope Z_scope.

(** The state of the manager between two calls. *)
Record bd_inv (m : BM) (B : blockmap) : Prop := {
  bi_rep : bd_rep m B;
  bi_coalesced : coalesced (heap_base m) B;
  bi_bytes : bytes B <= heap_size m
}.

(** ** The manager as an instance of the interface *)

(** The manager and a record of the blocks it has handed out. *)
Record BuddyLog := mkBuddyLog { bl_mm : BM; bl_live : regions }.

(** The bytes after the header of the block at [p]. *)
Definition payload (m : BM) (p : Z) : Z :=
  2 ^ order (default (mkFB 0 0 0) (blocks m !! (p - SIZEOF_HEADER))) - SIZEOF_HEADER.

Definition log_alloc (size : Z) (m : BuddyLog) : option (Z * BuddyLog) :=
  '(p, m') ← mm_alloc size (bl_mm m);
  Some (p, mkBuddyLog m' (if p =? 0 then bl_live m else <[p := payload m' p]> (bl_live m))).

Definition log_free (p : Z) (m : BuddyLog) : option BuddyLog :=
  m' ← mm_free p (bl_mm m); Some (mkBuddyLog m' (delete p (bl_live m))).

(** The record and the blocks in use agree. *)
Definition logged (B : blockmap) (l : regions) : Prop :=
  forall p k, l !! p = Some k <-> exists o, B !! (p - SIZEOF_HEADER) = Some (o, false) /\ k = 2 ^ o - SIZEOF_HEADER.

Definition log_inv (m : BuddyLog) : Prop := exists B, bd_inv (bl_mm m) B /\ logged B (bl_live m).

#[export] Instance Buddy_manager : MemManager BuddyLog := {
  Memory.mm_alloc := log_alloc;
  Memory.mm_free := log_free;
  Memory.mm_info m := mm_info (bl_mm m);
  Memory.mm_kind := mm_kind;
  Memory.mm_inv := log_inv;
  Memory.mm_live := bl_live;
  Memory.mm_freeable _ _ := True;
  Memory.mm_heap m := (heap_base (bl_mm m), heap_size (bl_mm m))
}.

(** An allocation, in terms of the blocks. *)
Lemma alloc_inv m B size :
  bd_inv m B -> 0 < size -> size + SIZEOF_HEADER <= 2 ^ 63 ->
  (mm_alloc size m = Some (0, m) /\ forall x o, B !! x = Some (o, true) -> 2 ^ o < size + SIZEOF_HEADER) \/
  (exists a o found m', mm_alloc size m = Some (a + SIZEOF_HEADER, m') /\ order_range o /\ fits o (size + SIZEOF_HEADER) /\
     B !! a = Some (found, true) /\ o <= found /\ (forall x o', B !! x = Some (o', true) -> o' < o \/ found <= o') /\
     bd_inv m' (alloced a found o B) /\ heap_base m' = heap_base m /\ heap_size m' = heap_size m).
Proof.
  intros [Hr Hc Hby] Hs Hw. destruct (order_for_size_spec _ Hw) as [[Hbig E]|(o & E & Ho & Hfit)].
  - left. split; [|intros x o Hx; destruct (br_block _ _ Hr _ _ _ Hx) as [[Ho _] _]; pose proof (order_pow o Ho); lia].
    unfold mm_alloc. replace (size =? 0) with false by lia. rewrite u64_small, E by olia. done.
  - destruct (mm_alloc_run m B size o Hr ltac:(olia) E Ho) as [[Em Hno]|(a & found & m' & Em & Ha & Hle & Hbest & Hr' & E1 & E2)].
    + left. split; [done|]. intros x o' Hx. destruct Hfit as [_ Hfit]. destruct (br_block _ _ Hr _ _ _ Hx) as [[Ho' _] _].
      specialize (Hno _ _ Hx). specialize (Hfit ltac:(olia)). pose proof (Z.pow_le_mono_r 2 o' (o - 1)). lia.
    + right. exists a, o, found, m'. destruct (alloced_props m B a found o Hr Ha Ho Hle) as (_ & C & _).
      split_and!; try done. split; [done|rewrite E1; by apply C|]. rewrite E2, (alloced_bytes m) by done. done.
Qed.

Lemma free_inv m B a o :
  bd_inv m B -> B !! a = Some (o, false) ->
  exists m', mm_free (a + SIZEOF_HEADER) m = Some m' /\ bd_inv m' (freed (heap_base m) a o B) /\
    heap_base m' = heap_base m /\ heap_size m' = heap_size m.
Proof.
  intros [Hr Hc Hby] Ha. destruct (mm_free_run m B a o Hr Ha) as (m' & E & Hr' & E1 & E2). exists m'. split_and!; try done.
  destruct (freed_props m B a o Hr Ha) as [_ C]. split; [done|rewrite E1; by apply C|]. by rewrite E2, freed_bytes.
Qed.

Lemma logged_block m B l p k :
  bd_rep m B -> logged B l -> l !! p = Some k ->
  exists o, B !! (p - SIZEOF_HEADER) = Some (o, false) /\ k = 2 ^ o - SIZEOF_HEADER /\ 32 <= 2 ^ o /\
    heap_base m <= p - SIZEOF_HEADER /\ p - SIZEOF_HEADER + 2 ^ o <= heap_base m + heap_size m.
Proof.
  intros Hr Hl (o & Ho & ->)%Hl. exists o. destruct (br_block _ _ Hr _ _ _ Ho) as [(Hor & H1 & H2 & _) _].
  pose proof (order_pow o Hor). split_and!; done || lia.
Qed.

#[export] Instance Buddy_laws : MemManagerLaws BuddyLog.
Proof.
  split; simpl.
  - intros [m l] n (B & Hinv & Hl) Hn. simpl in *. unfold log_alloc. simpl.
    destruct (alloc_inv m B n Hinv) as [[-> _]|(a & o & found & m' & -> & Ho & [Hfit _] & Ha & Hle & _ & Hinv' & E1 & E2)]; [lia|olia|..].
    + exists 0, (mkBuddyLog m l). split_and!; try done; [by exists B|by left].
    + simpl. eexists _, _. split; [done|]. pose proof (bi_rep _ _ Hinv) as Hr. pose proof (bi_rep _ _ Hinv') as Hr'.
      destruct (alloced_props m B a found o Hr Ha Ho Hle) as (U & _ & _).
      assert (alloced a found o B !! a = Some (o, false)) as Ha' by (apply U; by left).
      destruct (br_block _ _ Hr' _ _ _ Ha') as [(_ & Hlo & Hhi & _) (b & Hb & Eb)]. pose proof (br_heap _ _ Hr') as Hh. pose proof (order_pow o Ho).
      assert (payload m' (a + SIZEOF_HEADER) = 2 ^ o - SIZEOF_HEADER) as Ep.
      { unfold payload. replace (a + SIZEOF_HEADER - SIZEOF_HEADER) with a by lia. rewrite Hb. simpl. by rewrite Eb. }
      rewrite Ep. replace (a + SIZEOF_HEADER =? 0) with false by olia. simpl. rewrite E1, E2 in *. split_and!; try done.
      * exists (alloced a found o B). split; [done|]. intros p k. simpl. destruct (decide (p = a + SIZEOF_HEADER)) as [->|Hne].
        -- rewrite lookup_insert_eq. replace (a + SIZEOF_HEADER - SIZEOF_HEADER) with a by lia. rewrite Ha'. naive_solver.
        -- rewrite lookup_insert_ne by done. rewrite (Hl p k). apply exist_proper. intros o'. rewrite (U _ o').
           assert (p - SIZEOF_HEADER <> a) by olia. naive_solver.
      * right. exists (2 ^ o - SIZEOF_HEADER). split_and!; try done; try olia.
        intros q j Hq. destruct (logged_block m B l q j Hr Hl Hq) as (o' & Hq' & -> & H32 & _).
        assert (alloced a found o B !! (q - SIZEOF_HEADER) = Some (o', false)) as Hq2 by (apply U; by right).
        assert (a <> q - SIZEOF_HEADER) as Hne by congruence.
        pose proof (br_apart _ _ Hr' _ _ _ _ _ _ Ha' Hq2 Hne). unfold apart, disjoint_regions in *. olia.
  - intros [m l] p k (B & Hinv & Hl) Hp _. simpl in *. pose proof (bi_rep _ _ Hinv) as Hr.
    destruct (logged_block m B l p k Hr Hl Hp) as (o & Ho & -> & _).
    destruct (free_inv m B _ o Hinv Ho) as (m' & E & Hinv' & E1 & E2).
    replace (p - SIZEOF_HEADER + SIZEOF_HEADER) with p in E by lia. unfold log_free. simpl. rewrite E. simpl.
    eexists. split; [done|]. simpl. rewrite E1, E2. split_and!; try done.
    exists (freed (heap_base m) (p - SIZEOF_HEADER) o B). split; [done|]. intros q j. simpl.
    destruct (freed_props m B _ o Hr Ho) as [U _]. rewrite lookup_delete_Some, (Hl q j). setoid_rewrite U.
    split; [intros (Hne & o' & ? & ?); exists o'; split_and!; [olia|done|done]|].
    intros (o' & (Hne & ?) & ?). split; [by intros ->|by exists o'].
  - intros [m l] p k (B & Hinv & Hl) Hp. simpl in *. destruct (logged_block m B l p k (bi_rep _ _ Hinv) Hl Hp) as (o & _ & -> & ?). olia.
  - intros [m l] p k q j (B & Hinv & Hl) Hp Hq Hne. simpl in *. pose proof (bi_rep _ _ Hinv) as Hr.
    destruct (logged_block m B l p k Hr Hl Hp) as (o & Ho & -> & _). destruct (logged_block m B l q j Hr Hl Hq) as (o' & Ho' & -> & _).
    pose proof (br_apart _ _ Hr _ _ _ _ _ _ Ho Ho' ltac:(lia)). unfold apart, disjoint_regions in *. olia.
Qed.

(** ** Theorems *)

(** C27: Allocation.  A request takes the smallest order whose block holds it
    and its header, from the smallest free block that is large enough; the
    result is a block of the heap at a multiple of its size that overlaps no
    block in use, the blocks in use stay, and no two free buddies appear.  It
    fails only when every free block is too small, and then changes nothing. *)
Theorem buddy_alloc_spec m B size :
  bd_inv m B -> 0 < size -> size + SIZEOF_HEADER <= 2 ^ 63 ->
  (mm_alloc size m = Some (0, m) /\ forall x o, B !! x = Some (o, true) -> 2 ^ o < size + SIZEOF_HEADER) \/
  (exists a o m' B', mm_alloc size m = Some (a + SIZEOF_HEADER, m') /\ bd_inv m' B' /\ bytes B' = bytes B /\
     order_range o /\ fits o (size + SIZEOF_HEADER) /\
     heap_base m <= a /\ a + 2 ^ o <= heap_base m + heap_size m /\ (a - heap_base m) mod 2 ^ o = 0 /\
     (forall x o', B' !! x = Some (o', false) <-> (x = a /\ o' = o) \/ B !! x = Some (o', false)) /\
     (forall x o', B !! x = Some (o', false) -> a + 2 ^ o <= x \/ x + 2 ^ o' <= a)).
Proof.
  intros Hinv Hs Hw. pose proof (bi_rep _ _ Hinv) as Hr.
  destruct (alloc_inv m B size Hinv Hs Hw) as [?|(a & o & found & m' & E & Ho & Hfit & Ha & Hle & _ & Hinv' & E1 & E2)]; [by left|right].
  destruct (alloced_props m B a found o Hr Ha Ho Hle) as (U & _ & _). pose proof (bi_rep _ _ Hinv') as Hr'.
  assert (alloced a found o B !! a = Some (o, false)) as Ha' by (apply U; by left).
  destruct (br_block _ _ Hr' _ _ _ Ha') as [(_ & Hlo & Hhi & Hm) _]. rewrite E1, E2 in *.
  exists a, o, m', (alloced a found o B). split_and!; try done; [by apply (alloced_bytes m)|].
  intros x o' Hx. assert (a <> x) by congruence.
  eapply (br_apart _ _ Hr' _ _ _ x o' false); [done|apply U; by right|done].
Qed.

(** C28: Freeing.  [mm_free] on a block in use returns, removes exactly that
    block from the blocks in use, keeps every byte, and merges until no two
    free buddies are left. *)
Theorem buddy_free_spec m B a o :
  bd_inv m B -> B !! a = Some (o, false) ->
  exists m' B', mm_free (a + SIZEOF_HEADER) m = Some m' /\ bd_inv m' B' /\ bytes B' = bytes B /\
    heap_base m' = heap_base m /\ heap_size m' = heap_size m /\
    forall x o', B' !! x = Some (o', false) <-> x <> a /\ B !! x = Some (o', false).
Proof.
  intros Hinv Ha. destruct (free_inv m B a o Hinv Ha) as (m' & E & Hinv' & E1 & E2). pose proof (bi_rep _ _ Hinv) as Hr.
  exists m', (freed (heap_base m) a o B). destruct (freed_props m B a o Hr Ha) as [U _].
  split_and!; try done. by apply freed_bytes.
Qed.

(** Freeing a block just allocated restores the blocks: the pieces that
    the allocation split off merge back into the block it came from. *)
Theorem buddy_roundtrip m B size p m' :
  bd_inv m B -> 0 < size -> size + SIZEOF_HEADER <= 2 ^ 63 -> mm_alloc size m = Some (p, m') -> p <> 0 ->
  exists m'', mm_free p m' = Some m'' /\ bd_inv m'' B.
Proof.
  intros Hinv Hs Hw E Hp. pose proof (bi_rep _ _ Hinv) as Hr.
  destruct (alloc_inv m B size Hinv Hs Hw) as [[E' _]|(a & o & found & m1 & E' & Ho & _ & Ha & Hle & _ & Hinv' & E1 & E2)];
    rewrite E' in E; simplify_eq.
  destruct (alloced_props m B a found o Hr Ha Ho Hle) as (U & _ & _).
  destruct (free_inv m' _ a o Hinv') as (m'' & Ef & Hinv'' & _); [apply U; by left|].
  exists m''. split; [done|]. rewrite E1, (freed_alloced m) in Hinv''; try done. apply Hinv.
Qed.

(** C29: Initialisation.  Whatever the memory held, [mm_init] returns, cuts the
    heap into free blocks only, and leaves out fewer than 32 bytes. *)
Theorem buddy_init_spec start len m :
  length (free_lists m) = 16%nat -> 0 < start -> 0 <= len -> start + len < 2 ^ 64 ->
  exists m' B, mm_init start len m = Some m' /\ bd_inv m' B /\ heap_base m' = start /\ heap_size m' = len /\
    (forall x o fr, B !! x = Some (o, fr) -> fr = true) /\ len - 32 < bytes B <= len.
Proof.
  intros Hl Hs Hn Hw. destruct (buddy_init_rep start len m Hl Hs Hn Hw) as (m' & B & E & Hr & Hc & E1 & E2 & Hfree & Hby & _).
  exists m', B. split_and!; try done; [|lia..]. split; [done|by rewrite E1|lia].
Qed.

(** [mm_info] returns the heap size, the bytes of the free blocks, and
    their difference. *)
Theorem buddy_info_spec m B :
  bd_inv m B -> mm_info m = Some (heap_size m, heap_size m - free_bytes B, free_bytes B) /\ 0 <= free_bytes B <= heap_size m.
Proof.
  intros [Hr _ Hby]. split; [by apply buddy_info_rep|]. pose proof (free_bytes_le B). lia.
Qed.

(** ** Witnesses *)

Definition demo : BM := default (mkBM [] 0 0 ∅) (mm_init 4096 4096 (mkBM (replicate 16 0) 0 0 ∅)).

Definition demo_blocks : blockmap := {[ 4096 := (12, true) ]}.

Lemma buddy_demo_inv : bd_inv demo demo_blocks.
Proof.
  unfold demo_blocks.
  assert (blocks demo = {[ 4096 := mkFB 12 0 0 ]}) as Eb by (by vm_compute).
  split; [split|..].
  - vm_compute. done.
  - exists (fun o => if o =? 12 then [4096] else []). split; [split|].
    + done.
    + intros o Ho. assert (o = 5 \/ o = 6 \/ o = 7 \/ o = 8 \/ o = 9 \/ o = 10 \/ o = 11 \/ o = 12 \/ o = 13 \/ o = 14 \/
        o = 15 \/ o = 16 \/ o = 17 \/ o = 18 \/ o = 19 \/ o = 20) as Hc by olia.
      repeat destruct Hc as [->|Hc]; [done..|by subst].
    + intros o Ho. destruct (o =? 12); [|done]. split; [done|]. split; [|done]. rewrite Eb.
      exists (mkFB 12 0 0). done.
    + intros o Ho. destruct (o =? 12); [apply NoDup_singleton|constructor].
    + intros o o' a _ _. destruct (Z.eqb_spec o 12), (Z.eqb_spec o' 12); subst; try done; intros H1 H2; first [by apply elem_of_nil in H1|by apply elem_of_nil in H2].
    + intros o a Ho. rewrite lookup_singleton_Some. destruct (Z.eqb_spec o 12) as [->|].
      * rewrite list_elem_of_singleton. naive_solver.
      * rewrite elem_of_nil. naive_solver.
  - intros a o fr [<- [= <- <-]]%lookup_singleton_Some. split; [by vm_compute|]. rewrite Eb. exists (mkFB 12 0 0). done.
  - intros a o fr a' o' fr' [<- _]%lookup_singleton_Some [<- _]%lookup_singleton_Some. done.
  - intros a o [<- [= <-]]%lookup_singleton_Some _ [E _]%lookup_singleton_Some. vm_compute in E. done.
  - by vm_compute.
Qed.

(** A block of 128 bytes in use, between what the split left. *)
Definition demo_used : BM := (default (0, demo) (mm_alloc 100 demo)).2.

Lemma buddy_alloc_spec_witness :
  bd_inv demo demo_blocks /\
  ((mm_alloc 100 demo = Some (0, demo) /\ forall x o, demo_blocks !! x = Some (o, true) -> 2 ^ o < 100 + SIZEOF_HEADER) \/
   (exists a o m' B', mm_alloc 100 demo = Some (a + SIZEOF_HEADER, m') /\ bd_inv m' B' /\ bytes B' = bytes demo_blocks /\
     order_range o /\ fits o (100 + SIZEOF_HEADER) /\
     heap_base demo <= a /\ a + 2 ^ o <= heap_base demo + heap_size demo /\ (a - heap_base demo) mod 2 ^ o = 0 /\
     (forall x o', B' !! x = Some (o', false) <-> (x = a /\ o' = o) \/ demo_blocks !! x = Some (o', false)) /\
     (forall x o', demo_blocks !! x = Some (o', false) -> a + 2 ^ o <= x \/ x + 2 ^ o' <= a))).
Proof. split; [exact buddy_demo_inv|]. apply (buddy_alloc_spec demo demo_blocks 100 buddy_demo_inv); by vm_compute. Defined.

(** The first block of a heap whose blocks are known to be [B]. *)
Lemma buddy_roundtrip_witness :
  bd_inv demo demo_blocks /\ mm_alloc 100 demo = Some (4104, demo_used) /\
  exists m'', mm_free 4104 demo_used = Some m'' /\ bd_inv m'' demo_blocks.
Proof.
  assert (mm_alloc 100 demo = Some (4104, demo_used)) as E by (by vm_compute). split; [exact buddy_demo_inv|]. split; [exact E|].
  apply (buddy_roundtrip demo demo_blocks 100 4104 demo_used buddy_demo_inv); [by vm_compute|by vm_compute|exact E|done].
Defined.

Lemma demo_used_inv : bd_inv demo_used (alloced 4096 12 7 demo_blocks).
Proof.
  destruct (alloc_inv demo demo_blocks 100 buddy_demo_inv) as [[E _]|(a & o & found & m' & E & Ho & [Hf1 Hf2] & Ha & _ & _ & Hinv & _)]; [lia|olia|..].
  - vm_compute in E. done.
  - unfold demo_blocks in Ha. apply lookup_singleton_Some in Ha as [<- [= <-]]. assert (m' = demo_used) as -> by (unfold demo_used; by rewrite E).
    assert (o = 7) as ->; [|done]. change (100 + SIZEOF_HEADER) with 108 in *. destruct (decide (o < 7)).
    + pose proof (Z.pow_le_mono_r 2 o 6). lia.
    + destruct (decide (o = 7)) as [|]; [done|]. specialize (Hf2 ltac:(olia)). pose proof (Z.pow_le_mono_r 2 7 (o - 1)). lia.
Qed.

Lemma buddy_free_spec_witness :
  bd_inv demo_used (alloced 4096 12 7 demo_blocks) /\
  exists m' B', mm_free (4096 + SIZEOF_HEADER) demo_used = Some m' /\ bd_inv m' B'.
Proof.
  split; [exact demo_used_inv|].
  destruct (buddy_free_spec demo_used _ 4096 7 demo_used_inv ltac:(by vm_compute)) as (m' & B' & E & Hinv & _).
  exists m', B'. by split.
Defined.

Lemma buddy_init_spec_witness :
  exists m' B, mm_init 4096 1000 (mkBM (replicate 16 7) 0 0 ∅) = Some m' /\ bd_inv m' B /\ 968 < bytes B <= 1000.
Proof.
  destruct (buddy_init_spec 4096 1000 (mkBM (replicate 16 7) 0 0 ∅)) as (m' & B & E & Hinv & _ & _ & _ & Hby); [done|lia..|].
  exists m', B. split_and!; [exact E|exact Hinv|lia|lia].
Defined.

Lemma buddy_info_spec_witness : bd_inv demo demo_blocks /\ mm_info demo = Some (4096, 0, 4096).
Proof. split; [exact buddy_demo_inv|]. exact (proj1 (buddy_info_spec demo demo_blocks buddy_demo_inv)). Defined.

(** A request of 2^64 - 8 bytes or more wraps around when the header is added
    and is given a block of 32 bytes. *)
Theorem buddy_alloc_size_wraps :
  exists m', mm_alloc (2 ^ 64 - 1) demo = Some (4104, m') /\ payload m' 4104 = 24.
Proof. eexists. by vm_compute. Qed.

(** The search for the order of a request over 2^63 bytes shifts by 64. *)
Theorem buddy_order_undefined : mm_alloc (2 ^ 63) demo = None.
Proof. by vm_compute. Qed.
