(* ===== verification/Pipe.v ===== *)
(** * Pipes

    [Kernel/pipe.c]: a table of ring buffers, each with two semaphores on
    which readers and writers block.  The kernel runs every iteration of the
    read and write loops with interrupts disabled, so that the unit of
    execution is one byte: [read_byte] and [write_byte] run one iteration until
    it moves a byte, ends the call, or blocks the caller, which later resumes
    at the loop test. *)

From S2P Require Import Prelude Ring Process Lib SchedIface Semaphore.
Local Open Scope Z_scope.

(** ** Data *)

Definition MAX_PIPES : Z := 32.
Definition PIPE_BUF_SIZE : Z := 512.

Record Pipe := mkPipe {
  pbuf : list Z;
  read_pos : Z;
  write_pos : Z;
  pcount : Z;
  capacity : Z;
  pactive : Z;
  readers : Z;
  writers : Z
}.

Definition set_pbuf v p := mkPipe v (read_pos p) (write_pos p) (pcount p) (capacity p) (pactive p) (readers p) (writers p).
Definition set_read_pos v p := mkPipe (pbuf p) v (write_pos p) (pcount p) (capacity p) (pactive p) (readers p) (writers p).
Definition set_write_pos v p := mkPipe (pbuf p) (read_pos p) v (pcount p) (capacity p) (pactive p) (readers p) (writers p).
Definition set_pcount v p := mkPipe (pbuf p) (read_pos p) (write_pos p) v (capacity p) (pactive p) (readers p) (writers p).
Definition set_capacity v p := mkPipe (pbuf p) (read_pos p) (write_pos p) (pcount p) v (pactive p) (readers p) (writers p).
Definition set_pactive v p := mkPipe (pbuf p) (read_pos p) (write_pos p) (pcount p) (capacity p) v (readers p) (writers p).
Definition set_readers v p := mkPipe (pbuf p) (read_pos p) (write_pos p) (pcount p) (capacity p) (pactive p) v (writers p).
Definition set_writers v p := mkPipe (pbuf p) (read_pos p) (write_pos p) (pcount p) (capacity p) (pactive p) (readers p) v.

Definition zero_pipe : Pipe := mkPipe (replicate 512 0) 0 0 0 0 0 0 0.

#[export] Instance Pipe_inhabited : Inhabited Pipe := populate zero_pipe.

(** The static tables, and the semaphores. *)
Record PipeSt (St : Type) := mkPipeSt {
  ps_sem : SemSt St;
  pipe_table : list Pipe;
  pipe_sem_data : list Z;
  pipe_sem_space : list Z;
  pipe_reserved_readers : list Z;
  pipe_reserved_writers : list Z
}.
Arguments mkPipeSt {St}.
Arguments ps_sem {St}.
Arguments pipe_table {St}.
Arguments pipe_sem_data {St}.
Arguments pipe_sem_space {St}.
Arguments pipe_reserved_readers {St}.
Arguments pipe_reserved_writers {St}.

Section Ops.
Context {St : Type} `{Scheduler St}.
Implicit Types s : PipeSt St.

Definition set_ps_sem v s : PipeSt St := mkPipeSt v (pipe_table s) (pipe_sem_data s) (pipe_sem_space s) (pipe_reserved_readers s) (pipe_reserved_writers s).
Definition set_pipe_table v s : PipeSt St := mkPipeSt (ps_sem s) v (pipe_sem_data s) (pipe_sem_space s) (pipe_reserved_readers s) (pipe_reserved_writers s).
Definition set_sem_data v s : PipeSt St := mkPipeSt (ps_sem s) (pipe_table s) v (pipe_sem_space s) (pipe_reserved_readers s) (pipe_reserved_writers s).
Definition set_sem_space v s : PipeSt St := mkPipeSt (ps_sem s) (pipe_table s) (pipe_sem_data s) v (pipe_reserved_readers s) (pipe_reserved_writers s).
Definition set_reserved_readers v s : PipeSt St := mkPipeSt (ps_sem s) (pipe_table s) (pipe_sem_data s) (pipe_sem_space s) v (pipe_reserved_writers s).
Definition set_reserved_writers v s : PipeSt St := mkPipeSt (ps_sem s) (pipe_table s) (pipe_sem_data s) (pipe_sem_space s) (pipe_reserved_readers s) v.

(** [pipe_table[i]] and assignments to its fields. *)
Definition pipe s (i : Z) : Pipe := (pipe_table s).[i].

Definition upd_pipe (i : Z) (f : Pipe -> Pipe) s : PipeSt St :=
  set_pipe_table (alteri f i (pipe_table s)) s.

(** ** Opening and attaching *)

(** The names of the two semaphores: ['d'] or ['s'], then ['0' + id]. *)
Definition data_name (id : Z) : list Z := [100; i8 (48 + id)].
Definition space_name (id : Z) : list Z := [115; i8 (48 + id)].

Definition pipe_init_sems (id : Z) s : option (PipeSt St) :=
  '(d, m) ← sem_open (data_name id) 0 (ps_sem s);
  let s := set_sem_data (seti id d (pipe_sem_data s)) (set_ps_sem m s) in
  '(p, m) ← sem_open (space_name id) 0 (ps_sem s);
  Some (set_sem_space (seti id p (pipe_sem_space s)) (set_ps_sem m s)).

Definition pipe_open_with_capacity (cap : Z) s : option (Z * PipeSt St) :=
  if (cap <=? 0) || (cap >? PIPE_BUF_SIZE) then Some (-1, s)
  else
    let i := find_idx (fun i => negb (ctrue (pactive (pipe s i)))) 0 MAX_PIPES in
    if i <? 0 then Some (-1, s)
    else
      let s := upd_pipe i (fun p => set_pactive 1 (set_writers 1 (set_readers 1
                 (set_capacity cap (set_pcount 0 (set_write_pos 0 (set_read_pos 0 p))))))) s in
      let s := set_reserved_readers (seti i 1 (pipe_reserved_readers s)) s in
      let s := set_reserved_writers (seti i 1 (pipe_reserved_writers s)) s in
      s ← pipe_init_sems i s;
      Some (i, s).

Definition pipe_open s : option (Z * PipeSt St) := pipe_open_with_capacity PIPE_BUF_SIZE s.

Definition pipe_is_open (id : Z) s : bool :=
  (0 <=? id) && (id <? MAX_PIPES) && ctrue (pactive (pipe s id)).

Definition pipe_attach (id is_write : Z) s : Z * PipeSt St :=
  if negb (pipe_is_open id s) then (-1, s)
  else if ctrue is_write then
    if (pipe_reserved_writers s).[id] >? 0
    then (0, set_reserved_writers (seti id ((pipe_reserved_writers s).[id] - 1) (pipe_reserved_writers s)) s)
    else (0, upd_pipe id (fun p => set_writers (writers p + 1) p) s)
  else
    if (pipe_reserved_readers s).[id] >? 0
    then (0, set_reserved_readers (seti id ((pipe_reserved_readers s).[id] - 1) (pipe_reserved_readers s)) s)
    else (0, upd_pipe id (fun p => set_readers (readers p + 1) p) s).

(** ** Waiting *)

(** The end of a wait loop: its condition is false; the caller is blocked on
    the semaphore; the semaphore is invalid or its queue is full. *)
Inductive wait_end := WaitDone | WaitBlocked | WaitFailed.

(** [while (cond) if (wait_sem_blocking(sem_id) < 0) ...], up to the point
    where the caller blocks. *)
Fixpoint wait_loop (fuel : nat) (cond : PipeSt St -> bool) (sem_id : Z) s : option (wait_end * PipeSt St) :=
  match fuel with
  | O => None
  | S fuel =>
      if cond s then
        let '(r, m) := sem_wait sem_id (ps_sem s) in
        let s := set_ps_sem m s in
        if r <? 0 then Some (WaitFailed, s)
        else if r >? 0 then Some (WaitBlocked, s)
        else wait_loop fuel cond sem_id s
      else Some (WaitDone, s)
  end.

(** Each iteration that does not stop takes one unit of the counter. *)
Definition wait_fuel (sem_id : Z) s : nat := S (S (Z.to_nat (value (sem (ps_sem s) sem_id)))).

Definition wait_while (cond : PipeSt St -> bool) (sem_id : Z) s : option (wait_end * PipeSt St) :=
  wait_loop (wait_fuel sem_id s) cond sem_id s.

(** ** Reading and writing one byte *)

(** The end of one iteration of a read or write loop. *)
Inductive byte_end :=
| Moved (c : Z)      (** a byte went through *)
| Ended              (** no writer and empty, or no reader *)
| BlockedHere        (** the caller sleeps; it resumes at the loop test *)
| Failed.            (** the wait failed *)

Definition read_cond (id : Z) s : bool := (writers (pipe s id) >? 0) && (pcount (pipe s id) =? 0).
Definition write_cond (id : Z) s : bool :=
  (readers (pipe s id) >? 0) && (pcount (pipe s id) >=? capacity (pipe s id)).

Definition take_byte (p : Pipe) : Z * Pipe :=
  let c := (pbuf p).[read_pos p] in
  let p := set_read_pos ((read_pos p + 1) mod capacity p) p in
  (c, set_pcount (pcount p - 1) p).

Definition put_byte (c : Z) (p : Pipe) : Pipe :=
  let p := set_pbuf (seti (write_pos p) c (pbuf p)) p in
  let p := set_write_pos ((write_pos p + 1) mod capacity p) p in
  set_pcount (pcount p + 1) p.

Definition read_byte (id : Z) s : option (byte_end * PipeSt St) :=
  '(w, s) ← wait_while (read_cond id) ((pipe_sem_data s).[id]) s;
  match w with
  | WaitBlocked => Some (BlockedHere, s)
  | WaitFailed => Some (Failed, s)
  | WaitDone =>
      if pcount (pipe s id) =? 0 then Some (Ended, s)
      else
        let c := (take_byte (pipe s id)).1 in
        let s := upd_pipe id (fun p => (take_byte p).2) s in
        '(_, m) ← sem_post ((pipe_sem_space s).[id]) (ps_sem s);
        Some (Moved c, set_ps_sem m s)
  end.

Definition write_byte (id c : Z) s : option (byte_end * PipeSt St) :=
  '(w, s) ← wait_while (write_cond id) ((pipe_sem_space s).[id]) s;
  match w with
  | WaitBlocked => Some (BlockedHere, s)
  | WaitFailed => Some (Failed, s)
  | WaitDone =>
      if readers (pipe s id) =? 0 then Some (Ended, s)
      else
        let s := upd_pipe id (put_byte c) s in
        '(_, m) ← sem_post ((pipe_sem_data s).[id]) (ps_sem s);
        Some (Moved c, set_ps_sem m s)
  end.

(** ** The read and write calls

    A call runs until it returns or blocks.  [CallBlocked done] is a call that
    sleeps after moving the bytes [done]; it resumes as a loop with what
    remains. *)

Inductive call_end := Returned (r : Z) (done : list Z) | CallBlocked (done : list Z).

Fixpoint read_loop (n : nat) (id : Z) (done : list Z) s : option (call_end * PipeSt St) :=
  match n with
  | O => Some (Returned (Z.of_nat (length done)) done, s)
  | S n =>
      '(e, s) ← read_byte id s;
      match e with
      | Moved c => read_loop n id (done ++ [c]) s
      | Ended => Some (Returned (Z.of_nat (length done)) done, s)
      | BlockedHere => Some (CallBlocked done, s)
      | Failed => Some (Returned (if Z.of_nat (length done) >? 0 then Z.of_nat (length done) else -1) done, s)
      end
  end.

Definition pipe_read (id count : Z) s : option (call_end * PipeSt St) :=
  if negb (pipe_is_open id s) then Some (Returned (-1) [], s)
  else read_loop (Z.to_nat count) id [] s.

Fixpoint write_loop (buf : list Z) (id : Z) (done : list Z) s : option (call_end * PipeSt St) :=
  match buf with
  | [] => Some (Returned (Z.of_nat (length done)) done, s)
  | c :: buf =>
      '(e, s) ← write_byte id c s;
      match e with
      | Moved _ => write_loop buf id (done ++ [c]) s
      | Ended | Failed =>
          Some (Returned (if Z.of_nat (length done) >? 0 then Z.of_nat (length done) else -1) done, s)
      | BlockedHere => Some (CallBlocked done, s)
      end
  end.

(** [buf] holds the [count] bytes to write. *)
Definition pipe_write (id : Z) (buf : list Z) s : option (call_end * PipeSt St) :=
  if negb (pipe_is_open id s) then Some (Returned (-1) [], s)
  else write_loop buf id [] s.

(** ** Closing *)

(** [if (x[id] > 0) x[id]--;] *)
Definition dec_pos (id : Z) (l : list Z) : list Z := if l.[id] >? 0 then seti id (l.[id] - 1) l else l.

Definition with_sem (f : SemSt St -> option (Z * SemSt St)) s : option (PipeSt St) :=
  '(_, m) ← f (ps_sem s); Some (set_ps_sem m s).

Definition pipe_close (id is_write : Z) s : option (Z * PipeSt St) :=
  if negb (pipe_is_open id s) then Some (-1, s)
  else
    s ← (if ctrue is_write then
           let s := upd_pipe id (fun p => if writers p >? 0 then set_writers (writers p - 1) p else p) s in
           let s := set_reserved_writers (dec_pos id (pipe_reserved_writers s)) s in
           if writers (pipe s id) =? 0 then with_sem (sem_post_all ((pipe_sem_data s).[id])) s
           else if pcount (pipe s id) <? capacity (pipe s id)
           then with_sem (sem_post ((pipe_sem_space s).[id])) s else Some s
         else
           let s := upd_pipe id (fun p => if readers p >? 0 then set_readers (readers p - 1) p else p) s in
           let s := set_reserved_readers (dec_pos id (pipe_reserved_readers s)) s in
           if readers (pipe s id) =? 0 then with_sem (sem_post_all ((pipe_sem_space s).[id])) s
           else if pcount (pipe s id) >? 0
           then with_sem (sem_post ((pipe_sem_data s).[id])) s else Some s);
    if (readers (pipe s id) =? 0) && (writers (pipe s id) =? 0) then
      let s := upd_pipe id (set_pactive 0) s in
      let s := set_reserved_readers (seti id 0 (pipe_reserved_readers s)) s in
      let s := set_reserved_writers (seti id 0 (pipe_reserved_writers s)) s in
      let s := set_ps_sem (sem_close ((pipe_sem_data s).[id]) (ps_sem s)).2 s in
      let s := set_ps_sem (sem_close ((pipe_sem_space s).[id]) (ps_sem s)).2 s in
      Some (0, s)
    else Some (0, s).

End Ops.

(** ** The ring buffer is a queue *)

Record pipe_wf (p : Pipe) : Prop := {
  pw_length : length (pbuf p) = 512%nat;
  pw_capacity : 0 < capacity p <= PIPE_BUF_SIZE;
  pw_read : 0 <= read_pos p < capacity p;
  pw_count : 0 <= pcount p <= capacity p;
  pw_write : write_pos p = (read_pos p + pcount p) mod capacity p
}.

(** The bytes in the buffer, oldest first. *)
Definition contents (p : Pipe) : list Z :=
  ring (pbuf p) (read_pos p) (pcount p) (capacity p).

Lemma contents_length p : pipe_wf p -> Z.of_nat (length (contents p)) = pcount p.
Proof. intros Hw. unfold contents. apply ring_length, (pw_count _ Hw). Qed.

Lemma put_byte_spec c p :
  pipe_wf p -> pcount p < capacity p ->
  pipe_wf (put_byte c p) /\ contents (put_byte c p) = contents p ++ [c].
Proof.
  intros Hw Hlt. destruct Hw as [Hl Hc Hr Hn Hwp]. unfold PIPE_BUF_SIZE in *.
  pose proof (Z.mod_pos_bound (read_pos p + pcount p) (capacity p) ltac:(lia)) as Hwr. split.
  - unfold put_byte. split; simpl; unfold PIPE_BUF_SIZE; rewrite ?length_seti; try done; try lia.
    rewrite Hwp, Zplus_mod_idemp_l. f_equal. lia.
  - unfold contents, put_byte. cbn [pbuf read_pos pcount capacity set_pcount set_write_pos set_pbuf].
    rewrite Hwp. apply ring_push; lia.
Qed.

Lemma take_byte_spec p :
  pipe_wf p -> 0 < pcount p ->
  let '(c, p') := take_byte p in
  pipe_wf p' /\ contents p = c :: contents p'.
Proof.
  intros [Hl Hc Hr Hn Hwp] Hpos. unfold PIPE_BUF_SIZE in *. unfold take_byte.
  pose proof (Z.mod_pos_bound (read_pos p + 1) (capacity p) ltac:(lia)) as Hrr. split.
  - split; simpl; unfold PIPE_BUF_SIZE; try done; try lia. rewrite Hwp, Zplus_mod_idemp_l. f_equal. lia.
  - unfold contents. cbn [pbuf read_pos pcount capacity set_pcount set_read_pos]. apply ring_pop; lia.
Qed.

(** ** The invariant of an open pipe *)

Section Inv.
Context {St : Type} `{Hlaws : SchedulerLaws St}.
Implicit Types s : PipeSt St.

Definition data_sem (id : Z) s : Z := (pipe_sem_data s).[id].
Definition space_sem (id : Z) s : Z := (pipe_sem_space s).[id].

Record pipe_inv (id : Z) s : Prop := {
  pv_id : 0 <= id < MAX_PIPES;
  pv_length : length (pipe_table s) = 32%nat;
  pv_active : pactive (pipe s id) = 1;
  pv_wf : pipe_wf (pipe s id);
  pv_ends : 0 <= readers (pipe s id) /\ 0 <= writers (pipe s id);
  pv_sem : sem_inv (ps_sem s);
  pv_data : is_valid (data_sem id s) (ps_sem s) = true;
  pv_space : is_valid (space_sem id s) (ps_sem s) = true
}.

(** The caller of a pipe operation. *)
Definition caller s : Z := sch_getpid (sem_sched (ps_sem s)).
Definition caller_runs s : Prop := runnable (caller s) (sem_sched (ps_sem s)).

Lemma pipe_upd s i f j :
  length (pipe_table s) = 32%nat -> 0 <= i < MAX_PIPES ->
  pipe (upd_pipe i f s) j = if j =? i then f (pipe s j) else pipe s j.
Proof.
  intros Hl Hi. unfold pipe, upd_pipe. simpl. destruct (Z.eqb_spec j i) as [->|].
  - apply geti_alteri_eq. rewrite Hl. unfold MAX_PIPES in *. lia.
  - by apply geti_alteri_ne.
Qed.

(** A new state of the semaphores in which those of the pipe are still open. *)
Lemma pipe_inv_sem id s m :
  pipe_inv id s -> sem_inv m -> is_valid (data_sem id s) m = true -> is_valid (space_sem id s) m = true ->
  pipe_inv id (set_ps_sem m s).
Proof. intros [] ? ? ?. by split. Qed.

(** A new state of the buffer. *)
Lemma pipe_inv_upd id s f :
  pipe_inv id s -> pipe_wf (f (pipe s id)) -> pactive (f (pipe s id)) = 1 ->
  0 <= readers (f (pipe s id)) /\ 0 <= writers (f (pipe s id)) -> pipe_inv id (upd_pipe id f s).
Proof.
  intros [Hid Hl Ha Hw He Hs Hd Hsp] H1 H2 H3.
  assert (pipe (upd_pipe id f s) id = f (pipe s id)) as E by (rewrite pipe_upd, Z.eqb_refl by done; done).
  split; rewrite ?E; try done. simpl. by rewrite length_alteri.
Qed.

(** A post on one semaphore closes none. *)
Lemma post_valid id (s s' : SemSt St) j :
  only_sem id s s' -> active (sem s' id) = 1 -> is_valid j s = true -> is_valid j s' = true.
Proof.
  intros Hon Ha [Hj Hv]%is_valid_spec. apply is_valid_spec. split; [done|].
  destruct (decide (j = id)) as [->|]; [done|]. by rewrite Hon.
Qed.

Lemma pipe_post id s x :
  pipe_inv id s -> is_valid x (ps_sem s) = true ->
  exists m, sem_post x (ps_sem s) = Some (0, m) /\ pipe_inv id (set_ps_sem m s).
Proof.
  intros Hinv Hv. destruct (sem_post_spec x (ps_sem s) (pv_sem _ _ Hinv) Hv) as (m & E & Hon & Hm & Ha & _).
  exists m. split; [done|]. apply pipe_inv_sem; try done.
  - by eapply post_valid; [| |apply Hinv].
  - by eapply post_valid; [| |apply Hinv].
Qed.

(** ** Waiting *)

(** The loop condition does not depend on the semaphores, so a wait whose
    condition holds ends with the caller asleep on the semaphore, or with a
    full queue. *)
Lemma wait_loop_spec cond x : forall fuel s,
  (forall m, cond (set_ps_sem m s) = cond s) -> sem_inv (ps_sem s) -> caller_runs s ->
  is_valid x (ps_sem s) = true -> cond s = true -> (S (Z.to_nat (value (sem (ps_sem s) x))) < fuel)%nat ->
  exists e m, wait_loop fuel cond x s = Some (e, set_ps_sem m s) /\ sem_inv m /\
    only_sem x (ps_sem s) m /\ active (sem m x) = 1 /\
    ((e = WaitBlocked /\ caller s ∈ queued m x /\ blocked (caller s) (sem_sched m) = true) \/
     (e = WaitFailed /\ length (waiters (sem m x)) = 64%nat)).
Proof.
  induction fuel as [|fuel IH]; intros s Hcond Hinv Hrun Hv Hc Hfuel; [lia|].
  cbn [wait_loop]. rewrite Hc. pose proof (sem_wait_inv x (ps_sem s) Hinv Hrun) as Hinv'.
  pose proof (sem_wait_spec x (ps_sem s) Hinv Hv Hrun) as Hs. pose proof Hv as [Hx Hact]%is_valid_spec.
  destruct (sem_wait x (ps_sem s)) as [r m]. cbn [snd] in Hinv'.
  destruct Hs as (Hon & Hwf & Ha & [(-> & Hpos & Hval & HW & Hsch)|[(-> & Hv0 & Hval & HW & Hsch)|(-> & Hv0 & Hl & Hval & HW & Hsch)]]).
  - change (0 <? 0) with false. change (0 >? 0) with false. cbv iota.
    destruct (IH (set_ps_sem m s)) as (e & m' & Hr & Hm' & Hon' & Ha' & Hcase); try done.
    + intros m'. change (set_ps_sem m' (set_ps_sem m s)) with (set_ps_sem m' s). by rewrite !Hcond.
    + unfold caller_runs, caller in *. simpl. by rewrite Hsch.
    + apply is_valid_spec. split; [done|]. simpl. congruence.
    + by rewrite Hcond.
    + simpl. lia.
    + exists e, m'. change (set_ps_sem m' (set_ps_sem m s)) with (set_ps_sem m' s) in Hr.
      split; [done|]. split; [done|]. split; [by eapply only_sem_trans|]. split; [done|].
      unfold caller in *. simpl in Hcase. by rewrite Hsch in Hcase.
  - change (1 <? 0) with false. change (1 >? 0) with true. cbv iota.
    exists WaitBlocked, m. split_and!; try done; [congruence|]. left.
    assert (caller s ∈ queued m x) as Hq.
    { unfold queued. rewrite HW, fmap_app, elem_of_app. right. by apply list_elem_of_singleton. }
    split_and!; try done. by apply (sv_blocked _ Hinv' x).
  - change (-1 <? 0) with true. cbv iota. exists WaitFailed, m. split_and!; try done; [congruence|].
    right. split; [done|]. by rewrite HW.
Qed.

Lemma wait_while_spec id cond x s :
  pipe_inv id s -> caller_runs s -> is_valid x (ps_sem s) = true ->
  (forall m, cond (set_ps_sem m s) = cond s) ->
  (cond s = false /\ wait_while cond x s = Some (WaitDone, s)) \/
  (cond s = true /\ exists e m, wait_while cond x s = Some (e, set_ps_sem m s) /\
    pipe_inv id (set_ps_sem m s) /\
    ((e = WaitBlocked /\ caller s ∈ queued m x /\ blocked (caller s) (sem_sched m) = true) \/
     (e = WaitFailed /\ length (waiters (sem m x)) = 64%nat))).
Proof.
  intros Hinv Hrun Hv Hcond. unfold wait_while. destruct (cond s) eqn:Hc; [right|left].
  - split; [done|].
    destruct (wait_loop_spec cond x (wait_fuel x s) s) as (e & m & Hr & Hm & Hon & Ha & Hcase);
      try done; [intros; by rewrite Hcond|apply Hinv|unfold wait_fuel; lia|].
    exists e, m. split; [done|]. split; [|done]. apply pipe_inv_sem; try done.
    + by eapply post_valid; [| |apply Hinv].
    + by eapply post_valid; [| |apply Hinv].
  - split; [done|]. unfold wait_fuel. cbn [wait_loop]. by rewrite Hc.
Qed.

(** ** One byte *)

(** The caller is asleep on semaphore [x] and nothing else has changed but
    the semaphores, or [x] has no room for another waiter. *)
Definition slept (id x : Z) s (e : byte_end) s' : Prop :=
  (exists m, s' = set_ps_sem m s) /\
  ((e = BlockedHere /\ caller s ∈ queued (ps_sem s') x /\ blocked (caller s) (sem_sched (ps_sem s')) = true) \/
   (e = Failed /\ length (waiters (sem (ps_sem s') x)) = 64%nat)).

Lemma read_byte_spec id s :
  pipe_inv id s -> caller_runs s ->
  exists e s', read_byte id s = Some (e, s') /\ pipe_inv id s' /\
    match contents (pipe s id) with
    | c :: l => e = Moved c /\ contents (pipe s' id) = l /\
        readers (pipe s' id) = readers (pipe s id) /\ writers (pipe s' id) = writers (pipe s id)
    | [] => if writers (pipe s id) =? 0 then e = Ended /\ s' = s
            else slept id (data_sem id s) s e s'
    end.
Proof.
  intros Hinv Hrun. pose proof (pv_wf _ _ Hinv) as Hw. pose proof (contents_length _ Hw) as Hlen.
  pose proof (pv_ends _ _ Hinv) as He. pose proof (pv_id _ _ Hinv) as Hid.
  unfold read_byte.
  destruct (wait_while_spec id (read_cond id) (data_sem id s) s Hinv Hrun (pv_data _ _ Hinv) ltac:(done))
    as [[Hc E]|(Hc & e & m & E & Hinv' & Hcase)]; fold (data_sem id s); rewrite E; cbn [mbind option_bind].
  - unfold read_cond in Hc. destruct (contents (pipe s id)) as [|c l] eqn:EC.
    + simpl in Hlen. replace (pcount (pipe s id) =? 0) with true by lia.
      replace (writers (pipe s id) =? 0) with true by lia. by exists Ended, s.
    + simpl in Hlen. replace (pcount (pipe s id) =? 0) with false by lia.
      pose proof (take_byte_spec (pipe s id) Hw ltac:(lia)) as Ht.
      set (s1 := upd_pipe id _ s).
      assert (pipe s1 id = (take_byte (pipe s id)).2) as E1
        by (unfold s1; by rewrite pipe_upd, Z.eqb_refl by (done || apply Hinv)).
      assert (pipe_inv id s1) as Hinv1.
      { apply pipe_inv_upd; try done. - by destruct Ht. - simpl. apply Hinv. }
      destruct (pipe_post id s1 (space_sem id s1) Hinv1 (pv_space _ _ Hinv1)) as (m & Em & Hinv2).
      unfold space_sem in Em. rewrite Em. cbn [mbind option_bind].
      exists (Moved c), (set_ps_sem m s1).
      assert ((take_byte (pipe s id)).1 = c /\ contents (take_byte (pipe s id)).2 = l) as [Ec El].
      { destruct (take_byte (pipe s id)) as [c' p']. destruct Ht as [_ Ht]. rewrite EC in Ht. by injection Ht as -> ->. }
      rewrite Ec. split; [done|]. split; [done|].
      change (pipe (set_ps_sem m s1) id) with (pipe s1 id). by rewrite E1.
  - unfold read_cond in Hc. assert (contents (pipe s id) = []) as -> by (destruct (contents (pipe s id)); [done|simpl in Hlen; lia]).
    replace (writers (pipe s id) =? 0) with false by lia.
    destruct Hcase as [(-> & Hq & Hb)|(-> & Hl)].
    + exists BlockedHere, (set_ps_sem m s). split; [done|]. split; [done|]. split; [by exists m|by left].
    + exists Failed, (set_ps_sem m s). split; [done|]. split; [done|]. split; [by exists m|by right].
Qed.

Lemma write_byte_spec id c s :
  pipe_inv id s -> caller_runs s ->
  exists e s', write_byte id c s = Some (e, s') /\ pipe_inv id s' /\
    if readers (pipe s id) =? 0 then e = Ended /\ s' = s
    else if pcount (pipe s id) <? capacity (pipe s id) then
      e = Moved c /\ contents (pipe s' id) = contents (pipe s id) ++ [c] /\
      readers (pipe s' id) = readers (pipe s id) /\ writers (pipe s' id) = writers (pipe s id)
    else slept id (space_sem id s) s e s'.
Proof.
  intros Hinv Hrun. pose proof (pv_wf _ _ Hinv) as Hw.
  pose proof (pv_ends _ _ Hinv) as He. pose proof (pv_id _ _ Hinv) as Hid.
  unfold write_byte.
  destruct (wait_while_spec id (write_cond id) (space_sem id s) s Hinv Hrun (pv_space _ _ Hinv) ltac:(done))
    as [[Hc E]|(Hc & e & m & E & Hinv' & Hcase)]; fold (space_sem id s); rewrite E; cbn [mbind option_bind];
    unfold write_cond in Hc.
  - destruct (readers (pipe s id) =? 0) eqn:Er; [by exists Ended, s|].
    replace (pcount (pipe s id) <? capacity (pipe s id)) with true by lia.
    destruct (put_byte_spec c (pipe s id) Hw ltac:(lia)) as [Hw' Hc'].
    set (s1 := upd_pipe id _ s).
    assert (pipe s1 id = put_byte c (pipe s id)) as E1
      by (unfold s1; by rewrite pipe_upd, Z.eqb_refl by (done || apply Hinv)).
    assert (pipe_inv id s1) as Hinv1 by (apply pipe_inv_upd; try done; simpl; apply Hinv).
    destruct (pipe_post id s1 (data_sem id s1) Hinv1 (pv_data _ _ Hinv1)) as (m & Em & Hinv2).
    unfold data_sem in Em. rewrite Em. cbn [mbind option_bind].
    exists (Moved c), (set_ps_sem m s1). split; [done|]. split; [done|].
    change (pipe (set_ps_sem m s1) id) with (pipe s1 id). by rewrite E1.
  - replace (readers (pipe s id) =? 0) with false by lia.
    replace (pcount (pipe s id) <? capacity (pipe s id)) with false by lia.
    destruct Hcase as [(-> & Hq & Hb)|(-> & Hl)].
    + exists BlockedHere, (set_ps_sem m s). split; [done|]. split; [done|]. split; [by exists m|by left].
    + exists Failed, (set_ps_sem m s). split; [done|]. split; [done|]. split; [by exists m|by right].
Qed.

End Inv.

(** ** The semaphore operations never get stuck and keep the caller running *)

Section Total.
Context {St : Type} `{Hlaws : SchedulerLaws St}.
Implicit Types (s : PipeSt St) (m : SemSt St).

Lemma sem_post_total x m :
  sem_inv m -> exists r m', sem_post x m = Some (r, m') /\ sem_inv m'.
Proof.
  intros Hinv. destruct (is_valid x m) eqn:Hv.
  - destruct (sem_post_spec x m Hinv Hv) as (m' & E & _ & Hm & _). by exists 0, m'.
  - exists (-1), m. unfold sem_post. by rewrite Hv.
Qed.

Lemma sem_post_all_total x m :
  sem_inv m -> exists r m', sem_post_all x m = Some (r, m') /\ sem_inv m'.
Proof.
  intros Hinv. destruct (is_valid x m) eqn:Hv.
  - destruct (sem_post_all_spec x m Hinv Hv) as (m' & E & _ & Hm & _). by exists 0, m'.
  - exists (-1), m. unfold sem_post_all. by rewrite Hv.
Qed.

Lemma sem_close_total x m : sem_inv m -> sem_inv (sem_close x m).2.
Proof.
  intros Hinv. destruct (is_valid x m) eqn:Hv.
  - pose proof (sem_close_spec x m Hinv Hv) as Hc. destruct (sem_close x m). by destruct Hc as (_ & _ & ? & _).
  - unfold sem_close. by rewrite Hv.
Qed.

Lemma with_sem_total f s :
  (forall m, sem_inv m -> exists r m', f m = Some (r, m') /\ sem_inv m') -> sem_inv (ps_sem s) ->
  exists m', with_sem f s = Some (set_ps_sem m' s) /\ sem_inv m'.
Proof. intros Hf Hinv. destruct (Hf _ Hinv) as (r & m' & E & Hm). exists m'. unfold with_sem. by rewrite E. Qed.

(** [pipe_close] always returns, whatever the pipe and the end. *)
Lemma pipe_close_total id w s :
  sem_inv (ps_sem s) -> exists r s', pipe_close id w s = Some (r, s') /\ sem_inv (ps_sem s').
Proof.
  intros Hinv. unfold pipe_close. case_if; [by exists (-1), s|].
  set (o := if ctrue w then _ else _).
  assert (exists s', o = Some s' /\ sem_inv (ps_sem s')) as (s' & -> & Hs').
  { unfold o. clear o.
    assert (forall x s, sem_inv (ps_sem s) -> exists s', with_sem (sem_post x) s = Some s' /\ sem_inv (ps_sem s')) as Hp.
    { intros x s0 Hi. destruct (with_sem_total (sem_post x) s0 (fun m => sem_post_total x m) Hi) as (m' & -> & ?). by eexists. }
    assert (forall x s, sem_inv (ps_sem s) -> exists s', with_sem (sem_post_all x) s = Some s' /\ sem_inv (ps_sem s')) as Ha.
    { intros x s0 Hi. destruct (with_sem_total (sem_post_all x) s0 (fun m => sem_post_all_total x m) Hi) as (m' & -> & ?). by eexists. }
    case_if; repeat case_if; solve [by apply Hp | by apply Ha | by eexists]. }
  cbn [mbind option_bind]. case_if; [|by exists 0, s'].
  eexists 0, _. split; [done|]. simpl. by do 2 apply sem_close_total.
Qed.

(** After a post the caller still runs. *)
Lemma runnable_post x m m' r :
  sem_inv m -> sem_post x m = Some (r, m') -> runnable (sch_getpid (sem_sched m)) (sem_sched m) ->
  runnable (sch_getpid (sem_sched m')) (sem_sched m').
Proof.
  intros Hinv E Hrun. destruct (is_valid x m) eqn:Hv.
  2:{ unfold sem_post in E. rewrite Hv in E. by injection E as _ <-. }
  destruct (sem_post_spec x m Hinv Hv) as (m1 & E1 & _ & _ & _ & _ & Hc). rewrite E in E1. injection E1 as -> <-.
  destruct Hc as [(_ & _ & _ & ->)|(_ & n & y & _ & Hy & _ & ->)]; [done|].
  pose proof Hv as [Hx _]%is_valid_spec. pose proof (sv_ok _ Hinv x Hx) as Hok.
  unfold waiters_ok in Hok. rewrite list.Forall_lookup in Hok. destruct (Hok _ _ Hy) as [Hpos _].
  pose proof (sv_sched _ Hinv) as Hsch. destruct Hrun as (Hp & [v Hf] & Hb).
  rewrite sch_getpid_unblock by done. split_and!; [done|..].
  - rewrite sch_find_unblock by done. case_if; rewrite Hf; by eexists.
  - rewrite blocked_unblock, Hb by done. done.
Qed.

End Total.

(** ** Whole calls *)

Section Calls.
Context {St : Type} `{Hlaws : SchedulerLaws St}.
Implicit Types s : PipeSt St.

Lemma read_byte_runs id s c s' :
  pipe_inv id s -> caller_runs s -> read_byte id s = Some (Moved c, s') -> caller_runs s'.
Proof.
  intros Hinv Hrun. unfold read_byte. fold (data_sem id s).
  destruct (wait_while_spec id (read_cond id) (data_sem id s) s Hinv Hrun (pv_data _ _ Hinv) ltac:(done))
    as [[Hc ->]|(Hc & e & m & -> & _ & [(-> & _)|(-> & _)])]; cbn [mbind option_bind]; try done.
  case_if; [done|]. destruct (sem_post _ _) as [[r m]|] eqn:E; [|done]. cbn [mbind option_bind].
  intros [= _ <-]. unfold caller_runs, caller. cbn [ps_sem set_ps_sem].
  eapply runnable_post; [|exact E|exact Hrun]. apply Hinv.
Qed.

Lemma write_byte_runs id c c' s s' :
  pipe_inv id s -> caller_runs s -> write_byte id c s = Some (Moved c', s') -> caller_runs s'.
Proof.
  intros Hinv Hrun. unfold write_byte. fold (space_sem id s).
  destruct (wait_while_spec id (write_cond id) (space_sem id s) s Hinv Hrun (pv_space _ _ Hinv) ltac:(done))
    as [[Hc ->]|(Hc & e & m & -> & _ & [(-> & _)|(-> & _)])]; cbn [mbind option_bind]; try done.
  case_if; [done|]. destruct (sem_post _ _) as [[r m]|] eqn:E; [|done]. cbn [mbind option_bind].
  intros [= _ <-]. unfold caller_runs, caller. cbn [ps_sem set_ps_sem].
  eapply runnable_post; [|exact E|exact Hrun]. apply Hinv.
Qed.

(** A read of at most the bytes that are there takes the oldest ones. *)
Lemma read_loop_available id n : forall s done,
  pipe_inv id s -> caller_runs s -> (n <= length (contents (pipe s id)))%nat ->
  exists s', read_loop n id done s =
      Some (Returned (Z.of_nat (length done + n)) (done ++ take n (contents (pipe s id))), s') /\
    pipe_inv id s' /\ caller_runs s' /\ contents (pipe s' id) = drop n (contents (pipe s id)).
Proof.
  induction n as [|n IH]; intros s done Hinv Hrun Hn; cbn [read_loop].
  { exists s. rewrite Nat.add_0_r, take_0, app_nil_r, drop_0. done. }
  destruct (read_byte_spec id s Hinv Hrun) as (e & s1 & E & Hinv1 & Hc). rewrite E. cbn [mbind option_bind].
  destruct (contents (pipe s id)) as [|c l] eqn:EC; [simpl in Hn; lia|]. destruct Hc as (-> & El & _).
  destruct (IH s1 (done ++ [c]) Hinv1) as (s' & Hr & Hinv' & Hrun' & Hd).
  { by apply (read_byte_runs id s c). } { rewrite El. simpl in Hn. lia. }
  exists s'. rewrite Hr, El in *. rewrite <- app_assoc, length_app. cbn [length take app drop].
  split; [|done]. do 3 f_equal. lia.
Qed.

(** A read from an empty pipe without writers returns 0 at once. *)
Lemma read_loop_eof id n s :
  pipe_inv id s -> caller_runs s -> contents (pipe s id) = [] -> writers (pipe s id) = 0 -> (0 < n)%nat ->
  read_loop n id [] s = Some (Returned 0 [], s).
Proof.
  intros Hinv Hrun HC Hw Hn. destruct n as [|n]; [lia|]. cbn [read_loop].
  destruct (read_byte_spec id s Hinv Hrun) as (e & s1 & -> & _ & Hc). rewrite HC, Hw in Hc.
  simpl in Hc. by destruct Hc as [-> ->].
Qed.

(** A write that fits appends the bytes. *)
Lemma write_loop_fits id buf : forall s done,
  pipe_inv id s -> caller_runs s -> 0 < readers (pipe s id) ->
  pcount (pipe s id) + Z.of_nat (length buf) <= capacity (pipe s id) ->
  exists s', write_loop buf id done s = Some (Returned (Z.of_nat (length done + length buf)) (done ++ buf), s') /\
    pipe_inv id s' /\ caller_runs s' /\ contents (pipe s' id) = contents (pipe s id) ++ buf /\
    capacity (pipe s' id) = capacity (pipe s id).
Proof.
  induction buf as [|c buf IH]; intros s done Hinv Hrun Hrd Hn; cbn [write_loop].
  { exists s. simpl. rewrite Nat.add_0_r, !app_nil_r. done. }
  destruct (write_byte_spec id c s Hinv Hrun) as (e & s1 & E & Hinv1 & Hc). rewrite E. cbn [mbind option_bind].
  cbn [length] in Hn. replace (readers (pipe s id) =? 0) with false in Hc by lia.
  replace (pcount (pipe s id) <? capacity (pipe s id)) with true in Hc by lia.
  destruct Hc as (-> & El & Er & _).
  assert (capacity (pipe s1 id) = capacity (pipe s id)) as Ecap.
  { unfold write_byte in E. fold (space_sem id s) in E.
    destruct (wait_while_spec id (write_cond id) (space_sem id s) s Hinv Hrun (pv_space _ _ Hinv) ltac:(done))
      as [[_ Ew]|(_ & e & m & Ew & _ & [(-> & _)|(-> & _)])]; rewrite Ew in E; cbn [mbind option_bind] in E; try done.
    case_if; [done|]. destruct (sem_post _ _) as [[r m]|]; [|done]. cbn [mbind option_bind] in E.
    injection E as <-. change (pipe (set_ps_sem m (upd_pipe id (put_byte c) s)) id) with (pipe (upd_pipe id (put_byte c) s) id).
    rewrite pipe_upd, Z.eqb_refl by apply Hinv. done. }
  assert (pcount (pipe s1 id) = pcount (pipe s id) + 1) as Ecount.
  { pose proof (contents_length _ (pv_wf _ _ Hinv)) as L0. pose proof (contents_length _ (pv_wf _ _ Hinv1)) as L1.
    rewrite El, length_app in L1. simpl in L1. lia. }
  destruct (IH s1 (done ++ [c]) Hinv1) as (s' & Hr & Hinv' & Hrun' & Hd & Hcap).
  { by apply (write_byte_runs id c c s). } { lia. } { lia. }
  exists s'. rewrite Hr, Hd, El, <- !app_assoc, length_app. cbn [length app].
  split; [do 3 f_equal; lia|]. split_and!; try done. congruence.
Qed.

End Calls.
