(* ===== verification/PipeProps.v ===== *)
(** * Properties of the pipes

    The theorems about [Kernel/pipe.c]. *)

From S2P Require Import Prelude Process Lib Sched Lifecycle SchedIface Semaphore SemaphoreProps Pipe.
Local Open Scope Z_scope.

Section Generic.
Context {St : Type} `{Hlaws : SchedulerLaws St}.
Implicit Types s : PipeSt St.

(** ** Opening *)

Record pipes_wf s : Prop := {
  pt_table : length (pipe_table s) = 32%nat;
  pt_bufs i : 0 <= i < MAX_PIPES -> length (pbuf (pipe s i)) = 512%nat;
  pt_data : length (pipe_sem_data s) = 32%nat;
  pt_space : length (pipe_sem_space s) = 32%nat;
  pt_res_r : length (pipe_reserved_readers s) = 32%nat;
  pt_res_w : length (pipe_reserved_writers s) = 32%nat
}.

Lemma sem_name_ok id c : 0 <= id < MAX_PIPES -> 0 < c < 128 ->
  chars [c; i8 (48 + id)] /\ (length (cstr [c; i8 (48 + id)]) < 32)%nat.
Proof.
  intros Hid Hc. unfold MAX_PIPES in *.
  assert (i8 (48 + id) = 48 + id) as -> by (unfold i8; rewrite Z.mod_small; lia). split.
  - repeat (apply list.Forall_cons; split; [lia|]). constructor.
  - simpl. repeat case_if; simpl; lia.
Qed.

(** Opening a semaphore keeps the open ones open. *)
Lemma sem_open_valid nm m id m' j :
  sem_inv m -> chars nm -> (length (cstr nm) < 32)%nat -> sem_open nm 0 m = Some (id, m') ->
  sem_inv m' /\ (0 <= id -> is_valid id m' = true) /\ (is_valid j m = true -> is_valid j m' = true).
Proof.
  intros Hinv Hc Hl E. destruct (sem_open_spec nm 0 m Hinv ltac:(lia) Hc Hl) as (id1 & m1 & E1 & Hinv1 & _ & Hcase).
  rewrite E in E1. injection E1 as <- <-. split; [done|].
  destruct Hcase as [(Hid & [Ha _] & Hon & Hs)|[(Hid & _ & Ha & Hon & [Ha' _] & _)|(-> & -> & _)]].
  - split.
    + intros _. apply is_valid_spec. by rewrite Hs.
    + intros [Hj Hv]%is_valid_spec. apply is_valid_spec. split; [done|].
      destruct (decide (j = id)) as [->|]; [by rewrite Hs|by rewrite Hon].
  - split; [intros _; by apply is_valid_spec|].
    intros [Hj Hv]%is_valid_spec. apply is_valid_spec. split; [done|].
    destruct (decide (j = id)) as [->|]; [congruence|by rewrite Hon].
  - split; [lia|done].
Qed.

(** ** Histories of a pipe

    [pipe_run id w r s]: a history of pipe [id] in which the bytes [w] were
    written and the bytes [r] read, one iteration at a time, in any
    interleaving of readers and writers; between the iterations the rest of
    the system does anything that leaves the buffer of this pipe alone. *)

Definition moved (e : byte_end) : list Z := match e with Moved c => [c] | _ => [] end.

Inductive pipe_run (id : Z) : list Z -> list Z -> PipeSt St -> Prop :=
| pr_open s : pipe_inv id s -> contents (pipe s id) = [] -> pipe_run id [] [] s
| pr_read w r s e s' :
    pipe_run id w r s -> caller_runs s -> read_byte id s = Some (e, s') ->
    pipe_run id w (r ++ moved e) s'
| pr_write w r s c e s' :
    pipe_run id w r s -> caller_runs s -> write_byte id c s = Some (e, s') ->
    pipe_run id (w ++ moved e) r s'
| pr_other w r s s' :
    pipe_run id w r s -> pipe_inv id s' -> contents (pipe s' id) = contents (pipe s id) ->
    pipe_run id w r s'.

Lemma pipe_run_contents id w r s :
  pipe_run id w r s -> pipe_inv id s /\ w = r ++ contents (pipe s id).
Proof.
  induction 1 as [s Hinv HC|w r s e s' _ [Hinv ->] Hrun E|w r s c e s' _ [Hinv ->] Hrun E|w r s s' _ [_ ->] Hinv' HC].
  - by rewrite HC.
  - destruct (read_byte_spec id s Hinv Hrun) as (e1 & s1 & E1 & Hinv1 & Hc). rewrite E in E1. injection E1 as <- <-.
    split; [done|]. destruct (contents (pipe s id)) as [|c l] eqn:EC.
    + assert (moved e = [] /\ contents (pipe s' id) = []) as [-> ->]; [|by rewrite !app_nil_r].
      destruct (writers (pipe s id) =? 0).
      * destruct Hc as [-> ->]. split; [done|exact EC].
      * destruct Hc as [[m ->] [(-> & _)|(-> & _)]]; (split; [done|exact EC]).
    + destruct Hc as (-> & -> & _). simpl. by rewrite <- app_assoc.
  - destruct (write_byte_spec id c s Hinv Hrun) as (e1 & s1 & E1 & Hinv1 & Hc). rewrite E in E1. injection E1 as <- <-.
    split; [done|]. rewrite <- app_assoc. f_equal.
    assert (contents (pipe s' id) = contents (pipe s id) ++ moved e) as ->; [|done].
    destruct (readers (pipe s id) =? 0); [destruct Hc as [-> ->]; simpl; by rewrite app_nil_r|].
    destruct (pcount (pipe s id) <? capacity (pipe s id)); [by destruct Hc as (-> & -> & _)|].
    destruct Hc as [[m ->] [(-> & _)|(-> & _)]]; simpl; by rewrite app_nil_r.
  - split; [done|]. by rewrite HC.
Qed.

End Generic.

(** ** A concrete pipe of the kernel *)

Definition pipe_boot (m : SemSt Sched) : PipeSt Sched :=
  mkPipeSt m (replicate 32 zero_pipe) (replicate 32 0) (replicate 32 0) (replicate 32 0) (replicate 32 0).

Definition demo_pipes : PipeSt Sched :=
  default (pipe_boot (sem_boot demo_sched)) (snd <$> pipe_open_with_capacity 4 (pipe_boot (sem_boot demo_sched))).

Lemma pipe_boot_wf m : pipes_wf (pipe_boot m).
Proof.
  split; try done. intros i Hi. unfold pipe, pipe_boot. cbn [pipe_table].
  rewrite (geti_replicate zero_pipe 32) by (unfold MAX_PIPES in *; lia). done.
Qed.

(** The branches of [pipe_open_with_capacity]. *)
Lemma pipe_open_correct {St : Type} `{Hlaws : SchedulerLaws St} (cap : Z) (s : PipeSt St) :
  sem_inv (ps_sem s) -> pipes_wf s ->
  exists i s', pipe_open_with_capacity cap s = Some (i, s') /\ sem_inv (ps_sem s') /\
    ((i = -1 /\ s' = s /\ (~ (0 < cap <= PIPE_BUF_SIZE) \/ forall k, 0 <= k < MAX_PIPES -> pactive (pipe s k) <> 0)) \/
     (0 <= i < MAX_PIPES /\ 0 < cap <= PIPE_BUF_SIZE /\ pactive (pipe s i) = 0 /\
      contents (pipe s' i) = [] /\ capacity (pipe s' i) = cap /\
      readers (pipe s' i) = 1 /\ writers (pipe s' i) = 1 /\
      (pipe_reserved_readers s').[i] = 1 /\ (pipe_reserved_writers s').[i] = 1 /\
      (forall k, k <> i -> pipe s' k = pipe s k) /\
      (0 <= data_sem i s' -> 0 <= space_sem i s' -> pipe_inv i s'))).
Proof.
  intros Hinv [Ht Hb Hd Hsp Hrr Hrw]. unfold pipe_open_with_capacity, PIPE_BUF_SIZE, MAX_PIPES in *. case_if.
  { exists (-1), s. split_and!; try done. left. split_and!; try done. left. lia. }
  destruct (find_idx_spec (fun i => negb (ctrue (pactive (pipe s i)))) 0 32) as [[-> Hn]|(Hi & Hp & _)]; [lia|lia|..].
  { exists (-1), s. split_and!; try done. left. split_and!; try done. right. intros k Hk.
    specialize (Hn k ltac:(lia)). cbv beta in Hn. unfold ctrue in Hn. lia. }
  set (i := find_idx _ 0 32) in *. case_if; [lia|]. cbv beta in Hp.
  set (s1 := set_reserved_writers _ _).
  unfold pipe_init_sems. change (ps_sem s1) with (ps_sem s).
  destruct (sem_name_ok i 100 ltac:(unfold MAX_PIPES; lia) ltac:(lia)) as [Hc1 Hl1].
  destruct (sem_name_ok i 115 ltac:(unfold MAX_PIPES; lia) ltac:(lia)) as [Hc2 Hl2].
  destruct (sem_open_spec (data_name i) 0 (ps_sem s) Hinv ltac:(lia) Hc1 Hl1) as (d & m1 & E1 & _).
  destruct (sem_open_valid _ _ _ _ 0 Hinv Hc1 Hl1 E1) as (Hm1 & Hv1 & _).
  rewrite E1. cbn [mbind option_bind ps_sem set_ps_sem set_sem_data].
  destruct (sem_open_spec (space_name i) 0 m1 Hm1 ltac:(lia) Hc2 Hl2) as (p & m2 & E2 & _).
  destruct (sem_open_valid _ _ _ _ d Hm1 Hc2 Hl2 E2) as (Hm2 & Hv2 & Hv12).
  rewrite E2. cbn [mbind option_bind]. set (s2 := set_sem_space _ _).
  assert (pipe s2 i = set_pactive 1 (set_writers 1 (set_readers 1 (set_capacity cap (set_pcount 0
    (set_write_pos 0 (set_read_pos 0 (pipe s i)))))))) as Ep.
  { change (pipe s2 i) with (pipe (upd_pipe i (fun p => set_pactive 1 (set_writers 1 (set_readers 1
      (set_capacity cap (set_pcount 0 (set_write_pos 0 (set_read_pos 0 p))))))) s) i).
    by rewrite pipe_upd, Z.eqb_refl by (done || unfold MAX_PIPES; lia). }
  exists i, s2. split; [done|]. split; [done|]. right.
  assert (data_sem i s2 = d /\ space_sem i s2 = p) as [Ed Es].
  { unfold data_sem, space_sem, s2. simpl. rewrite !geti_seti_eq by lia. done. }
  rewrite Ep, Ed, Es. simpl. rewrite !geti_seti_eq by lia.
  split_and!; try done; try lia; [unfold ctrue in Hp; lia|..].
  - intros k Hk. change (pipe s2 k) with (pipe (upd_pipe i (fun p => set_pactive 1 (set_writers 1 (set_readers 1
      (set_capacity cap (set_pcount 0 (set_write_pos 0 (set_read_pos 0 p))))))) s) k).
    rewrite pipe_upd by (done || unfold MAX_PIPES; lia). by replace (k =? i) with false by lia.
  - intros Hd0 Hs0. split; rewrite ?Ep, ?Ed, ?Es; simpl; try done; auto.
    + by rewrite length_alteri.
    + split; simpl; unfold PIPE_BUF_SIZE; try lia; [apply Hb; lia|]. by rewrite Z.mod_0_l by lia.
Qed.

Lemma demo_pipes_eq :
  exists s', pipe_open_with_capacity 4 (pipe_boot (sem_boot demo_sched)) = Some (0, s') /\
    demo_pipes = s' /\ pipe_inv 0 s'.
Proof.
  destruct (pipe_open_correct 4 (pipe_boot (sem_boot demo_sched))) as (i & s' & E & _ & Hc).
  { apply sem_boot_inv, demo_sched_inv. } { apply pipe_boot_wf. }
  assert (i = 0) as ->.
  { assert (option_map fst (pipe_open_with_capacity 4 (pipe_boot (sem_boot demo_sched))) = Some 0) as H0
      by (vm_compute; reflexivity). rewrite E in H0. by injection H0. }
  exists s'. split; [done|]. assert (demo_pipes = s') as Ed by (unfold demo_pipes; by rewrite E).
  split; [done|]. destruct Hc as [(? & _)|(_ & _ & _ & _ & _ & _ & _ & _ & _ & _ & Hinv)]; [done|].
  rewrite <- Ed in *. apply Hinv; vm_compute; discriminate.
Qed.

Lemma demo_pipes_inv : pipe_inv 0 demo_pipes.
Proof. destruct demo_pipes_eq as (s' & _ & -> & Hinv). done. Qed.

Lemma demo_pipes_runs : caller_runs demo_pipes.
Proof. split_and!; [vm_compute; reflexivity|by vm_compute; eexists|vm_compute; reflexivity]. Qed.

Lemma demo_pipes_empty : contents (pipe demo_pipes 0) = [].
Proof. vm_compute. reflexivity. Qed.

(** [pipe_open_with_capacity].  A capacity outside 1..512 or a full table
    gives -1 and no effect.  Otherwise the first free pipe is opened: empty,
    of that capacity, with one reader and one writer, both reserved for the
    processes that will attach; it satisfies the pipe invariant provided that
    both semaphores could be opened. *)
Theorem pipe_open_spec {St : Type} `{Hlaws : SchedulerLaws St} (cap : Z) (s : PipeSt St) :
  sem_inv (ps_sem s) -> pipes_wf s ->
  exists i s', pipe_open_with_capacity cap s = Some (i, s') /\ sem_inv (ps_sem s') /\
    ((i = -1 /\ s' = s /\ (~ (0 < cap <= PIPE_BUF_SIZE) \/ forall k, 0 <= k < MAX_PIPES -> pactive (pipe s k) <> 0)) \/
     (0 <= i < MAX_PIPES /\ 0 < cap <= PIPE_BUF_SIZE /\ pactive (pipe s i) = 0 /\
      contents (pipe s' i) = [] /\ capacity (pipe s' i) = cap /\
      readers (pipe s' i) = 1 /\ writers (pipe s' i) = 1 /\
      (pipe_reserved_readers s').[i] = 1 /\ (pipe_reserved_writers s').[i] = 1 /\
      (forall k, k <> i -> pipe s' k = pipe s k) /\
      (0 <= data_sem i s' -> 0 <= space_sem i s' -> pipe_inv i s'))).
Proof. apply pipe_open_correct. Qed.

Lemma pipe_open_spec_witness :
  exists i s', pipe_open_with_capacity 4 (pipe_boot (sem_boot demo_sched)) = Some (i, s') /\ sem_inv (ps_sem s').
Proof.
  destruct (pipe_open_spec 4 (pipe_boot (sem_boot demo_sched)) (sem_boot_inv _ demo_sched_inv) (pipe_boot_wf _))
    as (i & s' & H1 & H2 & _).
  exists i, s'. exact (conj H1 H2).
Defined.



(** What is written is read back.  Writing bytes that fit in an open pipe
    with a reader returns their number without blocking, and reading as many
    bytes as the pipe then holds returns the old contents followed by the
    bytes written, and leaves the pipe empty. *)
Theorem write_read_roundtrip {St : Type} `{Hlaws : SchedulerLaws St} (id : Z) (buf : list Z) (s : PipeSt St) :
  pipe_inv id s -> caller_runs s -> 0 < readers (pipe s id) ->
  pcount (pipe s id) + Z.of_nat (length buf) <= capacity (pipe s id) ->
  exists s1, pipe_write id buf s = Some (Returned (Z.of_nat (length buf)) buf, s1) /\
  let n := pcount (pipe s id) + Z.of_nat (length buf) in
  exists s2, pipe_read id n s1 = Some (Returned n (contents (pipe s id) ++ buf), s2) /\
    contents (pipe s2 id) = [].
Proof.
  intros Hinv Hrun Hrd Hfit.
  assert (forall s, pipe_inv id s -> pipe_is_open id s = true) as Hopen.
  { intros s0 H1. unfold pipe_is_open. rewrite (pv_active _ _ H1). pose proof (pv_id _ _ H1). unfold ctrue. lia. }
  destruct (write_loop_fits id buf s [] Hinv Hrun Hrd Hfit) as (s1 & E1 & Hinv1 & Hrun1 & Hc1 & _).
  exists s1. unfold pipe_write, pipe_read. rewrite (Hopen s), (Hopen s1) by done. cbn [negb]. split; [done|].
  pose proof (contents_length _ (pv_wf _ _ Hinv)) as Hl.
  assert (Z.to_nat (pcount (pipe s id) + Z.of_nat (length buf)) = length (contents (pipe s1 id))) as En.
  { rewrite Hc1, length_app. lia. }
  destruct (read_loop_available id (length (contents (pipe s1 id))) s1 [] Hinv1 Hrun1 ltac:(lia)) as (s2 & E2 & _ & _ & Hd).
  exists s2. rewrite En, E2, Hd, take_ge, drop_ge, Hc1 by lia. split; [|done].
  simpl. do 3 f_equal. rewrite length_app. lia.
Qed.

Lemma write_read_roundtrip_witness :
  exists s1, pipe_write 0 [1; 2; 3] demo_pipes = Some (Returned 3 [1; 2; 3], s1) /\
  exists s2, pipe_read 0 3 s1 = Some (Returned 3 [1; 2; 3], s2) /\ contents (pipe s2 0) = [].
Proof.
  exact (write_read_roundtrip 0 [1; 2; 3] demo_pipes demo_pipes_inv demo_pipes_runs
    ltac:(vm_compute; reflexivity) ltac:(vm_compute; discriminate)).
Defined.

(** Reading one byte.  If the pipe holds bytes the oldest is taken and
    one writer may be woken; an empty pipe without writers is at end of file
    and nothing changes; on an empty pipe with writers the caller is queued on
    the data semaphore and blocked (or the read fails, if 64 processes wait
    there already).  The iteration always ends and keeps the invariant. *)
Theorem read_branches {St : Type} `{Hlaws : SchedulerLaws St} (id : Z) (s : PipeSt St) :
  pipe_inv id s -> caller_runs s ->
  exists e s', read_byte id s = Some (e, s') /\ pipe_inv id s' /\
    match contents (pipe s id) with
    | c :: l => e = Moved c /\ contents (pipe s' id) = l /\
        readers (pipe s' id) = readers (pipe s id) /\ writers (pipe s' id) = writers (pipe s id)
    | [] => if writers (pipe s id) =? 0 then e = Ended /\ s' = s
            else slept id (data_sem id s) s e s'
    end.
Proof. apply read_byte_spec. Qed.

Lemma read_branches_witness :
  exists e s', read_byte 0 demo_pipes = Some (e, s') /\ slept 0 (data_sem 0 demo_pipes) demo_pipes e s'.
Proof.
  destruct (read_branches 0 demo_pipes demo_pipes_inv demo_pipes_runs) as (e & s' & H1 & _ & H2).
  rewrite demo_pipes_empty in H2. replace (writers (pipe demo_pipes 0) =? 0) with false in H2 by (vm_compute; reflexivity).
  exists e, s'. exact (conj H1 H2).
Defined.

(** Writing one byte.  Without readers the write ends and nothing
    changes; with room the byte is appended and one reader may be woken; on a
    full pipe the caller is queued on the space semaphore and blocked.  The
    iteration always ends and keeps the invariant. *)
Theorem write_branches {St : Type} `{Hlaws : SchedulerLaws St} (id c : Z) (s : PipeSt St) :
  pipe_inv id s -> caller_runs s ->
  exists e s', write_byte id c s = Some (e, s') /\ pipe_inv id s' /\
    if readers (pipe s id) =? 0 then e = Ended /\ s' = s
    else if pcount (pipe s id) <? capacity (pipe s id) then
      e = Moved c /\ contents (pipe s' id) = contents (pipe s id) ++ [c] /\
      readers (pipe s' id) = readers (pipe s id) /\ writers (pipe s' id) = writers (pipe s id)
    else slept id (space_sem id s) s e s'.
Proof. apply write_byte_spec. Qed.

Lemma write_branches_witness :
  exists e s', write_byte 0 7 demo_pipes = Some (e, s') /\ e = Moved 7.
Proof.
  destruct (write_branches 0 7 demo_pipes demo_pipes_inv demo_pipes_runs) as (e & s' & H1 & _ & H2).
  replace (readers (pipe demo_pipes 0) =? 0) with false in H2 by (vm_compute; reflexivity).
  replace (pcount (pipe demo_pipes 0) <? capacity (pipe demo_pipes 0)) with true in H2 by (vm_compute; reflexivity).
  exists e, s'. exact (conj H1 (proj1 H2)).
Defined.

(** Closing the last write end of a pipe that has readers wakes every
    process that waits for data, so that it sees the end of file; the pipe
    stays open for the readers. *)
Theorem close_last_writer {St : Type} `{Hlaws : SchedulerLaws St} (id : Z) (s : PipeSt St) :
  pipe_inv id s -> writers (pipe s id) = 1 -> 0 < readers (pipe s id) ->
  exists s', pipe_close id 1 s = Some (0, s') /\ pipe_inv id s' /\
    writers (pipe s' id) = 0 /\ readers (pipe s' id) = readers (pipe s id) /\
    contents (pipe s' id) = contents (pipe s id) /\ queued (ps_sem s') (data_sem id s) = [] /\
    forall p, p ∈ queued (ps_sem s) (data_sem id s) -> blocked p (sem_sched (ps_sem s')) = false.
Proof.
  intros Hinv Hw Hr. pose proof (pv_id _ _ Hinv) as Hid. unfold pipe_close.
  assert (pipe_is_open id s = true) as ->.
  { unfold pipe_is_open. rewrite (pv_active _ _ Hinv). unfold ctrue. lia. }
  cbn [negb]. change (ctrue 1) with true. cbv iota.
  set (s1 := upd_pipe id _ s). set (s2 := set_reserved_writers _ s1).
  assert (pipe s1 id = set_writers 0 (pipe s id)) as E1.
  { unfold s1. rewrite pipe_upd, Z.eqb_refl by apply Hinv. rewrite Hw. done. }
  assert (pipe_inv id s1) as Hinv1.
  { unfold s1. apply pipe_inv_upd; try done; rewrite Hw; simpl; try apply Hinv.
    - destruct (pv_wf _ _ Hinv). by split.
    - split; [apply Hinv|lia]. }
  change (pipe s2 id) with (pipe s1 id). rewrite E1. cbn [writers set_writers Z.eqb].
  change (geti (pipe_sem_data s2) id) with (data_sem id s). unfold with_sem. change (ps_sem s2) with (ps_sem s).
  destruct (sem_post_all_spec (data_sem id s) (ps_sem s) (pv_sem _ _ Hinv) (pv_data _ _ Hinv))
    as (m & -> & Hon & Hm & Ha & HW & _ & Hb). cbn [mbind option_bind].
  change (pipe (set_ps_sem m s2) id) with (pipe s1 id). rewrite E1. cbn [readers writers set_writers].
  replace (readers (pipe s id) =? 0) with false by lia. cbn [andb].
  assert (pipe_inv id (set_ps_sem m s2)) as Hinv2.
  { assert (is_valid (data_sem id s1) m = true) as V1 by (eapply post_valid; [exact Hon|exact Ha|apply Hinv]).
    assert (is_valid (space_sem id s1) m = true) as V2 by (eapply post_valid; [exact Hon|exact Ha|apply Hinv]).
    destruct (pipe_inv_sem id s1 m Hinv1 Hm V1 V2). by split. }
  exists (set_ps_sem m s2). split; [done|]. split; [done|].
  change (pipe (set_ps_sem m s2) id) with (pipe s1 id). rewrite E1. split_and!; try done.
  - unfold queued. cbn [ps_sem set_ps_sem]. by rewrite HW.
  - intros p Hp. cbn [ps_sem set_ps_sem]. rewrite Hb, bool_decide_false by naive_solver. apply andb_false_r.
Qed.

Lemma close_last_writer_witness :
  exists s', pipe_close 0 1 demo_pipes = Some (0, s') /\ writers (pipe s' 0) = 0.
Proof.
  destruct (close_last_writer 0 demo_pipes demo_pipes_inv ltac:(vm_compute; reflexivity) ltac:(vm_compute; reflexivity))
    as (s' & H1 & _ & H2 & _).
  exists s'. exact (conj H1 H2).
Defined.

(** The semaphores of a pipe count posts, not bytes.  Sending one byte
    through an empty pipe leaves the pipe empty as before, but both counters
    greater by one: they grow with every byte transferred. *)
Theorem pipe_semaphore_drift {St : Type} `{Hlaws : SchedulerLaws St} (id c : Z) (s : PipeSt St) :
  pipe_inv id s -> caller_runs s -> contents (pipe s id) = [] -> 0 < readers (pipe s id) ->
  data_sem id s <> space_sem id s ->
  exists s1 s2, write_byte id c s = Some (Moved c, s1) /\ read_byte id s1 = Some (Moved c, s2) /\
    contents (pipe s2 id) = [] /\
    value (sem (ps_sem s2) (data_sem id s)) = value (sem (ps_sem s) (data_sem id s)) + 1 /\
    value (sem (ps_sem s2) (space_sem id s)) = value (sem (ps_sem s) (space_sem id s)) + 1.
Proof.
  intros Hinv Hrun HC Hr Hne. pose proof (pv_wf _ _ Hinv) as Hw.
  pose proof (contents_length _ Hw) as Hl. rewrite HC in Hl. simpl in Hl. pose proof (pw_capacity _ Hw) as Hcap.
  destruct (write_byte_spec id c s Hinv Hrun) as (e & s1 & E1 & Hinv1 & H1).
  replace (readers (pipe s id) =? 0) with false in H1 by lia.
  replace (pcount (pipe s id) <? capacity (pipe s id)) with true in H1 by lia.
  destruct H1 as (-> & HC1 & _). rewrite HC in HC1.
  destruct (read_byte_spec id s1 Hinv1 (write_byte_runs id c c s s1 Hinv Hrun E1)) as (e & s2 & E2 & Hinv2 & H2).
  rewrite HC1 in H2. destruct H2 as (-> & HC2 & _).
  exists s1, s2. split; [done|]. split; [done|]. split; [done|].
  (* the posts *)
  assert (sem_post (data_sem id s) (ps_sem s) = Some (0, ps_sem s1) /\ data_sem id s1 = data_sem id s /\
    space_sem id s1 = space_sem id s) as (P1 & Ed & Es).
  { unfold write_byte in E1. fold (space_sem id s) in E1.
    destruct (wait_while_spec id (write_cond id) (space_sem id s) s Hinv Hrun (pv_space _ _ Hinv) ltac:(done))
      as [[_ Ew]|(_ & e & m & Ew & _ & [(-> & _)|(-> & _)])]; rewrite Ew in E1; cbn [mbind option_bind] in E1; try done.
    case_if; [done|]. change (geti (pipe_sem_data _) id) with (data_sem id s) in E1.
    change (ps_sem (upd_pipe id (put_byte c) s)) with (ps_sem s) in E1.
    destruct (sem_post_spec _ _ (pv_sem _ _ Hinv) (pv_data _ _ Hinv)) as (m & Em & _). rewrite Em in E1.
    injection E1 as <-. done. }
  assert (sem_post (space_sem id s) (ps_sem s1) = Some (0, ps_sem s2)) as P2.
  { unfold read_byte in E2. fold (data_sem id s1) in E2.
    destruct (wait_while_spec id (read_cond id) (data_sem id s1) s1 Hinv1 (write_byte_runs id c c s s1 Hinv Hrun E1) (pv_data _ _ Hinv1) ltac:(done))
      as [[_ Ew]|(_ & e & m & Ew & _ & [(-> & _)|(-> & _)])]; rewrite Ew in E2; cbn [mbind option_bind] in E2; try done.
    case_if; [done|]. change (geti (pipe_sem_space _) id) with (space_sem id s1) in E2.
    change (ps_sem (upd_pipe id (fun p => (take_byte p).2) s1)) with (ps_sem s1) in E2.
    destruct (sem_post_spec _ _ (pv_sem _ _ Hinv1) (pv_space _ _ Hinv1)) as (m & Em & _). rewrite Em in E2.
    injection E2 as _ <-. by rewrite Es in Em. }
  destruct (sem_post_spec _ _ (pv_sem _ _ Hinv) (pv_data _ _ Hinv)) as (m & Em & Hon1 & _ & _ & Hv1 & _).
  rewrite P1 in Em. injection Em as <-.
  assert (is_valid (space_sem id s) (ps_sem s1) = true) as Hvs by (rewrite <- Es; apply Hinv1).
  destruct (sem_post_spec _ _ (pv_sem _ _ Hinv1) Hvs) as (m & Em & Hon2 & _ & _ & Hv2 & _).
  rewrite P2 in Em. injection Em as <-. split.
  - by rewrite Hon2 by congruence.
  - rewrite Hv2. by rewrite Hon1 by congruence.
Qed.

Lemma pipe_semaphore_drift_witness :
  exists s1 s2, write_byte 0 9 demo_pipes = Some (Moved 9, s1) /\ read_byte 0 s1 = Some (Moved 9, s2).
Proof.
  destruct (pipe_semaphore_drift 0 9 demo_pipes demo_pipes_inv demo_pipes_runs demo_pipes_empty
    ltac:(vm_compute; reflexivity) ltac:(vm_compute; discriminate)) as (s1 & s2 & H1 & H2 & _).
  exists s1, s2. exact (conj H1 H2).
Defined.
