(* ===== verification/Keyboard.v ===== *)
(** * Keyboard driver

    [Kernel/drivers/keyBoardDriver.c]: modifier flags, the table of key
    states, the translation of scan codes and the ring buffer of characters.
    The handler is split at its call of the scheduler: [keyboard_event] is
    everything the driver does with a scan code by itself, and its result says
    whether the handler goes on to request a snapshot or to kill the
    foreground process. *)

From S2P Require Import Prelude Ring.
Local Open Scope Z_scope.

(** ** Constants of [keyboardDriver.h] *)

Definition ESC : Z := 0x1B.
Definition SHIFT_L : Z := 0x2A.
Definition SHIFT_R : Z := 0x36.
Definition CTRL_L : Z := 0x1D.
Definition CTRL_L_RELEASE : Z := 0x9D.
Definition CAPSLOCK : Z := 0x3A.
Definition RELEASE_OFFSET : Z := 0x80.
Definition KEY_COUNT : Z := 0x54.
Definition BUFFER_SIZE : Z := 256.
Definition SC_DELETE : Z := 0x53.
Definition SC_UP : Z := 0x48.
Definition SC_DOWN : Z := 0x50.
Definition SC_LEFT : Z := 0x4B.
Definition SC_RIGHT : Z := 0x4D.
Definition EOF_CHAR : Z := 0x04.

(** ** Data *)

Record Kbd := mkKbd {
  kbuffer : list Z;
  readIndex : Z;
  writeIndex : Z;
  ksize : Z;
  activeShift : Z;
  activeCapsLock : Z;
  activeCtrl : Z;
  key_states : list Z
}.

Definition set_kbuffer v k := mkKbd v (readIndex k) (writeIndex k) (ksize k) (activeShift k) (activeCapsLock k) (activeCtrl k) (key_states k).
Definition set_readIndex v k := mkKbd (kbuffer k) v (writeIndex k) (ksize k) (activeShift k) (activeCapsLock k) (activeCtrl k) (key_states k).
Definition set_writeIndex v k := mkKbd (kbuffer k) (readIndex k) v (ksize k) (activeShift k) (activeCapsLock k) (activeCtrl k) (key_states k).
Definition set_ksize v k := mkKbd (kbuffer k) (readIndex k) (writeIndex k) v (activeShift k) (activeCapsLock k) (activeCtrl k) (key_states k).
Definition set_activeShift v k := mkKbd (kbuffer k) (readIndex k) (writeIndex k) (ksize k) v (activeCapsLock k) (activeCtrl k) (key_states k).
Definition set_activeCapsLock v k := mkKbd (kbuffer k) (readIndex k) (writeIndex k) (ksize k) (activeShift k) v (activeCtrl k) (key_states k).
Definition set_activeCtrl v k := mkKbd (kbuffer k) (readIndex k) (writeIndex k) (ksize k) (activeShift k) (activeCapsLock k) v (key_states k).
Definition set_key_states v k := mkKbd (kbuffer k) (readIndex k) (writeIndex k) (ksize k) (activeShift k) (activeCapsLock k) (activeCtrl k) v.

Definition kbd_boot : Kbd := mkKbd (replicate 256 0) 0 0 0 0 0 0 (replicate 256 0).

(** [scancode_table]: the character without and with shift; the rows that the
    initialiser does not give are 0. *)
Definition scancode_rows : list (Z * Z) :=
  [(0, 0); (27, 27); (49, 33); (50, 64); (51, 35);
   (52, 36); (53, 37); (54, 94); (55, 38); (56, 42);
   (57, 40); (48, 41); (45, 95); (61, 43); (8, 8);
   (9, 9); (113, 81); (119, 87); (101, 69); (114, 82);
   (116, 84); (121, 89); (117, 85); (105, 73); (111, 79);
   (112, 80); (91, 123); (93, 125); (10, 10); (0, 0);
   (97, 65); (115, 83); (100, 68); (102, 70); (103, 71);
   (104, 72); (106, 74); (107, 75); (108, 76); (59, 58);
   (39, 34); (96, 126); (0, 0); (92, 124); (122, 90);
   (120, 88); (99, 67); (118, 86); (98, 66); (110, 78);
   (109, 77); (44, 60); (46, 62); (47, 63); (0, 0); (0, 0);
   (0, 0); (32, 32)].

Definition scancode_table (scancode shift : Z) : Z :=
  let row := default (0, 0) (scancode_rows !! Z.to_nat scancode) in
  if shift =? 0 then row.1 else row.2.

(** ** The buffer *)

Definition buffer_full (k : Kbd) : bool := ksize k =? BUFFER_SIZE.
Definition buffer_empty (k : Kbd) : bool := ksize k =? 0.

Definition buffer_push (c : Z) (k : Kbd) : Z * Kbd :=
  if buffer_full k then (0, k)
  else
    let k := set_kbuffer (seti (writeIndex k) c (kbuffer k)) k in
    let k := set_writeIndex ((writeIndex k + 1) mod BUFFER_SIZE) k in
    (1, set_ksize (ksize k + 1) k).

Definition buffer_pop (k : Kbd) : Z * Kbd :=
  if buffer_empty k then (0, k)
  else
    let c := (kbuffer k).[readIndex k] in
    let k := set_readIndex ((readIndex k + 1) mod BUFFER_SIZE) k in
    (c, set_ksize (ksize k - 1) k).

Definition keyboard_read_getchar (k : Kbd) : Z * Kbd := buffer_pop k.

Definition keyboard_clear_buffer (k : Kbd) : Kbd :=
  set_ksize 0 (set_writeIndex 0 (set_readIndex 0 k)).

(** ** Scan codes *)

Definition updateFlags (scancode : Z) (k : Kbd) : Kbd :=
  if scancode =? CTRL_L then set_activeCtrl 1 k
  else if scancode =? CTRL_L_RELEASE then set_activeCtrl 0 k
  else if (scancode =? SHIFT_L) || (scancode =? SHIFT_R) then set_activeShift 1 k
  else if (scancode =? SHIFT_L + RELEASE_OFFSET) || (scancode =? SHIFT_R + RELEASE_OFFSET)
  then set_activeShift 0 k
  else if scancode =? CAPSLOCK then set_activeCapsLock (cbool (negb (ctrue (activeCapsLock k)))) k
  else k.

Definition scToAscii (scancode : Z) (k : Kbd) : Z :=
  if (scancode =? 1) || (scancode =? SC_UP) || (scancode =? SC_DOWN) || (scancode =? SC_LEFT) ||
     (scancode =? SC_RIGHT) || (scancode =? ESC) || (scancode =? SC_DELETE) then 0
  else if scancode <? KEY_COUNT then
    let c := scancode_table scancode (activeShift k) in
    if ctrue (activeCapsLock k) && (97 <=? c) && (c <=? 122) then c - 32 else c
  else 0.

Definition is_key_pressed (scancode : Z) (k : Kbd) : Z := (key_states k).[scancode].

(** What the handler does after the driver's own part. *)
Inductive kbd_action := KbdNone | KbdSnapshot | KbdKill.

Definition keyboard_event (scancode : Z) (k : Kbd) : kbd_action * Kbd :=
  let k := updateFlags scancode k in
  let k :=
    if ctrue (Z.land scancode RELEASE_OFFSET)
    then set_key_states (seti (Z.land scancode (Z.lnot RELEASE_OFFSET)) 0 (key_states k)) k
    else set_key_states (seti scancode 1 (key_states k)) k in
  let cAscii := scToAscii scancode k in
  if ctrue (activeCtrl k) && ((cAscii =? 114) || (cAscii =? 82)) then (KbdSnapshot, k)
  else if ctrue (activeCtrl k) && ((cAscii =? 99) || (cAscii =? 67)) then (KbdKill, k)
  else if ctrue (activeCtrl k) && ((cAscii =? 100) || (cAscii =? 68)) then
    (KbdNone, (buffer_push EOF_CHAR k).2)
  else if negb (cAscii =? 0) then (KbdNone, (buffer_push cAscii k).2)
  else (KbdNone, k).

(** ** The buffer is a bounded queue *)

Record kbd_wf (k : Kbd) : Prop := {
  kw_length : length (kbuffer k) = 256%nat;
  kw_states : length (key_states k) = 256%nat;
  kw_read : 0 <= readIndex k < BUFFER_SIZE;
  kw_size : 0 <= ksize k <= BUFFER_SIZE;
  kw_write : writeIndex k = (readIndex k + ksize k) mod BUFFER_SIZE
}.

Definition typed (k : Kbd) : list Z := ring (kbuffer k) (readIndex k) (ksize k) BUFFER_SIZE.

Lemma kbd_boot_wf : kbd_wf kbd_boot.
Proof. split; try done; unfold BUFFER_SIZE; simpl; lia. Qed.

Lemma typed_length k : kbd_wf k -> Z.of_nat (length (typed k)) = ksize k.
Proof. intros Hw. apply ring_length, (kw_size _ Hw). Qed.

Lemma buffer_push_spec c k :
  kbd_wf k ->
  let '(r, k') := buffer_push c k in
  kbd_wf k' /\
  if Z.of_nat (length (typed k)) <? BUFFER_SIZE then r = 1 /\ typed k' = typed k ++ [c] else r = 0 /\ k' = k.
Proof.
  intros Hw. rewrite typed_length by done. destruct Hw as [Hl Hst Hr Hs Hwr]. unfold buffer_push, buffer_full.
  unfold BUFFER_SIZE in *. pose proof (Z.mod_pos_bound (readIndex k + ksize k) 256 ltac:(lia)).
  case_if.
  - replace (ksize k <? 256) with false by lia. done.
  - replace (ksize k <? 256) with true by lia. split; [|split; [done|]].
    + split; simpl; unfold BUFFER_SIZE; rewrite ?length_seti; try done; try lia.
      rewrite Hwr, Zplus_mod_idemp_l. f_equal. lia.
    + unfold typed. cbn [kbuffer readIndex ksize set_ksize set_writeIndex set_kbuffer].
      unfold BUFFER_SIZE. rewrite Hwr. apply ring_push; lia.
Qed.

Lemma buffer_pop_spec k :
  kbd_wf k ->
  let '(c, k') := buffer_pop k in
  kbd_wf k' /\ match typed k with [] => c = 0 /\ k' = k | x :: l => c = x /\ typed k' = l end.
Proof.
  intros Hw. pose proof (typed_length k Hw) as Hlen. pose proof Hw as [Hl Hst Hr Hs Hwr].
  unfold buffer_pop, buffer_empty. unfold BUFFER_SIZE in *. case_if.
  - split; [done|]. destruct (typed k); [done|]. simpl in Hlen. lia.
  - pose proof (Z.mod_pos_bound (readIndex k + 1) 256 ltac:(lia)). split.
    + split; simpl; unfold BUFFER_SIZE; try done; try lia. rewrite Hwr, Zplus_mod_idemp_l. f_equal. lia.
    + unfold typed at 1. unfold BUFFER_SIZE. rewrite ring_pop by lia. done.
Qed.

(** ** Histories of the buffer *)

(** Characters accepted and characters read. *)
Inductive kbd_run : list Z -> list Z -> Kbd -> Prop :=
| kr_boot : kbd_run [] [] kbd_boot
| kr_event w r k sc a k' :
    kbd_run w r k -> 0 <= sc < 256 -> keyboard_event sc k = (a, k') ->
    kbd_run (w ++ drop (length (typed k)) (typed k')) r k'
| kr_read w r k c k' :
    kbd_run w r k -> keyboard_read_getchar k = (c, k') -> typed k <> [] -> kbd_run w (r ++ [c]) k'
| kr_clear w r k : kbd_run w r k -> kbd_run w w (keyboard_clear_buffer k).

Lemma kbd_wf_states v k : length v = 256%nat -> kbd_wf k -> kbd_wf (set_key_states v k).
Proof. intros Hv []. by split. Qed.

Lemma updateFlags_keep sc k :
  kbuffer (updateFlags sc k) = kbuffer k /\ readIndex (updateFlags sc k) = readIndex k /\
  writeIndex (updateFlags sc k) = writeIndex k /\ ksize (updateFlags sc k) = ksize k /\
  key_states (updateFlags sc k) = key_states k.
Proof. unfold updateFlags. repeat case_if; done. Qed.

(** The handler keeps the buffer or appends one character. *)
Lemma keyboard_event_typed sc k :
  kbd_wf k ->
  let '(_, k') := keyboard_event sc k in
  kbd_wf k' /\ (typed k' = typed k \/ exists c, c <> 0 /\ typed k' = typed k ++ [c]).
Proof.
  intros Hw. destruct (updateFlags_keep sc k) as (E1 & E2 & E3 & E4 & E5).
  assert (kbd_wf (updateFlags sc k) /\ typed (updateFlags sc k) = typed k) as [Hw1 Ht1].
  { unfold typed. rewrite E1, E2, E4. split; [|done]. destruct Hw. split; rewrite ?E1, ?E2, ?E3, ?E4, ?E5; done. }
  unfold keyboard_event. set (k2 := if ctrue (Z.land sc RELEASE_OFFSET) then _ else _).
  assert (kbd_wf k2 /\ typed k2 = typed k) as [Hw2 Ht2].
  { unfold k2. case_if; (split; [apply kbd_wf_states; [rewrite length_seti, E5; apply Hw|done]|done]). }
  assert (forall c, c <> 0 -> kbd_wf (buffer_push c k2).2 /\
    (typed (buffer_push c k2).2 = typed k \/ exists x, x <> 0 /\ typed (buffer_push c k2).2 = typed k ++ [x])) as Hpush.
  { intros c Hc. pose proof (buffer_push_spec c k2 Hw2) as Hp. destruct (buffer_push c k2) as [r k3].
    destruct Hp as [Hw3 Hp]. split; [done|]. rewrite Ht2 in Hp.
    case_if; [right; exists c; by destruct Hp|]. left. destruct Hp as [_ ->]. done. }
  clearbody k2. repeat case_if; try (split; [done|by left]).
  - by apply Hpush.
  - apply Hpush. lia.
Qed.

Lemma kbd_run_typed w r k : kbd_run w r k -> kbd_wf k /\ w = r ++ typed k.
Proof.
  induction 1 as [|w r k sc a k' _ [Hw ->] Hsc E|w r k c k' _ [Hw ->] E Hne|w r k _ [Hw ->]].
  - split; [exact kbd_boot_wf|done].
  - pose proof (keyboard_event_typed sc k Hw) as Hk. rewrite E in Hk. destruct Hk as [Hw' Hk].
    split; [done|]. rewrite <- app_assoc. f_equal. destruct Hk as [->|(c & _ & ->)].
    + rewrite drop_all. apply app_nil_r.
    + by rewrite drop_app_length.
  - unfold keyboard_read_getchar in E. pose proof (buffer_pop_spec k Hw) as Hp. rewrite E in Hp.
    destruct Hp as [Hw' Hp]. split; [done|]. destruct (typed k) as [|x l]; [done|]. destruct Hp as [-> ->].
    by rewrite <- app_assoc.
  - split.
    + destruct Hw as [? ? ? ? ?]. split; try done; unfold BUFFER_SIZE; simpl; lia.
    + unfold typed at 2. by rewrite app_nil_r.
Qed.

(** ** Properties *)

(** A fact about every scan code is checked by computation. *)
Lemma scancode_ind (P : Z -> bool) :
  forallb P (seqZ 0 256) = true -> forall sc, 0 <= sc < 256 -> P sc = true.
Proof. intros H sc Hsc. rewrite forallb_forall in H. apply H, list_elem_of_In, elem_of_seqZ. lia. Qed.

(** The release bit and the key it leaves. *)
Lemma release_bits sc :
  0 <= sc < 256 ->
  ctrue (Z.land sc RELEASE_OFFSET) = (RELEASE_OFFSET <=? sc) /\
  (RELEASE_OFFSET <= sc -> Z.land sc (Z.lnot RELEASE_OFFSET) = sc - RELEASE_OFFSET).
Proof.
  intros Hsc.
  pose proof (scancode_ind (fun sc => Bool.eqb (ctrue (Z.land sc RELEASE_OFFSET)) (RELEASE_OFFSET <=? sc) &&
    ((sc <? RELEASE_OFFSET) || (Z.land sc (Z.lnot RELEASE_OFFSET) =? sc - RELEASE_OFFSET)))
    ltac:(vm_compute; reflexivity) sc Hsc) as H.
  apply andb_true_iff in H as [H1 H2]. apply Bool.eqb_prop in H1. split; [done|].
  intros Hge. apply orb_true_iff in H2 as [H2|H2]; [apply Z.ltb_lt in H2|by apply Z.eqb_eq in H2]. lia.
Qed.

(** The codes [scToAscii] maps to no character. *)
Definition mute_code (sc : Z) : bool :=
  (sc =? 1) || (sc =? SC_UP) || (sc =? SC_DOWN) || (sc =? SC_LEFT) || (sc =? SC_RIGHT) || (sc =? ESC) || (sc =? SC_DELETE).

(** The two characters of a letter key. *)
Lemma letter_row sc :
  0 <= sc < 256 -> 97 <= scancode_table sc 0 <= 122 ->
  scancode_table sc 1 = scancode_table sc 0 - 32 /\ mute_code sc = false.
Proof.
  intros Hsc Hlow.
  pose proof (scancode_ind (fun sc => negb ((97 <=? scancode_table sc 0) && (scancode_table sc 0 <=? 122)) ||
    ((scancode_table sc 1 =? scancode_table sc 0 - 32) && negb (mute_code sc)))
    ltac:(vm_compute; reflexivity) sc Hsc) as H.
  apply orb_true_iff in H as [H|H].
  - apply negb_true_iff, andb_false_iff in H. destruct H as [H|H]; apply Z.leb_gt in H; lia.
  - apply andb_true_iff in H as [H1 H2]. apply Z.eqb_eq in H1. by apply negb_true_iff in H2.
Qed.



(** Presses and releases.  A release code marks its key as up, types
    nothing and requests nothing; a press code marks its key as down.  The
    other keys keep their state. *)
Theorem key_states_spec (sc : Z) (k : Kbd) :
  kbd_wf k -> 0 <= sc < 256 ->
  let '(a, k') := keyboard_event sc k in
  (RELEASE_OFFSET <= sc -> a = KbdNone /\ typed k' = typed k /\ is_key_pressed (sc - RELEASE_OFFSET) k' = 0) /\
  (sc < RELEASE_OFFSET -> is_key_pressed sc k' = 1) /\
  (forall i, 0 <= i -> i <> sc -> i <> sc - RELEASE_OFFSET -> is_key_pressed i k' = is_key_pressed i k).
Proof.
  intros Hw Hsc. destruct (updateFlags_keep sc k) as (E1 & E2 & E3 & E4 & E5). unfold keyboard_event.
  set (k2 := if ctrue (Z.land sc RELEASE_OFFSET) then _ else _).
  destruct (release_bits sc Hsc) as [Hrel Hidx].
  assert (typed k2 = typed k) as Ht2.
  { unfold k2, typed. case_if; cbn [kbuffer readIndex ksize set_key_states]; congruence. }
  assert (forall c, key_states (buffer_push c k2).2 = key_states k2) as Hpush.
  { intros c. unfold buffer_push. by case_if. }
  unfold RELEASE_OFFSET in *. destruct (128 <=? sc) eqn:Hge.
  - assert (scToAscii sc k2 = 0) as Ha.
    { unfold scToAscii, KEY_COUNT. case_if; [done|]. case_if; [lia|done]. }
    rewrite Ha. simpl. rewrite !andb_false_r. split_and!.
    + intros _. split_and!; try done. unfold is_key_pressed, k2. rewrite Hrel. simpl. rewrite Hidx by lia.
      apply geti_seti_eq. rewrite E5, (kw_states _ Hw). lia.
    + lia.
    + intros i Hi Hne Hne'. unfold is_key_pressed, k2. rewrite Hrel. simpl. rewrite Hidx by lia.
      rewrite geti_seti_ne by lia. by rewrite E5.
  - assert (key_states k2 = seti sc 1 (key_states k)) as Hk2 by (unfold k2; rewrite Hrel; simpl; by rewrite E5).
    assert (forall a k', key_states k' = key_states k2 ->
      let '(a, k') := (a, k') in
      (128 <= sc -> a = KbdNone /\ typed k' = typed k /\ is_key_pressed (sc - 128) k' = 0) /\
      (sc < 128 -> is_key_pressed sc k' = 1) /\
      (forall i, 0 <= i -> i <> sc -> i <> sc - 128 -> is_key_pressed i k' = is_key_pressed i k)) as Hgen.
    { intros a k' Ek. unfold is_key_pressed. rewrite Ek, Hk2. split_and!; [lia|..].
      - intros _. apply geti_seti_eq. rewrite (kw_states _ Hw). lia.
      - intros i Hi Hne _. by rewrite geti_seti_ne by lia. }
    clearbody k2. repeat case_if; by apply Hgen.
Qed.

Lemma key_states_spec_witness :
  is_key_pressed 30 (keyboard_event 30 kbd_boot).2 = 1.
Proof.
  pose proof (key_states_spec 30 kbd_boot kbd_boot_wf ltac:(lia)) as H.
  destruct (keyboard_event 30 kbd_boot) as [a k']. apply H. unfold RELEASE_OFFSET. lia.
Defined.

(** The key of the closing bracket types nothing.  Its scan code is
    [0x1B], which the driver takes for the escape key because [ESC] is the
    ASCII code of that character; the table has the two characters of the key
    at this code, but they are never produced. *)
Theorem bracket_key_dead (k : Kbd) :
  scToAscii ESC k = 0 /\ scancode_table ESC 0 = 93 /\ scancode_table ESC 1 = 125.
Proof. done. Qed.

(** Letters.  For every key whose unshifted character is a letter, the
    character typed is the lower-case letter exactly when neither shift nor
    caps lock is active, and the upper-case letter otherwise. *)
Theorem letters_spec (sc : Z) (k : Kbd) :
  0 <= sc < KEY_COUNT -> 97 <= scancode_table sc 0 <= 122 -> activeShift k = 0 \/ activeShift k = 1 ->
  scToAscii sc k =
  if (activeShift k =? 0) && (activeCapsLock k =? 0) then scancode_table sc 0 else scancode_table sc 0 - 32.
Proof.
  intros Hsc Hlow Hsh.
  destruct (letter_row sc ltac:(unfold KEY_COUNT in *; lia) Hlow) as [H1 H2].
  unfold mute_code in H2. unfold scToAscii. rewrite H2. replace (sc <? KEY_COUNT) with true by lia.
  unfold ctrue. destruct Hsh as [-> | ->].
  - change (0 =? 0) with true. cbn [andb]. destruct (activeCapsLock k =? 0); simpl; [done|].
    replace (97 <=? scancode_table sc 0) with true by lia. replace (scancode_table sc 0 <=? 122) with true by lia. done.
  - change (1 =? 0) with false. cbn [andb].
    replace (97 <=? scancode_table sc 1) with false by lia. rewrite andb_false_r. simpl. lia.
Qed.

Lemma letters_spec_witness : scToAscii 30 (set_activeShift 1 kbd_boot) = 65.
Proof. apply (letters_spec 30 (set_activeShift 1 kbd_boot)); [unfold KEY_COUNT; lia|vm_compute; split; discriminate|right; reflexivity]. Defined.
