(* ===== verification/Wakes.v ===== *)
(** * What posting and closing do to the processes

    The operations of [Kernel/semaphore.c] and [Kernel/pipe.c] that the end of
    a process runs ([sem_post], [sem_post_all], [sem_close], [pipe_close]) only
    wake processes that wait on a semaphore.  [wakes s s'] states it; the
    second half reads it on the process table. *)

From S2P Require Import Prelude Process ReadyQueue Sched SchedIface Semaphore Pipe.
Local Open Scope Z_scope.

Section Generic.
Context {St : Type} `{Hlaws : SchedulerLaws St}.
Implicit Types s : SemSt St.

(** The process [p] is in the queue of some semaphore. *)
Definition waits s (p : Z) : Prop := exists i, 0 <= i < MAX_SEMAPHORES /\ p ∈ queued s i.

(** One process of a set is unblocked. *)
Definition unblocks (P : Z -> Prop) (a b : St) : Prop := exists p, P p /\ b = sch_unblock p a.

Record wakes s s' : Prop := {
  wk_inv : sem_inv s';
  wk_queued p : waits s' p -> waits s p;
  wk_sched : rtc (unblocks (waits s)) (sem_sched s) (sem_sched s')
}.

Lemma wakes_refl s : sem_inv s -> wakes s s.
Proof. intros. by split. Qed.

Lemma wakes_trans s1 s2 s3 : wakes s1 s2 -> wakes s2 s3 -> wakes s1 s3.
Proof.
  intros [Hi1 Hq1 Hc1] [Hi2 Hq2 Hc2]. split; [done|auto|].
  etrans; [done|]. eapply rtc_subrel; [|exact Hc2]. intros a b (p & Hp & ->). exists p. auto.
Qed.

Lemma waits_only id s s' p :
  0 <= id < MAX_SEMAPHORES -> only_sem id s s' -> (p ∈ queued s' id -> p ∈ queued s id) ->
  waits s' p -> waits s p.
Proof.
  intros Hid Hon Hq (i & Hi & Hp). exists i. split; [done|]. destruct (decide (i = id)) as [->|Hne]; [auto|].
  unfold queued in *. by rewrite Hon in Hp.
Qed.

Lemma woken_wakes id s s' :
  sem_inv s -> sem_inv s' -> 0 <= id < MAX_SEMAPHORES -> only_sem id s s' -> woken id s s' -> wakes s s'.
Proof.
  intros Hinv Hinv' Hid Hon (n & x & _ & Hx & HW & Hsch). split; [done|..].
  - intros p. apply (waits_only id); try done. unfold queued. rewrite HW, fmap_delete, aged_fst. apply delete_elem.
  - rewrite Hsch. apply rtc_once. exists x.1. split; [|done]. exists id. split; [done|].
    apply list_elem_of_fmap_2. by eapply list_elem_of_lookup_2.
Qed.

Lemma sem_post_wakes id s : sem_inv s -> exists r s', sem_post id s = Some (r, s') /\ wakes s s'.
Proof.
  intros Hinv. destruct (is_valid id s) eqn:Hv.
  - destruct (sem_post_spec id s Hinv Hv) as (s' & -> & Hon & Hinv' & _ & _ & Hc). exists 0, s'.
    split; [done|]. apply is_valid_spec in Hv as [Hid _]. destruct Hc as [(_ & HW & HW' & Hsch)|[_ Hw]].
    + split; [done|..|by rewrite Hsch]. intros p. apply (waits_only id); try done. unfold queued. by rewrite HW, HW'.
    + by eapply woken_wakes.
  - unfold sem_post. rewrite Hv. eexists _, s. split; [done|]. by apply wakes_refl.
Qed.

Lemma post_all_loop_wakes id : forall fuel s,
  sem_inv s -> 0 <= id < MAX_SEMAPHORES -> active (sem s id) = 1 ->
  (Z.to_nat (wait_count (sem s id)) < fuel)%nat ->
  exists s', post_all_loop fuel id s = Some s' /\ wakes s s' /\ 0 <= value (sem s' id).
Proof.
  induction fuel as [|fuel IH]; intros s Hinv Hid Hact Hfuel; [lia|].
  destruct (sv_active _ Hinv id Hid) as [[? _]|[_ Hcnt]]; [congruence|].
  cbn [post_all_loop]. destruct (wait_count (sem s id) >? 0) eqn:Hwc.
  2:{ exists s. split_and!; [done|by apply wakes_refl|lia]. }
  destruct (post_step_spec id s Hinv Hid Hact ltac:(lia)) as (s1 & -> & Hon & Hwf' & Ha & Hv & Hw).
  cbn [mbind option_bind].
  assert (sem_inv s1) as Hinv1 by (by eapply woken_inv; try done; lia).
  destruct (sv_active _ Hinv1 id Hid) as [[? _]|[_ Hcnt1]]; [congruence|].
  destruct (IH s1 Hinv1 Hid) as (s' & Hrun & Hw' & Hv'); [congruence|lia|].
  exists s'. split_and!; try done. eapply wakes_trans; [|done]. by eapply woken_wakes.
Qed.

Lemma sem_post_all_wakes id s : sem_inv s -> exists r s', sem_post_all id s = Some (r, s') /\ wakes s s'.
Proof.
  intros Hinv. unfold sem_post_all. destruct (is_valid id s) eqn:Hv; cbn [negb].
  - apply is_valid_spec in Hv as [Hid Ha].
    destruct (post_all_loop_wakes id (S (Z.to_nat (wait_count (sem s id)))) s Hinv Hid Ha ltac:(lia))
      as (s' & -> & Hw & Hv). cbn [mbind option_bind]. case_if; [lia|]. by exists 0, s'.
  - eexists _, s. split; [done|]. by apply wakes_refl.
Qed.

Lemma sem_close_wakes id s : sem_inv s -> wakes s (sem_close id s).2.
Proof.
  intros Hinv. destruct (is_valid id s) eqn:Hv.
  - pose proof (sem_close_spec id s Hinv Hv) as Hc. destruct (sem_close id s) as [r s'].
    destruct Hc as (_ & Hon & Hinv' & Hsch & _ & Hc). apply is_valid_spec in Hv as [Hid _]. simpl.
    split; [done|..|by rewrite Hsch]. intros p. apply (waits_only id); try done. unfold queued.
    case_if; destruct Hc as (_ & HW); [rewrite HW; set_solver|]. by destruct HW as [-> _].
  - unfold sem_close. rewrite Hv. by apply wakes_refl.
Qed.

Lemma with_sem_wakes f (s : PipeSt St) :
  (forall m, sem_inv m -> exists r m', f m = Some (r, m') /\ wakes m m') -> sem_inv (ps_sem s) ->
  exists t, with_sem f s = Some t /\ wakes (ps_sem s) (ps_sem t).
Proof. intros Hf Hinv. destruct (Hf _ Hinv) as (r & m' & E & Hm). unfold with_sem. rewrite E. by eexists. Qed.

Lemma pipe_close_wakes id w (s : PipeSt St) :
  sem_inv (ps_sem s) -> exists r t, pipe_close id w s = Some (r, t) /\ wakes (ps_sem s) (ps_sem t).
Proof.
  intros Hinv. unfold pipe_close. case_if; [exists (-1), s; split; [done|by apply wakes_refl]|].
  set (o := if ctrue w then _ else _).
  assert (exists t, o = Some t /\ wakes (ps_sem s) (ps_sem t)) as (t & -> & Hw).
  { unfold o. clear o.
    case_if; repeat case_if; first
      [ refine (with_sem_wakes (sem_post _) _ (fun m => sem_post_wakes _ m) _); exact Hinv
      | refine (with_sem_wakes (sem_post_all _) _ (fun m => sem_post_all_wakes _ m) _); exact Hinv
      | eexists; split; [reflexivity|exact (wakes_refl _ Hinv)] ]. }
  cbn [mbind option_bind]. case_if; [|by exists 0, t].
  eexists 0, _. split; [done|]. cbn [ps_sem set_ps_sem].
  eapply wakes_trans; [done|]. eapply wakes_trans; apply sem_close_wakes.
  - apply Hw.
  - by apply sem_close_wakes, Hw.
Qed.

End Generic.

(** ** On the process table *)

(** The fields that no change of scheduling state touches. *)
Definition ident (p : PCB) : Z * Z * list Z * Z * Z * Z * Z * Z * Z :=
  (pid p, parent_pid p, name p, priority p, rsp p, stack_base p, foreground p, waiting_for p, exit_status p).

Lemma ident_eq p q : ident p = ident q ->
  pid p = pid q /\ parent_pid p = parent_pid q /\ name p = name q /\ priority p = priority q /\ rsp p = rsp q /\
  stack_base p = stack_base q /\ foreground p = foreground q /\ waiting_for p = waiting_for q /\
  exit_status p = exit_status q.
Proof. unfold ident. intros [=]. done. Qed.

(** From [s] to [s'] blocked processes with pids in [P] may have become ready,
    and the descriptors of the entries in [D] may have changed; the state and
    the queue flag of [i] are the same. *)
Record kept (P D : Z -> Prop) (i : Z) (s s' : Sched) : Prop := {
  kp_count : process_count s' = process_count s;
  kp_next : next_pid s' = next_pid s;
  kp_current : current_idx s' = current_idx s;
  kp_ident j : 0 <= j < MAX_PROCESSES -> ident (proc s' j) = ident (proc s j);
  kp_fds j : 0 <= j < MAX_PROCESSES -> ~ D j -> fds (proc s' j) = fds (proc s j);
  kp_state j : 0 <= j < MAX_PROCESSES ->
    state (proc s' j) = state (proc s j) \/
    (j <> i /\ state (proc s j) = PROCESS_BLOCKED /\ state (proc s' j) = PROCESS_READY /\ P (pid (proc s j)));
  kp_flag : ctrue (in_ready_queue (proc s' i)) = ctrue (in_ready_queue (proc s i))
}.

Lemma kept_refl P D i s : kept P D i s s.
Proof. split; try done. by left. Qed.

Lemma kept_trans P D i s1 s2 s3 : kept P D i s1 s2 -> kept P D i s2 s3 -> kept P D i s1 s3.
Proof.
  intros [C1 N1 U1 I1 F1 S1 G1] [C2 N2 U2 I2 F2 S2 G2]. split; try congruence.
  - intros j Hj. rewrite I2, I1 by done. done.
  - intros j Hj Hne. rewrite F2, F1 by done. done.
  - intros j Hj. destruct (ident_eq _ _ (I1 j Hj)) as [E _].
    destruct (S1 j Hj) as [E1|(Hne & E1 & E1' & HP)], (S2 j Hj) as [E2|(Hne' & E2 & E2' & HP')].
    + left. congruence.
    + right. split_and!; try done; congruence.
    + right. split_and!; try done; congruence.
    + congruence.
Qed.

Lemma kept_mono (P P' D D' : Z -> Prop) i s s' :
  (forall p, P p -> P' p) -> (forall j, D j -> D' j) -> kept P D i s s' -> kept P' D' i s s'.
Proof.
  intros HP HD []. split; try done.
  - intros j Hj Hn. apply kp_fds0; auto.
  - intros j Hj. destruct (kp_state0 j Hj); [by left|right]. naive_solver.
Qed.

Lemma kept_live P D i s s' j : kept P D i s s' -> 0 <= j < MAX_PROCESSES -> live s' j <-> live s j.
Proof. intros Hk Hj. unfold live. destruct (kp_state _ _ _ _ _ Hk j Hj) as [->|(_ & -> & -> & _)]; done. Qed.

Lemma kept_state_i P D i s s' : kept P D i s s' -> 0 <= i < MAX_PROCESSES -> state (proc s' i) = state (proc s i).
Proof. intros Hk Hi. by destruct (kp_state _ _ _ _ _ Hk i Hi) as [->|(? & _)]. Qed.

Section Table.
Context {X : Z -> Prop}.
Local Notation sched_inv := (sched_inv_ex X).

Lemma blocked_iff s p :
  sched_inv s ->
  blocked p s = true <-> exists j, 0 <= j < MAX_PROCESSES /\ pid (proc s j) = p /\ state (proc s j) = PROCESS_BLOCKED.
Proof.
  intros Hinv. unfold blocked. simpl. unfold find_process. rewrite get_process_by_pid_eq. unfold find_index_by_pid.
  destruct (find_pid_cases s p) as [[-> Hno]|(i & -> & Hi & Hp & Hl)]; simpl.
  - split; [done|]. intros (j & Hj & Hpj & Hst). exfalso. apply (Hno j Hj). split; [done|]. unfold live. congruence.
  - replace (i <? 0) with false by lia. rewrite is_state_spec. split.
    + intros. by exists i.
    + intros (j & Hj & Hpj & Hst). replace i with j; [done|].
      apply (si_unique _ Hinv); try done; [unfold live; congruence|congruence].
Qed.

Lemma unblock_kept (P : Z -> Prop) i p s :
  sched_inv s -> P p -> pid (proc s i) <> p -> kept P none i s (scheduler_unblock p s).
Proof.
  intros Hinv HP Hne. destruct (unblock_cases s p Hinv) as [[-> _]|(j & -> & Hj & Hp & Hst)]; [apply kept_refl|].
  destruct (decide (slot j)) as [Hsl|Hno]; [|rewrite make_ready_skip by tauto; apply kept_refl].
  destruct (si_rep _ Hinv) as [Q Hrep].
  destruct (make_ready_spec s Q Hrep j true Hsl) as (_ & Hu & Hf); [congruence..|].
  assert (i <> j) as Hij by congruence.
  split; try apply Hu.
  - intros l Hl. rewrite (one_upd_field ident _ _ _ _ _ (fun _ => eq_refl) Hu) by done. by case_if.
  - intros l Hl _. rewrite (one_upd_field fds _ _ _ _ _ (fun _ => eq_refl) Hu) by done. by case_if.
  - intros l Hl. rewrite (one_upd_field state _ _ _ _ _ (fun _ => eq_refl) Hu) by done.
    destruct (Z.eqb_spec l j) as [->|]; [right|by left]. split_and!; try done. by rewrite Hp.
  - destruct (decide (0 <= i)) as [Hi|Hi].
    + rewrite Hf by done. lia.
    + unfold proc, geti. by case_if; [lia|].
Qed.

Lemma unblocks_kept (P : Z -> Prop) i s s' :
  rtc (unblocks P) s s' -> sched_inv s -> 0 <= i < MAX_PROCESSES -> ~ P (pid (proc s i)) ->
  kept P none i s s' /\ sched_inv s'.
Proof.
  induction 1 as [s|s s1 s2 (p & HP & ->) _ IH]; intros Hinv Hi Hn; [split; [apply kept_refl|done]|].
  simpl in IH. assert (pid (proc s i) <> p) as Hne by (intros <-; done).
  pose proof (unblock_kept P i p s Hinv HP Hne) as Hk.
  destruct IH as [Hk' Hinv']; [by apply scheduler_unblock_inv|done|..].
  - destruct (ident_eq _ _ (kp_ident _ _ _ _ _ Hk i Hi)) as [-> _]. done.
  - split; [by eapply kept_trans|done].
Qed.

End Table.

(** The semaphore invariant over a table with exceptions. *)
Notation sem_inv_ex X := (@sem_inv Sched Sched_scheduler (sched_inv_ex X)).
Notation wakes_ex X := (@wakes Sched Sched_scheduler (sched_inv_ex X)).

Lemma wakes_kept X (m m' : SemSt Sched) i :
  wakes_ex X m m' -> sched_inv_ex X (sem_sched m) -> 0 <= i < MAX_PROCESSES ->
  ~ waits m (pid (proc (sem_sched m) i)) ->
  kept (waits m) none i (sem_sched m) (sem_sched m').
Proof. intros [_ _ Hc] Hinv Hi Hn. by apply (unblocks_kept _ i _ _ Hc Hinv). Qed.

(** The queues do not depend on the table, except that queued processes are
    blocked. *)
Lemma sem_inv_sched X Y (m : SemSt Sched) s :
  sem_inv_ex X m -> sched_inv_ex Y s -> (forall p, waits m p -> blocked p s = true) ->
  sem_inv_ex Y (set_sem_sched s m).
Proof.
  intros [Hwf Hsch Ha Hok Hnd Hu Hb] Hs Hbl. split; try done.
  - destruct Hwf. by split.
  - intros i p Hi Hp. apply Hbl. by exists i.
Qed.
