(* ===== verification/Kernel.v ===== *)
(** * The life of a process

    The part of [Kernel/scheduler.c] that works on the whole kernel state:
    creating, killing, waiting for and ending processes, and the keyboard
    handler of [Kernel/drivers/keyBoardDriver.c], which can kill the foreground
    process.  The state joins the pipes (which hold the semaphores, which hold
    the process table), the keyboard, the memory manager, the words of the
    process stacks, the snapshot flag and the tick counter.  The file also has
    the part of [Kernel/asm/interrupts.asm] that loads a context from a stack. *)

From S2P Require Import Prelude Process ReadyQueue Sched Lifecycle SchedIface Lib Semaphore Memory Pipe Keyboard.
Local Open Scope Z_scope.

(** ** The state *)

(** Addresses that the linker assigns. *)
Class Linkage := {
  idle_stack : Z;
  idle_process : Z;
  process_exit_trampoline : Z
}.

(** 64-bit words by address. *)
Notation words := (gmap Z Z).

Record Kernel (M : Type) := mkKernel {
  k_pipes : PipeSt Sched;
  k_kbd : Kbd;
  k_mm : M;
  k_words : words;
  do_snapshot : Z;
  k_ticks : Z
}.
Arguments mkKernel {M}.
Arguments k_pipes {M}.
Arguments k_kbd {M}.
Arguments k_mm {M}.
Arguments k_words {M}.
Arguments do_snapshot {M}.
Arguments k_ticks {M}.

(** ** Names and initial stacks *)

(** The byte [i] of a string. *)
Definition char_at (s : list Z) (i : Z) : Z := default 0 (s !! Z.to_nat i).

(** [while (i < 31 && src[i] != '\0') dst[i] = src[i]; dst[i] = '\0';] with
    [fuel] iterations left before [i] is 31. *)
Fixpoint copy_name_loop (fuel : nat) (i : Z) (dst src : list Z) : list Z :=
  match fuel with
  | O => seti i 0 dst
  | S fuel =>
      if char_at src i =? 0 then seti i 0 dst
      else copy_name_loop fuel (i + 1) (seti i (char_at src i) dst) src
  end.

Definition copy_name (dst src : list Z) : list Z := copy_name_loop 31 0 dst src.

(** [*(--sp) = v] *)
Definition push (st : Z * words) (v : Z) : Z * words := (st.1 - 8, <[st.1 - 8 := v]> st.2).

Section Ops.
Context `{Linkage} {M : Type} `{MemManager M}.
Implicit Types k : Kernel M.

(** The words written under the top of the stack at [base]; the result is the
    new [rsp] and the memory. *)
Definition setup_initial_stack (base entry argc argv : Z) (m : words) : Z * words :=
  let sp := base + STACK_SIZE in
  let return_slot := sp - 8 in
  let m := <[return_slot := process_exit_trampoline]> m in
  let initial_rsp := return_slot in
  foldl push (sp, m)
    [0x00; initial_rsp; 0x202; 0x08; entry;
     0; 0; 0; 0; 0; u64 argc; argv; 0; 0; 0; 0; 0; 0; 0; 0].

(** *** Accessors *)

Definition k_sched k : Sched := sem_sched (ps_sem (k_pipes k)).

Definition set_pipes v k : Kernel M := mkKernel v (k_kbd k) (k_mm k) (k_words k) (do_snapshot k) (k_ticks k).
Definition set_kbd v k : Kernel M := mkKernel (k_pipes k) v (k_mm k) (k_words k) (do_snapshot k) (k_ticks k).
Definition set_mm v k : Kernel M := mkKernel (k_pipes k) (k_kbd k) v (k_words k) (do_snapshot k) (k_ticks k).
Definition set_words v k : Kernel M := mkKernel (k_pipes k) (k_kbd k) (k_mm k) v (do_snapshot k) (k_ticks k).
Definition set_snapshot v k : Kernel M := mkKernel (k_pipes k) (k_kbd k) (k_mm k) (k_words k) v (k_ticks k).
Definition set_ticks v k : Kernel M := mkKernel (k_pipes k) (k_kbd k) (k_mm k) (k_words k) (do_snapshot k) v.

Definition set_sems v k : Kernel M := set_pipes (set_ps_sem v (k_pipes k)) k.
Definition set_sched v k : Kernel M := set_sems (set_sem_sched v (ps_sem (k_pipes k))) k.
Definition on_sched (f : Sched -> Sched) k : Kernel M := set_sched (f (k_sched k)) k.
Definition on_kbd (f : Kbd -> Kbd) k : Kernel M := set_kbd (f (k_kbd k)) k.
Definition k_proc k (i : Z) : PCB := proc (k_sched k) i.
Definition upd_pcb (i : Z) (f : PCB -> PCB) k : Kernel M := on_sched (upd_proc i f) k.

(** *** Foreground and descriptors *)

Definition restore_parent_foreground (idx : Z) k : Kernel M :=
  if negb (ctrue (foreground (k_proc k idx))) then k
  else
    let parent_idx := find_index_by_pid (parent_pid (k_proc k idx)) (k_sched k) in
    let k :=
      if (parent_idx >=? 0) && negb (state_is (k_sched k) parent_idx PROCESS_ZOMBIE)
      then on_kbd keyboard_clear_buffer (upd_pcb parent_idx (set_foreground 1) k)
      else k in
    upd_pcb idx (set_foreground 0) k.

Definition set_fd (fd : Z) (d : FileDescriptor) (p : PCB) : PCB := set_fds (seti fd d (fds p)) p.

(** [pipe_close(id, is_write);] with its result ignored. *)
Definition close_end (id is_write : Z) k : option (Kernel M) :=
  '(_, s) ← pipe_close id is_write (k_pipes k); Some (set_pipes s k).

Definition close_fd (idx : Z) (o : option (Kernel M)) (fd : Z) : option (Kernel M) :=
  k ← o;
  let d := (fds (k_proc k idx)).[fd] in
  k ← match fd_type d with
      | FD_PIPE_READ => close_end (fd_pipe_id d) 0 k
      | FD_PIPE_WRITE => close_end (fd_pipe_id d) 1 k
      | _ => Some k
      end;
  Some (upd_pcb idx (set_fd fd (mkFD FD_NONE (-1))) k).

Definition close_process_fds (idx : Z) k : option (Kernel M) :=
  for_loop 0 MAX_FDS (close_fd idx) (Some k).

(** *** Initialisation *)

(** The string ["idle"]. *)
Definition idle_name : list Z := [105; 100; 108; 101].

(** The assignments up to [copy_name(idle->name, "idle")]. *)
Definition init_table (s : Sched) : Sched :=
  let s := set_process_table (replicate 64 zero_pcb) s in
  let s := ready_queues_init s in
  let s := for_loop 0 MAX_PROCESSES (fun s i =>
             upd_proc i (fun p => set_ready_next READY_NONE (set_state PROCESS_DEAD p)) s) s in
  let s := upd_proc 0 (fun p => set_quantums_left 1 (set_priority 1 (set_state PROCESS_READY
             (set_parent_pid 0 (set_pid 0 p))))) s in
  let s := upd_proc 0 (fun p => set_exit_status 0 (set_waiting_for (-1) (set_foreground 0
             (set_stack_base idle_stack p)))) s in
  let s := upd_proc 0 (fun p => set_ready_wait_ticks 0 (set_in_ready_queue 0 (set_ready_next READY_NONE
             (set_effective_priority 1 p)))) s in
  upd_proc 0 (fun p => set_name (copy_name (name p) idle_name) p) s.

Definition scheduler_init k : Kernel M :=
  let k := on_sched init_table k in
  let '(sp, w) := setup_initial_stack (stack_base (k_proc k 0)) idle_process 0 0 (k_words k) in
  let k := upd_pcb 0 (set_rsp sp) (set_words w k) in
  let k := on_sched (set_process_count 1) k in
  let k := on_sched (set_current_idx 0) k in
  let k := upd_pcb 0 (set_state PROCESS_RUNNING) k in
  on_sched (set_need_resched 0) k.

(** *** Creation *)

(** The descriptors of a new process. *)
Definition init_fds (p : PCB) : PCB :=
  let p := set_fd 0 (mkFD FD_STDIN (-1)) p in
  let p := set_fd 1 (mkFD FD_STDOUT (-1)) p in
  for_loop 2 (MAX_FDS - 2) (fun p i => set_fd i (mkFD FD_NONE (-1)) p) p.

(** [p->pid = next_pid++; p->parent_pid = ...;] *)
Definition create_ids (i : Z) k : Kernel M :=
  let k := upd_pcb i (set_pid (next_pid (k_sched k))) k in
  let k := on_sched (set_next_pid (next_pid (k_sched k) + 1)) k in
  upd_pcb i (set_parent_pid
    (if current_idx (k_sched k) >=? 0 then pid (k_proc k (current_idx (k_sched k))) else 0)) k.

(** The assignments from [p->state] to [copy_name]. *)
Definition create_fields (prio fg stack : Z) (nm : list Z) (p : PCB) : PCB :=
  let p := set_effective_priority prio (set_priority prio (set_state PROCESS_READY p)) in
  let p := set_in_ready_queue 0 (set_ready_next READY_NONE (set_quantums_left DEFAULT_QUANTUM p)) in
  let p := set_stack_base stack (set_ready_wait_ticks 0 p) in
  let p := set_exit_status 0 (set_waiting_for (-1) (set_foreground fg p)) in
  set_name (copy_name (name p) nm) p.

(** [setup_initial_stack(p, entry, argc, argv)] *)
Definition create_stack (i entry argc argv : Z) k : Kernel M :=
  let '(sp, w) := setup_initial_stack (stack_base (k_proc k i)) entry argc argv (k_words k) in
  upd_pcb i (set_rsp sp) (set_words w k).

(** A foreground child takes the keyboard from the current process. *)
Definition create_foreground (fg : Z) k : Kernel M :=
  if ctrue fg && (current_idx (k_sched k) >=? 0)
  then upd_pcb (current_idx (k_sched k)) (set_foreground 0) k else k.

Definition scheduler_create (entry : Z) (nm : list Z) (prio fg argc argv : Z) k : option (Z * Kernel M) :=
  let prio := if (prio <? PROCESS_PRIORITY_MIN) || (prio >? PROCESS_PRIORITY_MAX) then DEFAULT_PRIORITY else prio in
  let i := find_free_slot (k_sched k) in
  if i <? 0 then Some (-1, k)
  else
    '(stack, m) ← mm_alloc STACK_SIZE (k_mm k);
    let k := set_mm m k in
    if stack =? 0 then Some (-1, k)
    else
      let k := create_ids i k in
      let k := upd_pcb i (create_fields prio fg stack nm) k in
      let k := create_stack i entry argc argv k in
      let k := create_foreground fg k in
      let k := upd_pcb i init_fds k in
      let k := on_sched (fun s => set_process_count (process_count s + 1) s) k in
      let k := on_sched (make_ready i true) k in
      Some (pid (k_proc k i), k).

(** *** Termination *)

(** The body of the loop that wakes the processes waiting for a process that
    ended; [fg] says whether it owned the keyboard. *)
Definition wake_waiter (idx : Z) (fg : bool) k (i : Z) : Kernel M :=
  if state_is (k_sched k) i PROCESS_BLOCKED && (waiting_for (k_proc k i) =? pid (k_proc k idx)) then
    let k := upd_pcb i (set_waiting_for (-1)) k in
    let k := if fg then on_kbd keyboard_clear_buffer (upd_pcb i (set_foreground 1) k) else k in
    on_sched (make_ready i true) k
  else k.

Definition scheduler_exit_current (status : Z) k : option (Kernel M) :=
  let c := current_idx (k_sched k) in
  if c <=? 0 then Some k
  else
    let finished_was_foreground := ctrue (foreground (k_proc k c)) in
    let k := upd_pcb c (set_exit_status status) k in
    let k := restore_parent_foreground c k in
    k ← close_process_fds c k;
    let k := on_sched (remove_from_ready_queue c) k in
    let k := upd_pcb c (fun p => set_ready_wait_ticks 0 (set_quantums_left 0 (set_state PROCESS_ZOMBIE p))) k in
    let k := on_sched (set_need_resched 1) k in
    let k := for_loop 0 MAX_PROCESSES (wake_waiter c finished_was_foreground) k in
    Some (on_sched ensure_foreground_owner k).

(** What [process_exit_trampoline] does before it halts for good. *)
Definition exit_trampoline k : option (Kernel M) := scheduler_exit_current 0 k.

(** The loop of [scheduler_kill] that wakes the processes waiting for [p]. *)
Definition wake_killed (p : Z) k (j : Z) : Kernel M :=
  if state_is (k_sched k) j PROCESS_BLOCKED && (waiting_for (k_proc k j) =? p) then
    on_sched (make_ready j true) (upd_pcb j (set_waiting_for (-1)) k)
  else k.

(** [if (stack_base != idle_stack) { mm_free(stack_base); stack_base = NULL; }] *)
Definition free_stack (i : Z) k : option (Kernel M) :=
  if negb (stack_base (k_proc k i) =? idle_stack) then
    m ← mm_free (stack_base (k_proc k i)) (k_mm k);
    Some (upd_pcb i (set_stack_base 0) (set_mm m k))
  else Some k.

Definition kill_fields (p : PCB) : PCB :=
  set_ready_wait_ticks 0 (set_in_ready_queue 0 (set_ready_next READY_NONE
    (set_effective_priority 0 (set_waiting_for (-1) (set_quantums_left 0 (set_state PROCESS_DEAD p)))))).

Definition scheduler_kill (p : Z) k : option (Z * Kernel M) :=
  if p <=? 1 then Some (-1, k)
  else
    let i := find_idx (has_pid (k_sched k) p) 0 MAX_PROCESSES in
    if i <? 0 then Some (-1, k)
    else if i =? current_idx (k_sched k) then
      k ← scheduler_exit_current (-1) k; Some (0, k)
    else
      let k := on_sched (remove_from_ready_queue i) k in
      let k := restore_parent_foreground i k in
      let k := set_sems (sem_remove_waiting_pid p (ps_sem (k_pipes k))) k in
      k ← close_process_fds i k;
      let k := upd_pcb i kill_fields k in
      k ← free_stack i k;
      let k := on_sched (set_process_count (process_count (k_sched k) - 1)) k in
      let k := for_loop 0 MAX_PROCESSES (wake_killed p) k in
      Some (0, on_sched ensure_foreground_owner k).

Definition scheduler_kill_foreground k : option (Z * Kernel M) :=
  let i := find_idx (fun i => negb (state_is (k_sched k) i PROCESS_DEAD) &&
             ctrue (foreground (k_proc k i)) && (pid (k_proc k i) >? 1)) 1 (MAX_PROCESSES - 1) in
  if i <? 0 then Some (-1, k) else scheduler_kill (pid (k_proc k i)) k.

(** *** Waiting *)

Definition reap_fields (p : PCB) : PCB :=
  let p := set_priority 0 (set_state PROCESS_DEAD (set_parent_pid 0 (set_pid 0 p))) in
  let p := set_in_ready_queue 0 (set_ready_next READY_NONE (set_quantums_left 0 (set_effective_priority 0 p))) in
  let p := set_foreground 0 (set_stack_base 0 (set_rsp 0 (set_ready_wait_ticks 0 p))) in
  let p := set_exit_status 0 (set_waiting_for (-1) p) in
  for_loop 0 MAX_FDS (fun p fd => set_fd fd (mkFD FD_NONE (-1)) p) p.

Definition reap_process (idx : Z) k : option (Kernel M) :=
  if (idx <=? 0) || (idx >=? MAX_PROCESSES) then Some k
  else
    let k := on_sched (remove_from_ready_queue idx) k in
    k ← (if negb (stack_base (k_proc k idx) =? 0) && negb (stack_base (k_proc k idx) =? idle_stack)
         then m ← mm_free (stack_base (k_proc k idx)) (k_mm k); Some (set_mm m k)
         else Some k);
    Some (upd_pcb idx reap_fields k).

Definition scheduler_wait (p : Z) k : option (Z * Kernel M) :=
  let c := scheduler_current (k_sched k) in
  if (c <? 0) || (p <=? 0) then Some (-1, k)
  else
    let i := find_idx (has_pid (k_sched k) p) 0 MAX_PROCESSES in
    if i <? 0 then Some (-1, k)
    else if negb (parent_pid (k_proc k i) =? pid (k_proc k c)) then Some (-1, k)
    else if state_is (k_sched k) i PROCESS_ZOMBIE then
      let status := exit_status (k_proc k i) in
      k ← reap_process i k;
      Some (status, on_sched (set_process_count (process_count (k_sched k) - 1)) k)
    else
      let k := upd_pcb c (fun q => set_quantums_left 0 (set_state PROCESS_BLOCKED (set_waiting_for p q))) k in
      Some (SCHEDULER_WAIT_BLOCKED, on_sched (set_need_resched 1) k).

(** *** The interrupt handlers *)

Definition keyboard_interrupt_handler (scancode : Z) k : option (Kernel M) :=
  let '(a, kb) := keyboard_event scancode (k_kbd k) in
  let k := set_kbd kb k in
  match a with
  | KbdNone => Some k
  | KbdSnapshot => Some (set_snapshot 1 k)
  | KbdKill => '(_, k) ← scheduler_kill_foreground k; Some (on_kbd keyboard_clear_buffer k)
  end.

Definition timer_handler k : Kernel M := set_ticks (u64 (k_ticks k + 1)) k.

Definition ticks_elapsed k : Z := i32 (k_ticks k).
Definition seconds_elapsed k : Z := i32 (k_ticks k / 18).

(** [irqDispatcher]: 0 is the timer, 1 the keyboard, with the scan code read
    from its port. *)
Definition irqDispatcher (irq scancode : Z) k : option (Kernel M) :=
  if irq =? 0 then Some (timer_handler k)
  else if irq =? 1 then keyboard_interrupt_handler scancode k
  else Some k.

(** The timer interrupt: count the tick, then switch; [cur_rsp] points at the
    registers that [pushState] saved. *)
Definition irq00Handler (cur_rsp : Z) k : Z * Kernel M :=
  let k := timer_handler k in
  let '(sp, s) := scheduler_tick cur_rsp (k_sched k) in
  (sp, set_sched s k).

End Ops.

(** ** Contexts *)

(** The registers that [popState] and [iretq] load. *)
Record Context := mkContext {
  c_r15 : Z; c_r14 : Z; c_r13 : Z; c_r12 : Z; c_r11 : Z; c_r10 : Z; c_r9 : Z; c_r8 : Z;
  c_rsi : Z; c_rdi : Z; c_rbp : Z; c_rdx : Z; c_rcx : Z; c_rbx : Z; c_rax : Z;
  c_rip : Z; c_cs : Z; c_rflags : Z; c_rsp : Z; c_ss : Z
}.

Definition word (m : words) (a : Z) : Z := default 0 (m !! a).

(** [popState] and [iretq] with the stack pointer [sp]. *)
Definition load_context (sp : Z) (m : words) : Context :=
  let w i := word m (sp + 8 * i) in
  mkContext (w 0) (w 1) (w 2) (w 3) (w 4) (w 5) (w 6) (w 7) (w 8) (w 9) (w 10) (w 11) (w 12) (w 13) (w 14)
    (w 15) (w 16) (w 17) (w 18) (w 19).
