(* ===== verification/KernelInv.v ===== *)
(** * The kernel invariant

    What the components of [Kernel.v] owe each other: the semaphore queues
    hold blocked processes, the stacks of the processes are distinct blocks in
    use of the memory manager, a process queued on a semaphore waits for no
    child.  The file has one lemma per step of the operations of [Kernel.v],
    and the theorems about whole operations are in [KernelProps.v]. *)

From S2P Require Import Prelude Process ReadyQueue Sched Lifecycle SchedIface Semaphore Memory Pipe Keyboard Wakes Kernel.
Local Open Scope Z_scope.

Definition sems {M} (k : Kernel M) : SemSt Sched := ps_sem (k_pipes k).

(** ** Tables *)

(** A change of the table that the queues of the semaphores do not see. *)
Lemma sem_inv_table X Y (m : SemSt Sched) s :
  sem_inv_ex X m -> sched_inv_ex Y s ->
  (forall j, 0 <= j < MAX_PROCESSES -> waits m (pid (proc (sem_sched m) j)) ->
     state (proc (sem_sched m) j) = PROCESS_BLOCKED ->
     pid (proc s j) = pid (proc (sem_sched m) j) /\ state (proc s j) = PROCESS_BLOCKED) ->
  sem_inv_ex Y (set_sem_sched s m).
Proof.
  intros Hm Hs Hj. eapply sem_inv_sched; [exact Hm|done|]. intros p Hp.
  assert (blocked p (sem_sched m) = true) as Hb by (destruct Hp as (i & Hi & Hp); by apply (sv_blocked _ Hm i)).
  apply (blocked_iff (X := X)) in Hb as (j & Hjr & <- & Hst); [|apply Hm].
  destruct (Hj j Hjr Hp Hst) as [Hp' Hst']. apply (blocked_iff (X := Y)); [done|]. by exists j.
Qed.

Lemma sem_inv_none X (m : SemSt Sched) : X = none -> sem_inv_ex X m -> sem_inv m.
Proof. by intros ->. Qed.

(** A process that is not blocked is in no queue. *)
Lemma not_blocked_not_waits X (m : SemSt Sched) i :
  sem_inv_ex X m -> 0 <= i < MAX_PROCESSES -> live (sem_sched m) i ->
  state (proc (sem_sched m) i) <> PROCESS_BLOCKED -> ~ waits m (pid (proc (sem_sched m) i)).
Proof.
  intros Hm Hi Hl Hst (id & Hid & Hp). apply (sv_blocked _ Hm) in Hp; [|done].
  pose proof (sv_sched _ Hm) as Hs. change (sched_inv_ex X (sem_sched m)) in Hs.
  apply (blocked_iff (X := X)) in Hp as (j & Hj & Hp & Hst'); [|done].
  assert (j = i) as -> by (apply (si_unique _ Hs); try done; unfold live; congruence). done.
Qed.

(** Fields the invariant of the scheduler does not read. *)
Definition misc (f : PCB -> PCB) : Prop :=
  (forall p, ready_next (f p) = ready_next p /\ in_ready_queue (f p) = in_ready_queue p /\
     effective_priority (f p) = effective_priority p /\ priority (f p) = priority p /\
     ready_wait_ticks (f p) = ready_wait_ticks p /\ pid (f p) = pid p /\ state (f p) = state p) /\
  (forall p, quantums_left p <= DEFAULT_QUANTUM -> quantums_left (f p) <= DEFAULT_QUANTUM).

Section Steps.
Context `{Linkage} {M : Type} `{MemManager M}.
Implicit Types k : Kernel M.

Lemma k_sched_upd i f k : k_sched (upd_pcb i f k) = upd_proc i f (k_sched k).
Proof. done. Qed.

Lemma sem_inv_sized X k : sem_inv_ex X (sems k) -> sized (k_sched k).
Proof. intros Hm. destruct (si_rep _ (sv_sched _ Hm : sched_inv_ex X (k_sched k))) as [Q Hr]. apply Hr. Qed.

Lemma k_proc_upd X k i f j :
  sem_inv_ex X (sems k) -> 0 <= i < MAX_PROCESSES ->
  k_proc (upd_pcb i f k) j = if j =? i then f (k_proc k j) else k_proc k j.
Proof. intros Hm Hi. apply proc_upd; [by eapply sem_inv_sized|done]. Qed.

Lemma upd_pcb_inv X k i f :
  sem_inv_ex X (sems k) -> 0 <= i < MAX_PROCESSES -> misc f -> sem_inv_ex X (sems (upd_pcb i f k)).
Proof.
  intros Hm Hi [Hf Hq]. pose proof (sv_sched _ Hm) as Hs. change (sched_inv_ex X (k_sched k)) in Hs.
  apply (sem_inv_table X); [done|by apply sched_inv_misc|]. intros j Hj _ Hst. change (sem_sched (sems k)) with (k_sched k) in *.
  rewrite !(proc_upd_field pid), (proc_upd_field state) by apply Hf. done.
Qed.

(** ** Foreground *)

(** Only the foreground flags differ, and the keyboard buffer may have been
    cleared. *)
Record fg_only k k' : Prop := {
  fo_proc j : 0 <= j < MAX_PROCESSES -> exists v, k_proc k' j = set_foreground v (k_proc k j);
  fo_count : process_count (k_sched k') = process_count (k_sched k);
  fo_next : next_pid (k_sched k') = next_pid (k_sched k);
  fo_current : current_idx (k_sched k') = current_idx (k_sched k);
  fo_sems : sem_table (sems k') = sem_table (sems k);
  fo_mm : k_mm k' = k_mm k;
  fo_words : k_words k' = k_words k;
  fo_kbd : kbd_wf (k_kbd k) -> kbd_wf (k_kbd k')
}.

Lemma fg_only_refl k : fg_only k k.
Proof. split; try done. intros j _. exists (foreground (k_proc k j)). by destruct (k_proc k j). Qed.

Lemma fg_only_trans k1 k2 k3 : fg_only k1 k2 -> fg_only k2 k3 -> fg_only k1 k3.
Proof.
  intros [] []. split; try congruence; auto. intros j Hj.
  destruct (fo_proc1 j Hj) as [v' E]. destruct (fo_proc0 j Hj) as [v0 E0]. exists v'. by rewrite E, E0.
Qed.

Lemma kbd_clear_wf kb : kbd_wf kb -> kbd_wf (keyboard_clear_buffer kb).
Proof. intros []. split; try done; simpl; unfold BUFFER_SIZE; lia. Qed.

Lemma fg_only_upd X k i v :
  sem_inv_ex X (sems k) -> 0 <= i < MAX_PROCESSES -> fg_only k (upd_pcb i (set_foreground v) k).
Proof.
  intros Hm Hi. split; try done. intros j Hj. rewrite (k_proc_upd X) by done. case_if; [by exists v|].
  exists (foreground (k_proc k j)). by destruct (k_proc k j).
Qed.

Lemma fg_only_clear k k' : fg_only k k' -> fg_only k (on_kbd keyboard_clear_buffer k').
Proof. intros []. split; try done. intros. apply kbd_clear_wf. auto. Qed.

Lemma upd_fg_inv X k i v :
  sem_inv_ex X (sems k) -> 0 <= i < MAX_PROCESSES -> sem_inv_ex X (sems (upd_pcb i (set_foreground v) k)).
Proof. intros Hm Hi. apply upd_pcb_inv; try done. Qed.

Lemma fg_only_fields k k' j :
  fg_only k k' -> 0 <= j < MAX_PROCESSES ->
  state (k_proc k' j) = state (k_proc k j) /\ pid (k_proc k' j) = pid (k_proc k j) /\
  stack_base (k_proc k' j) = stack_base (k_proc k j) /\ waiting_for (k_proc k' j) = waiting_for (k_proc k j) /\
  fds (k_proc k' j) = fds (k_proc k j) /\ in_ready_queue (k_proc k' j) = in_ready_queue (k_proc k j) /\
  exit_status (k_proc k' j) = exit_status (k_proc k j) /\ parent_pid (k_proc k' j) = parent_pid (k_proc k j).
Proof. intros Hf Hj. by destruct (fo_proc _ _ Hf j Hj) as [v ->]. Qed.

Lemma find_index_range p s : find_index_by_pid p s < MAX_PROCESSES.
Proof. unfold find_index_by_pid. destruct (find_pid_cases s p) as [[-> _]|(i & -> & Hi & _)]; slia. Qed.

Lemma restore_fg_spec X idx k :
  sem_inv_ex X (sems k) -> 0 <= idx < MAX_PROCESSES ->
  let k' := restore_parent_foreground idx k in
  sem_inv_ex X (sems k') /\ fg_only k k' /\ ctrue (foreground (k_proc k' idx)) = false.
Proof.
  intros Hm Hi. unfold restore_parent_foreground.
  destruct (ctrue (foreground (k_proc k idx))) eqn:Hfg; cbn [negb]; [|split_and!; try done; apply fg_only_refl].
  pose proof (find_index_range (parent_pid (k_proc k idx)) (k_sched k)) as Hr.
  set (pi := find_index_by_pid _ _) in *. set (k1 := if _ && _ then _ else k).
  assert (sem_inv_ex X (sems k1) /\ fg_only k k1) as [Hm1 Hf1].
  { unfold k1. case_if; [|split; [done|apply fg_only_refl]].
    split; [apply upd_fg_inv; [done|lia]|]. apply fg_only_clear. apply (fg_only_upd X); [done|lia]. }
  clearbody k1. split_and!.
  - by apply upd_fg_inv.
  - eapply fg_only_trans; [done|by apply (fg_only_upd X)].
  - rewrite (k_proc_upd X), Z.eqb_refl by done. done.
Qed.

Lemma ensure_owner_spec k :
  sem_inv (sems k) ->
  let k' := on_sched ensure_foreground_owner k in sem_inv (sems k') /\ fg_only k k'.
Proof.
  intros Hm. unfold on_sched, ensure_foreground_owner. case_if.
  { split; [by destruct k as [[[]]]|]. assert (set_sched (k_sched k) k = k) as -> by (by destruct k as [[[]]]). apply fg_only_refl. }
  pose proof (find_index_range 1 (k_sched k)) as Hr. case_if.
  - split; [apply (upd_fg_inv none k); [done|lia]|]. apply (fg_only_upd none); [done|lia].
  - split; [by destruct k as [[[]]]|]. assert (set_sched (k_sched k) k = k) as -> by (by destruct k as [[[]]]). apply fg_only_refl.
Qed.

End Steps.

(** ** Closing the descriptors *)

Section Close.
Context `{Linkage} {M : Type} `{MemManager M}.
Implicit Types k : Kernel M.

(** The parts of the state that no pipe or semaphore operation touches. *)
Definition same_rest k k' : Prop :=
  k_kbd k' = k_kbd k /\ k_mm k' = k_mm k /\ k_words k' = k_words k /\
  do_snapshot k' = do_snapshot k /\ k_ticks k' = k_ticks k.

Lemma same_rest_trans k1 k2 k3 : same_rest k1 k2 -> same_rest k2 k3 -> same_rest k1 k3.
Proof. unfold same_rest. intros (-> & -> & -> & -> & ->). done. Qed.

(** What closing descriptors of entry [i] may do. *)
Record closes X i k k' : Prop := {
  cl_inv : sem_inv_ex X (sems k');
  cl_kept : kept (waits (sems k)) (eq i) i (k_sched k) (k_sched k');
  cl_waits p : waits (sems k') p -> waits (sems k) p;
  cl_rest : same_rest k k'
}.

Lemma closes_refl X i k : sem_inv_ex X (sems k) -> closes X i k k.
Proof. intros Hm. split; try done. apply kept_refl. Qed.

Lemma closes_trans X i k1 k2 k3 : closes X i k1 k2 -> closes X i k2 k3 -> closes X i k1 k3.
Proof.
  intros [? Hk1 Hw1 Hr1] [? Hk2 Hw2 Hr2]. split; [done|..|auto|by eapply same_rest_trans].
  eapply kept_trans; [done|]. eapply kept_mono; [..|done]; done.
Qed.

Lemma close_end_spec X i id w k :
  sem_inv_ex X (sems k) -> 0 <= i < MAX_PROCESSES -> ~ waits (sems k) (pid (k_proc k i)) ->
  exists k', close_end id w k = Some k' /\ closes X i k k' /\ fds (k_proc k' i) = fds (k_proc k i).
Proof.
  intros Hm Hi Hn. pose proof (@Sched_laws_ex X) as Hlaws. unfold close_end.
  destruct (pipe_close_wakes (Hlaws := Hlaws) id w (k_pipes k) Hm) as (r & s' & -> & Hw). cbn [mbind option_bind].
  pose proof (wakes_kept X (sems k) (ps_sem s') i Hw (sv_sched _ Hm) Hi Hn) as Hk.
  exists (set_pipes s' k). split; [done|]. split.
  - split; [apply Hw|by eapply kept_mono; [..|exact Hk]|apply Hw|done].
  - apply (kp_fds _ _ _ _ _ Hk); [done|]. by intros [].
Qed.

Lemma upd_fd_closes X i fd d k :
  sem_inv_ex X (sems k) -> 0 <= i < MAX_PROCESSES -> closes X i k (upd_pcb i (set_fd fd d) k).
Proof.
  intros Hm Hi. pose proof (k_proc_upd X k i (set_fd fd d)) as Hp. split; try done.
  - by apply upd_pcb_inv.
  - change (kept (waits (sems k)) (eq i) i (k_sched k) (k_sched (upd_pcb i (set_fd fd d) k))).
    split; try done; try intros j Hj; fold (k_proc (upd_pcb i (set_fd fd d) k) i).
    + change (ident (k_proc (upd_pcb i (set_fd fd d) k) j) = ident (k_proc k j)). rewrite Hp by done. by case_if.
    + intros Hne. change (fds (k_proc (upd_pcb i (set_fd fd d) k) j) = fds (k_proc k j)). rewrite Hp by done.
      case_if; [exfalso; apply Hne; lia|done].
    + left. change (state (k_proc (upd_pcb i (set_fd fd d) k) j) = state (k_proc k j)). rewrite Hp by done. by case_if.
    + rewrite Hp, Z.eqb_refl by done. done.
Qed.

Lemma close_process_fds_spec X i k :
  sem_inv_ex X (sems k) -> 0 <= i < MAX_PROCESSES -> ~ waits (sems k) (pid (k_proc k i)) ->
  length (fds (k_proc k i)) = 8%nat ->
  exists k', close_process_fds i k = Some k' /\ closes X i k k' /\ length (fds (k_proc k' i)) = 8%nat /\
    forall fd, 0 <= fd < MAX_FDS -> (fds (k_proc k' i)).[fd] = mkFD FD_NONE (-1).
Proof.
  intros Hm Hi Hn Hlen. unfold close_process_fds.
  set (I := fun n o => exists k', o = Some k' /\ closes X i k k' /\ length (fds (k_proc k' i)) = 8%nat /\
    forall fd, 0 <= fd < n -> (fds (k_proc k' i)).[fd] = mkFD FD_NONE (-1)).
  assert (I (0 + MAX_FDS) (for_loop 0 MAX_FDS (close_fd i) (Some k))) as HI; [|exact HI].
  apply for_loop_ind; [done|..].
  - exists k. split_and!; try done; [by apply closes_refl|lia].
  - intros n o Hn' (k1 & -> & Hc & Hl & Hfd). unfold close_fd. cbn [mbind option_bind].
    set (d := (fds (k_proc k1 i)).[n]).
    assert (~ waits (sems k1) (pid (k_proc k1 i))) as Hn1.
    { destruct (ident_eq _ _ (kp_ident _ _ _ _ _ (cl_kept _ _ _ _ Hc) i Hi)) as [E _]. unfold k_proc in *.
      rewrite E. intros Hw. by apply Hn, (cl_waits _ _ _ _ Hc). }
    assert (exists k2, match fd_type d with FD_PIPE_READ => close_end (fd_pipe_id d) 0 k1
        | FD_PIPE_WRITE => close_end (fd_pipe_id d) 1 k1 | _ => Some k1 end = Some k2 /\
        closes X i k1 k2 /\ fds (k_proc k2 i) = fds (k_proc k1 i)) as (k2 & -> & Hc2 & Hf2).
    { destruct (fd_type d); try (exists k1; split_and!; try done; apply closes_refl, Hc);
        apply close_end_spec; try done; apply Hc. }
    exists (upd_pcb i (set_fd n (mkFD FD_NONE (-1))) k2). cbn [mbind option_bind].
    assert (sem_inv_ex X (sems k2)) as Hm2 by apply Hc2.
    assert (fds (k_proc (upd_pcb i (set_fd n (mkFD FD_NONE (-1))) k2) i) = seti n (mkFD FD_NONE (-1)) (fds (k_proc k1 i))) as E.
    { rewrite (k_proc_upd X), Z.eqb_refl by done. simpl. by rewrite Hf2. }
    rewrite E, length_seti. split_and!; try done.
    + eapply closes_trans; [done|]. eapply closes_trans; [done|]. by apply upd_fd_closes.
    + intros fd Hfd'. destruct (decide (fd = n)) as [->|Hne].
      * apply geti_seti_eq. rewrite Hl. unfold MAX_FDS in *. lia.
      * rewrite geti_seti_ne by done. apply Hfd. lia.
Qed.

End Close.

(** ** Waking the processes that wait for another *)

Section Wake.
Context `{Linkage} {M : Type} `{MemManager M}.
Implicit Types k : Kernel M.

(** One iteration of the two loops, with the pid that ended. *)
Definition wake_step (p : Z) (fg : bool) k (i : Z) : Kernel M :=
  if state_is (k_sched k) i PROCESS_BLOCKED && (waiting_for (k_proc k i) =? p) then
    let k := upd_pcb i (set_waiting_for (-1)) k in
    let k := if fg then on_kbd keyboard_clear_buffer (upd_pcb i (set_foreground 1) k) else k in
    on_sched (make_ready i true) k
  else k.

Definition waits_for (p : Z) (q : PCB) : bool := is_state (state q) PROCESS_BLOCKED && (waiting_for q =? p).

(** The entry of a process that was waiting. *)
Definition woken_entry (fg : bool) (q : PCB) : PCB :=
  ready_entry true ((if fg then set_foreground 1 else id) (set_waiting_for (-1) q)).

(** The parts of the state that waking leaves alone. *)
Definition wake_rest k k' : Prop :=
  process_count (k_sched k') = process_count (k_sched k) /\ next_pid (k_sched k') = next_pid (k_sched k) /\
  current_idx (k_sched k') = current_idx (k_sched k) /\ sem_table (sems k') = sem_table (sems k) /\
  k_mm k' = k_mm k /\ k_words k' = k_words k /\ (kbd_wf (k_kbd k) -> kbd_wf (k_kbd k')).

Lemma waits_table (m m' : SemSt Sched) p : sem_table m' = sem_table m -> waits m' p <-> waits m p.
Proof. intros E. unfold waits, queued, sem. by rewrite E. Qed.

Lemma sems_eta k : mkSemSt (k_sched k) (sem_table (sems k)) = sems k.
Proof. unfold k_sched, sems. by destruct (ps_sem (k_pipes k)). Qed.

Lemma wake_step_spec p fg k i :
  sem_inv (sems k) -> slot i -> (waits_for p (k_proc k i) = true -> ~ waits (sems k) (pid (k_proc k i))) ->
  let k' := wake_step p fg k i in
  sem_inv (sems k') /\ wake_rest k k' /\
  forall j, 0 <= j < MAX_PROCESSES ->
    pcb_core (k_proc k' j) = pcb_core (if (j =? i) && waits_for p (k_proc k j) then woken_entry fg (k_proc k j) else k_proc k j).
Proof.
  intros Hm Hi Hw. assert (0 <= i < MAX_PROCESSES) as Hi' by slia. unfold wake_step.
  change (state_is (k_sched k) i PROCESS_BLOCKED && (waiting_for (k_proc k i) =? p)) with (waits_for p (k_proc k i)).
  destruct (waits_for p (k_proc k i)) eqn:Hc.
  2:{ split_and!; try done. intros j Hj. destruct (Z.eqb_spec j i) as [->|]; simpl; [by rewrite Hc|done]. }
  set (f := fun q => (if fg then set_foreground 1 else id) (set_waiting_for (-1) q)).
  set (k1 := if fg then _ else _).
  assert (k_sched k1 = upd_proc i f (k_sched k) /\ sem_table (sems k1) = sem_table (sems k) /\ k_mm k1 = k_mm k /\
    k_words k1 = k_words k /\ (kbd_wf (k_kbd k) -> kbd_wf (k_kbd k1))) as (Es & Et & Emm & Ewd & Ekb).
  { unfold k1, f. destruct fg; split_and!; try done.
    - cbn. change (k_sched k) with (sem_sched (ps_sem (k_pipes k))). by rewrite upd_proc_upd.
    - apply kbd_clear_wf. }
  clearbody k1. pose proof (sv_sched _ Hm) as Hs. change (sched_inv (k_sched k)) in Hs.
  assert (sched_inv (upd_proc i f (k_sched k))) as Hs1 by (apply sched_inv_misc; try done; unfold f; destruct fg; done).
  apply andb_prop in Hc as Hc'. destruct Hc' as [Hst Hwf]. apply is_state_spec in Hst.
  pose proof (proc_upd (k_sched k) i i f (sem_inv_sized none k Hm) Hi') as Hpi. rewrite Z.eqb_refl in Hpi.
  assert (state (proc (upd_proc i f (k_sched k)) i) = PROCESS_BLOCKED) as Hst1.
  { rewrite Hpi. unfold f. by destruct fg. }
  destruct (si_rep _ Hs1) as [Q Hrep].
  destruct (make_ready_spec _ Q Hrep i true Hi) as (_ & Hu & _); [congruence..|].
  assert (forall j, 0 <= j < MAX_PROCESSES -> pcb_core (proc (make_ready i true (upd_proc i f (k_sched k))) j) =
    pcb_core (if j =? i then woken_entry fg (k_proc k j) else k_proc k j)) as Hcore.
  { intros j Hj. rewrite (ou_core _ _ _ _ Hu) by done. destruct (Z.eqb_spec j i) as [->|]; [by rewrite Hpi|].
    by rewrite proc_upd_ne. }
  unfold on_sched. rewrite Es. split_and!; try (destruct Hu; simpl in *; done).
  - apply (sem_inv_table none none (mkSemSt (k_sched k) (sem_table (sems k1))));
      [by rewrite Et, sems_eta|by apply make_ready_inv|].
    intros j Hj Hwj Hstj. simpl in *. apply (waits_table _ (sems k)) in Hwj; [|done].
    assert (j <> i) as Hne by (intros ->; by apply Hw).
    specialize (Hcore j Hj). replace (j =? i) with false in Hcore by lia. apply pcb_core_eq in Hcore. destr_and.
    split; [done|]. unfold k_proc in *; congruence.
  - intros j Hj. unfold k_proc at 1. change (k_sched (set_sched ?s k1)) with s. rewrite Hcore by done.
    destruct (Z.eqb_spec j i) as [->|]; simpl; [by rewrite Hc|done].
Qed.

Lemma waits_for_core p q q' : pcb_core q = pcb_core q' -> waits_for p q = waits_for p q'.
Proof. intros E%pcb_core_eq. destr_and. unfold waits_for. congruence. Qed.

Lemma woken_core fg q q' : pcb_core q = pcb_core q' -> pcb_core (woken_entry fg q) = pcb_core (woken_entry fg q').
Proof. unfold woken_entry, ready_entry. destruct fg; core_tac. Qed.

(** A whole loop: exactly the processes that wait for [p] are woken. *)
Lemma wake_loop_spec (body : Kernel M -> Z -> Kernel M) idx p fg k :
  (forall k i, pid (k_proc k idx) = p -> body k i = wake_step p fg k i) -> 0 <= idx < MAX_PROCESSES ->
  sem_inv (sems k) -> pid (k_proc k idx) = p ->
  (forall j, 0 <= j < MAX_PROCESSES -> waits_for p (k_proc k j) = true ->
     slot j /\ ~ waits (sems k) (pid (k_proc k j))) ->
  let k' := for_loop 0 MAX_PROCESSES body k in
  sem_inv (sems k') /\ wake_rest k k' /\
  forall j, 0 <= j < MAX_PROCESSES ->
    pcb_core (k_proc k' j) = pcb_core (if waits_for p (k_proc k j) then woken_entry fg (k_proc k j) else k_proc k j).
Proof.
  intros Hbody Hidx Hm Hp Hw.
  set (I := fun n k' => sem_inv (sems k') /\ wake_rest k k' /\ forall j, 0 <= j < MAX_PROCESSES ->
    pcb_core (k_proc k' j) = pcb_core (if (j <? n) && waits_for p (k_proc k j) then woken_entry fg (k_proc k j) else k_proc k j)).
  assert (I (0 + MAX_PROCESSES) (for_loop 0 MAX_PROCESSES body k)) as (H1 & H2 & H3).
  2:{ split_and!; try done. intros j Hj. rewrite H3 by done. by replace (j <? 0 + MAX_PROCESSES) with true by lia. }
  apply for_loop_ind; [done|..].
  - split_and!; try done. intros j Hj. by replace (j <? 0) with false by lia.
  - intros n k1 Hn (Hm1 & Hr1 & Hc1). simpl in Hn.
    assert (pid (k_proc k1 idx) = p) as Hp1.
    { specialize (Hc1 idx Hidx). apply pcb_core_eq in Hc1 as [-> _]. case_if; [by destruct fg|done]. }
    rewrite Hbody by done.
    assert (pcb_core (k_proc k1 n) = pcb_core (k_proc k n)) as Hcn by (rewrite Hc1 by lia; by replace (n <? n) with false by lia).
    pose proof (waits_for_core p _ _ Hcn) as Hwn.
    assert (waits (sems k1) = waits (sems k)) as Ews by (destruct Hr1 as (_ & _ & _ & Et & _); unfold waits, queued, sem; by rewrite Et).
    destruct (decide (slot n)) as [Hsl|Hno].
    2:{ assert (waits_for p (k_proc k n) = false) as Hf.
        { destruct (waits_for p (k_proc k n)) eqn:E; [|done]. by apply Hw in E as [? _]; [|lia]. }
        unfold wake_step. change (state_is (k_sched k1) n PROCESS_BLOCKED && (waiting_for (k_proc k1 n) =? p)) with (waits_for p (k_proc k1 n)).
        rewrite Hwn, Hf. split_and!; try done. intros j Hj. rewrite Hc1 by done.
        destruct (Z.eqb_spec j n) as [->|]; [by rewrite Hf, !andb_false_r|].
        by replace (j <? n + 1) with (j <? n) by lia. }
    destruct (wake_step_spec p fg k1 n Hm1 Hsl) as (Hm2 & Hr2 & Hc2).
    { rewrite Hwn, Ews. intros E. apply pcb_core_eq in Hcn as [-> _]. by apply Hw; [lia|]. }
    split_and!; [done|unfold wake_rest in *; destr_and; split_and!; try congruence; auto|].
    intros j Hj. rewrite Hc2 by done. specialize (Hc1 j Hj). destruct (Z.eqb_spec j n) as [->|]; simpl.
    + rewrite Hwn. replace (n <? n + 1) with true by lia. simpl. case_if; [|done]. by apply woken_core.
    + rewrite Hc1. by replace (j <? n + 1) with (j <? n) by lia.
Qed.

End Wake.

(** ** The invariant *)

Section Inv.
Context `{Linkage} {M : Type} `{Hmm : MemManagerLaws M}.
Implicit Types k : Kernel M.

(** Every process but the idle one has a stack of its own, a block in use of
    the memory manager; the idle stack is not in the heap. *)
Record stacks_ok (m : M) (s : Sched) : Prop := {
  st_mm : mm_inv m;
  st_idle : idle_stack < fst (mm_heap m) \/ fst (mm_heap m) + snd (mm_heap m) <= idle_stack;
  st_zero : 0 < fst (mm_heap m);
  st_block j : slot j -> live s j -> exists n, mm_live m !! stack_base (proc s j) = Some n /\ STACK_SIZE <= n;
  st_distinct i j : slot i -> slot j -> live s i -> live s j ->
    stack_base (proc s i) = stack_base (proc s j) -> i = j
}.

(** The arrays of an entry have their declared sizes. *)
Definition arrays_ok (p : PCB) : Prop := length (fds p) = 8%nat /\ length (name p) = 32%nat.

Record kernel_inv k : Prop := {
  ki_sem : sem_inv (sems k);
  (** a process that waits on a semaphore waits for no process *)
  ki_wait j : slot j -> live (k_sched k) j -> waits (sems k) (pid (k_proc k j)) -> waiting_for (k_proc k j) = -1;
  ki_idle : waiting_for (k_proc k 0) = -1;
  ki_arrays j : 0 <= j < MAX_PROCESSES -> arrays_ok (k_proc k j);
  ki_kbd : kbd_wf (k_kbd k);
  ki_stacks : stacks_ok (k_mm k) (k_sched k)
}.

(** Entries of [s'] are entries of [s]: no process is new, and a process may
    have stopped waiting. *)
Record shrinks (s s' : Sched) : Prop := {
  sh_entry j : slot j -> live s' j -> live s j /\ pid (proc s' j) = pid (proc s j) /\
    stack_base (proc s' j) = stack_base (proc s j) /\
    (waiting_for (proc s' j) = waiting_for (proc s j) \/ waiting_for (proc s' j) = -1);
  sh_idle : waiting_for (proc s' 0) = waiting_for (proc s 0);
  sh_arrays j : 0 <= j < MAX_PROCESSES -> arrays_ok (proc s j) -> arrays_ok (proc s' j)
}.

Lemma shrinks_refl s : shrinks s s.
Proof. split; try done. intros. split_and!; try done. by left. Qed.

Lemma shrinks_trans s1 s2 s3 : shrinks s1 s2 -> shrinks s2 s3 -> shrinks s1 s3.
Proof.
  intros [E1 I1 F1] [E2 I2 F2]. split; [|congruence|auto].
  intros j Hj Hl. destruct (E2 j Hj Hl) as (Hl2 & P2 & B2 & W2). destruct (E1 j Hj Hl2) as (Hl1 & P1 & B1 & W1).
  split_and!; try congruence. destruct W2 as [->|]; [done|by right].
Qed.

Lemma stacks_shrink m s s' : stacks_ok m s -> shrinks s s' -> stacks_ok m s'.
Proof.
  intros [H1 H2 H3 H4 H5] [E _ _]. split; try done.
  - intros j Hj Hl. destruct (E j Hj Hl) as (Hl' & _ & -> & _). auto.
  - intros i j Hi Hj Hli Hlj. destruct (E i Hi Hli) as (? & _ & -> & _), (E j Hj Hlj) as (? & _ & -> & _). auto.
Qed.

Lemma kernel_inv_shrink k k' :
  kernel_inv k -> sem_inv (sems k') -> (forall p, waits (sems k') p -> waits (sems k) p) ->
  shrinks (k_sched k) (k_sched k') -> kbd_wf (k_kbd k') -> stacks_ok (k_mm k') (k_sched k') -> kernel_inv k'.
Proof.
  intros [Hs Hw Hi Hf Hk Hst] Hs' Hw' Hsh Hk' Hst'. split; try done.
  - intros j Hj Hl Hp. destruct (sh_entry _ _ Hsh j Hj Hl) as (Hl0 & E & _ & W). unfold k_proc in *.
    rewrite E in Hp. apply Hw', Hw in Hp; [|done..]. destruct W; congruence.
  - unfold k_proc in *. rewrite (sh_idle _ _ Hsh). done.
  - intros j Hj. apply (sh_arrays _ _ Hsh); [done|]. by apply Hf.
Qed.

(** The saved contexts stay: no word of a stack changes, and no process gets
    another stack or stack pointer. *)
Record saved k k' : Prop := {
  sa_words : k_words k' = k_words k;
  sa_entry j : 0 <= j < MAX_PROCESSES -> live (k_sched k') j ->
    live (k_sched k) j /\ rsp (k_proc k' j) = rsp (k_proc k j) /\ stack_base (k_proc k' j) = stack_base (k_proc k j)
}.

Lemma saved_refl k : saved k k.
Proof. by split. Qed.

Lemma saved_trans k1 k2 k3 : saved k1 k2 -> saved k2 k3 -> saved k1 k3.
Proof.
  intros [W1 E1] [W2 E2]. split; [congruence|]. intros j Hj Hl. destruct (E2 j Hj Hl) as (Hl2 & ? & ?).
  destruct (E1 j Hj Hl2) as (? & ? & ?). split_and!; congruence || done.
Qed.

(** Changes of the table that keep the core of the entries. *)
Lemma saved_core k k' : k_words k' = k_words k ->
  (forall j, 0 <= j < MAX_PROCESSES -> state (k_proc k' j) <> PROCESS_DEAD -> state (k_proc k j) <> PROCESS_DEAD /\
     rsp (k_proc k' j) = rsp (k_proc k j) /\ stack_base (k_proc k' j) = stack_base (k_proc k j)) -> saved k k'.
Proof. by split. Qed.

Lemma saved_fg k k' : fg_only k k' -> saved k k'.
Proof. intros Hf. split; [apply Hf|]. intros j Hj. unfold live. fold (k_proc k' j). fold (k_proc k j). by destruct (fo_proc _ _ Hf j Hj) as [v ->]. Qed.

Lemma saved_closes X i k k' : closes X i k k' -> saved k k'.
Proof.
  intros [_ Hk _ Hr]. split; [apply Hr|]. intros j Hj Hl. split; [by apply (kept_live _ _ _ _ _ _ Hk Hj)|].
  by destruct (ident_eq _ _ (kp_ident _ _ _ _ _ Hk j Hj)) as (_ & _ & _ & _ & ? & ? & _).
Qed.

Lemma saved_woken p fg k k' : k_words k' = k_words k ->
  (forall j, 0 <= j < MAX_PROCESSES -> exists v, pcb_core (k_proc k' j) =
     pcb_core (set_foreground v (if waits_for p (k_proc k j) then woken_entry fg (k_proc k j) else k_proc k j))) -> saved k k'.
Proof.
  intros Hw Hc. apply saved_core; [done|]. intros j Hj. destruct (Hc j Hj) as [v E]. apply pcb_core_eq in E. destr_and.
  destruct (waits_for p (k_proc k j)) eqn:Ew; [|simpl in *; intros; split_and!; congruence].
  apply andb_prop in Ew as [Est%is_state_spec _]. destruct fg; simpl in *; intros; split_and!; congruence.
Qed.

(** Giving a stack back. *)
Lemma free_stack_ok m s i :
  stacks_ok m s -> slot i -> live s i -> mm_freeable m (stack_base (proc s i)) ->
  stack_base (proc s i) <> 0 /\ stack_base (proc s i) <> idle_stack /\
  exists m', mm_free (stack_base (proc s i)) m = Some m' /\ mm_heap m' = mm_heap m /\
    forall s', shrinks s s' -> ~ live s' i -> stacks_ok m' s'.
Proof.
  intros Hst Hi Hl Hfr. destruct (st_block _ _ Hst i Hi Hl) as (n & Hn & Hsz).
  destruct (mm_live_heap m _ _ (st_mm _ _ Hst) Hn) as (_ & Hlo & Hhi).
  pose proof (st_idle _ _ Hst). pose proof (st_zero _ _ Hst). unfold STACK_SIZE in Hsz.
  split_and!; [lia|lia|].
  destruct (mm_free_spec m _ _ (st_mm _ _ Hst) Hn Hfr) as (m' & -> & Hinv & Hh & Hlive).
  exists m'. split; [done|]. split; [done|]. intros s' Hsh Hd.
  destruct (stacks_shrink _ _ _ Hst Hsh) as [_ I Z0 B D]. split; try done; try (by rewrite Hh).
  intros j Hj Hlj. destruct (B j Hj Hlj) as (n' & Hn' & Hsz'). exists n'. split; [|done].
  rewrite Hlive, lookup_delete_ne; [done|]. intros E.
  destruct (sh_entry _ _ Hsh j Hj Hlj) as (Hl0 & _ & Eb & _). rewrite Eb in E.
  apply (st_distinct _ _ Hst) in E; try done. by subst.
Qed.

(** The relations of the steps give [shrinks]. *)
Lemma fg_only_shrinks k k' : fg_only k k' -> shrinks (k_sched k) (k_sched k').
Proof.
  intros Hf. pose proof (fun j => fg_only_fields k k' j Hf) as Hg. unfold k_proc in *. split.
  - intros j Hj. destruct (Hg j ltac:(slia)) as (Es & Ep & Eb & Ew & _). unfold live. rewrite Es. auto.
  - by apply Hg.
  - intros j Hj. destruct (fo_proc _ _ Hf j Hj) as [v E]. unfold k_proc in E. by rewrite E.
Qed.

Lemma kept_shrinks P i s s' :
  kept P (eq i) i s s' -> length (fds (proc s' i)) = 8%nat -> shrinks s s'.
Proof.
  intros Hk Hl. split.
  - intros j Hj Hlj. assert (0 <= j < MAX_PROCESSES) as Hj' by slia.
    apply (kept_live _ _ _ _ _ _ Hk Hj') in Hlj.
    destruct (ident_eq _ _ (kp_ident _ _ _ _ _ Hk j Hj')) as (? & _ & _ & _ & _ & ? & _ & ? & _). auto.
  - by destruct (ident_eq _ _ (kp_ident _ _ _ _ _ Hk 0 ltac:(slia))) as (_ & _ & _ & _ & _ & _ & _ & ? & _).
  - intros j Hj [Hf Hn]. destruct (ident_eq _ _ (kp_ident _ _ _ _ _ Hk j Hj)) as (_ & _ & En & _). unfold arrays_ok.
    rewrite En. split; [|done]. destruct (decide (i = j)) as [->|]; [done|]. by rewrite (kp_fds _ _ _ _ _ Hk).
Qed.

Lemma woken_shrinks p fg k k' :
  (forall j, 0 <= j < MAX_PROCESSES -> waits_for p (k_proc k j) = true -> slot j) ->
  (forall j, 0 <= j < MAX_PROCESSES ->
    pcb_core (k_proc k' j) = pcb_core (if waits_for p (k_proc k j) then woken_entry fg (k_proc k j) else k_proc k j)) ->
  shrinks (k_sched k) (k_sched k').
Proof.
  intros Hsl Hc. unfold k_proc in *. split.
  - intros j Hj. specialize (Hc j ltac:(slia)). apply pcb_core_eq in Hc. destr_and. unfold live.
    destruct (waits_for p (proc (k_sched k) j)) eqn:E.
    + apply andb_prop in E as [E _]. apply is_state_spec in E. destruct fg; simpl in *; intros _; split_and!; try congruence; by right.
    + intros Hl. split_and!; try congruence. by left.
  - specialize (Hc 0 ltac:(slia)). destruct (waits_for p (proc (k_sched k) 0)) eqn:E.
    + apply Hsl in E; slia.
    + apply pcb_core_eq in Hc. by destr_and.
  - intros j Hj Hf. specialize (Hc j Hj). apply pcb_core_eq in Hc. destr_and.
    unfold arrays_ok in Hf |- *. destruct Hf as [Hf1 Hf2]. destruct (waits_for p (proc (k_sched k) j)); destruct fg; simpl in *; split; congruence.
Qed.

End Inv.
