(* ===== verification/KernelEnd.v ===== *)
(** * The end of a process

    [scheduler_exit_current], [scheduler_kill], [reap_process] and
    [scheduler_wait] on the whole kernel state: they return, preserve the
    kernel invariant, and change the table as stated. *)

From S2P Require Import Prelude Process ReadyQueue Sched Lifecycle SchedIface Semaphore Memory Pipe Keyboard Wakes Kernel KernelInv.
Local Open Scope Z_scope.

(** A live process that is not a zombie. *)
Definition alive (s : Sched) (j : Z) : Prop :=
  live s j /\ state (proc s j) <> PROCESS_ZOMBIE.

(** Somebody owns the keyboard. *)
Definition has_owner (s : Sched) : Prop :=
  exists i, slot i /\ alive s i /\ ctrue (foreground (proc s i)) = true.

Lemma ensure_owner_exists s i :
  sched_inv s -> 0 <= i < MAX_PROCESSES -> pid (proc s i) = 1 -> alive s i -> has_owner (ensure_foreground_owner s).
Proof.
  intros Hinv Hi Hp [Hl Hz]. destruct (si_rep _ Hinv) as [Q Hrep]. pose proof (rr_sized _ _ Hrep) as Hs.
  assert (slot i) as Hsl.
  { destruct (decide (i = 0)) as [->|]; [|slia]. destruct (si_idle _ Hinv) as [? _]. lia. }
  unfold ensure_foreground_owner.
  set (P := fun i => negb (state_is s i PROCESS_DEAD) && negb (state_is s i PROCESS_ZOMBIE) && ctrue (foreground (proc s i))).
  destruct (find_idx_spec P 1 (MAX_PROCESSES - 1)) as [[-> _]|(Hr & HP & _)]; [slia|slia|..].
  - change (-1 >=? 0) with false. cbv iota.
    assert (find_index_by_pid 1 s = i) as E by (rewrite <- Hp; by apply (find_pid_live (X := none))).
    rewrite E. unfold state_is. rewrite (proj2 (is_state_neg _ _) Hz). replace (i >=? 0) with true by lia. simpl.
    exists i. unfold alive, live. rewrite proc_upd_eq by done. done.
  - set (j := find_idx P 1 (MAX_PROCESSES - 1)) in *. replace (j >=? 0) with true by lia.
    exists j. unfold P in HP. rewrite !andb_true_iff, !negb_true_iff in HP. unfold state_is in HP.
    rewrite !is_state_neg in HP. destruct HP as [[H1 H2] H3]. split; [slia|]. done.
Qed.

Section End_.
Context `{Linkage} {M : Type} `{Hmm : MemManagerLaws M}.
Implicit Types k : Kernel M.

Lemma on_sched_id k : on_sched (fun s => s) k = k.
Proof. destruct k as [[[] ? ? ? ? ?] ? ? ? ? ?]. done. Qed.

Lemma on_sched_skip f k : f (k_sched k) = k_sched k -> on_sched f k = k.
Proof. intros E. unfold on_sched. rewrite E. apply on_sched_id. Qed.

(** A process that waits for [p] is in no semaphore queue. *)
Lemma waiters_unqueued k k5 p :
  kernel_inv k -> shrinks (k_sched k) (k_sched k5) -> (forall q, waits (sems k5) q -> waits (sems k) q) -> 0 < p ->
  forall j, 0 <= j < MAX_PROCESSES -> waits_for p (k_proc k5 j) = true ->
    slot j /\ ~ waits (sems k5) (pid (k_proc k5 j)).
Proof.
  intros Hk Hsh Hw Hp j Hj E. apply andb_prop in E as [Hst%is_state_spec Hwf].
  assert (waiting_for (k_proc k5 j) = p) as Hwp by lia. unfold k_proc in *.
  assert (slot j) as Hsl.
  { destruct (decide (j = 0)) as [->|]; [|slia]. rewrite (sh_idle _ _ Hsh) in Hwp.
    pose proof (ki_idle _ Hk). unfold k_proc in *. lia. }
  split; [done|]. intros Hq. destruct (sh_entry _ _ Hsh j Hsl) as (Hl & Ep & _ & Ew); [unfold live; congruence|].
  rewrite Ep in Hq. apply Hw, (ki_wait _ Hk j Hsl Hl) in Hq. unfold k_proc in *. destruct Ew; lia.
Qed.

(** The last part of both ways to end: wake the processes that wait, and find
    a foreground owner. *)
Lemma wake_and_owner (body : Kernel M -> Z -> Kernel M) k k5 idx p fg :
  kernel_inv k -> shrinks (k_sched k) (k_sched k5) -> (forall q, waits (sems k5) q -> waits (sems k) q) ->
  sem_inv (sems k5) -> kbd_wf (k_kbd k5) -> stacks_ok (k_mm k5) (k_sched k5) ->
  (forall k i, pid (k_proc k idx) = p -> body k i = wake_step p fg k i) -> 0 <= idx < MAX_PROCESSES ->
  0 < p -> pid (k_proc k5 idx) = p ->
  let k' := on_sched ensure_foreground_owner (for_loop 0 MAX_PROCESSES body k5) in
  kernel_inv k' /\ current_idx (k_sched k') = current_idx (k_sched k5) /\
  (forall q, waits (sems k') q -> waits (sems k5) q) /\ k_mm k' = k_mm k5 /\ k_words k' = k_words k5 /\
  (forall j, 0 <= j < MAX_PROCESSES -> exists v, pcb_core (k_proc k' j) =
     pcb_core (set_foreground v (if waits_for p (k_proc k5 j) then woken_entry fg (k_proc k5 j) else k_proc k5 j))) /\
  ((exists i, 0 <= i < MAX_PROCESSES /\ pid (k_proc k5 i) = 1 /\ alive (k_sched k5) i) -> has_owner (k_sched k')).
Proof.
  intros Hk Hsh Hw Hm Hkb Hst Hbody Hidx Hp Hpid.
  pose proof (waiters_unqueued k k5 p Hk Hsh Hw Hp) as Hun.
  destruct (wake_loop_spec body idx p fg k5 Hbody Hidx Hm Hpid Hun) as (Hm6 & Hr6 & Hc6).
  set (k6 := for_loop 0 MAX_PROCESSES body k5) in *. clearbody k6.
  destruct (ensure_owner_spec k6 Hm6) as [Hm7 Hf7].
  assert (shrinks (k_sched k5) (k_sched k6)) as Hsh6.
  { eapply woken_shrinks; [|exact Hc6]. intros j Hj E. by destruct (Hun j Hj E). }
  pose proof (fg_only_shrinks _ _ Hf7) as Hsh7. destruct Hr6 as (_ & _ & Ecur & Et & Emm & Ewd & Ekb).
  assert (forall q, waits (sems (on_sched ensure_foreground_owner k6)) q -> waits (sems k5) q) as Hw7.
  { intros q Hq. apply (waits_table (sems k5) (sems k6) q Et). by apply (waits_table _ _ q (fo_sems _ _ Hf7)). }
  cbv zeta. split_and!; try exact Hw7.
  - apply (kernel_inv_shrink k); try done.
    + auto.
    + eapply shrinks_trans; [done|]. by eapply shrinks_trans.
    + apply Hf7. auto.
    + rewrite (fo_mm _ _ Hf7), Emm. eapply stacks_shrink; [done|]. by eapply shrinks_trans.
  - by rewrite (fo_current _ _ Hf7).
  - by rewrite (fo_mm _ _ Hf7).
  - by rewrite (fo_words _ _ Hf7).
  - intros j Hj. destruct (fo_proc _ _ Hf7 j Hj) as [v ->]. exists v. specialize (Hc6 j Hj).
    apply pcb_core_eq in Hc6. destr_and. by apply pcb_core_intro.
  - intros (i & Hi & Hp1 & Hl & Hz). unfold on_sched. change (k_sched (set_sched ?s k6)) with s.
    pose proof (Hc6 i Hi) as Hci. apply pcb_core_eq in Hci. unfold k_proc in *.
    apply (ensure_owner_exists _ i); [apply Hm6|done|..].
    + destruct Hci as [-> _]. case_if; [by destruct fg|done].
    + unfold alive, live. destruct Hci as (_ & _ & _ & -> & _). case_if; [by destruct fg|done].
Qed.

(** ** Steps towards the end of a process

    [drifts c k k']: the steps that take the process of entry [c] apart change
    the other processes only by waking some that wait on a semaphore. *)

Record drifts c k k' : Prop := {
  dr_shrinks : shrinks (k_sched k) (k_sched k');
  dr_waits p : waits (sems k') p -> waits (sems k) p;
  dr_current : current_idx (k_sched k') = current_idx (k_sched k);
  dr_kbd : kbd_wf (k_kbd k) -> kbd_wf (k_kbd k');
  dr_saved : saved k k';
  dr_others j : 0 <= j < MAX_PROCESSES -> j <> c ->
    pid (k_proc k' j) = pid (k_proc k j) /\ parent_pid (k_proc k' j) = parent_pid (k_proc k j) /\
    waiting_for (k_proc k' j) = waiting_for (k_proc k j) /\ fds (k_proc k' j) = fds (k_proc k j) /\
    (state (k_proc k' j) = state (k_proc k j) \/
     (state (k_proc k j) = PROCESS_BLOCKED /\ state (k_proc k' j) = PROCESS_READY /\ waits (sems k) (pid (k_proc k j))))
}.

Lemma drifts_refl c k : drifts c k k.
Proof. split; try done; [apply shrinks_refl|]. intros. split_and!; try done. by left. Qed.

Lemma drifts_trans c k1 k2 k3 : drifts c k1 k2 -> drifts c k2 k3 -> drifts c k1 k3.
Proof.
  intros [S1 W1 C1 K1 V1 O1] [S2 W2 C2 K2 V2 O2]. split; [by eapply shrinks_trans|auto|congruence|auto|by eapply saved_trans|].
  intros j Hj Hne. destruct (O1 j Hj Hne) as (P1 & R1 & F1 & D1 & T1), (O2 j Hj Hne) as (P2 & R2 & F2 & D2 & T2).
  split_and!; try congruence. rewrite P1 in T2.
  destruct T1 as [T1|(T1 & T1' & Q1)], T2 as [T2|(T2 & T2' & Q2)]; [left|right|right|right]; split_and! || idtac; try congruence; auto.
Qed.

Lemma drifts_fg c k k' : fg_only k k' -> drifts c k k'.
Proof.
  intros Hf. split; [by apply fg_only_shrinks|..].
  - intros p. by apply (waits_table _ _ p (fo_sems _ _ Hf)).
  - apply Hf.
  - apply Hf.
  - by apply saved_fg.
  - intros j Hj _. destruct (fg_only_fields k k' j Hf Hj) as (-> & -> & _ & -> & -> & _ & _ & ->). auto 10.
Qed.

Lemma drifts_closes X c k k' :
  closes X c k k' -> length (fds (k_proc k' c)) = 8%nat -> drifts c k k'.
Proof.
  intros Hcl Hl. pose proof (saved_closes _ _ _ _ Hcl) as Hsv. destruct Hcl as [Hm Hk Hw Hr]. split; [by eapply kept_shrinks|done|apply Hk|by destruct Hr as (-> & _)|done|].
  intros j Hj Hne. destruct (ident_eq _ _ (kp_ident _ _ _ _ _ Hk j Hj)) as (? & ? & _ & _ & _ & _ & _ & ? & _).
  pose proof (kp_fds _ _ _ _ _ Hk j Hj (fun E => Hne (eq_sym E))). pose proof (kp_state _ _ _ _ _ Hk j Hj) as Hs.
  split_and!; try done. destruct Hs as [?|(_ & ? & ? & ?)]; [by left|by right].
Qed.

(** A change of the table that leaves the other entries and the semaphores. *)
Lemma drifts_table c k s :
  slot c -> current_idx s = current_idx (k_sched k) ->
  (forall j, j <> c -> pcb_core (proc s j) = pcb_core (k_proc k j)) ->
  (live s c -> live (k_sched k) c /\ pid (proc s c) = pid (k_proc k c) /\
     stack_base (proc s c) = stack_base (k_proc k c) /\ waiting_for (proc s c) = waiting_for (k_proc k c) /\ rsp (proc s c) = rsp (k_proc k c)) ->
  length (fds (proc s c)) = length (fds (k_proc k c)) -> name (proc s c) = name (k_proc k c) ->
  drifts c k (set_sched s k).
Proof.
  intros Hc Hcur Ho Hl Hf Hnm. split; try done.
  - change (k_sched (set_sched s k)) with s. split.
    + intros j Hj Hlj. destruct (decide (j = c)) as [->|Hne]; [destruct (Hl Hlj) as (? & ? & ? & ? & _); auto|].
      specialize (Ho j Hne). apply pcb_core_eq in Ho. unfold live, k_proc in *. destr_and. split_and!; try congruence. by left.
    + specialize (Ho 0 ltac:(slia)). apply pcb_core_eq in Ho. unfold k_proc in *. by destr_and.
    + intros j Hj. unfold arrays_ok. destruct (decide (j = c)) as [->|Hne]; [by rewrite Hf, Hnm|].
      specialize (Ho j Hne). apply pcb_core_eq in Ho. unfold k_proc in *. destr_and. intros []. split; congruence.
  - split; [done|]. change (k_sched (set_sched s k)) with s. intros j Hj Hlj. change (k_proc (set_sched s k) j) with (proc s j).
    destruct (decide (j = c)) as [->|Hne]; [by destruct (Hl Hlj) as (? & _ & ? & _ & ?)|].
    specialize (Ho j Hne). apply pcb_core_eq in Ho. unfold live, k_proc in *. destr_and. split_and!; congruence.
  - intros j Hj Hne. change (k_proc (set_sched s k) j) with (proc s j). specialize (Ho j Hne).
    apply pcb_core_eq in Ho. destr_and. split_and!; try done. by left.
Qed.

Lemma drifts_upd X c f k :
  sem_inv_ex X (sems k) -> slot c ->
  (let p := k_proc k c in state (f p) <> PROCESS_DEAD -> live (k_sched k) c /\ pid (f p) = pid p /\
     stack_base (f p) = stack_base p /\ waiting_for (f p) = waiting_for p /\ rsp (f p) = rsp p) ->
  length (fds (f (k_proc k c))) = length (fds (k_proc k c)) -> name (f (k_proc k c)) = name (k_proc k c) ->
  drifts c k (upd_pcb c f k).
Proof.
  intros Hm Hc Hf Hl Hnm. pose proof (sem_inv_sized X k Hm) as Hs. assert (0 <= c < MAX_PROCESSES) as Hc' by slia.
  apply drifts_table; try done.
  - intros j Hne. by rewrite proc_upd_ne.
  - unfold live. by rewrite proc_upd_eq.
  - by rewrite proc_upd_eq.
  - by rewrite proc_upd_eq.
Qed.

Lemma drifts_remove c k : slot c -> drifts c k (on_sched (remove_from_ready_queue c) k).
Proof.
  intros Hc. pose proof (remove_frame (k_sched k) c) as Hf. apply drifts_table; try done.
  - apply Hf.
  - intros j _. apply Hf.
  - pose proof (rf_core _ _ Hf c) as E. apply pcb_core_eq in E. unfold live, k_proc. destr_and. intros.
    split_and!; congruence.
  - pose proof (rf_core _ _ Hf c) as E. apply pcb_core_eq in E. unfold k_proc. destr_and. congruence.
  - pose proof (rf_core _ _ Hf c) as E. apply pcb_core_eq in E. unfold k_proc. by destr_and.
Qed.

(** Fields of the scheduler that are not in the table. *)
Lemma drifts_globals c k s :
  process_table s = process_table (k_sched k) -> current_idx s = current_idx (k_sched k) -> slot c ->
  drifts c k (set_sched s k).
Proof.
  intros Ht Hcur Hc. assert (forall j, proc s j = k_proc k j) as E by (intros; unfold k_proc, proc; by rewrite Ht).
  apply drifts_table; try done.
  - intros j _. by rewrite E.
  - unfold live. rewrite E. done.
  - by rewrite E.
  - by rewrite E.
Qed.

(** ** The processes after the end of another *)

(** [p] is the pid that ended, [c] its entry: exactly the processes that waited
    for it are woken, apart from those that its closed pipes wake. *)
Definition others_after (c p : Z) (s s' : Sched) : Prop :=
  forall j, slot j -> j <> c -> live s j ->
    pid (proc s' j) = pid (proc s j) /\ parent_pid (proc s' j) = parent_pid (proc s j) /\
    fds (proc s' j) = fds (proc s j) /\
    (waits_for p (proc s j) = true -> state (proc s' j) = PROCESS_READY /\ waiting_for (proc s' j) = -1) /\
    (state (proc s' j) = state (proc s j) \/
     (state (proc s j) = PROCESS_BLOCKED /\ state (proc s' j) = PROCESS_READY)).

Lemma others_after_wake c p fg k k5 k' :
  kernel_inv k -> 0 < p -> drifts c k k5 ->
  (forall j, 0 <= j < MAX_PROCESSES -> exists v, pcb_core (k_proc k' j) =
     pcb_core (set_foreground v (if waits_for p (k_proc k5 j) then woken_entry fg (k_proc k5 j) else k_proc k5 j))) ->
  others_after c p (k_sched k) (k_sched k').
Proof.
  intros Hk Hp Hd H' j Hj Hne Hl. assert (0 <= j < MAX_PROCESSES) as Hj' by slia.
  destruct (dr_others _ _ _ Hd j Hj' Hne) as (E1 & E2 & E3 & E4 & E5).
  destruct (H' j Hj') as [v Hc]. apply pcb_core_eq in Hc. unfold k_proc in *.
  assert (waits_for p (proc (k_sched k) j) = true -> waits_for p (proc (k_sched k5) j) = true) as Hwf.
  { unfold waits_for. intros [Hst%is_state_spec Hw]%andb_prop. rewrite E3, Hw, andb_true_r. apply is_state_spec.
    destruct E5 as [->|(_ & _ & Hq)]; [done|]. exfalso.
    pose proof (ki_wait _ Hk j Hj Hl Hq) as Hno. unfold k_proc in Hno. lia. }
  destruct (waits_for p (proc (k_sched k5) j)) eqn:Ewf.
  - pose proof (proj1 (andb_prop _ _ Ewf)) as Hst. apply is_state_spec in Hst.
    assert (state (proc (k_sched k) j) = PROCESS_BLOCKED) as Hst0 by (destruct E5 as [<-|(? & _)]; done).
    destruct fg; simpl in Hc; destr_and; split_and!; try congruence; (intros _; split; congruence) || (right; split; congruence).
  - simpl in Hc. destr_and. split_and!; try congruence.
    + intros E. by apply Hwf in E.
    + destruct E5 as [E5|(? & ? & _)]; [left|right]; [congruence|split; congruence].
Qed.

(** A shell that is alive is still there when another process is taken apart. *)
Lemma drifts_alive c k k5 i :
  drifts c k k5 -> 0 <= i < MAX_PROCESSES -> i <> c -> pid (k_proc k i) = 1 -> alive (k_sched k) i ->
  pid (k_proc k5 i) = 1 /\ alive (k_sched k5) i.
Proof.
  intros Hd Hi Hne Hp [Hl Hz]. destruct (dr_others _ _ _ Hd i Hi Hne) as (E1 & _ & _ & _ & E5). split; [congruence|].
  unfold alive, live, k_proc in *. destruct E5 as [->|(_ & -> & _)]; done.
Qed.

(** ** [scheduler_exit_current] *)

Lemma zombie_step_inv s c :
  sched_inv s -> slot c -> state (proc s c) = PROCESS_RUNNING ->
  sched_inv (set_need_resched 1 (upd_proc c (fun p => set_ready_wait_ticks 0 (set_quantums_left 0 (set_state PROCESS_ZOMBIE p))) s)).
Proof.
  intros Hinv Hc Hst. apply sched_inv_resched. destruct (si_rep _ Hinv) as [Q Hrep]. pose proof (rr_sized _ _ Hrep) as Hs.
  assert (0 <= c < MAX_PROCESSES) as Hc' by slia. assert (live s c) as Hl by (unfold live; congruence).
  assert (ctrue (in_ready_queue (proc s c)) = false) as Hfl.
  { destruct (ctrue (in_ready_queue (proc s c))) eqn:E; [|done]. apply (ready_queued _ _ Hinv) in E; [congruence|done]. }
  set (f := fun p => set_ready_wait_ticks 0 (set_quantums_left 0 (set_state PROCESS_ZOMBIE p))).
  apply (sched_inv_one_upd s _ c f); try done.
  - by apply one_upd_upd.
  - exists Q. by apply (rr_upd_out s _ Hrep).
  - intros _ _. destruct (si_prio _ Hinv c Hc Hl) as (? & ? & _). simpl. lia.
  - intros j _ Hne. by rewrite proc_upd_ne.
  - intros _. apply flag_ok_iff. rewrite proc_upd_eq by done. simpl. by rewrite Hfl.
  - intros ->. slia.
Qed.


(** Up to the marking of the current process as a zombie. *)
Definition exit_mark (status : Z) k : option (Kernel M) :=
  let c := current_idx (k_sched k) in
  k ← close_process_fds c (restore_parent_foreground c (upd_pcb c (set_exit_status status) k));
  let k := on_sched (remove_from_ready_queue c) k in
  let k := upd_pcb c (fun p => set_ready_wait_ticks 0 (set_quantums_left 0 (set_state PROCESS_ZOMBIE p))) k in
  Some (on_sched (set_need_resched 1) k).

Lemma exit_unfold status k :
  slot (current_idx (k_sched k)) ->
  scheduler_exit_current status k =
  k5 ← exit_mark status k;
  Some (on_sched ensure_foreground_owner (for_loop 0 MAX_PROCESSES
    (wake_waiter (current_idx (k_sched k)) (ctrue (foreground (k_proc k (current_idx (k_sched k)))))) k5)).
Proof.
  intros Hc. unfold scheduler_exit_current, exit_mark. replace (current_idx (k_sched k) <=? 0) with false by slia.
  by destruct (close_process_fds _ _).
Qed.

Lemma exit_mark_spec status k :
  let c := current_idx (k_sched k) in
  kernel_inv k -> slot c -> state (k_proc k c) = PROCESS_RUNNING ->
  exists k5, exit_mark status k = Some k5 /\ sem_inv (sems k5) /\ drifts c k k5 /\ k_mm k5 = k_mm k /\
    state (k_proc k5 c) = PROCESS_ZOMBIE /\ exit_status (k_proc k5 c) = status /\
    pid (k_proc k5 c) = pid (k_proc k c) /\ parent_pid (k_proc k5 c) = parent_pid (k_proc k c) /\
    (forall fd, 0 <= fd < MAX_FDS -> (fds (k_proc k5 c)).[fd] = mkFD FD_NONE (-1)).
Proof.
  intros c Hk Hc Hst. assert (0 <= c < MAX_PROCESSES) as Hc' by slia. pose proof (ki_sem _ Hk) as Hm.
  unfold exit_mark. fold c. set (k1 := upd_pcb c (set_exit_status status) k).
  assert (sem_inv (sems k1)) as Hm1 by (by apply (upd_pcb_inv none)).
  assert (k_proc k1 c = set_exit_status status (k_proc k c)) as Hp1.
  { unfold k1. by rewrite (k_proc_upd none), Z.eqb_refl. }
  destruct (restore_fg_spec none c k1 Hm1 Hc') as (Hm2 & Hf2 & _). set (k2 := restore_parent_foreground c k1) in *. clearbody k2.
  destruct (fg_only_fields k1 k2 c Hf2 Hc') as (Hst2 & Hpid2 & _ & _ & Hfd2 & _ & Hex2 & Hpar2). rewrite Hp1 in *. simpl in *.
  assert (~ waits (sems k2) (pid (k_proc k2 c))) as Hn2.
  { apply (not_blocked_not_waits none (sems k2) c Hm2 Hc'); unfold live; change (proc (sem_sched (sems k2)) c) with (k_proc k2 c); congruence. }
  destruct (close_process_fds_spec none c k2 Hm2 Hc' Hn2) as (k3 & -> & Hcl & Hlen & Hfds).
  { rewrite Hfd2. by apply (ki_arrays _ Hk). }
  cbn [mbind option_bind]. pose proof (cl_inv _ _ _ _ Hcl) as Hm3. pose proof (cl_kept _ _ _ _ Hcl) as Hkept.
  pose proof (kept_state_i _ _ _ _ _ Hkept Hc') as Hst3. change (state (k_proc k3 c) = state (k_proc k2 c)) in Hst3.
  destruct (ident_eq _ _ (kp_ident _ _ _ _ _ Hkept c Hc')) as (Hpid3 & Hpar3 & _ & _ & _ & _ & _ & _ & Hex3).
  rewrite (on_sched_skip (remove_from_ready_queue c)).
  2:{ apply remove_skip. intros [_ E]. apply (ready_queued (k_sched k3) c (sv_sched _ Hm3) Hc) in E. unfold k_proc in *. congruence. }
  eexists. split; [done|]. set (f := fun p => set_ready_wait_ticks 0 (set_quantums_left 0 (set_state PROCESS_ZOMBIE p))).
  set (k4 := upd_pcb c f k3).
  assert (k_proc k4 c = f (k_proc k3 c)) as Hp4 by (unfold k4; by rewrite (k_proc_upd none), Z.eqb_refl).
  change (k_proc (on_sched (set_need_resched 1) k4)) with (k_proc k4). rewrite Hp4. unfold f. simpl. unfold k_proc in *.
  split_and!; try congruence.
  - apply (sem_inv_table none none (sems k3)); [done|apply zombie_step_inv; [apply Hm3|done|congruence]|].
    intros j Hj _ Hstj. change (pid (k_proc k4 j) = pid (k_proc k3 j) /\ state (k_proc k4 j) = PROCESS_BLOCKED).
    unfold k4. rewrite (k_proc_upd none) by done. change (state (k_proc k3 j) = PROCESS_BLOCKED) in Hstj. case_if; [|done].
    assert (j = c) as -> by lia. unfold k_proc in *. congruence.
  - eapply drifts_trans; [apply (drifts_upd none c (set_exit_status status)); done|].
    eapply drifts_trans; [by apply drifts_fg|]. eapply drifts_trans; [by eapply drifts_closes|].
    eapply drifts_trans; [apply (drifts_upd none c f); try done|].
    + intros p _. split_and!; try done. unfold live. rewrite Hst3. congruence.
    + by apply drifts_globals.
  - change (k_mm k3 = k_mm k). destruct (cl_rest _ _ _ _ Hcl) as (_ & -> & _). by rewrite (fo_mm _ _ Hf2).
  - done.
Qed.

Lemma exit_run status k :
  let c := current_idx (k_sched k) in
  kernel_inv k -> slot c -> state (k_proc k c) = PROCESS_RUNNING ->
  exists k', scheduler_exit_current status k = Some k' /\ kernel_inv k' /\ (saved k k' /\ mm_heap (k_mm k') = mm_heap (k_mm k)) /\
    current_idx (k_sched k') = c /\
    state (k_proc k' c) = PROCESS_ZOMBIE /\ exit_status (k_proc k' c) = status /\
    pid (k_proc k' c) = pid (k_proc k c) /\ parent_pid (k_proc k' c) = parent_pid (k_proc k c) /\
    (forall fd, 0 <= fd < MAX_FDS -> (fds (k_proc k' c)).[fd] = mkFD FD_NONE (-1)) /\
    others_after c (pid (k_proc k c)) (k_sched k) (k_sched k') /\
    ((exists i, 0 <= i < MAX_PROCESSES /\ i <> c /\ pid (k_proc k i) = 1 /\ alive (k_sched k) i) -> has_owner (k_sched k')).
Proof.
  intros c Hk Hc Hst. assert (0 <= c < MAX_PROCESSES) as Hc' by slia.
  assert (0 < pid (k_proc k c)) as Hp.
  { apply (si_fresh _ (sv_sched _ (ki_sem _ Hk))); [done|]. change (state (k_proc k c) <> PROCESS_DEAD). congruence. }
  rewrite exit_unfold by done. fold c.
  destruct (exit_mark_spec status k Hk Hc Hst) as (k5 & -> & Hm5 & Hd & Emm & Hz & Hex & Hpid & Hpar & Hfds).
  fold c in Hd, Hz, Hex, Hpid, Hpar, Hfds. cbn [mbind option_bind]. set (fg := ctrue _).
  destruct (wake_and_owner (wake_waiter c fg) k k5 c (pid (k_proc k c)) fg Hk (dr_shrinks _ _ _ Hd) (dr_waits _ _ _ Hd) Hm5)
    as (Hk' & Hcur & _ & Emm' & Ewd & Hcore & Hown); try done.
  - apply Hd, (ki_kbd _ Hk).
  - rewrite Emm. eapply stacks_shrink; [apply Hk|apply Hd].
  - intros k0 i E. unfold wake_waiter, wake_step. by rewrite E.
  - eexists. split; [done|]. split; [done|]. split; [|split; [by rewrite Hcur, (dr_current _ _ _ Hd)|]].
    { split; [|by rewrite Emm', Emm]. eapply saved_trans; [apply Hd|]. by eapply saved_woken. }
    destruct (Hcore c Hc') as [v Hcc]. assert (waits_for (pid (k_proc k c)) (k_proc k5 c) = false) as Hwf.
    { unfold waits_for. by rewrite Hz. }
    rewrite Hwf in Hcc. apply pcb_core_eq in Hcc. simpl in Hcc. destr_and. split_and!; try congruence.
    + intros fd Hfd. rewrite <- (Hfds fd Hfd). congruence.
    + by eapply others_after_wake.
    + intros (i & Hi & Hne & Hp1 & Ha). apply Hown. exists i. split; [done|]. by eapply drifts_alive.
Qed.

(** ** [scheduler_kill] *)

Lemma drifts_mm c m k : drifts c k (set_mm m k).
Proof. by destruct (drifts_refl c k); split. Qed.

Lemma drifts_sems c m k :
  sem_sched m = k_sched k -> (forall p, waits m p -> waits (sems k) p) -> drifts c k (set_sems m k).
Proof.
  intros Es Hw. assert (k_sched (set_sems m k) = k_sched k) as E by done.
  split; [rewrite E; apply shrinks_refl|done|by rewrite E|done|split; [done|]; unfold k_proc; by rewrite E|].
  intros j _ _. unfold k_proc. rewrite E. split_and!; try done. by left.
Qed.

(** Taking the process out of the queues and closing its descriptors. *)
Definition kill_detach (p i : Z) k : option (Kernel M) :=
  let k := restore_parent_foreground i (on_sched (remove_from_ready_queue i) k) in
  close_process_fds i (set_sems (sem_remove_waiting_pid p (ps_sem (k_pipes k))) k).

Lemma remove_queue_inv k i :
  sem_inv (sems k) -> slot i -> sem_inv_ex (eq i) (sems (on_sched (remove_from_ready_queue i) k)).
Proof.
  intros Hm Hi. pose proof (remove_frame (k_sched k) i) as Hf.
  apply (sem_inv_table none (eq i) (sems k)); [done|by apply remove_exception; [apply Hm|]|].
  intros j Hj _ Hst. pose proof (rf_core _ _ Hf j) as E. apply pcb_core_eq in E. destr_and.
  split; [done|]. change (sem_sched (sems k)) with (k_sched k) in Hst. congruence.
Qed.

Lemma kill_detach_spec p i k :
  kernel_inv k -> slot i -> live (k_sched k) i -> pid (k_proc k i) = p ->
  exists k4, kill_detach p i k = Some k4 /\ sem_inv_ex (eq i) (sems k4) /\ drifts i k k4 /\ k_mm k4 = k_mm k /\
    pid (k_proc k4 i) = p /\ live (k_sched k4) i /\ stack_base (k_proc k4 i) = stack_base (k_proc k i) /\
    ctrue (in_ready_queue (k_proc k4 i)) = false /\ ~ waits (sems k4) p.
Proof.
  intros Hk Hi Hl Hp. assert (0 <= i < MAX_PROCESSES) as Hi' by slia. pose proof (ki_sem _ Hk) as Hm.
  unfold kill_detach. set (k1 := on_sched (remove_from_ready_queue i) k).
  pose proof (remove_queue_inv k i Hm Hi) as Hm1. fold k1 in Hm1.
  assert (pcb_core (k_proc k1 i) = pcb_core (k_proc k i)) as Hc1 by apply (remove_frame (k_sched k) i).
  assert (ctrue (in_ready_queue (k_proc k1 i)) = false) as Hq1.
  { destruct (si_rep _ (sv_sched _ Hm : sched_inv (k_sched k))) as [Q Hrep]. 
    change (k_proc k1 i) with (proc (remove_from_ready_queue i (k_sched k)) i). rewrite (remove_flag _ Q) by (done || lia). slia. }
  destruct (restore_fg_spec (eq i) i k1 Hm1 Hi') as (Hm2 & Hf2 & _). set (k2 := restore_parent_foreground i k1) in *. clearbody k2.
  destruct (fg_only_fields k1 k2 i Hf2 Hi') as (Hst2 & Hpid2 & Hsb2 & _ & Hfd2 & Hq2 & _ & _). apply pcb_core_eq in Hc1 as (Hcp & _ & _ & Hcs & _ & _ & _ & _ & _ & Hcb & _ & _ & _ & Hcf).
  pose proof (@Sched_laws_ex (eq i)) as Hlaws.
  set (m3 := sem_remove_waiting_pid p (ps_sem (k_pipes k2))). set (k3 := set_sems m3 k2).
  assert (sem_inv_ex (eq i) m3) as Hm3 by (apply (sem_remove_waiting_pid_inv (H0 := sched_inv_ex (eq i))); exact Hm2).
  assert (sem_sched m3 = k_sched k2) as Hs3.
  { exact (proj1 (sem_remove_waiting_pid_sem (H0 := sched_inv_ex (eq i)) p (sems k2) Hm2)). }
  assert (forall q, waits m3 q -> waits (sems k2) q /\ q <> p) as Hw3.
  { intros q (id & Hid & Hq). unfold queued, m3 in Hq. change (ps_sem (k_pipes k2)) with (sems k2) in Hq.
    rewrite (sem_remove_waiting_pid_queued (H0 := sched_inv_ex (eq i)) p (sems k2) id Hm2 Hid), list_elem_of_fmap in Hq.
    destruct Hq as (x & -> & [Hx Hin]%list_elem_of_filter). split; [|done]. exists id. split; [done|]. by apply list_elem_of_fmap_2. }
  assert (k_proc k3 i = k_proc k2 i) as Hp3 by (unfold k_proc; change (k_sched k3) with (sem_sched m3); by rewrite Hs3).
  assert (~ waits (sems k3) (pid (k_proc k3 i))) as Hn3.
  { rewrite Hp3. intros [_ E]%Hw3. congruence. }
  destruct (close_process_fds_spec (eq i) i k3 Hm3 Hi' Hn3) as (k4 & -> & Hcl & Hlen & Hfds).
  { rewrite Hp3. destruct (ki_arrays _ Hk i Hi') as [? _]. congruence. }
  exists k4. pose proof (cl_kept _ _ _ _ Hcl) as Hkept. pose proof (kept_live _ _ _ _ _ _ Hkept Hi') as Hl4.
  destruct (ident_eq _ _ (kp_ident _ _ _ _ _ Hkept i Hi')) as (Hpid4 & _ & _ & _ & _ & Hsb4 & _).
  pose proof (kp_flag _ _ _ _ _ Hkept) as Hq4. fold (k_proc k4 i) in *. fold (k_proc k3 i) in *. rewrite Hp3 in *.
  split_and!; try congruence; try done.
  - apply Hcl.
  - eapply drifts_trans; [by apply drifts_remove|]. eapply drifts_trans; [by apply drifts_fg|].
    eapply drifts_trans; [apply (drifts_sems i m3); [done|]; intros q Hq; by apply Hw3|]. by eapply drifts_closes.
  - destruct (cl_rest _ _ _ _ Hcl) as (_ & -> & _). exact (fo_mm _ _ Hf2).
  - apply Hl4. unfold live. fold (k_proc k3 i). rewrite Hp3. unfold live, k_proc in *. congruence.
  - intros Hw. apply (cl_waits _ _ _ _ Hcl) in Hw. by apply Hw3 in Hw as [_ ?].
Qed.

(** Freeing an entry that is in no queue. *)
Lemma retire_step X i f (m : SemSt Sched) :
  sem_inv_ex X m -> (forall j, X j -> j = i) -> slot i -> live (sem_sched m) i ->
  ctrue (in_ready_queue (proc (sem_sched m) i)) = false -> ~ waits m (pid (proc (sem_sched m) i)) ->
  (forall p, state (f p) = PROCESS_DEAD /\ ctrue (in_ready_queue (f p)) = false /\ quantums_left (f p) = 0) ->
  let s := sem_sched m in
  sem_inv (set_sem_sched (set_process_count (process_count s - 1) (upd_proc i f s)) m).
Proof.
  intros Hm HX Hi Hl Hq Hw Hf s. pose proof (sv_sched _ Hm) as Hs. change (sched_inv_ex X s) in Hs.
  destruct (si_rep _ Hs) as [Q Hrep]. pose proof (rr_sized _ _ Hrep) as Hsz.
  assert (0 <= i < MAX_PROCESSES) as Hi' by slia. destruct (Hf (proc s i)) as (F1 & F2 & F3).
  apply (sem_inv_table X none); [done|..].
  - apply (retire_inv X none s _ i); try done.
    + intros j Hj. left. by apply HX.
    + exists Q. assert (ready_rep (upd_proc i f s) Q) as Hr by (apply (rr_upd_out s _ Hrep); [done|congruence]).
      destruct Hr; by split.
    + intros j _ Hne. rewrite proc_set_count, proc_upd_ne by done. done.
    + by rewrite proc_set_count, proc_upd_eq.
    + by rewrite proc_set_count, proc_upd_eq.
    + rewrite proc_set_count, proc_upd_eq, F3 by done. done.
  - intros j Hj Hwj Hst. assert (j <> i) as Hne by (intros ->; done).
    rewrite proc_set_count, proc_upd_ne by done. done.
Qed.

Lemma drifts_retire X i f k m :
  sem_inv_ex X (sems k) -> slot i -> (forall p, state (f p) = PROCESS_DEAD /\ length (fds (f p)) = length (fds p) /\ name (f p) = name p) ->
  drifts i k (on_sched (fun s => set_process_count (process_count s - 1) (upd_proc i f s)) (set_mm m k)).
Proof.
  intros Hm Hi Hf. eapply drifts_trans; [apply (drifts_mm i m)|].
  pose proof (sem_inv_sized X (set_mm m k) Hm) as Hs. assert (0 <= i < MAX_PROCESSES) as Hi' by slia.
  apply drifts_table; try done.
  - intros j Hne. by rewrite proc_set_count, proc_upd_ne.
  - unfold live. rewrite proc_set_count, proc_upd_eq by done. by rewrite (proj1 (Hf _)).
  - rewrite proc_set_count, proc_upd_eq by done. apply Hf.
  - rewrite proc_set_count, proc_upd_eq by done. apply Hf.
Qed.

(** The state from which [scheduler_kill] wakes the processes that wait. *)
Lemma kill_unfold p i k :
  1 < p -> find_idx (has_pid (k_sched k) p) 0 MAX_PROCESSES = i -> slot i -> i <> current_idx (k_sched k) ->
  scheduler_kill p k =
  k4 ← kill_detach p i k;
  k6 ← free_stack i (upd_pcb i kill_fields k4);
  Some (0, on_sched ensure_foreground_owner (for_loop 0 MAX_PROCESSES (wake_killed p)
    (on_sched (fun s => set_process_count (process_count s - 1) s) k6))).
Proof.
  intros Hp Hf Hi Hne. unfold scheduler_kill. replace (p <=? 1) with false by lia. rewrite Hf.
  replace (i <? 0) with false by slia. replace (i =? current_idx (k_sched k)) with false by lia.
  unfold kill_detach. destruct (close_process_fds _ _) as [k4|]; [|done]. cbn [mbind option_bind].
  by destruct (free_stack _ _).
Qed.

Lemma upd_pcb_twice i f g k : upd_pcb i g (upd_pcb i f k) = upd_pcb i (fun p => g (f p)) k.
Proof. unfold upd_pcb, on_sched. change (k_sched (set_sched ?s k)) with s. by rewrite upd_proc_upd. Qed.

Lemma kill_mark_spec p i k :
  kernel_inv k -> slot i -> live (k_sched k) i -> pid (k_proc k i) = p ->
  mm_freeable (k_mm k) (stack_base (k_proc k i)) ->
  exists k4 k6, kill_detach p i k = Some k4 /\ free_stack i (upd_pcb i kill_fields k4) = Some k6 /\
    let k7 := on_sched (fun s => set_process_count (process_count s - 1) s) k6 in
    sem_inv (sems k7) /\ drifts i k k7 /\ stacks_ok (k_mm k7) (k_sched k7) /\ mm_heap (k_mm k7) = mm_heap (k_mm k) /\
    pid (k_proc k7 i) = p /\ state (k_proc k7 i) = PROCESS_DEAD /\ ~ waits (sems k7) p.
Proof.
  intros Hk Hsl Hl Hpid Hfr. assert (0 <= i < MAX_PROCESSES) as Hi' by slia.
  destruct (kill_detach_spec p i k Hk Hsl Hl Hpid) as (k4 & E4 & Hm4 & Hd4 & Emm & Hpid4 & Hl4 & Hsb4 & Hq4 & Hw4).
  destruct (free_stack_ok (k_mm k) (k_sched k) i (ki_stacks _ Hk) Hsl Hl Hfr) as (_ & Hni & m' & Hfree & Hheap & Hst').
  set (f := fun q => set_stack_base 0 (kill_fields q)). exists k4, (upd_pcb i f (set_mm m' k4)).
  split; [done|]. split.
  { unfold free_stack. rewrite (k_proc_upd (eq i)), Z.eqb_refl by done.
    change (stack_base (kill_fields (k_proc k4 i))) with (stack_base (k_proc k4 i)).
    rewrite Hsb4. replace (stack_base (k_proc k i) =? idle_stack) with false by (unfold k_proc; lia). cbn [negb].
    change (k_mm (upd_pcb i kill_fields k4)) with (k_mm k4). rewrite Emm. unfold k_proc. rewrite Hfree. cbn [mbind option_bind].
    f_equal. apply (upd_pcb_twice i kill_fields (set_stack_base 0) (set_mm m' k4)). }
  set (k7 := on_sched _ _).
  assert (k7 = on_sched (fun s => set_process_count (process_count s - 1) (upd_proc i f s)) (set_mm m' k4)) as E7 by done.
  assert (drifts i k k7) as Hd by (rewrite E7; eapply drifts_trans; [done|]; by apply (drifts_retire (eq i))).
  assert (k_proc k7 i = f (k_proc k4 i)) as Hp7.
  { change (k_proc k7 i) with (k_proc (upd_pcb i f k4) i). by rewrite (k_proc_upd (eq i)), Z.eqb_refl. }
  cbv zeta. rewrite Hp7. split_and!; try done.
  - rewrite E7. apply (retire_step (eq i) i f (sems k4)); try done.
    change (proc (sem_sched (sems k4)) i) with (k_proc k4 i). by rewrite Hpid4.
  - apply Hst'; [apply Hd|]. unfold live. change (proc (k_sched k7) i) with (k_proc k7 i). rewrite Hp7. naive_solver.
Qed.

Lemma kill_other_run p i k :
  kernel_inv k -> 1 < p -> 0 <= i < MAX_PROCESSES -> live (k_sched k) i -> pid (k_proc k i) = p ->
  i <> current_idx (k_sched k) -> mm_freeable (k_mm k) (stack_base (k_proc k i)) ->
  exists k', scheduler_kill p k = Some (0, k') /\ kernel_inv k' /\ (saved k k' /\ mm_heap (k_mm k') = mm_heap (k_mm k) /\ forall q, waits (sems k') q -> waits (sems k) q) /\
    state (k_proc k' i) = PROCESS_DEAD /\
    current_idx (k_sched k') = current_idx (k_sched k) /\ others_after i p (k_sched k) (k_sched k') /\
    ~ waits (sems k') p /\
    ((exists j, 0 <= j < MAX_PROCESSES /\ j <> i /\ pid (k_proc k j) = 1 /\ alive (k_sched k) j) -> has_owner (k_sched k')).
Proof.
  intros Hk Hp Hi Hl Hpid Hcur Hfr. pose proof (sv_sched _ (ki_sem _ Hk)) as Hs. change (sched_inv (k_sched k)) in Hs.
  assert (slot i) as Hsl.
  { destruct (decide (i = 0)) as [->|]; [|slia]. destruct (si_idle _ Hs) as [E _]. change (pid (k_proc k 0) = 0) in E. lia. }
  rewrite (kill_unfold p i) by (done || (rewrite <- Hpid; by apply (find_pid_live (X := none)))).
  destruct (kill_mark_spec p i k Hk Hsl Hl Hpid Hfr) as (k4 & k6 & -> & E6 & Hm7 & Hd & Hst & Hheap & Hp7 & Hs7 & Hw7).
  cbn [mbind option_bind]. rewrite E6. cbn [mbind option_bind]. set (k7 := on_sched _ k6) in *.
  destruct (wake_and_owner (wake_killed p) k k7 i p false Hk (dr_shrinks _ _ _ Hd) (dr_waits _ _ _ Hd) Hm7)
    as (Hk' & Hcur' & Hw' & Emm' & Ewd & Hcore & Hown); try done; [by apply Hd, (ki_kbd _ Hk)|lia|].
  eexists. split; [done|]. split; [done|]. split_and!.
  - eapply saved_trans; [apply Hd|]. by eapply saved_woken.
  - by rewrite Emm'.
  - intros q Hq. apply (dr_waits _ _ _ Hd). auto.
  - destruct (Hcore i Hi) as [v Hc]. assert (waits_for p (k_proc k7 i) = false) as Hwf by (unfold waits_for; by rewrite Hs7).
    rewrite Hwf in Hc. apply pcb_core_eq in Hc. simpl in Hc. destr_and. congruence.
  - rewrite Hcur'. apply Hd.
  - eapply others_after_wake; try done. lia.
  - auto.
  - intros (j & Hj & Hne & Hp1 & Ha). apply Hown. exists j. split; [done|]. by eapply drifts_alive.
Qed.

(** ** [scheduler_wait] *)

Lemma reap_fields_spec p :
  state (reap_fields p) = PROCESS_DEAD /\ ctrue (in_ready_queue (reap_fields p)) = false /\
  quantums_left (reap_fields p) = 0 /\ length (fds (reap_fields p)) = length (fds p) /\ name (reap_fields p) = name p.
Proof.
  unfold reap_fields. set (q := set_exit_status 0 _).
  assert (exists l, for_loop 0 MAX_FDS (fun p fd => set_fd fd (mkFD FD_NONE (-1)) p) q = set_fds l q /\
    length l = length (fds q)) as (l & -> & Hl); [|done].
  apply (for_loop_ind (fun _ q' => exists l, q' = set_fds l q /\ length l = length (fds q))); [done|by exists (fds q)|].
  intros i q' _ (l & -> & Hl). exists (seti i (mkFD FD_NONE (-1)) l). by rewrite length_seti.
Qed.

Lemma reap_run i k :
  kernel_inv k -> slot i -> state (k_proc k i) = PROCESS_ZOMBIE -> mm_freeable (k_mm k) (stack_base (k_proc k i)) ->
  exists k1, reap_process i k = Some k1 /\
    let k' := on_sched (fun s => set_process_count (process_count s - 1) s) k1 in
    kernel_inv k' /\ drifts i k k' /\ state (k_proc k' i) = PROCESS_DEAD /\ mm_heap (k_mm k') = mm_heap (k_mm k).
Proof.
  intros Hk Hsl Hz Hfr. assert (0 <= i < MAX_PROCESSES) as Hi' by slia. pose proof (ki_sem _ Hk) as Hm.
  pose proof (sv_sched _ Hm) as Hs. change (sched_inv (k_sched k)) in Hs.
  assert (live (k_sched k) i) as Hl by (unfold live; fold (k_proc k i); congruence).
  assert (ctrue (in_ready_queue (k_proc k i)) = false) as Hq.
  { destruct (ctrue (in_ready_queue (k_proc k i))) eqn:E; [|done]. apply (ready_queued _ _ Hs Hsl) in E.
    change (state (k_proc k i) = PROCESS_READY) in E. congruence. }
  destruct (free_stack_ok (k_mm k) (k_sched k) i (ki_stacks _ Hk) Hsl Hl Hfr) as (Hn0 & Hni & m' & Hfree & Hheap & Hst').
  exists (upd_pcb i reap_fields (set_mm m' k)). split.
  { unfold reap_process. replace ((i <=? 0) || (i >=? MAX_PROCESSES)) with false by slia.
    rewrite (on_sched_skip (remove_from_ready_queue i)) by (apply remove_skip; intros [_ E]; unfold k_proc in *; congruence).
    replace (negb (stack_base (k_proc k i) =? 0) && negb (stack_base (k_proc k i) =? idle_stack)) with true by (unfold k_proc; lia).
    unfold k_proc. by rewrite Hfree. }
  set (k' := on_sched _ _).
  assert (k' = on_sched (fun s => set_process_count (process_count s - 1) (upd_proc i reap_fields s)) (set_mm m' k)) as E' by done.
  assert (drifts i k k') as Hd by (rewrite E'; apply (drifts_retire none); try done; intros; split_and!; apply reap_fields_spec).
  assert (k_proc k' i = reap_fields (k_proc k i)) as Hp'.
  { change (k_proc k' i) with (k_proc (upd_pcb i reap_fields k) i). by rewrite (k_proc_upd none), Z.eqb_refl. }
  cbv zeta. rewrite Hp'. split_and!; try done; try apply reap_fields_spec. apply (kernel_inv_shrink k); try done; try apply Hd.
  - rewrite E'. apply (retire_step none i reap_fields (sems k)); try done; intros; try (by split_and!; apply reap_fields_spec).
    apply (not_blocked_not_waits none (sems k) i Hm Hi' Hl). change (state (k_proc k i) <> PROCESS_BLOCKED). congruence.
  - apply (ki_kbd _ Hk).
  - apply Hst'; [apply Hd|]. unfold live. change (proc (k_sched k') i) with (k_proc k' i). rewrite Hp'.
    pose proof (proj1 (reap_fields_spec (k_proc k i))). tauto.
Qed.

End End_.
