(* ===== verification/KernelCreate.v ===== *)
(** * Creation of processes

    [scheduler_create] and [scheduler_init] on the whole kernel state, and the
    context that a new process starts with. *)

From S2P Require Import Prelude Process ReadyQueue Sched Lifecycle SchedIface Lib Semaphore Memory Pipe Keyboard Wakes Kernel KernelInv KernelEnd.
Local Open Scope Z_scope.

(** ** Initial stacks *)

Lemma word_insert m a b v : word (<[a := v]> m) b = if b =? a then v else word m b.
Proof.
  unfold word. destruct (Z.eqb_spec b a) as [->|Hne]; [by rewrite lookup_insert_eq|by rewrite lookup_insert_ne].
Qed.

(** Pushed words are found above the stack pointer, the last one first. *)
Lemma push_words vs : forall sp m,
  let '(sp', m') := foldl push (sp, m) vs in
  sp' = sp - 8 * Z.of_nat (length vs) /\
  forall a, word m' a =
    if (sp' <=? a) && (a <? sp) && ((sp - a) mod 8 =? 0) then vs.[(sp - a) / 8 - 1] else word m a.
Proof.
  induction vs as [|v vs IH] using rev_ind; intros sp m.
  { simpl. split; [lia|]. intros a. case_if; [lia|done]. }
  rewrite foldl_app. specialize (IH sp m). destruct (foldl push (sp, m) vs) as [sp1 m1]. destruct IH as [-> IH].
  simpl. rewrite length_app. cbn [length]. split; [lia|]. intros a. rewrite word_insert, IH.
  set (n := Z.of_nat (length vs)) in *.
  assert (Z.of_nat (length vs + 1) = n + 1) as En by lia.
  destruct (Z.eqb_spec a (sp - 8 * n - 8)) as [->|Hne].
  - replace (sp - (sp - 8 * n - 8)) with ((n + 1) * 8) by lia. rewrite Z.mod_mul, Z.div_mul by lia.
    replace ((sp - 8 * n - 8 <=? sp - 8 * n - 8) && (sp - 8 * n - 8 <? sp) && (0 =? 0)) with true by lia.
    unfold geti. case_if; [|lia]. replace (Z.to_nat (n + 1 - 1)) with (length vs) by lia.
    rewrite lookup_total_app_r by lia. by rewrite Nat.sub_diag.
  - pose proof (Z.div_mod (sp - a) 8 ltac:(lia)) as Hdm. pose proof (Z.mod_pos_bound (sp - a) 8 ltac:(lia)).
    case_if; case_if; try lia; try done.
    unfold geti. case_if; [|lia]. rewrite lookup_total_app_l; [done|]. lia.
Qed.

Section Frame.
Context `{Linkage}.

(** The registers a process starts with. *)
Definition start_context (base entry argc argv : Z) : Context :=
  mkContext 0 0 0 0 0 0 0 0 argv (u64 argc) 0 0 0 0 0 entry 0x08 0x202 (base + STACK_SIZE - 8) 0x00.

Lemma setup_initial_stack_spec base entry argc argv m :
  let '(sp, m') := setup_initial_stack base entry argc argv m in
  sp = base + STACK_SIZE - 160 /\ load_context sp m' = start_context base entry argc argv /\
  word m' (base + STACK_SIZE - 8) = 0 /\
  forall a, a < base \/ base + STACK_SIZE <= a -> word m' a = word m a.
Proof.
  unfold setup_initial_stack. set (vs := [0x00; _; _; _; _; _; _; _; _; _; _; _; _; _; _; _; _; _; _; _]).
  pose proof (push_words vs (base + STACK_SIZE) (<[base + STACK_SIZE - 8 := process_exit_trampoline]> m)) as Hp.
  destruct (foldl push _ vs) as [sp m']. destruct Hp as [-> Hp]. change (Z.of_nat (length vs)) with 20 in *.
  assert (forall i, 0 <= i < 20 -> word m' (base + STACK_SIZE - 160 + 8 * i) = vs.[19 - i]) as Hw.
  { intros i Hi. rewrite Hp. replace (base + STACK_SIZE - (base + STACK_SIZE - 160 + 8 * i)) with ((20 - i) * 8) by lia.
    rewrite Z.mod_mul, Z.div_mul by lia. replace (20 - i - 1) with (19 - i) by lia. case_if; [done|lia]. }
  split_and!; [lia|..].
  - unfold load_context, start_context. replace (base + STACK_SIZE - 8 * 20) with (base + STACK_SIZE - 160) by lia.
    rewrite !Hw by lia. reflexivity.
  - replace (base + STACK_SIZE - 8) with (base + STACK_SIZE - 160 + 8 * 19) by lia. by rewrite Hw by lia.
  - intros a Ha. rewrite Hp. unfold STACK_SIZE in *. case_if; [lia|]. rewrite word_insert. case_if; [lia|done].
Qed.

End Frame.

(** ** Names *)

Lemma drop_seti (l : list Z) i x :
  0 <= i < Z.of_nat (length l) -> drop (Z.to_nat i) (seti i x l) = x :: drop (S (Z.to_nat i)) l.
Proof.
  intros Hi. assert ((seti i x l) !! Z.to_nat i = Some x) as E.
  { assert ((seti i x l) !! Z.to_nat i = Some (geti (seti i x l) i)) as ->.
    { unfold geti. case_if; [|lia]. apply list_lookup_lookup_total_lt. rewrite length_seti. lia. }
    f_equal. by apply geti_seti_eq. }
  rewrite (drop_S _ _ _ E). f_equal. unfold seti, alteri. case_if; [|lia]. rewrite drop_alter. case_decide; [lia|done].
Qed.

Lemma take_seti (l : list Z) i x : 0 <= i -> take (Z.to_nat i) (seti i x l) = take (Z.to_nat i) l.
Proof. intros Hi. unfold seti, alteri. case_if; [|done]. rewrite take_alter. case_decide; [lia|done]. Qed.

Lemma copy_name_loop_spec src : forall fuel i dst,
  0 <= i -> (Z.to_nat i + fuel < length dst)%nat ->
  let r := copy_name_loop fuel i dst src in
  length r = length dst /\ take (Z.to_nat i) r = take (Z.to_nat i) dst /\
  cstr (drop (Z.to_nat i) r) = take fuel (cstr (drop (Z.to_nat i) src)).
Proof.
  assert (forall i dst, 0 <= i -> (Z.to_nat i < length dst)%nat ->
    cstr (drop (Z.to_nat i) (seti i 0 dst)) = []) as Hend.
  { intros i dst Hi Hl. by rewrite drop_seti by lia. }
  induction fuel as [|fuel IH]; intros i dst Hi Hl; simpl.
  { rewrite length_seti, take_seti, Hend by lia. done. }
  case_if.
  - rewrite length_seti, take_seti, Hend by lia. split_and!; try done. unfold char_at in Heqb.
    destruct (src !! Z.to_nat i) as [c|] eqn:E; simpl in Heqb.
    + rewrite (drop_S _ _ _ E). simpl. by rewrite Heqb.
    + apply lookup_ge_None in E. by rewrite drop_ge.
  - unfold char_at in *. destruct (src !! Z.to_nat i) as [c|] eqn:E; [|done]. cbn [default from_option id] in *.
    destruct (IH (i + 1) (seti i c dst)) as (L & T & C); [lia|rewrite length_seti; lia|].
    replace (Z.to_nat (i + 1)) with (S (Z.to_nat i)) in * by lia. rewrite length_seti in L.
    set (r := copy_name_loop fuel (i + 1) (seti i c dst) src) in *.
    split_and!; [done|..].
    + apply (f_equal (take (Z.to_nat i))) in T. rewrite !take_take, !Nat.min_l in T by lia. by rewrite T, take_seti.
    + assert (r !! Z.to_nat i = Some c) as Er.
      { rewrite <- (lookup_take_lt r (S (Z.to_nat i))) by lia. rewrite T, lookup_take_lt by lia.
        rewrite <- (Nat.add_0_r (Z.to_nat i)), <- lookup_drop, drop_seti by lia. done. }
      rewrite (drop_S _ _ _ Er), (drop_S _ _ _ E). simpl. rewrite Heqb. simpl. by rewrite C.
Qed.

Lemma copy_name_cstr dst src :
  length dst = 32%nat -> length (copy_name dst src) = 32%nat /\ cstr (copy_name dst src) = take 31 (cstr src).
Proof.
  intros Hl. destruct (copy_name_loop_spec src 31 0 dst) as (L & _ & C); [lia|simpl; lia|].
  split; [by rewrite <- Hl|]. exact C.
Qed.

(** ** [scheduler_create] *)

Lemma upd_proc_comm i j f g s : i <> j -> upd_proc i f (upd_proc j g s) = upd_proc j g (upd_proc i f s).
Proof.
  intros Hne. unfold upd_proc, set_process_table. simpl. f_equal. unfold alteri. case_if; case_if; try done.
  apply list_eq. intros n. rewrite !list_lookup_alter. repeat case_decide; subst; done || lia.
Qed.

Section Create.
Context `{Linkage} {M : Type} `{Hmm : MemManagerLaws M}.
Implicit Types k : Kernel M.

(** The priority that is used. *)
Definition used_priority (prio : Z) : Z :=
  if (prio <? PROCESS_PRIORITY_MIN) || (prio >? PROCESS_PRIORITY_MAX) then DEFAULT_PRIORITY else prio.

(** The fields of a new entry. *)
Definition new_entry (np parent prio fg stack sp : Z) (nm : list Z) (p : PCB) : PCB :=
  init_fds (set_rsp sp (create_fields prio fg stack nm (set_parent_pid parent (set_pid np p)))).

(** The table before the new entry. *)
Definition yield_foreground (fg : Z) (s : Sched) : Sched :=
  if ctrue fg then upd_proc (current_idx s) (set_foreground 0) s else s.

Lemma upd_pcb_set i f s k : upd_pcb i f (set_sched s k) = set_sched (upd_proc i f s) k.
Proof. done. Qed.

Lemma create_ids_eq i k :
  0 <= current_idx (k_sched k) -> current_idx (k_sched k) <> i ->
  let s := k_sched k in
  create_ids i k = set_sched (set_next_pid (next_pid s + 1)
    (upd_proc i (fun p => set_parent_pid (pid (proc s (current_idx s))) (set_pid (next_pid s) p)) s)) k.
Proof.
  intros Hc Hne s. unfold create_ids.
  change (on_sched _ (upd_pcb i (set_pid (next_pid (k_sched k))) k)) with
    (set_sched (set_next_pid (next_pid s + 1) (upd_proc i (set_pid (next_pid s)) s)) k).
  change (current_idx (k_sched (set_sched ?x k))) with (current_idx x). cbn [current_idx set_next_pid upd_proc set_process_table].
  replace (current_idx s >=? 0) with true by (unfold s; lia). rewrite upd_pcb_set. f_equal. unfold k_proc.
  change (k_sched (set_sched ?x k)) with x. rewrite proc_set_next_pid, proc_upd_ne by done.
  change (upd_proc i ?f (set_next_pid ?v ?x)) with (set_next_pid v (upd_proc i f x)). by rewrite upd_proc_upd.
Qed.

Lemma create_unfold entry nm prio fg argc argv k i stack m :
  find_free_slot (k_sched k) = i -> slot i -> mm_alloc STACK_SIZE (k_mm k) = Some (stack, m) -> stack <> 0 ->
  sched_inv (k_sched k) -> current_idx (k_sched k) <> i ->
  let s := k_sched k in
  let '(sp, w) := setup_initial_stack stack entry argc argv (k_words k) in
  let s' := make_ready i true (filled i (new_entry (next_pid s) (pid (proc s (current_idx s))) (used_priority prio) fg stack sp nm)
              (yield_foreground fg s)) in
  scheduler_create entry nm prio fg argc argv k = Some (pid (proc s' i), set_sched s' (set_words w (set_mm m k))).
Proof.
  intros Hf Hi Ha Hs Hinv Hne s. destruct (setup_initial_stack stack entry argc argv (k_words k)) as [sp w] eqn:Ew.
  pose proof (si_current _ Hinv) as Hc. destruct (si_rep _ Hinv) as [Q Hrep]. pose proof (rr_sized _ _ Hrep) as Hsz.
  assert (0 <= i < MAX_PROCESSES) as Hi' by slia.
  unfold scheduler_create. rewrite Hf, Ha. replace (i <? 0) with false by slia. cbn beta iota delta [mbind option_bind].
  replace (stack =? 0) with false by lia. fold (used_priority prio).
  rewrite (create_ids_eq i (set_mm m k)) by (done || apply Hc). cbv zeta. rewrite upd_pcb_set.
  change (k_sched (set_mm m k)) with s.
  change (upd_proc i ?f (set_next_pid ?v ?x)) with (set_next_pid v (upd_proc i f x)). rewrite upd_proc_upd.
  set (g := fun p => create_fields _ _ _ _ _).
  unfold create_stack. set (k1 := set_sched _ (set_mm m k)).
  assert (stack_base (k_proc k1 i) = stack) as ->.
  { unfold k1, k_proc. change (k_sched (set_sched ?x _)) with x. rewrite proc_set_next_pid, proc_upd_eq by done. done. }
  change (k_words k1) with (k_words k). rewrite Ew. unfold k1.
  change (set_words w (set_sched ?x (set_mm m k))) with (set_sched x (set_words w (set_mm m k))). rewrite upd_pcb_set.
  change (upd_proc i ?f (set_next_pid ?v ?x)) with (set_next_pid v (upd_proc i f x)). rewrite upd_proc_upd.
  set (k0 := set_words w (set_mm m k)). set (np := next_pid s + 1).
  unfold create_foreground. change (current_idx (k_sched (set_sched ?x k0))) with (current_idx x).
  cbn [current_idx set_next_pid upd_proc set_process_table]. replace (current_idx s >=? 0) with true by (unfold s; lia). rewrite andb_true_r.
  assert (forall h, upd_pcb i init_fds (if ctrue fg then upd_pcb (current_idx s) (set_foreground 0) (set_sched (set_next_pid np (upd_proc i h s)) k0)
     else set_sched (set_next_pid np (upd_proc i h s)) k0) =
     set_sched (set_next_pid np (upd_proc i (fun p => init_fds (h p)) (yield_foreground fg s))) k0) as ->.
  { intros h. unfold yield_foreground. case_if; rewrite !upd_pcb_set; f_equal.
    - change (upd_proc ?j ?f (set_next_pid ?v ?x)) with (set_next_pid v (upd_proc j f x)).
      change (upd_proc ?j ?f (set_next_pid ?v ?x)) with (set_next_pid v (upd_proc j f x)).
      rewrite (upd_proc_comm (current_idx s) i) by done. by rewrite upd_proc_upd.
    - change (upd_proc ?j ?f (set_next_pid ?v ?x)) with (set_next_pid v (upd_proc j f x)). by rewrite upd_proc_upd. }
  assert (next_pid (yield_foreground fg s) = next_pid s) as En by (unfold yield_foreground; by case_if).
  unfold filled. rewrite En. unfold new_entry. reflexivity.
Qed.

Lemma init_fds_spec p :
  length (fds p) = 8%nat ->
  init_fds p = set_fds ([mkFD FD_STDIN (-1); mkFD FD_STDOUT (-1)] ++ replicate 6 (mkFD FD_NONE (-1))) p.
Proof.
  intros Hl. destruct p as [? ? ? ? ? ? ? ? ? ? ? ? ? ? ? l]. simpl in Hl.
  do 9 (destruct l as [|? l]; simpl in Hl; try lia). reflexivity.
Qed.

Lemma new_entry_fields np parent prio fg stack sp nm p :
  arrays_ok p ->
  let q := new_entry np parent prio fg stack sp nm p in
  pid q = np /\ parent_pid q = parent /\ state q = PROCESS_READY /\ priority q = prio /\ effective_priority q = prio /\
  quantums_left q = DEFAULT_QUANTUM /\ in_ready_queue q = 0 /\ ready_wait_ticks q = 0 /\ rsp q = sp /\
  stack_base q = stack /\ foreground q = fg /\ waiting_for q = -1 /\ exit_status q = 0 /\
  fds q = [mkFD FD_STDIN (-1); mkFD FD_STDOUT (-1)] ++ replicate 6 (mkFD FD_NONE (-1)) /\
  cstr (name q) = take 31 (cstr nm) /\ arrays_ok q.
Proof.
  intros [Hl Hn]. unfold new_entry. set (p1 := create_fields _ _ _ _ _). rewrite init_fds_spec by done.
  destruct (copy_name_cstr (name p) nm Hn) as [Hn1 Hn2]. unfold p1. split_and!; done.
Qed.

Lemma used_priority_range prio : PROCESS_PRIORITY_MIN <= used_priority prio <= PROCESS_PRIORITY_MAX.
Proof. unfold used_priority. case_if; slia. Qed.

Lemma find_free_slot_cases s :
  (find_free_slot s = -1 /\ forall i, slot i -> live s i) \/
  (exists i, find_free_slot s = i /\ slot i /\ ~ live s i).
Proof.
  unfold find_free_slot. destruct (find_idx_spec (fun i => state_is s i PROCESS_DEAD) 1 (MAX_PROCESSES - 1)) as [[-> Hn]|(Hr & Hp & _)];
    [slia|slia|left|right].
  - split; [done|]. intros i Hi. specialize (Hn i ltac:(slia)). by apply is_state_neg in Hn.
  - eexists. split; [done|]. split; [slia|]. apply state_is_spec in Hp. unfold live. naive_solver.
Qed.

(** The table after a creation: entry [i] is new, the others are the same up
    to the foreground flag. *)
Lemma create_table s i F fg :
  sched_inv s -> slot i -> ~ live s i -> current_idx s <> i ->
  let s' := make_ready i true (filled i F (yield_foreground fg s)) in
  let p := F (proc s i) in
  pid p = next_pid s -> state p = PROCESS_READY -> in_ready_queue p = 0 ->
  PROCESS_PRIORITY_MIN <= priority p <= PROCESS_PRIORITY_MAX -> effective_priority p = priority p ->
  ready_wait_ticks p = 0 -> quantums_left p = DEFAULT_QUANTUM ->
  sched_inv s' /\ pcb_core (proc s' i) = pcb_core p /\ current_idx s' = current_idx s /\ next_pid s' = next_pid s + 1 /\
  (forall j, 0 <= j < MAX_PROCESSES -> j <> i ->
     pcb_core (proc s' j) = pcb_core (if ctrue fg && (j =? current_idx s) then set_foreground 0 (proc s j) else proc s j)).
Proof.
  intros Hinv Hi Hn Hne s' p Hpid Hst Hq Hpr Hep Hw Hqu. assert (0 <= i < MAX_PROCESSES) as Hi' by slia.
  pose proof (si_current _ Hinv) as Hc. destruct (si_rep _ Hinv) as [Q Hrep]. pose proof (rr_sized _ _ Hrep) as Hs.
  set (s0 := yield_foreground fg s) in *.
  assert (forall j, proc s0 j = if ctrue fg && (j =? current_idx s) then set_foreground 0 (proc s j) else proc s j) as Hp0.
  { intros j. unfold s0, yield_foreground. destruct (ctrue fg); [|done]. simpl. by rewrite proc_upd. }
  assert (sched_inv s0) as Hinv0 by (unfold s0, yield_foreground; case_if; [by apply sched_inv_misc|done]).
  assert (current_idx s0 = current_idx s /\ next_pid s0 = next_pid s) as [Ec En] by (unfold s0, yield_foreground; by case_if).
  assert (proc s0 i = proc s i) as Epi by (rewrite Hp0; replace (i =? current_idx s) with false by lia; by rewrite andb_false_r).
  assert (sched_inv s') as Hinv'.
  { apply spawn_inv; try done; rewrite ?Epi, ?En; fold p; try done; try (rewrite ?Hq, ?Hep, ?Hw, ?Hqu; done || lia).
    unfold live. by rewrite Epi. }
  assert (sized s0) as Hs0 by (destruct (si_rep _ Hinv0) as [? Hr]; apply Hr).
  assert (proc (filled i F s0) i = p) as Hfi by (unfold filled; rewrite proc_set_count, proc_set_next_pid, proc_upd_eq, Epi by done; done).
  destruct (si_rep _ Hinv0) as [Q0 Hrep0].
  assert (ctrue (in_ready_queue (proc s0 i)) = false) as Hout.
  { destruct (ctrue (in_ready_queue (proc s0 i))) eqn:E; [|done]. apply (ready_queued _ _ Hinv0 Hi) in E.
    exfalso. apply Hn. unfold live. rewrite <- Epi. congruence. }
  assert (ready_rep (filled i F s0) Q0) as Hrf.
  { assert (ready_rep (upd_proc i F s0) Q0) as Hr by (apply (rr_upd_out s0 _ Hrep0); [done|by rewrite Epi; fold p; rewrite Hq]). destruct Hr; by split. }
  destruct (make_ready_spec (filled i F s0) Q0 Hrf i true Hi) as (_ & Hu & _); [rewrite Hfi; congruence..|].
  split_and!; [done|..].
  - rewrite (ou_core _ _ _ _ Hu), Z.eqb_refl, Hfi by done. unfold ready_entry. apply pcb_core_intro; simpl; congruence.
  - unfold s'. by rewrite (ou_current _ _ _ _ Hu).
  - unfold s'. rewrite (ou_next_pid _ _ _ _ Hu). simpl. by rewrite En.
  - intros j Hj Hji. unfold s'. rewrite (ou_core _ _ _ _ Hu) by done. replace (j =? i) with false by lia.
    unfold filled. by rewrite proc_set_count, proc_set_next_pid, proc_upd_ne, Hp0.
Qed.

(** A new block keeps the stacks apart. *)
Lemma stacks_alloc m s m' i stack n s' :
  stacks_ok m s -> mm_inv m' -> mm_heap m' = mm_heap m -> STACK_SIZE <= n -> mm_live m' = <[stack := n]> (mm_live m) ->
  (forall q l, mm_live m !! q = Some l -> disjoint_regions stack n q l) ->
  slot i -> stack_base (proc s' i) = stack ->
  (forall j, slot j -> j <> i -> (live s' j -> live s j) /\ stack_base (proc s' j) = stack_base (proc s j)) ->
  stacks_ok m' s'.
Proof.
  intros [I1 I2 I3 I4 I5] Hm' Hh Hn Hlive Hdis Hi Hsb Hoth. unfold STACK_SIZE in *.
  assert (forall j, slot j -> j <> i -> live s' j -> stack_base (proc s' j) <> stack) as Hne.
  { intros j Hj Hji Hl. destruct (Hoth j Hj Hji) as [Hl' ->]. destruct (I4 j Hj (Hl' Hl)) as (l & Hl0 & Hsz).
    intros E. rewrite E in Hl0. destruct (Hdis _ _ Hl0); lia. }
  split; try done; try (by rewrite Hh).
  - intros j Hj Hl. rewrite Hlive. destruct (decide (j = i)) as [->|Hji].
    + exists n. rewrite Hsb, lookup_insert_eq. done.
    + rewrite lookup_insert_ne by (intros E; by apply (Hne j)). destruct (Hoth j Hj Hji) as [Hl' ->]. auto.
  - intros a b Ha Hb Hla Hlb E. destruct (decide (a = i)) as [->|Hai], (decide (b = i)) as [->|Hbi]; try done.
    + exfalso. apply (Hne b); try done. congruence.
    + exfalso. apply (Hne a); try done. congruence.
    + destruct (Hoth a Ha Hai) as [La Ea], (Hoth b Hb Hbi) as [Lb Eb]. apply I5; auto. congruence.
Qed.

Lemma kernel_inv_create k m w i s' :
  kernel_inv k -> stacks_ok m s' -> sched_inv s' -> slot i -> ~ live (k_sched k) i ->
  waiting_for (proc s' i) = -1 -> arrays_ok (proc s' i) ->
  (forall j, 0 <= j < MAX_PROCESSES -> j <> i -> pid (proc s' j) = pid (k_proc k j) /\ state (proc s' j) = state (k_proc k j) /\
     waiting_for (proc s' j) = waiting_for (k_proc k j) /\ fds (proc s' j) = fds (k_proc k j) /\ name (proc s' j) = name (k_proc k j)) ->
  kernel_inv (set_sched s' (set_words w (set_mm m k))).
Proof.
  intros [Hsem Hw Hid Har Hkb Hst] Hst' Hs' Hi Hn Hwi Hai Hoth. assert (0 <= i < MAX_PROCESSES) as Hi' by slia.
  assert (forall p, waits (sems (set_sched s' (set_words w (set_mm m k)))) p <-> waits (sems k) p) as Hws by (intros; by apply waits_table).
  split; try done.
  - apply (sem_inv_table none none (sems k)); try done. intros j Hj _ Hb. change (state (k_proc k j) = PROCESS_BLOCKED) in Hb.
    assert (j <> i) as Hji. { intros ->. apply Hn. unfold live. fold (k_proc k i). congruence. }
    destruct (Hoth j Hj Hji) as (-> & -> & _). done.
  - intros j Hj Hl Hwj. change (k_proc (set_sched s' (set_words w (set_mm m k))) j) with (proc s' j) in *. apply Hws in Hwj.
    destruct (decide (j = i)) as [->|Hji]; [done|]. destruct (Hoth j ltac:(slia) Hji) as (Ep & Es & -> & _).
    apply Hw; [done|change (state (k_proc k j) <> PROCESS_DEAD); rewrite <- Es; exact Hl|rewrite <- Ep; exact Hwj].
  - change (waiting_for (proc s' 0) = -1). destruct (Hoth 0 ltac:(slia) ltac:(slia)) as (_ & _ & -> & _). done.
  - intros j Hj. change (arrays_ok (proc s' j)). destruct (decide (j = i)) as [->|Hji]; [done|].
    destruct (Hoth j Hj Hji) as (_ & _ & _ & Ef & En). unfold arrays_ok. rewrite Ef, En. by apply Har.
Qed.

(** What a successful creation leaves. *)
Record created (entry : Z) (nm : list Z) (prio fg argc argv : Z) k (i : Z) k' : Prop := {
  cr_slot : slot i;
  cr_free : ~ live (k_sched k) i;
  cr_pid : pid (k_proc k' i) = next_pid (k_sched k);
  cr_next : next_pid (k_sched k') = next_pid (k_sched k) + 1;
  cr_parent : parent_pid (k_proc k' i) = scheduler_getpid (k_sched k);
  cr_state : state (k_proc k' i) = PROCESS_READY;
  cr_priority : priority (k_proc k' i) = used_priority prio;
  cr_foreground : foreground (k_proc k' i) = fg;
  cr_name : cstr (name (k_proc k' i)) = take 31 (cstr nm);
  cr_fds : fds (k_proc k' i) = [mkFD FD_STDIN (-1); mkFD FD_STDOUT (-1)] ++ replicate 6 (mkFD FD_NONE (-1));
  cr_context : load_context (rsp (k_proc k' i)) (k_words k') = start_context (stack_base (k_proc k' i)) entry argc argv;
  cr_rsp : rsp (k_proc k' i) = stack_base (k_proc k' i) + STACK_SIZE - 160;
  cr_current : current_idx (k_sched k') = current_idx (k_sched k);
  cr_words a : a < stack_base (k_proc k' i) \/ stack_base (k_proc k' i) + STACK_SIZE <= a ->
    word (k_words k') a = word (k_words k) a;
  cr_heap : mm_heap (k_mm k') = mm_heap (k_mm k);
  cr_stack : mm_live (k_mm k) !! stack_base (k_proc k' i) = None;
  cr_others j : 0 <= j < MAX_PROCESSES -> j <> i ->
    pcb_core (k_proc k' j) =
    pcb_core (if ctrue fg && (j =? current_idx (k_sched k)) then set_foreground 0 (k_proc k j) else k_proc k j);
  cr_sems : sem_table (sems k') = sem_table (sems k)
}.

Lemma create_run entry nm prio fg argc argv k :
  kernel_inv k -> live (k_sched k) (current_idx (k_sched k)) ->
  (scheduler_create entry nm prio fg argc argv k = Some (-1, k) /\
   ((forall i, slot i -> live (k_sched k) i) \/ mm_alloc STACK_SIZE (k_mm k) = Some (0, k_mm k))) \/
  (exists i k', scheduler_create entry nm prio fg argc argv k = Some (next_pid (k_sched k), k') /\
     kernel_inv k' /\ created entry nm prio fg argc argv k i k').
Proof.
  intros Hk Hcl. pose proof (sv_sched _ (ki_sem _ Hk)) as Hs. change (sched_inv (k_sched k)) in Hs.
  pose proof (ki_stacks _ Hk) as Hst. pose proof (si_current _ Hs) as Hc.
  destruct (find_free_slot_cases (k_sched k)) as [[Ef Hall]|(i & Ef & Hi & Hn)].
  { left. split; [|by left]. unfold scheduler_create. by rewrite Ef. }
  destruct (mm_alloc_spec (k_mm k) STACK_SIZE (st_mm _ _ Hst) ltac:(unfold STACK_SIZE; lia)) as (stack & m & Ea & Hmi & Hh & Hcase).
  destruct Hcase as [[-> ->]|(n & Hsz & Hpos & Hlive & Hlo & Hhi & Hdis)].
  { left. split; [|by right]. unfold scheduler_create. rewrite Ef, Ea. replace (i <? 0) with false by slia. simpl. by destruct k. }
  right. assert (current_idx (k_sched k) <> i) as Hne by (intros E; apply Hn; by rewrite <- E).
  assert (0 <= i < MAX_PROCESSES) as Hi' by slia.
  pose proof (create_unfold entry nm prio fg argc argv k i stack m Ef Hi Ea ltac:(lia) Hs Hne) as Hrun.
  pose proof (setup_initial_stack_spec stack entry argc argv (k_words k)) as Hsetup. cbv zeta in Hrun.
  destruct (setup_initial_stack stack entry argc argv (k_words k)) as [sp w]. destruct Hsetup as (Hsp & Hctx & _ & Hout).
  set (F := new_entry _ _ _ _ _ _ _) in *.
  destruct (new_entry_fields (next_pid (k_sched k)) (pid (proc (k_sched k) (current_idx (k_sched k)))) (used_priority prio) fg stack sp nm
    (proc (k_sched k) i) (ki_arrays _ Hk i Hi')) as (F1 & F2 & F3 & F4 & F5 & F6 & F7 & F8 & F9 & F10 & F11 & F12 & F13 & F14 & F15 & F16).
  fold F in F1, F2, F3, F4, F5, F6, F7, F8, F9, F10, F11, F12, F13, F14, F15, F16.
  destruct (create_table (k_sched k) i F fg Hs Hi Hn Hne F1 F3 F7) as (Hs' & Hci & Hcur & Hnext & Hoth);
    [rewrite F4; apply used_priority_range|congruence|done|done|].
  set (s' := make_ready i true (filled i F (yield_foreground fg (k_sched k)))) in *. clearbody s'.
  apply pcb_core_eq in Hci as (G1 & G2 & G3 & G4 & G5 & _ & _ & _ & G9 & G10 & G11 & G12 & _ & G14).
  assert (forall j, 0 <= j < MAX_PROCESSES -> j <> i -> pid (proc s' j) = pid (k_proc k j) /\ state (proc s' j) = state (k_proc k j) /\
     waiting_for (proc s' j) = waiting_for (k_proc k j) /\ fds (proc s' j) = fds (k_proc k j) /\ name (proc s' j) = name (k_proc k j) /\
     stack_base (proc s' j) = stack_base (k_proc k j)) as Hj.
  { intros j Hj Hji. specialize (Hoth j Hj Hji). apply pcb_core_eq in Hoth. destr_and. unfold k_proc. case_if; simpl in *; done. }
  exists i, (set_sched s' (set_words w (set_mm m k))). split; [rewrite Hrun; do 2 f_equal; congruence|]. split.
  - apply (kernel_inv_create k m w i s' Hk); [|exact Hs'|done|done|by rewrite G12|unfold arrays_ok; rewrite G14, G3; exact F16|].
    + apply (stacks_alloc (k_mm k) (k_sched k) m i stack n s'); try done; try congruence.
      intros j Hsl Hji. destruct (Hj j ltac:(slia) Hji) as (_ & Es & _ & _ & _ & Eb). split; [|done]. unfold live. rewrite Es. done.
    + intros j Hjr Hji. destruct (Hj j Hjr Hji) as (? & ? & ? & ? & ? & _). done.
  - change (created entry nm prio fg argc argv k i (set_sched s' (set_words w (set_mm m k)))).
    split; unfold k_proc; change (k_sched (set_sched s' _)) with s'; change (k_words (set_sched s' (set_words w _))) with w; try congruence; try done.
    + rewrite G2, F2. unfold scheduler_getpid. by replace (current_idx (k_sched k) <? 0) with false by lia.
    + rewrite G10, F10. done.
    + rewrite G10, F10. destruct (mm_live (k_mm k) !! stack) as [l|] eqn:E; [|done]. exfalso.
      destruct (mm_live_heap _ _ _ (st_mm _ _ Hst) E) as (? & _). specialize (Hdis _ _ E). unfold disjoint_regions, STACK_SIZE in *. lia.
Qed.

End Create.
