(* ===== verification/KernelStep.v ===== *)
(** * Steps of the kernel

    The timer tick and the remaining operations on the kernel state, the
    transition relation of the life of processes, and the kernel invariant in
    every reachable state. *)

From S2P Require Import Prelude Process ReadyQueue Sched Lifecycle SchedIface Lib Semaphore SemaphoreProps Memory Pipe Keyboard Wakes Kernel KernelInv KernelEnd KernelCreate.
Local Open Scope Z_scope.

(** ** The tick *)

(** The fields that no tick changes. *)
Definition durable (p : PCB) : Z * Z * list Z * Z * Z * Z * Z * Z * list FileDescriptor :=
  (pid p, parent_pid p, name p, priority p, stack_base p, foreground p, waiting_for p, exit_status p, fds p).

Lemma durable_eq p q : durable p = durable q ->
  pid p = pid q /\ parent_pid p = parent_pid q /\ name p = name q /\ priority p = priority q /\
  stack_base p = stack_base q /\ foreground p = foreground q /\ waiting_for p = waiting_for q /\
  exit_status p = exit_status q /\ fds p = fds q.
Proof. unfold durable. intros [=]. done. Qed.

(** Whether a state is left only by an operation on the process. *)
Definition parked (st : ProcState) : bool :=
  match st with PROCESS_READY | PROCESS_RUNNING => false | _ => true end.

(** What a step of scheduling may do to the entries. *)
Definition sched_step (s s' : Sched) : Prop :=
  forall j, 0 <= j < MAX_PROCESSES -> durable (proc s' j) = durable (proc s j) /\
    (slot j -> parked (state (proc s j)) = true -> state (proc s' j) = state (proc s j)) /\
    (slot j -> parked (state (proc s j)) = false -> parked (state (proc s' j)) = false).

Lemma sched_step_trans s1 s2 s3 : sched_step s1 s2 -> sched_step s2 s3 -> sched_step s1 s3.
Proof.
  intros H1 H2 j Hj. destruct (H1 j Hj) as (D1 & P1 & Q1), (H2 j Hj) as (D2 & P2 & Q2). split_and!; [congruence| |auto].
  intros Hs Hp. rewrite P2; [auto|done|]. by rewrite P1.
Qed.

Lemma sched_step_upd s i f :
  sized s -> 0 <= i < MAX_PROCESSES -> (forall p, durable (f p) = durable p) ->
  (slot i -> state (f (proc s i)) = state (proc s i) \/
     (parked (state (proc s i)) = false /\ parked (state (f (proc s i))) = false)) ->
  sched_step s (upd_proc i f s).
Proof.
  intros Hs Hi Hd Hst j Hj. rewrite proc_upd by done. destruct (Z.eqb_spec j i) as [->|]; [|done].
  split; [done|]. split; intros Hj'; destruct (Hst Hj') as [E|[E1 E2]]; congruence.
Qed.

Lemma tick_requeue_step r s : sched_inv s -> sched_step s (tick_requeue r s).
Proof.
  intros Hinv. pose proof (si_current _ Hinv) as Hc. destruct (si_rep _ Hinv) as [Q Hrep]. pose proof (rr_sized _ _ Hrep) as Hs.
  unfold tick_requeue. set (s1 := upd_proc (current_idx s) (set_rsp r) s).
  assert (sched_step s s1) as H1 by (apply sched_step_upd; try done; by left).
  assert (sched_inv s1) as Hinv1 by (by apply sched_inv_misc). case_if; [|done]. apply state_is_spec in Heqb.
  set (s2 := upd_proc (current_idx s) (fun p => set_quantums_left (quantums_left p - 1) p) s1).
  assert (sched_step s1 s2) as H2 by (apply sched_step_upd; try done; [by apply sized_upd_proc|by left]).
  assert (sched_inv s2) as Hinv2 by (apply sched_inv_misc; try done; intros; simpl; slia).
  case_if; [|by eapply sched_step_trans]. eapply sched_step_trans; [done|]. eapply sched_step_trans; [done|].
  assert (state (proc s2 (current_idx s)) = PROCESS_RUNNING) as Hst.
  { unfold s2. by rewrite (proc_upd_field state). }
  destruct (si_rep _ Hinv2) as [Q2 Hrep2].
  destruct (make_ready_spec s2 Q2 Hrep2 (current_idx s) true) as (_ & Hu & _); [slia|congruence..|].
  intros j Hj. pose proof (ou_core _ _ _ _ Hu j Hj) as E.
  destruct (Z.eqb_spec j (current_idx s)) as [->|Hne].
  - apply pcb_core_eq in E. unfold ready_entry in E. simpl in E. destr_and. rewrite Hst. unfold durable. split_and!; [congruence|done|]. intros _.
    by replace (state (proc (make_ready (current_idx s) true s2) (current_idx s))) with PROCESS_READY by congruence.
  - apply pcb_core_eq in E. destr_and. unfold durable. split_and!; congruence.
Qed.

Lemma dispatch_step s : sched_inv s -> sched_step s (dispatch_next s).2.
Proof.
  intros Hinv. destruct (si_rep _ Hinv) as [Q Hrep].
  destruct (dequeue_next_ready_spec s Q Hinv Hrep) as (x & s' & Q' & E & Hx & Hr & Hp & _ & _ & Hcase).
  rewrite (dispatch_next_eq _ _ _ E).
  destruct (age_ready_processes_spec s Q Hrep (inv_queued_prio s Hinv)) as (Hr1 & _ & _ & _ & _ & Ha).
  assert (forall j, 0 <= j < MAX_PROCESSES -> durable (proc (age_ready_processes s) j) = durable (proc s j) /\
    state (proc (age_ready_processes s) j) = state (proc s j)) as Hage.
  { intros j Hj. destruct (Ha j Hj) as [Hc _]. apply pcb_core_eq in Hc. set (q := if j =? 0 then _ else _) in *.
    assert (durable q = durable (proc s j) /\ state q = state (proc s j)) as [D S].
    { unfold q, age_entry. by repeat case_if. }
    unfold durable in *. split; destr_and; congruence. }
  intros j Hj. rewrite run_next_proc by (done || apply Hr). destruct (Hage j Hj) as [Hd Hs].
  destruct (Z.eqb_spec j x) as [->|Hne].
  - rewrite Hp, Z.eqb_refl. split; [rewrite <- Hd; by case_if|].
    assert (slot x -> state (proc s x) = PROCESS_READY) as Hst.
    { intros Hsx. rewrite <- Hs. destruct Hcase as [(-> & _)|(_ & m & l & Hm & HA & _)]; [slia|].
      apply (ready_queued _ _ (age_ready_processes_inv s Hinv) Hsx). eapply (rr_mem _ _ Hr1); [done|]. rewrite HA. by left. }
    split; intros Hsx; by rewrite Hst.
  - rewrite Hp. replace (j =? x) with false by lia. simpl. rewrite Hs. done.
Qed.

Lemma scheduler_tick_step r s : sched_inv s -> sched_step s (scheduler_tick r s).2.
Proof.
  intros Hinv. rewrite tick_dispatches by done. eapply sched_step_trans; [by apply tick_requeue_step|].
  apply dispatch_step. by apply tick_requeue_inv.
Qed.

Section Step.
Context `{Linkage} {M : Type} `{Hmm : MemManagerLaws M}.
Implicit Types k : Kernel M.

Lemma sched_step_shrinks s s' : sched_step s s' -> shrinks s s'.
Proof.
  intros Hst. split.
  - intros j Hj Hl. destruct (Hst j ltac:(slia)) as (Hd & Hp & _). apply durable_eq in Hd. destr_and.
    split_and!; try done; [|by left]. intros E. apply Hl. rewrite Hp; [done|done|by rewrite E].
  - destruct (Hst 0 ltac:(slia)) as (Hd & _). apply durable_eq in Hd. by destr_and.
  - intros j Hj. destruct (Hst j Hj) as (Hd & _). apply durable_eq in Hd as (_ & _ & En & _ & _ & _ & _ & _ & Ef).
    unfold arrays_ok. by rewrite En, Ef.
Qed.

(** The invariant survives steps of scheduling. *)
Lemma kernel_inv_sched k s' :
  kernel_inv k -> sched_inv s' -> sched_step (k_sched k) s' -> kernel_inv (set_sched s' k).
Proof.
  intros Hk Hs' Hst. apply (kernel_inv_shrink k); try done.
  - apply (sem_inv_table none none (sems k)); [apply Hk|done|]. intros j Hj Hw Hb.
    destruct (Hst j Hj) as (Hd & Hp & _). apply durable_eq in Hd as [Hd _]. split; [exact Hd|].
    assert (slot j) as Hsl.
    { destruct (decide (j = 0)) as [->|]; [|slia]. exfalso. destruct Hw as (id & Hid & Hw). unfold queued in Hw.
      apply list_elem_of_fmap in Hw as (x & Hx & Hin). pose proof (sv_ok _ (ki_sem _ Hk) id Hid) as Hok. unfold waiters_ok in Hok.
      rewrite list.Forall_forall in Hok. apply Hok in Hin as [Hpos _].
      destruct (si_idle _ (sv_sched _ (ki_sem _ Hk) : sched_inv (k_sched k))) as [E _].
      change (sem_sched (sems k)) with (k_sched k) in Hx. lia. }
    change (sem_sched (sems k)) with (k_sched k) in Hb. rewrite Hp by (done || by rewrite Hb). done.
  - by apply sched_step_shrinks.
  - apply (ki_kbd _ Hk).
  - eapply stacks_shrink; [apply (ki_stacks _ Hk)|by apply sched_step_shrinks].
Qed.

(** ** Waiting *)

Definition wait_fields (p : Z) (q : PCB) : PCB :=
  set_quantums_left 0 (set_state PROCESS_BLOCKED (set_waiting_for p q)).

Lemma wait_fields_sched p s c :
  sched_inv s -> slot c -> state (proc s c) = PROCESS_RUNNING ->
  sched_inv (set_need_resched 1 (upd_proc c (wait_fields p) s)).
Proof.
  intros Hinv Hc Hst. apply sched_inv_resched. destruct (si_rep _ Hinv) as [Q Hrep]. pose proof (rr_sized _ _ Hrep) as Hs.
  assert (0 <= c < MAX_PROCESSES) as Hc' by slia. assert (live s c) as Hl by (unfold live; congruence).
  assert (ctrue (in_ready_queue (proc s c)) = false) as Hfl.
  { destruct (ctrue (in_ready_queue (proc s c))) eqn:E; [|done]. apply (ready_queued _ _ Hinv Hc) in E. congruence. }
  apply (sched_inv_one_upd s _ c (wait_fields p)); try done.
  - by apply one_upd_upd.
  - exists Q. by apply (rr_upd_out s _ Hrep).
  - intros _ _. by apply (si_prio _ Hinv).
  - intros j _ Hne. by rewrite proc_upd_ne.
  - intros _. apply flag_ok_iff. rewrite proc_upd_eq by done. simpl. by rewrite Hfl.
  - intros ->. slia.
Qed.

Lemma wait_block_inv p k :
  let c := current_idx (k_sched k) in
  kernel_inv k -> slot c -> state (k_proc k c) = PROCESS_RUNNING ->
  kernel_inv (on_sched (set_need_resched 1) (upd_pcb c (wait_fields p) k)).
Proof.
  intros c Hk Hc Hst. assert (0 <= c < MAX_PROCESSES) as Hc' by slia. pose proof (ki_sem _ Hk) as Hm.
  set (k1 := upd_pcb c (wait_fields p) k).
  assert (forall j, k_proc k1 j = if j =? c then wait_fields p (k_proc k j) else k_proc k j) as Hp
    by (intros; by apply (k_proc_upd none)).
  assert (live (k_sched k) c) as Hl by (change (state (k_proc k c) <> PROCESS_DEAD); congruence).
  assert (~ waits (sems k) (pid (k_proc k c))) as Hn.
  { apply (not_blocked_not_waits none (sems k) c Hm Hc' Hl). change (state (k_proc k c) <> PROCESS_BLOCKED). congruence. }
  assert (forall q, waits (sems (on_sched (set_need_resched 1) k1)) q <-> waits (sems k) q) as Hw by (intros; by apply waits_table).
  split.
  - apply (sem_inv_table none none (sems k)); [done|by apply wait_fields_sched; [apply Hm|..]|].
    intros j Hj Hwj Hb. change (pid (k_proc k1 j) = pid (k_proc k j) /\ state (k_proc k1 j) = PROCESS_BLOCKED). rewrite Hp.
    case_if; done.
  - intros j Hj Hlj Hwj. change (k_proc (on_sched (set_need_resched 1) k1) j) with (k_proc k1 j) in *. rewrite Hp in *.
    apply Hw in Hwj. destruct (Z.eqb_spec j c) as [->|Hne]; [done|]. apply (ki_wait _ Hk); try done.
    revert Hlj. unfold live. change (proc (k_sched (on_sched (set_need_resched 1) k1)) j) with (k_proc k1 j). rewrite Hp.
    replace (j =? c) with false by lia. done.
  - change (waiting_for (k_proc k1 0) = -1). rewrite Hp. replace (0 =? c) with false by slia. apply (ki_idle _ Hk).
  - intros j Hj. change (arrays_ok (k_proc k1 j)). rewrite Hp. case_if; by apply (ki_arrays _ Hk j).
  - apply (ki_kbd _ Hk).
  - destruct (ki_stacks _ Hk) as [I1 I2 I3 I4 I5]. split; try done;
      change (k_sched (on_sched (set_need_resched 1) k1)) with (set_need_resched 1 (k_sched k1)); unfold live; rewrite ?proc_set_resched.
    + intros j Hj. rewrite proc_set_resched. change (proc (k_sched k1) j) with (k_proc k1 j). rewrite Hp.
      destruct (Z.eqb_spec j c) as [->|]; intros; by apply I4.
    + intros i j Hi Hj. rewrite !proc_set_resched. change (proc (k_sched k1)) with (k_proc k1). rewrite !Hp.
      intros Hli Hlj E. apply I5; try done; unfold live.
      * destruct (Z.eqb_spec i c) as [->|]; done.
      * destruct (Z.eqb_spec j c) as [->|]; done.
      * revert E. repeat case_if; done.
Qed.

(** The entry of a live pid other than the idle one. *)
Lemma find_pid_slot p s :
  sched_inv s -> 0 < p ->
  (find_idx (has_pid s p) 0 MAX_PROCESSES = -1 /\ forall i, 0 <= i < MAX_PROCESSES -> ~ (pid (proc s i) = p /\ live s i)) \/
  (exists i, find_idx (has_pid s p) 0 MAX_PROCESSES = i /\ slot i /\ pid (proc s i) = p /\ live s i).
Proof.
  intros Hinv Hp. destruct (find_pid_cases s p) as [?|(i & E & Hi & Hpid & Hl)]; [by left|right].
  exists i. split_and!; try done. destruct (decide (i = 0)) as [->|]; [|slia]. destruct (si_idle _ Hinv). lia.
Qed.

(** The stacks that a call may have to give back can be given back. *)
Definition stacks_freeable k : Prop :=
  forall i, slot i -> live (k_sched k) i -> 1 < pid (k_proc k i) -> mm_freeable (k_mm k) (stack_base (k_proc k i)).

(** [i] is a child of the current process. *)
Definition child k (i : Z) : Prop := parent_pid (k_proc k i) = pid (k_proc k (current_idx (k_sched k))).

Lemma wait_run p k :
  let c := current_idx (k_sched k) in
  kernel_inv k -> slot c -> state (k_proc k c) = PROCESS_RUNNING ->
  (forall i, slot i -> live (k_sched k) i -> pid (k_proc k i) = p -> mm_freeable (k_mm k) (stack_base (k_proc k i))) ->
  (scheduler_wait p k = Some (-1, k) /\
   (p <= 0 \/ forall i, 0 <= i < MAX_PROCESSES -> ~ (pid (k_proc k i) = p /\ live (k_sched k) i /\ child k i))) \/
  (exists i, slot i /\ pid (k_proc k i) = p /\ live (k_sched k) i /\ child k i /\ 0 < p /\
     ((state (k_proc k i) = PROCESS_ZOMBIE /\
       exists k', scheduler_wait p k = Some (exit_status (k_proc k i), k') /\ kernel_inv k' /\ drifts i k k' /\
         state (k_proc k' i) = PROCESS_DEAD /\ mm_heap (k_mm k') = mm_heap (k_mm k)) \/
      (state (k_proc k i) <> PROCESS_ZOMBIE /\
       let k' := on_sched (set_need_resched 1) (upd_pcb c (wait_fields p) k) in
       scheduler_wait p k = Some (SCHEDULER_WAIT_BLOCKED, k') /\ kernel_inv k'))).
Proof.
  intros c Hk Hc Hst Hfr. pose proof (sv_sched _ (ki_sem _ Hk)) as Hs. change (sched_inv (k_sched k)) in Hs.
  unfold scheduler_wait, scheduler_current. fold c. replace (c <? 0) with false by slia. replace (c <? 0) with false by slia. cbn [orb].
  destruct (Z.leb_spec p 0) as [Hp|Hp]; [left; auto|].
  destruct (find_pid_slot p (k_sched k) Hs Hp) as [[-> Hno]|(i & -> & Hi & Hpid & Hl)].
  { left. split; [done|]. right. intros i Hi (? & ? & _). by apply (Hno i). }
  replace (i <? 0) with false by slia. change (pid (k_proc k i) = p) in Hpid.
  destruct (Z.eqb_spec (parent_pid (k_proc k i)) (pid (k_proc k c))) as [Hch|Hch]; cbn [negb].
  2:{ left. split; [done|]. right. intros j Hj (Hpj & Hlj & Hcj). apply Hch.
      assert (j = i) as -> by (apply (si_unique _ Hs); try done; [slia|unfold k_proc in *; congruence]). done. }
  right. exists i. split_and!; try done. unfold state_is. fold (k_proc k i). case_if.
  - apply is_state_spec in Heqb. left. split; [done|].
    destruct (reap_run i k Hk Hi Heqb (Hfr i Hi Hl Hpid)) as (k1 & -> & Hk' & Hd & Hdead). cbn [mbind option_bind].
    eexists. split; [reflexivity|]. done.
  - apply is_state_neg in Heqb. right. split; [done|]. split; [done|]. by apply wait_block_inv.
Qed.

(** ** Initialisation *)

Lemma init_table_eq s :
  length (ready_queues s) = 5%nat ->
  init_table s = mkSched (set_rsp 0 (set_state PROCESS_READY (idle_entry idle_stack 0 (copy_name (replicate 32 0) idle_name)))
    :: replicate 63 dead_entry) (process_count s) (current_idx s) (next_pid s) (need_resched s)
    (replicate 5 (mkRQ READY_NONE READY_NONE)).
Proof.
  destruct s as [tb pc cu np nr rq]. simpl. intros Hl.
  do 6 (destruct rq as [|? rq]; simpl in Hl; try lia). reflexivity.
Qed.

Lemma init_sched k :
  length (ready_queues (k_sched k)) = 5%nat ->
  k_sched (scheduler_init k) = set_next_pid (next_pid (k_sched k))
    (init_state idle_stack (idle_stack + STACK_SIZE - 160) (copy_name (replicate 32 0) idle_name)).
Proof.
  intros Hl. unfold scheduler_init.
  assert (on_sched init_table k = set_sched (init_table (k_sched k)) k) as -> by done. rewrite init_table_eq by done.
  set (s0 := mkSched _ _ _ _ _ _).
  change (stack_base (k_proc (set_sched s0 k) 0)) with idle_stack.
  pose proof (setup_initial_stack_spec idle_stack idle_process 0 0 (k_words (set_sched s0 k))) as Hsp.
  destruct (setup_initial_stack _ _ _ _ _) as [sp w]. destruct Hsp as [-> _]. reflexivity.
Qed.

(** The parts of the state as the boot code finds them: the semaphores and
    the keyboard in their static initial state, an initialised memory manager
    with no block in use. *)
Record before_init k : Prop := {
  bi_queues : length (ready_queues (k_sched k)) = 5%nat;
  bi_next : 0 < next_pid (k_sched k);
  bi_sems : sem_table (sems k) = replicate 64 zero_sem;
  bi_kbd : kbd_wf (k_kbd k);
  bi_mm : mm_inv (k_mm k);
  bi_heap : 0 < fst (mm_heap (k_mm k)) /\
    (idle_stack < fst (mm_heap (k_mm k)) \/ fst (mm_heap (k_mm k)) + snd (mm_heap (k_mm k)) <= idle_stack)
}.

Lemma init_next_inv stack sp nm n : 0 < n -> sched_inv (set_next_pid n (init_state stack sp nm)).
Proof.
  intros Hn. pose proof (init_state_inv stack sp nm) as Hinv. pose proof (init_state_proc stack sp nm) as Hp.
  destruct Hinv as [[Q Hrep] ? ? ? ? ? ? Hf ? ? ?]. split; try done.
  - exists Q. by destruct Hrep; split.
  - intros i Hi Hl. exfalso. apply Hl. rewrite proc_set_next_pid, Hp by slia. by replace (i =? 0) with false by slia.
Qed.

(** The table after initialisation: the idle process and free entries. *)
Lemma init_procs k i : length (ready_queues (k_sched k)) = 5%nat -> 0 <= i < MAX_PROCESSES ->
  k_proc (scheduler_init k) i =
  if i =? 0 then idle_entry idle_stack (idle_stack + STACK_SIZE - 160) (copy_name (replicate 32 0) idle_name) else dead_entry.
Proof. intros Hq Hi. unfold k_proc. rewrite (init_sched k Hq), proc_set_next_pid. by apply init_state_proc. Qed.

Lemma init_inv k : before_init k -> kernel_inv (scheduler_init k).
Proof.
  intros [Hq Hn Hs Hkb Hm [Hh1 Hh2]]. pose proof (init_sched k Hq) as Es.
  assert (sems (scheduler_init k) = sem_boot (k_sched (scheduler_init k))) as Esem.
  { rewrite <- (sems_eta (scheduler_init k)). unfold sem_boot. f_equal. rewrite <- Hs. unfold scheduler_init.
    by destruct (setup_initial_stack _ _ _ _ _). }
  assert (k_kbd (scheduler_init k) = k_kbd k /\ k_mm (scheduler_init k) = k_mm k) as [Ek Em].
  { unfold scheduler_init. by destruct (setup_initial_stack _ _ _ _ _). }
  set (nm := copy_name (replicate 32 0) idle_name) in *.
  assert (sched_inv (k_sched (scheduler_init k))) as Hsched by (rewrite Es; by apply init_next_inv).
  assert (forall i, 0 <= i < MAX_PROCESSES -> k_proc (scheduler_init k) i =
    if i =? 0 then idle_entry idle_stack (idle_stack + STACK_SIZE - 160) nm else dead_entry) as Hp by (intros i; by apply init_procs).
  assert (forall i, slot i -> ~ live (k_sched (scheduler_init k)) i) as Hd.
  { intros i Hi Hl. apply Hl. change (state (k_proc (scheduler_init k) i) = PROCESS_DEAD). rewrite Hp by slia.
    by replace (i =? 0) with false by slia. }
  split.
  - rewrite Esem. by apply sem_boot_inv.
  - intros j Hj Hl. by apply Hd in Hl.
  - by rewrite Hp.
  - intros j Hj. rewrite Hp by done. case_if; [|done]. split; [done|]. by apply (copy_name_cstr (replicate 32 0) idle_name).
  - by rewrite Ek.
  - rewrite Em. split; try done; intros i; intros.
    + by exfalso; apply (Hd i).
    + by exfalso; apply (Hd i).
Qed.

(** ** Transitions *)

Definition running k : Prop := state (k_proc k (current_idx (k_sched k))) = PROCESS_RUNNING.

Inductive kstep : Kernel M -> Kernel M -> Prop :=
| ks_create k entry nm prio fg argc argv r k' :
    running k -> scheduler_create entry nm prio fg argc argv k = Some (r, k') -> kstep k k'
| ks_exit k status k' : running k -> scheduler_exit_current status k = Some k' -> kstep k k'
| ks_kill k p r k' : running k -> stacks_freeable k -> scheduler_kill p k = Some (r, k') -> kstep k k'
| ks_wait k p r k' :
    running k -> slot (current_idx (k_sched k)) -> stacks_freeable k -> 1 < p -> scheduler_wait p k = Some (r, k') -> kstep k k'
| ks_timer k sp : kstep k (irq00Handler sp k).2
| ks_key k sc k' :
    running k -> stacks_freeable k -> 0 <= sc < 256 -> keyboard_interrupt_handler sc k = Some k' -> kstep k k'.

Lemma exit_inv status k : kernel_inv k -> running k -> exists k', scheduler_exit_current status k = Some k' /\ kernel_inv k'.
Proof.
  intros Hk Hr. destruct (decide (slot (current_idx (k_sched k)))) as [Hc|Hc].
  - destruct (exit_run status k Hk Hc Hr) as (k' & E & Hk' & _). by exists k'.
  - exists k. split; [|done]. unfold scheduler_exit_current.
    pose proof (si_current _ (sv_sched _ (ki_sem _ Hk) : sched_inv (k_sched k))).
    by replace (current_idx (k_sched k) <=? 0) with true by slia.
Qed.

Lemma kill_inv p k :
  kernel_inv k -> running k -> stacks_freeable k -> exists r k', scheduler_kill p k = Some (r, k') /\ kernel_inv k'.
Proof.
  intros Hk Hr Hf. pose proof (sv_sched _ (ki_sem _ Hk)) as Hs. change (sched_inv (k_sched k)) in Hs.
  destruct (Z.leb_spec p 1) as [Hp|Hp]; [exists (-1), k; unfold scheduler_kill; by replace (p <=? 1) with true by lia|].
  destruct (find_pid_slot p (k_sched k) Hs ltac:(lia)) as [[E _]|(i & E & Hi & Hpid & Hl)].
  - exists (-1), k. unfold scheduler_kill. rewrite E. by replace (p <=? 1) with false by lia.
  - destruct (decide (i = current_idx (k_sched k))) as [Hc|Hc].
    + destruct (exit_inv (-1) k Hk Hr) as (k' & Ex & Hk'). exists 0, k'. unfold scheduler_kill. rewrite E.
      replace (p <=? 1) with false by lia. replace (i <? 0) with false by slia. rewrite (proj2 (Z.eqb_eq _ _) Hc), Ex. done.
    + destruct (kill_other_run p i k Hk Hp) as (k' & Ek & Hk' & _); try done; [slia|apply Hf; try done; unfold k_proc; lia|].
      by exists 0, k'.
Qed.

Lemma wait_inv p k :
  kernel_inv k -> running k -> slot (current_idx (k_sched k)) -> stacks_freeable k -> 1 < p ->
  exists r k', scheduler_wait p k = Some (r, k') /\ kernel_inv k'.
Proof.
  intros Hk Hr Hc Hf Hp. destruct (wait_run p k Hk Hc Hr) as [[E _]|(i & _ & _ & _ & _ & _ & [(_ & k' & E & Hk' & _)|(_ & E & Hk')])].
  - intros i Hi Hl Hpid. apply Hf; try done. lia.
  - by exists (-1), k.
  - by eexists _, k'.
  - by eexists _, _.
Qed.

Lemma kernel_inv_kbd kb k : kernel_inv k -> kbd_wf kb -> kernel_inv (set_kbd kb k).
Proof. intros [] Hw. by split. Qed.

Lemma key_inv sc k :
  kernel_inv k -> running k -> stacks_freeable k -> exists k', keyboard_interrupt_handler sc k = Some k' /\ kernel_inv k'.
Proof.
  intros Hk Hr Hf. unfold keyboard_interrupt_handler. pose proof (keyboard_event_typed sc (k_kbd k) (ki_kbd _ Hk)) as Hev.
  destruct (keyboard_event sc (k_kbd k)) as [a kb]. destruct Hev as [Hw _].
  pose proof (kernel_inv_kbd kb k Hk Hw) as Hk1. destruct a.
  - by eexists.
  - eexists. split; [done|]. by destruct Hk1; split.
  - unfold scheduler_kill_foreground. case_if.
    + eexists. split; [done|]. apply kernel_inv_kbd; [done|]. by apply kbd_clear_wf.
    + match goal with |- context [scheduler_kill ?p ?x] => destruct (kill_inv p x Hk1 Hr Hf) as (r & k' & -> & Hk') end.
      eexists. split; [done|]. apply kernel_inv_kbd; [done|]. apply kbd_clear_wf, (ki_kbd _ Hk').
Qed.

Lemma tick_inv sp k : kernel_inv k -> kernel_inv (irq00Handler sp k).2.
Proof.
  intros Hk. unfold irq00Handler. change (k_sched (timer_handler k)) with (k_sched k).
  destruct (scheduler_tick sp (k_sched k)) as [r s'] eqn:E. simpl.
  assert (sched_inv (k_sched k)) as Hs by apply (sv_sched _ (ki_sem _ Hk)).
  assert (kernel_inv (set_sched s' k)) as [].
  { replace s' with (scheduler_tick sp (k_sched k)).2 by (by rewrite E).
    apply kernel_inv_sched; [done|by apply scheduler_tick_inv|by apply scheduler_tick_step]. }
  by split.
Qed.

Lemma kstep_inv k k' : kstep k k' -> kernel_inv k -> kernel_inv k'.
Proof.
  destruct 1 as [k ? ? ? ? ? ? r k' Hr E|k st k' Hr E|k p r k' Hr Hf E|k p r k' Hr Hc Hf Hp E|k sp|k sc k' Hr Hf Hsc E]; intros Hk.
  - destruct (create_run entry nm prio fg argc argv k Hk) as [[E' _]|(i & k1 & E' & Hk1 & _)].
    + unfold live, running, k_proc in *. congruence.
    + congruence.
    + congruence.
  - destruct (exit_inv st k Hk Hr) as (k1 & E' & Hk1). congruence.
  - destruct (kill_inv p k Hk Hr Hf) as (r1 & k1 & E' & Hk1). congruence.
  - destruct (wait_inv p k Hk Hr Hc Hf Hp) as (r1 & k1 & E' & Hk1). congruence.
  - by apply tick_inv.
  - destruct (key_inv sc k Hk Hr Hf) as (k1 & E' & Hk1). congruence.
Qed.

End Step.
