(* ===== verification/KernelProps.v ===== *)
(** * Properties of the life of processes

    The theorems about [scheduler_create], [scheduler_exit_current],
    [scheduler_kill], [scheduler_wait] and the reachable states of the kernel,
    for any memory manager that meets the interface of [Memory.v]; the
    witnesses run a kernel with the first-fit manager. *)

From S2P Require Import Prelude Process ReadyQueue Sched Lifecycle SchedIface Lib Semaphore SemaphoreProps Memory FreeList Pipe PipeProps Keyboard Wakes Kernel KernelInv KernelEnd KernelCreate KernelStep.
Local Open Scope Z_scope.

(** ** A concrete kernel *)

#[local] Instance demo_linkage : Linkage := {| idle_stack := 4096; idle_process := 256; process_exit_trampoline := 512 |}.

#[local] Existing Instances FreeList.FreeList_manager FreeList.FreeList_laws.

Notation MM := FreeList.MM.

(** The static data before [scheduler_init]. *)
Definition static_sched : Sched := mkSched (replicate 64 zero_pcb) 0 (-1) 1 0 (replicate 5 (mkRQ 0 0)).

Definition static_kernel : Kernel MM :=
  mkKernel (pipe_boot (sem_boot static_sched)) kbd_boot (FreeList.mm_init 65536 32768 (FreeList.mkMM 0 0 0 ∅)) ∅ 0 0.

(** Boot, the shell, the shell running, a foreground child of priority 5, the
    child running while the shell waits for it. *)
Definition k_boot : Kernel MM := scheduler_init static_kernel.
Definition run2 (o : option (Z * Kernel MM)) (k : Kernel MM) : Kernel MM := (default (0, k) o).2.
Definition shell_name : list Z := [115; 104; 101; 108; 108].
Definition k_shell : Kernel MM := run2 (scheduler_create 0x400000 shell_name 3 1 0 0 k_boot) k_boot.
Definition k_run : Kernel MM := (irq00Handler 500 k_shell).2.
Definition k_child : Kernel MM := run2 (scheduler_create 0x400100 [97] 5 1 2 77 k_run) k_run.
Definition k_wait : Kernel MM := run2 (scheduler_wait 2 k_child) k_child.
Definition k_demo : Kernel MM := (irq00Handler 600 k_wait).2.

Lemma static_before : before_init static_kernel.
Proof.
  split; try done; try exact kbd_boot_wf.
  - eapply FreeList.fl_inv_intro; [apply FreeList.mm_init_rep; vm_compute; done|done].
  - vm_compute. split; [done|left; done].
Qed.

Lemma k_boot_inv : kernel_inv k_boot.
Proof. apply init_inv, static_before. Qed.

(** Facts about a concrete state are checked by computation. *)
Lemma demo_stacks_freeable (k : Kernel MM) :
  forallb (fun i => (pid (k_proc k i) <=? 1) || negb (stack_base (k_proc k i) =? FreeList.heap_start (k_mm k) + 24)) (seqZ 1 63) = true ->
  stacks_freeable k.
Proof.
  intros H i Hi _ Hp. rewrite forallb_forall in H.
  assert (In i (seqZ 1 63)) as Hin by (apply list_elem_of_In, elem_of_seqZ; slia).
  apply H, orb_true_iff in Hin as [Hin|Hin]; [lia|]. apply negb_true_iff, Z.eqb_neq in Hin. exact Hin.
Qed.

Lemma create_demo_inv entry nm prio fg argc argv k :
  kernel_inv k -> running k -> kernel_inv (run2 (scheduler_create entry nm prio fg argc argv k) k).
Proof.
  intros Hk Hr. destruct (create_run entry nm prio fg argc argv k Hk) as [[-> _]|(i & k' & -> & Hk' & _)]; [|done|done].
  unfold live, running, k_proc in *. congruence.
Qed.

Lemma k_run_inv : kernel_inv k_run.
Proof. apply tick_inv, create_demo_inv; [exact k_boot_inv|vm_compute; reflexivity]. Qed.

Lemma k_child_inv : kernel_inv k_child.
Proof. apply create_demo_inv; [exact k_run_inv|vm_compute; reflexivity]. Qed.

Lemma k_wait_inv : kernel_inv k_wait.
Proof.
  unfold k_wait, run2. destruct (wait_inv 2 k_child k_child_inv) as (r & k' & -> & Hk'); [vm_compute; reflexivity| | | |exact Hk'].
  - vm_compute. split; reflexivity.
  - apply demo_stacks_freeable. vm_compute. reflexivity.
  - lia.
Qed.

Lemma k_demo_inv : kernel_inv k_demo.
Proof. apply tick_inv, k_wait_inv. Qed.

Section Claims.
Context `{Linkage} {M : Type} `{Hmm : MemManagerLaws M}.
Implicit Types k : Kernel M.

(** C1: The kernel invariant.  In every state reached from boot by creating,
    ending, killing and waiting for processes, by timer ticks and by key
    presses, the process table, the ready queues, the semaphore queues, the
    stacks and the keyboard buffer are consistent: queued processes are
    blocked, every process has a stack of its own that is a block in use of at
    least 4096 bytes, and a process waiting on a semaphore waits for no
    child. *)
Theorem kernel_reachable_inv (k0 k : Kernel M) :
  before_init k0 -> rtc kstep (scheduler_init k0) k -> kernel_inv k.
Proof.
  intros Hb Hr. pose proof (init_inv k0 Hb) as Hi. induction Hr as [|k1 k2 k3 Hs _ IH]; [done|].
  apply IH. by eapply kstep_inv.
Qed.

(** C25: Creation.  [scheduler_create] fails without effect when the table or
    the heap is full.  Otherwise it returns the next pid, and the new process
    is READY with the requested priority (or the default one), the current
    process as its parent, the first 31 characters of the name, standard
    descriptors, and a stack that no block in use overlaps; no other process
    changes, except that the caller loses the keyboard to a foreground
    child. *)
Theorem create_spec (entry : Z) (nm : list Z) (prio fg argc argv : Z) (k : Kernel M) :
  kernel_inv k -> live (k_sched k) (current_idx (k_sched k)) ->
  (scheduler_create entry nm prio fg argc argv k = Some (-1, k) /\
   ((forall i, slot i -> live (k_sched k) i) \/ mm_alloc STACK_SIZE (k_mm k) = Some (0, k_mm k))) \/
  (exists i k', scheduler_create entry nm prio fg argc argv k = Some (next_pid (k_sched k), k') /\
     kernel_inv k' /\ created entry nm prio fg argc argv k i k').
Proof. apply create_run. Qed.



(** C24: Waiting.  [scheduler_wait] fails without effect when there is no child
    of that pid.  For a finished child it returns the exit status, frees its
    entry and stack and changes no other process; for a running child it
    blocks the caller until that child ends. *)
Theorem scheduler_wait_spec (p : Z) (k : Kernel M) :
  let c := current_idx (k_sched k) in
  kernel_inv k -> slot c -> state (k_proc k c) = PROCESS_RUNNING ->
  (forall i, slot i -> live (k_sched k) i -> pid (k_proc k i) = p -> mm_freeable (k_mm k) (stack_base (k_proc k i))) ->
  (scheduler_wait p k = Some (-1, k) /\
   (p <= 0 \/ forall i, 0 <= i < MAX_PROCESSES -> ~ (pid (k_proc k i) = p /\ live (k_sched k) i /\ child k i))) \/
  (exists i, slot i /\ pid (k_proc k i) = p /\ live (k_sched k) i /\ child k i /\ 0 < p /\
     ((state (k_proc k i) = PROCESS_ZOMBIE /\
       exists k', scheduler_wait p k = Some (exit_status (k_proc k i), k') /\ kernel_inv k' /\ drifts i k k' /\
         state (k_proc k' i) = PROCESS_DEAD) \/
      (state (k_proc k i) <> PROCESS_ZOMBIE /\
       let k' := on_sched (set_need_resched 1) (upd_pcb c (wait_fields p) k) in
       scheduler_wait p k = Some (SCHEDULER_WAIT_BLOCKED, k') /\ kernel_inv k'))).
Proof.
  intros c Hk Hc Hst Hf. destruct (wait_run p k Hk Hc Hst Hf) as [?|(i & H1 & H2 & H3 & H4 & H5 & [(Hz & k' & E & Hk' & Hd & Hs & _)|Hb])]; [by left|right..].
  - exists i. split_and!; try done. left. split; [done|]. by exists k'.
  - exists i. split_and!; try done. by right.
Qed.

(** The first context of a process.  The interrupt return that first runs
    a process loads its entry point, its two arguments in the registers of the
    calling convention, an enabled interrupt flag and a stack pointer inside
    its stack, and zeroes the other registers; nothing outside the stack is
    written.  The word that the stack pointer refers to, from which a return
    of the entry function would jump, is 0 and not the exit trampoline. *)
Theorem initial_context (base entry argc argv : Z) (m : words) :
  let '(sp, m') := setup_initial_stack base entry argc argv m in
  load_context sp m' =
    mkContext 0 0 0 0 0 0 0 0 argv (u64 argc) 0 0 0 0 0 entry 0x08 0x202 (base + STACK_SIZE - 8) 0 /\
  word m' (c_rsp (load_context sp m')) = 0 /\
  forall a, a < base \/ base + STACK_SIZE <= a -> word m' a = word m a.
Proof.
  pose proof (setup_initial_stack_spec base entry argc argv m) as Hs.
  destruct (setup_initial_stack base entry argc argv m) as [sp m']. destruct Hs as (_ & -> & Hw & Ho). done.
Qed.

End Claims.

(** ** Witnesses *)

Lemma kernel_reachable_inv_witness :
  current_idx (k_sched k_run) = 1 /\ kernel_inv k_run.
Proof.
  split; [vm_compute; reflexivity|]. apply (kernel_reachable_inv static_kernel k_run static_before).
  eapply rtc_l; [|eapply rtc_l; [apply (ks_timer k_shell 500)|apply rtc_refl]].
  destruct (scheduler_create 0x400000 shell_name 3 1 0 0 k_boot) as [[r k']|] eqn:E; [|vm_compute in E; discriminate].
  replace k_shell with k' by (unfold k_shell; rewrite E; reflexivity).
  eapply ks_create; [vm_compute; reflexivity|exact E].
Defined.

Lemma create_spec_witness :
  (scheduler_create 0x400100 [97] 5 1 2 77 k_run = Some (-1, k_run) /\
   ((forall i, slot i -> live (k_sched k_run) i) \/ mm_alloc STACK_SIZE (k_mm k_run) = Some (0, k_mm k_run))) \/
  (exists i k', scheduler_create 0x400100 [97] 5 1 2 77 k_run = Some (next_pid (k_sched k_run), k') /\
     kernel_inv k' /\ created 0x400100 [97] 5 1 2 77 k_run i k').
Proof. apply (create_spec 0x400100 [97] 5 1 2 77 k_run k_run_inv). vm_compute. discriminate. Defined.



Lemma scheduler_wait_spec_witness :
  (scheduler_wait 9 k_run = Some (-1, k_run) /\ (9 <= 0 \/ forall i, 0 <= i < MAX_PROCESSES -> ~ (pid (k_proc k_run i) = 9 /\ live (k_sched k_run) i /\ child k_run i))) \/
  exists i, slot i /\ pid (k_proc k_run i) = 9.
Proof.
  destruct (scheduler_wait_spec 9 k_run k_run_inv) as [Hl|(i & Hi & Hp & _)].
  - vm_compute. split; reflexivity.
  - vm_compute. reflexivity.
  - intros i Hi Hl Hp. assert (stacks_freeable k_run) as Hf by (apply demo_stacks_freeable; vm_compute; reflexivity).
    apply Hf; [exact Hi|exact Hl|lia].
  - left. exact Hl.
  - right. exists i. split; [exact Hi|exact Hp].
Defined.
