(* ===== verification/ContextSwitch.v ===== *)
(** * Context switches

    [Kernel/asm/interrupts.asm], the timer interrupt: the processor and
    [pushState] save the registers of the interrupted process on its own stack,
    [scheduler_tick] chooses a process, and [popState] and [iretq] load the
    registers from the stack of that process.  The theorem is that every
    process keeps registers of its own. *)

From S2P Require Import Prelude Process ReadyQueue Sched Lifecycle SchedIface Lib Semaphore SemaphoreProps Memory FreeList Pipe Keyboard Wakes Kernel KernelInv KernelEnd KernelCreate KernelStep KernelProps.
Local Open Scope Z_scope.

(** ** Saving *)

(** In 64-bit mode the processor aligns the stack pointer to 16 bytes and
    pushes five words; [pushState] pushes fifteen more. *)
Definition save_context (c : Context) (m : words) : Z * words :=
  foldl push (Z.land (c_rsp c) (-16), m)
    [c_ss c; c_rsp c; c_rflags c; c_cs c; c_rip c;
     c_rax c; c_rbx c; c_rcx c; c_rdx c; c_rbp c; c_rdi c; c_rsi c;
     c_r8 c; c_r9 c; c_r10 c; c_r11 c; c_r12 c; c_r13 c; c_r14 c; c_r15 c].

Definition timer_interrupt {M : Type} (c : Context) (k : Kernel M) : Context * Kernel M :=
  let '(sp, w) := save_context c (k_words k) in
  let '(sp, k) := irq00Handler sp (set_words w k) in
  (load_context sp (k_words k), k).

(** The entry of the system calls: [op] is the call that [syscallDispatcher]
    makes, and its result, as a 64-bit value, goes to the place of [rax] on the
    stack. *)
Definition syscall_interrupt {M : Type} (op : Kernel M -> option (Z * Kernel M)) (c : Context) (k : Kernel M) :
    option (Context * Kernel M) :=
  let '(sp, w) := save_context c (k_words k) in
  '(rax, k) ← op (set_words w k);
  let k := set_words (<[sp + 14 * 8 := u64 rax]> (k_words k)) k in
  let '(sp, k) :=
    if scheduler_should_reschedule (k_sched k)
    then let '(sp, s) := scheduler_tick sp (k_sched k) in (sp, set_sched s k)
    else (sp, k) in
  Some (load_context sp (k_words k), k).

(** What [_irq01Handler] copies to [snapshot_buffer] when the key of the
    snapshot was pressed: the registers in the order of [CPURegisters]. *)
Definition snapshot (sp : Z) (m : words) : list Z :=
  ((fun i => word m (sp + i * 8)) <$> [14; 13; 12; 11; 10; 9; 8; 7; 6; 5; 4; 3; 2; 1; 0; 15; 18]) ++
  [Z.land (word m (sp + 17 * 8)) 0xFFFFFFFFFFFEFFFF].

Definition keyboard_interrupt {M : Type} `{Linkage} `{MemManager M} (scancode : Z) (buffer : list Z) (c : Context) (k : Kernel M) :
    option (list Z * Context * Kernel M) :=
  let '(sp, w) := save_context c (k_words k) in
  k ← irqDispatcher 1 scancode (set_words w k);
  let '(buffer, k) := if do_snapshot k =? 1 then (snapshot sp (k_words k), set_snapshot 0 k) else (buffer, k) in
  Some (buffer, load_context sp (k_words k), k).

(** [exceptionHandler]: what it leaves in [exception_regs] for the report, and
    the registers it returns with.  The frame of the interrupt gets the stack
    of the kernel and the entry of the code module, and [rax] keeps the address
    of the latter. *)
Definition exception_regs (c : Context) (sp : Z) (m : words) : list Z :=
  [c_rax c; c_rbx c; c_rcx c; c_rdx c; c_rsi c; c_rdi c; c_rbp c; word m (sp + 18 * 8);
   c_r8 c; c_r9 c; c_r10 c; c_r11 c; c_r12 c; c_r13 c; c_r14 c; c_r15 c;
   word m (sp + 15 * 8); Z.land (word m (sp + 17 * 8)) 0xFFFFFFFFFFFEFFFF].

Definition userland : Z := 0x400000.

Definition set_rax (v : Z) (c : Context) : Context :=
  mkContext (c_r15 c) (c_r14 c) (c_r13 c) (c_r12 c) (c_r11 c) (c_r10 c) (c_r9 c) (c_r8 c) (c_rsi c) (c_rdi c) (c_rbp c)
    (c_rdx c) (c_rcx c) (c_rbx c) v (c_rip c) (c_cs c) (c_rflags c) (c_rsp c) (c_ss c).

Definition exception_interrupt {M : Type} (stackBase : Z) (c : Context) (k : Kernel M) : list Z * Context * Kernel M :=
  let '(sp, w) := save_context c (k_words k) in
  let frame := sp + 15 * 8 in
  let w' := <[frame := userland]> (<[frame + 24 := stackBase]> w) in
  (exception_regs c sp w, set_rax userland (load_context sp w'), set_words w' k).

Lemma align16 z : z - 15 <= Z.land z (-16) <= z.
Proof.
  change (-16) with (Z.lnot (Z.ones 4)). rewrite <- Z.ldiff_land, Z.ldiff_ones_r by lia. rewrite Z.shiftr_div_pow2, Z.shiftl_mul_pow2 by lia.
  Z.to_euclidean_division_equations. lia.
Qed.

(** What is saved is what is loaded, and nothing else is written. *)
Lemma save_load c m :
  let '(sp, m') := save_context c m in
  sp = Z.land (c_rsp c) (-16) - 160 /\ load_context sp m' = c /\
  forall a, a < sp \/ sp + 160 <= a -> word m' a = word m a.
Proof.
  unfold save_context. set (vs := [_; _; _; _; _; _; _; _; _; _; _; _; _; _; _; _; _; _; _; _]).
  pose proof (push_words vs (Z.land (c_rsp c) (-16)) m) as Hp. set (top := Z.land (c_rsp c) (-16)) in *. clearbody top.
  destruct (foldl push (top, m) vs) as [sp m']. destruct Hp as [-> Hw]. change (Z.of_nat (length vs)) with 20 in *.
  split; [lia|]. split.
  - unfold load_context. assert (forall i, 0 <= i < 20 -> word m' (top - 8 * 20 + 8 * i) = vs.[19 - i]) as Hi.
    { intros i Hi. rewrite Hw. replace (top - (top - 8 * 20 + 8 * i)) with ((20 - i) * 8) by lia.
      rewrite Z.mod_mul, Z.div_mul by lia. replace (20 - i - 1) with (19 - i) by lia. case_if; [done|lia]. }
    rewrite !Hi by lia. by destruct c.
  - intros a Ha. rewrite Hw. case_if; [lia|done].
Qed.

Lemma load_context_frame sp m m' :
  (forall a, sp <= a < sp + 160 -> word m' a = word m a) -> load_context sp m' = load_context sp m.
Proof. intros H. unfold load_context. by rewrite !H by lia. Qed.

(** ** Stack pointers and ticks *)

Lemma requeue_rsp r s j : sched_inv s -> 0 <= j < MAX_PROCESSES ->
  rsp (proc (tick_requeue r s) j) = if j =? current_idx s then r else rsp (proc s j).
Proof.
  intros Hinv Hj. pose proof (si_current _ Hinv) as Hc. destruct (si_rep _ Hinv) as [Q Hrep]. pose proof (rr_sized _ _ Hrep) as Hs.
  unfold tick_requeue. set (s1 := upd_proc (current_idx s) (set_rsp r) s).
  assert (rsp (proc s1 j) = if j =? current_idx s then r else rsp (proc s j)) as H1 by (unfold s1; rewrite proc_upd by done; by case_if).
  assert (sched_inv s1) as Hinv1 by (by apply sched_inv_misc). case_if; [|done]. apply state_is_spec in Heqb.
  set (s2 := upd_proc (current_idx s) (fun p => set_quantums_left (quantums_left p - 1) p) s1).
  assert (rsp (proc s2 j) = rsp (proc s1 j)) as H2 by (unfold s2; by rewrite (proc_upd_field rsp)).
  assert (sched_inv s2) as Hinv2 by (apply sched_inv_misc; try done; intros; simpl; slia).
  case_if; [|congruence]. rewrite <- H1, <- H2. destruct (si_rep _ Hinv2) as [Q2 Hrep2].
  assert (state (proc s2 (current_idx s)) = PROCESS_RUNNING) as Hst by (unfold s2; by rewrite (proc_upd_field state)).
  destruct (make_ready_spec s2 Q2 Hrep2 (current_idx s) true) as (_ & Hu & _); [slia|congruence..|].
  rewrite (one_upd_field rsp _ _ _ _ _ (fun _ => eq_refl) Hu) by done. by case_if.
Qed.

Lemma dispatch_rsp s j : sched_inv s -> 0 <= j < MAX_PROCESSES -> rsp (proc (dispatch_next s).2 j) = rsp (proc s j).
Proof.
  intros Hinv Hj. destruct (si_rep _ Hinv) as [Q Hrep].
  destruct (dequeue_next_ready_spec s Q Hinv Hrep) as (x & s' & Q' & E & Hx & Hr & Hp & _).
  destruct (age_ready_processes_spec s Q Hrep (inv_queued_prio s Hinv)) as (_ & _ & _ & _ & _ & Ha).
  assert (forall i, 0 <= i < MAX_PROCESSES -> rsp (proc (age_ready_processes s) i) = rsp (proc s i)) as Hage.
  { intros i Hi. destruct (Ha i Hi) as [Hc _]. apply pcb_core_eq in Hc. destr_and. unfold age_entry in *. repeat case_if; simpl in *; congruence. }
  rewrite (dispatch_next_eq _ _ _ E), run_next_proc by (done || apply Hr).
  destruct (Z.eqb_spec j x) as [->|Hne]; cbn [rsp set_quantums_left set_state]; rewrite Hp.
  - rewrite Z.eqb_refl, <- (Hage x Hx). by case_if.
  - replace (j =? x) with false by lia. by apply Hage.
Qed.

Lemma dispatch_current s : sched_inv s ->
  let t := dispatch_next s in
  0 <= current_idx t.2 < MAX_PROCESSES /\ state (proc t.2 (current_idx t.2)) = PROCESS_RUNNING /\ t.1 = rsp (proc t.2 (current_idx t.2)).
Proof.
  intros Hinv. cbv zeta. destruct (si_rep _ Hinv) as [Q Hrep].
  destruct (dequeue_next_ready_spec s Q Hinv Hrep) as (x & s' & Q' & E & Hx & Hr & _).
  unfold dispatch_next. rewrite E. cbn [fst snd]. change (current_idx (run_next x s')) with x.
  rewrite run_next_proc by (done || apply Hr). by rewrite Z.eqb_refl.
Qed.

(** The process that a tick chooses, and the stack pointers it leaves. *)
Lemma tick_rsp r s : sched_inv s ->
  let t := scheduler_tick r s in
  0 <= current_idx t.2 < MAX_PROCESSES /\ state (proc t.2 (current_idx t.2)) = PROCESS_RUNNING /\
  t.1 = rsp (proc t.2 (current_idx t.2)) /\
  forall j, 0 <= j < MAX_PROCESSES -> rsp (proc t.2 j) = if j =? current_idx s then r else rsp (proc s j).
Proof.
  intros Hinv. cbv zeta. rewrite tick_dispatches by done. destruct (tick_requeue_inv r s Hinv) as [Hinv1 _].
  destruct (dispatch_current _ Hinv1) as (H1 & H2 & H3). split_and!; try done; try lia.
  intros j Hj. rewrite dispatch_rsp by done. by apply requeue_rsp.
Qed.

(** ** Private registers *)

Section Private.
Context `{Linkage} {M : Type} `{Hmm : MemManagerLaws M}.
Implicit Types k : Kernel M.

(** The memory that the boot code runs on, [getStackBase() - STACK_SIZE] up.
    The first tick saves the registers of [main] as those of entry 0, so this
    is the stack of the idle process, and not [idle_stack]. *)
Context (boot_stack : Z).

(** The processes that have registers: the idle process and every entry in
    use. *)
Definition active k (j : Z) : Prop := j = 0 \/ (slot j /\ live (k_sched k) j).

Definition base k (j : Z) : Z := if j =? 0 then boot_stack else stack_base (k_proc k j).

(** There is room on the stack for one more interrupt. *)
Definition room (b sp : Z) : Prop := b + 175 <= sp <= b + STACK_SIZE.

(** What holds of the kernel whenever contexts are looked at: the boot stack
    is apart from the heap, and the current process is active. *)
Record settled k : Prop := {
  se_inv : kernel_inv k;
  se_apart : boot_stack + STACK_SIZE <= fst (mm_heap (k_mm k)) \/ fst (mm_heap (k_mm k)) + snd (mm_heap (k_mm k)) <= boot_stack;
  se_active : active k (current_idx (k_sched k))
}.

(** The registers [c] are on the stack of entry [j], from [sp] up. *)
Definition stored (c : Context) k (j sp : Z) : Prop :=
  base k j <= sp /\ sp + 160 <= base k j + STACK_SIZE /\ load_context sp (k_words k) = c.

(** Where the registers of entry [j] are: [o] says it for the current process,
    whose registers are in the processor ([None]) or, inside an interrupt, on
    its stack. *)
Definition place k (o : option Z) (j : Z) : option Z := if j =? current_idx (k_sched k) then o else Some (rsp (k_proc k j)).

(** [ctx] are the registers of all processes. *)
Record holding (ctx : Z -> Context) (o : option Z) k : Prop := {
  ho_settled : settled k;
  ho_room j : active k j -> room (base k j) (c_rsp (ctx j));
  ho_saved j sp : active k j -> place k o j = Some sp -> stored (ctx j) k j sp
}.

(** The machine: the processor runs the current process with the registers
    [c]. *)
Definition contexts (ctx : Z -> Context) (c : Context) k : Prop :=
  ctx (current_idx (k_sched k)) = c /\ holding ctx None k.

Lemma active_range k j : active k j -> 0 <= j < MAX_PROCESSES.
Proof. intros [->|[Hj _]]; slia. Qed.

Lemma base_slot k j : slot j -> base k j = stack_base (k_proc k j).
Proof. intros Hj. unfold base. by replace (j =? 0) with false by slia. Qed.

(** Two processes have disjoint stacks. *)
Lemma stacks_disjoint k i j : settled k -> active k i -> active k j -> i <> j ->
  base k i + STACK_SIZE <= base k j \/ base k j + STACK_SIZE <= base k i.
Proof.
  intros [Hinv Hap _] Hi Hj Hne. destruct (ki_stacks _ Hinv) as [Hm _ _ Hb Hd].
  assert (forall x, slot x -> live (k_sched k) x -> boot_stack + STACK_SIZE <= base k x \/ base k x + STACK_SIZE <= boot_stack) as Hoff.
  { intros x Hx Hl. rewrite base_slot by done. destruct (Hb x Hx Hl) as (n & Hn & Hsz). destruct (mm_live_heap _ _ _ Hm Hn) as (_ & ? & ?).
    unfold k_proc. lia. }
  destruct Hi as [->|[Hi Hli]], Hj as [->|[Hj Hlj]]; [done|by apply Hoff|change (base k 0) with boot_stack; pose proof (Hoff i Hi Hli); lia|].
  rewrite !base_slot by done. unfold k_proc. destruct (Hb i Hi Hli) as (n & Hn & Hsz), (Hb j Hj Hlj) as (n' & Hn' & Hsz').
  destruct (mm_live_disjoint _ _ _ _ _ Hm Hn Hn') as [?|?]; [|lia..]. intros E. apply Hne. by apply Hd.
Qed.

Lemma settled_words k w : settled k -> settled (set_words w k).
Proof. intros [[] Ha Hb]. split; try done. Qed.

(** Words outside a stack do not matter to what is stored on it. *)
Lemma stored_frame c k k' j sp :
  stored c k j sp -> base k' j = base k j ->
  (forall a, base k j <= a < base k j + STACK_SIZE -> word (k_words k') a = word (k_words k) a) -> stored c k' j sp.
Proof.
  intros (H1 & H2 & H3) Eb Hw. unfold stored. rewrite Eb. split_and!; [done|done|]. rewrite <- H3. apply load_context_frame.
  intros a Ha. apply Hw. lia.
Qed.

(** ** The parts of an interrupt *)

(** Entry: the registers of the current process are saved. *)
Lemma freeze ctx c k : contexts ctx c k ->
  let '(sp, w) := save_context c (k_words k) in holding ctx (Some sp) (set_words w k).
Proof.
  intros [Hcur [Hset Hroom Hsaved]]. pose proof (se_active _ Hset) as Hact. pose proof (Hroom _ Hact) as Hrc. rewrite Hcur in Hrc.
  pose proof (save_load c (k_words k)) as Hsl. destruct (save_context c (k_words k)) as [sp w]. destruct Hsl as (Esp & Hld & Hfr).
  pose proof (align16 (c_rsp c)) as Hal. unfold room in Hrc. split; [by apply settled_words|done|].
  intros j sp' Hj. unfold place. change (current_idx (k_sched (set_words w k))) with (current_idx (k_sched k)). change (k_proc (set_words w k) j) with (k_proc k j).
  destruct (Z.eqb_spec j (current_idx (k_sched k))) as [->|Hne]; intros [= <-].
  - unfold stored. change (base (set_words w k)) with (base k). rewrite Hcur. split_and!; [lia|lia|done].
  - apply (stored_frame _ k); [|done|].
    + apply Hsaved; [done|]. unfold place. by replace (j =? _) with false by lia.
    + intros a Ha. apply Hfr. pose proof (stacks_disjoint k j _ Hset Hj Hact Hne). lia.
Qed.

(** Exit: the current process goes on with what is on its stack. *)
Lemma thaw ctx sp k : holding ctx (Some sp) k -> contexts ctx (load_context sp (k_words k)) k.
Proof.
  intros [Hset Hroom Hsaved]. split.
  - symmetry. apply (Hsaved (current_idx (k_sched k)) sp); [apply Hset|]. unfold place. by rewrite Z.eqb_refl.
  - split; [done|done|]. intros j sp' Hj. unfold place. case_if; [done|]. intros [= <-]. apply Hsaved; [done|]. unfold place. by rewrite Heqb.
Qed.

(** The result of a call goes to [rax]. *)
Lemma holding_rax ctx sp k v : holding ctx (Some sp) k ->
  let cur := current_idx (k_sched k) in
  holding (fupd ctx cur (set_rax v (ctx cur))) (Some sp) (set_words (<[sp + 14 * 8 := v]> (k_words k)) k).
Proof.
  intros [Hset Hroom Hsaved] cur. pose proof (se_active _ Hset) as Hact. fold cur in Hact. split; [by apply settled_words|..].
  - intros j Hj. specialize (Hroom j Hj). unfold fupd. destruct (Z.eqb_spec j cur) as [->|]; done.
  - intros j sp' Hj. change (place (set_words _ k)) with (place k). intros Hp. pose proof (Hsaved j sp' Hj Hp) as Hs.
    assert (stored (ctx cur) k cur sp) as (Hc1 & Hc2 & _) by (apply Hsaved; [done|unfold place; by rewrite Z.eqb_refl]).
    unfold place in Hp. fold cur in Hp. unfold fupd. destruct (Z.eqb_spec j cur) as [->|Hne].
    + injection Hp as <-. destruct Hs as (H1 & H2 & <-). split_and!; try done. change (k_words (set_words ?w k)) with w. unfold load_context, set_rax. cbn.
      rewrite !word_insert. repeat (case_if; [lia|]). case_if; [|lia]. repeat (case_if; [lia|]). done.
    + apply (stored_frame _ k); [done|done|]. intros a Ha. change (k_words (set_words ?w k)) with w. rewrite word_insert.
      pose proof (stacks_disjoint k j cur Hset Hj Hact Hne). by replace (a =? sp + 14 * 8) with false by lia.
Qed.

(** Changes of the kernel that keep the registers of the processes that go on:
    the words of the stacks stay, and no process gets another stack or stack
    pointer. *)
Record quiet k k' : Prop := {
  qu_inv : kernel_inv k';
  qu_saved : saved k k';
  qu_heap : mm_heap (k_mm k') = mm_heap (k_mm k);
  qu_current : current_idx (k_sched k') = current_idx (k_sched k);
  qu_active : active k' (current_idx (k_sched k'))
}.

Lemma idle_live s : sched_inv s -> live s 0.
Proof. intros Hs. destruct (si_idle _ Hs) as (_ & _ & [E|E]); unfold live; rewrite E; done. Qed.

Lemma active_live k j : kernel_inv k -> active k j -> live (k_sched k) j.
Proof. intros Hk [->|[_ Hl]]; [apply idle_live, (sv_sched _ (ki_sem _ Hk))|done]. Qed.

Lemma holding_quiet ctx o k k' : holding ctx o k -> quiet k k' -> holding ctx o k'.
Proof.
  intros [[Hinv Hap Hact] Hroom Hsaved] [Hinv' [Hw He] Hh Hc Ha].
  assert (forall j, active k' j -> active k j /\ rsp (k_proc k' j) = rsp (k_proc k j) /\ base k' j = base k j) as Hold.
  { intros j Hj. destruct (He j (active_range _ _ Hj) (active_live _ _ Hinv' Hj)) as (Hl & Er & Eb). split_and!; [|done|unfold base; by case_if].
    destruct Hj as [->|[Hj _]]; [by left|by right]. }
  split.
  - split; [done|by rewrite Hh|done].
  - intros j Hj. destruct (Hold j Hj) as (Hj' & _ & ->). by apply Hroom.
  - intros j sp Hj Hp. destruct (Hold j Hj) as (Hj' & Er & Eb). apply (stored_frame _ k); [|done|by rewrite Hw].
    apply Hsaved; [done|]. revert Hp. unfold place. by rewrite Hc, Er.
Qed.

(** Creation: the new process starts with the registers prepared for it. *)
Lemma holding_created ctx o k k' i entry nm prio fg argc argv :
  holding ctx o k -> kernel_inv k' -> created entry nm prio fg argc argv k i k' ->
  holding (fupd ctx i (start_context (base k' i) entry argc argv)) o k'.
Proof.
  intros [Hset Hroom Hsaved] Hinv' Hcr. pose proof (cr_slot _ _ _ _ _ _ _ _ _ Hcr) as Hi. pose proof Hset as [Hinv Hap Hact].
  assert (forall j, 0 <= j < MAX_PROCESSES -> j <> i -> state (k_proc k' j) = state (k_proc k j) /\ rsp (k_proc k' j) = rsp (k_proc k j) /\ base k' j = base k j) as Hold.
  { intros j Hj Hne. pose proof (cr_others _ _ _ _ _ _ _ _ _ Hcr j Hj Hne) as E. apply pcb_core_eq in E. unfold base. destruct (ctrue fg && _); cbn in E; destr_and; split_and!; try done; by case_if. }
  assert (forall j, active k' j -> j <> i -> active k j) as Hact'.
  { intros j [->|[Hj Hl]] Hne; [by left|right]. split; [done|]. unfold live in *. fold (k_proc k j). fold (k_proc k' j) in Hl. by rewrite <- (proj1 (Hold j ltac:(slia) Hne)). }
  assert (current_idx (k_sched k) <> i) as Hci.
  { intros E. destruct Hact as [E0|[_ Hl]]; [slia|]. rewrite E in Hl. by apply (cr_free _ _ _ _ _ _ _ _ _ Hcr). }
  assert (settled k') as Hset'.
  { split; [done|by rewrite (cr_heap _ _ _ _ _ _ _ _ _ Hcr)|]. rewrite (cr_current _ _ _ _ _ _ _ _ _ Hcr). destruct Hact as [->|[Hs Hl]]; [by left|right].
    split; [done|]. unfold live in *. fold (k_proc k' (current_idx (k_sched k))). by rewrite (proj1 (Hold (current_idx (k_sched k)) ltac:(slia) Hci)). }
  assert (active k' i) as Hnew.
  { right. split; [done|]. unfold live. fold (k_proc k' i). by rewrite (cr_state _ _ _ _ _ _ _ _ _ Hcr). }
  split; [done|..].
  - intros j Hj. unfold fupd. destruct (Z.eqb_spec j i) as [->|Hne]; [unfold room; cbn [c_rsp start_context]; unfold STACK_SIZE; lia|].
    rewrite (proj2 (proj2 (Hold j (active_range _ _ Hj) Hne))). apply Hroom. by apply Hact'.
  - intros j sp Hj Hp. unfold fupd. destruct (Z.eqb_spec j i) as [->|Hne].
    + unfold place in Hp. rewrite (cr_current _ _ _ _ _ _ _ _ _ Hcr) in Hp. replace (i =? _) with false in Hp by lia. injection Hp as <-.
      unfold stored. rewrite (cr_rsp _ _ _ _ _ _ _ _ _ Hcr), base_slot by done. rewrite <- (cr_rsp _ _ _ _ _ _ _ _ _ Hcr).
      split_and!; [rewrite (cr_rsp _ _ _ _ _ _ _ _ _ Hcr); unfold STACK_SIZE; lia..|]. apply (cr_context _ _ _ _ _ _ _ _ _ Hcr).
    + destruct (Hold j (active_range _ _ Hj) Hne) as (_ & Er & Eb). apply (stored_frame _ k); [|done|].
      * apply Hsaved; [by apply Hact'|]. revert Hp. unfold place. by rewrite (cr_current _ _ _ _ _ _ _ _ _ Hcr), Er.
      * intros a Ha. apply (cr_words _ _ _ _ _ _ _ _ _ Hcr). rewrite <- base_slot by done.
        pose proof (stacks_disjoint k' j i Hset' Hj Hnew Hne) as Hdis. rewrite Eb in Hdis. lia.
Qed.

(** Scheduling neither starts nor ends a process. *)
Lemma sched_step_live s s' j : sched_step s s' -> slot j -> live s' j <-> live s j.
Proof.
  intros Hst Hj. destruct (Hst j ltac:(slia)) as (_ & Hp & Hu). specialize (Hp Hj). specialize (Hu Hj). unfold live.
  destruct (state (proc s j)); cbn in Hp, Hu; try (rewrite Hp by done; done).
  all: specialize (Hu eq_refl); by destruct (state (proc s' j)).
Qed.

(** A tick: the process it chooses gets its registers, and nobody's change. *)
Lemma holding_tick ctx sp k : holding ctx (Some sp) k ->
  let t := scheduler_tick sp (k_sched k) in contexts ctx (load_context t.1 (k_words k)) (set_sched t.2 k).
Proof.
  intros [Hset Hroom Hsaved] t. pose proof Hset as [Hinv Hap Hact].
  pose proof (sv_sched _ (ki_sem _ Hinv)) as Hs. change (sched_inv (k_sched k)) in Hs.
  destruct (tick_rsp sp (k_sched k) Hs) as (Hcr & Hrun & Er & Hrsp). pose proof (scheduler_tick_step sp (k_sched k) Hs) as Hst.
  pose proof (kernel_inv_sched k _ Hinv (scheduler_tick_inv sp _ Hs) Hst) as Hinv'.
  fold t in Hcr, Hrun, Er, Hrsp, Hst, Hinv'. set (k' := set_sched t.2 k) in *. change (k_sched k') with t.2 in *.
  assert (forall j, active k' j -> active k j) as Hact' by (intros j [->|[Hj Hl]]; [by left|right; split; [done|by apply (sched_step_live _ _ _ Hst Hj)]]).
  assert (forall j, active k' j -> base k' j = base k j) as Hbase.
  { intros j Hj. destruct (Hst j (active_range _ _ Hj)) as (D & _). apply durable_eq in D as (_ & _ & _ & _ & D & _). unfold base. case_if; [done|exact D]. }
  assert (active k' (current_idx t.2)) as Hnew.
  { destruct (decide (current_idx t.2 = 0)) as [|Hn]; [by left|]. right. split; [slia|]. unfold live. change (k_sched k') with t.2. congruence. }
  assert (forall j, active k' j -> stored (ctx j) k' j (rsp (proc t.2 j))) as Hall.
  { intros j Hj. apply (stored_frame _ k); [|by apply Hbase|done]. apply Hsaved; [by apply Hact'|]. unfold place. rewrite (Hrsp j (active_range _ _ Hj)). by case_if. }
  split; [|split].
  - rewrite Er. symmetry. by apply (Hall (current_idx t.2)).
  - by split.
  - intros j Hj. rewrite (Hbase j Hj). apply Hroom. auto.
  - intros j sp' Hj. unfold place. case_if; [done|]. intros [= <-]. by apply Hall.
Qed.

(** A timer interrupt changes the process that runs and nobody's registers. *)
Lemma timer_contexts ctx c k : contexts ctx c k -> contexts ctx (timer_interrupt c k).1 (timer_interrupt c k).2.
Proof.
  intros Hx. unfold timer_interrupt. pose proof (freeze _ _ _ Hx) as Hf. destruct (save_context c (k_words k)) as [sp w].
  unfold irq00Handler. assert (holding ctx (Some sp) (timer_handler (set_words w k))) as Hf'.
  { destruct Hf as [[[] Ha Hb] Hr Hs]. by split. }
  pose proof (holding_tick _ _ _ Hf') as Ht. by destruct (scheduler_tick sp _).
Qed.

(** ** System calls and key presses *)

Lemma quiet_refl k : settled k -> quiet k k.
Proof. intros [Hk _ Ha]. split; [done|apply saved_refl|done|done|done]. Qed.

Lemma running_active k : kernel_inv k -> running k -> active k (current_idx (k_sched k)).
Proof.
  intros Hk Hr. pose proof (si_current _ (sv_sched _ (ki_sem _ Hk) : sched_inv (k_sched k))) as Hc.
  destruct (decide (current_idx (k_sched k) = 0)); [by left|right]. split; [slia|]. unfold live, running, k_proc in *. congruence.
Qed.

Lemma exit_quiet status k : settled k -> running k -> exists k', scheduler_exit_current status k = Some k' /\ quiet k k'.
Proof.
  intros Hset Hr. pose proof (se_inv _ Hset) as Hk. destruct (decide (slot (current_idx (k_sched k)))) as [Hc|Hc].
  - destruct (exit_run status k Hk Hc Hr) as (k' & E & Hk' & [Hsv Hh] & Ec & Hz & _). exists k'. split; [done|].
    split; try done. right. rewrite Ec. split; [done|]. unfold live. fold (k_proc k' (current_idx (k_sched k))). by rewrite Hz.
  - exists k. split; [|by apply quiet_refl]. unfold scheduler_exit_current.
    pose proof (si_current _ (sv_sched _ (ki_sem _ Hk) : sched_inv (k_sched k))). by replace (current_idx (k_sched k) <=? 0) with true by slia.
Qed.

(** The current process goes on after the end of another one. *)
Lemma others_active i p k k' : running k -> active k (current_idx (k_sched k)) -> i <> current_idx (k_sched k) ->
  current_idx (k_sched k') = current_idx (k_sched k) -> others_after i p (k_sched k) (k_sched k') -> active k' (current_idx (k_sched k')).
Proof.
  intros Hr Ha Hne Ec Ho. rewrite Ec. destruct Ha as [->|[Hs Hl]]; [by left|right]. split; [done|].
  destruct (Ho _ Hs (not_eq_sym Hne) Hl) as (_ & _ & _ & _ & Hst). unfold live, running, k_proc in *. destruct Hst as [?|[_ ?]]; congruence.
Qed.

Lemma kill_quiet p k : settled k -> running k -> stacks_freeable k -> exists r k', scheduler_kill p k = Some (r, k') /\ quiet k k'.
Proof.
  intros Hset Hr Hf. pose proof Hset as [Hk _ Ha]. pose proof (sv_sched _ (ki_sem _ Hk)) as Hs. change (sched_inv (k_sched k)) in Hs.
  destruct (Z.leb_spec p 1) as [Hp|Hp].
  { exists (-1), k. split; [|by apply quiet_refl]. unfold scheduler_kill. by replace (p <=? 1) with true by lia. }
  destruct (find_pid_slot p (k_sched k) Hs ltac:(lia)) as [[E _]|(i & E & Hi & Hpid & Hl)].
  - exists (-1), k. split; [|by apply quiet_refl]. unfold scheduler_kill. rewrite E. by replace (p <=? 1) with false by lia.
  - destruct (decide (i = current_idx (k_sched k))) as [Hc|Hc].
    + destruct (exit_quiet (-1) k Hset Hr) as (k' & Ex & Hq). exists 0, k'. split; [|done]. unfold scheduler_kill. rewrite E.
      replace (p <=? 1) with false by lia. replace (i <? 0) with false by slia. by rewrite (proj2 (Z.eqb_eq _ _) Hc), Ex.
    + destruct (kill_other_run p i k Hk Hp) as (k' & Ek & Hk' & (Hsv & Hh & _) & _ & Ec & Ho & _); try done; [slia|apply Hf; try done; unfold k_proc; lia|].
      exists 0, k'. split; [done|]. split; try done. by eapply others_active.
Qed.

Lemma wait_quiet p k : settled k -> running k -> slot (current_idx (k_sched k)) -> stacks_freeable k -> 1 < p ->
  exists r k', scheduler_wait p k = Some (r, k') /\ quiet k k'.
Proof.
  intros Hset Hr Hc Hf Hp. pose proof Hset as [Hk _ Ha].
  destruct (wait_run p k Hk Hc Hr) as [[E _]|(i & Hi & Hpid & Hl & _ & _ & [(Hz & k' & E & Hk' & Hd & _ & Hh)|(_ & E & Hk')])].
  - intros i Hi Hl Hpid. apply Hf; try done. lia.
  - exists (-1), k. split; [done|by apply quiet_refl].
  - eexists _, k'. split; [done|]. assert (current_idx (k_sched k) <> i) as Hne by (intros Ei; unfold running in Hr; rewrite Ei in Hr; congruence).
    destruct (dr_others _ _ _ Hd (current_idx (k_sched k)) ltac:(slia) Hne) as (_ & _ & _ & _ & Hst).
    split; [done|apply Hd|done|apply Hd|]. rewrite (dr_current _ _ _ Hd). right. split; [done|]. unfold live, running in *.
    fold (k_proc k' (current_idx (k_sched k))). destruct Hst as [?|(? & ? & _)]; congruence.
  - eexists _, _. split; [done|]. set (k1 := upd_pcb _ _ k) in *.
    assert (forall j, k_proc k1 j = if j =? current_idx (k_sched k) then wait_fields p (k_proc k j) else k_proc k j) as Hp1
      by (intros; apply (k_proc_upd none); [apply (ki_sem _ Hk)|slia]).
    split; [done| |done|done|].
    + apply saved_core; [done|]. intros j Hj. change (k_proc (on_sched (set_need_resched 1) k1) j) with (k_proc k1 j). rewrite Hp1.
      destruct (Z.eqb_spec j (current_idx (k_sched k))) as [->|]; [|done]. intros _. split_and!; try done. unfold running in Hr. congruence.
    + right. split; [done|]. unfold live. change (state (k_proc k1 (current_idx (k_sched k))) <> PROCESS_DEAD). by rewrite Hp1, Z.eqb_refl.
Qed.

Lemma yield_quiet k : settled k -> quiet k (on_sched scheduler_yield k).
Proof.
  intros [Hk _ Ha]. pose proof (sv_sched _ (ki_sem _ Hk)) as Hs. change (sched_inv (k_sched k)) in Hs. pose proof (si_current _ Hs) as Hc.
  destruct (si_rep _ Hs) as [Q Hrep]. pose proof (rr_sized _ _ Hrep) as Hz.
  assert (forall j, proc (scheduler_yield (k_sched k)) j = if j =? current_idx (k_sched k) then set_quantums_left 0 (proc (k_sched k) j) else proc (k_sched k) j) as Hp.
  { intros j. unfold scheduler_yield. replace (current_idx (k_sched k) <? 0) with false by lia. rewrite proc_set_resched. by apply proc_upd. }
  assert (current_idx (scheduler_yield (k_sched k)) = current_idx (k_sched k)) as Ec by (unfold scheduler_yield; by case_if).
  split; [| |done|exact Ec|].
  - apply kernel_inv_sched; [done|by apply scheduler_yield_inv|]. intros j Hj. rewrite Hp. by case_if.
  - apply saved_core; [done|]. intros j Hj. change (k_proc (on_sched scheduler_yield k) j) with (proc (scheduler_yield (k_sched k)) j).
    rewrite Hp. unfold k_proc. by case_if.
  - change (active (on_sched scheduler_yield k) (current_idx (scheduler_yield (k_sched k)))). rewrite Ec. destruct Ha as [->|[Hsl Hl]]; [by left|right].
    split; [done|]. unfold live. change (k_sched (on_sched scheduler_yield k)) with (scheduler_yield (k_sched k)). rewrite Hp. by case_if.
Qed.

Lemma quiet_kbd k k' kb : quiet k k' -> kbd_wf kb -> quiet k (set_kbd kb k').
Proof. intros [Hk [Hw He] Hh Hc Ha] Hkb. split; try done. by apply kernel_inv_kbd. Qed.

Lemma settled_kbd k kb : settled k -> kbd_wf kb -> settled (set_kbd kb k).
Proof. intros [Hk Hap Ha] Hkb. split; try done. by apply kernel_inv_kbd. Qed.

Lemma quiet_from_kbd k k' kb : quiet (set_kbd kb k) k' -> quiet k k'.
Proof. intros [Hk [Hw He] Hh Hc Ha]. by split. Qed.

Lemma key_quiet sc k : settled k -> running k -> stacks_freeable k ->
  exists k', keyboard_interrupt_handler sc k = Some k' /\ quiet k k'.
Proof.
  intros Hset Hr Hf. pose proof Hset as [Hk _ Ha]. unfold keyboard_interrupt_handler.
  pose proof (keyboard_event_typed sc (k_kbd k) (ki_kbd _ Hk)) as Hev. destruct (keyboard_event sc (k_kbd k)) as [a kb]. destruct Hev as [Hw _].
  pose proof (quiet_kbd k k kb (quiet_refl k Hset) Hw) as Hq1. destruct a.
  - by eexists.
  - eexists. split; [done|]. destruct Hq1 as [[] [] ? ? ?]. by split.
  - unfold scheduler_kill_foreground. case_if.
    + eexists. split; [done|]. apply (quiet_kbd _ (set_kbd kb k)); [done|]. by apply kbd_clear_wf.
    + match goal with |- context [scheduler_kill ?p ?x] => destruct (kill_quiet p x (settled_kbd _ _ Hset Hw) Hr Hf) as (r & k' & -> & Hq) end.
      eexists. split; [done|]. apply (quiet_kbd _ k'); [by eapply quiet_from_kbd|]. apply kbd_clear_wf, (ki_kbd _ (qu_inv _ _ Hq)).
Qed.

(** ** The machine *)

(** The calls whose effects on the table of processes decide what runs. *)
Inductive call :=
| Create (entry : Z) (nm : list Z) (prio fg argc argv : Z)
| Exit (status : Z)
| Kill (p : Z)
| Yield.

Definition run_call (x : call) k : option (Z * Kernel M) :=
  match x with
  | Create entry nm prio fg argc argv => scheduler_create entry nm prio fg argc argv k
  | Exit status => k ← scheduler_exit_current status k; Some (0, k)
  | Kill p => scheduler_kill p k
  | Yield => Some (0, on_sched scheduler_yield k)
  end.

Definition allowed (x : call) k : Prop := running k /\ match x with Kill _ => stacks_freeable k | _ => True end.

(** What a step does to the registers of the processes. *)
Inductive event :=
| Ran (c : Context)
| Switched
| Returned (v : Z)
| Created (v i : Z) (c : Context).

Definition own (ctx : Z -> Context) (l : Z * event) : Z -> Context :=
  let '(cur, e) := l in
  match e with
  | Ran c => fupd ctx cur c
  | Switched => ctx
  | Returned v => fupd ctx cur (set_rax v (ctx cur))
  | Created v i c => let ctx := fupd ctx i c in fupd ctx cur (set_rax v (ctx cur))
  end.

(** The event of a call that returned [r] and left [k]. *)
Definition call_event (x : call) (r : Z) k : event :=
  match x with
  | Create entry _ _ _ argc argv =>
      if r =? -1 then Returned (u64 r)
      else let i := find_idx (has_pid (k_sched k) r) 0 MAX_PROCESSES in
           Created (u64 r) i (start_context (base k i) entry argc argv)
  | _ => Returned (u64 r)
  end.

(** The code of the current process runs: it may change its registers, its
    stack and memory that is no stack. *)
Definition keeps_stacks k (w : words) : Prop :=
  forall j a, active k j -> j <> current_idx (k_sched k) -> base k j <= a < base k j + STACK_SIZE -> word w a = word (k_words k) a.

Inductive mstep : event -> Context * Kernel M -> Context * Kernel M -> Prop :=
| ms_run c k c' w :
    room (base k (current_idx (k_sched k))) (c_rsp c') -> keeps_stacks k w -> mstep (Ran c') (c, k) (c', set_words w k)
| ms_wait p c k c' w r k' :
    (** inside [syscall_wait], which may have to wait for the child *)
    running k -> slot (current_idx (k_sched k)) -> stacks_freeable k -> 1 < p -> scheduler_wait p k = Some (r, k') ->
    room (base k (current_idx (k_sched k))) (c_rsp c') -> keeps_stacks k w -> mstep (Ran c') (c, k) (c', set_words w k')
| ms_timer c k : mstep Switched (c, k) (timer_interrupt c k)
| ms_key sc buffer buffer' c k c' k' :
    running k -> stacks_freeable k -> keyboard_interrupt sc buffer c k = Some (buffer', c', k') -> mstep Switched (c, k) (c', k')
| ms_call x c k r k1 c' k' :
    allowed x k -> run_call x (set_words (save_context c (k_words k)).2 k) = Some (r, k1) ->
    syscall_interrupt (run_call x) c k = Some (c', k') -> mstep (call_event x r k1) (c, k) (c', k').

Inductive msteps : list (Z * event) -> Context * Kernel M -> Context * Kernel M -> Prop :=
| ms_nil x : msteps [] x x
| ms_cons e tr x y z : mstep e x y -> msteps tr y z -> msteps ((current_idx (k_sched x.2), e) :: tr) x z.

(** A step of the code of the current process, and of the kernel for it. *)
Lemma run_contexts ctx c k c' w k' : contexts ctx c k -> quiet k k' -> room (base k (current_idx (k_sched k))) (c_rsp c') ->
  keeps_stacks k w -> contexts (fupd ctx (current_idx (k_sched k)) c') c' (set_words w k').
Proof.
  intros [_ Hho] Hq Hroom Hw. pose proof (holding_quiet _ _ _ _ Hho Hq) as [Hset Hr Hs]. set (cur := current_idx (k_sched k)) in *.
  destruct Hq as [Hinv' [Hws He] _ Ec _]. fold cur in Ec.
  assert (forall j, active k' j -> active k j /\ base k' j = base k j) as Hold.
  { intros j Hj. destruct (He j (active_range _ _ Hj) (active_live _ _ Hinv' Hj)) as (Hl & _ & Eb).
    split; [destruct Hj as [->|[Hj _]]; [by left|by right]|unfold base; by case_if]. }
  split.
  - change (current_idx (k_sched (set_words w k'))) with (current_idx (k_sched k')). rewrite Ec. unfold fupd. by rewrite Z.eqb_refl.
  - split; [by apply settled_words|..].
    + intros j Hj. change (base (set_words w k')) with (base k'). unfold fupd. destruct (Z.eqb_spec j cur) as [->|]; [|by apply Hr].
      by rewrite (proj2 (Hold cur Hj)).
    + intros j sp Hj Hp. change (place (set_words w k') None j) with (place k' None j) in Hp. pose proof (Hs j sp Hj Hp) as Hst.
      unfold place in Hp. rewrite Ec in Hp. unfold fupd. destruct (Z.eqb_spec j cur) as [->|Hne]; [done|].
      apply (stored_frame _ k'); [done|done|]. rewrite Hws. destruct (Hold j Hj) as [Hj' ->]. intros a Ha. by apply (Hw j).
Qed.

Lemma holding_snapshot ctx o k v : holding ctx o k -> holding ctx o (set_snapshot v k).
Proof. intros [[[] Ha Hb] Hr Hs]. by split. Qed.

Lemma key_contexts sc buffer ctx c k : contexts ctx c k -> running k -> stacks_freeable k ->
  exists buffer' c' k', keyboard_interrupt sc buffer c k = Some (buffer', c', k') /\ contexts ctx c' k'.
Proof.
  intros Hx Hr Hf. unfold keyboard_interrupt. pose proof (freeze _ _ _ Hx) as Hh. destruct (save_context c (k_words k)) as [sp w].
  destruct (key_quiet sc _ (ho_settled _ _ _ Hh) Hr Hf) as (k' & E & Hq). change (irqDispatcher 1 sc (set_words w k)) with (keyboard_interrupt_handler sc (set_words w k)).
  rewrite E. cbn [mbind option_bind]. pose proof (holding_quiet _ _ _ _ Hh Hq) as Hh'. case_if.
  - eexists _, _, _. split; [done|]. by apply thaw, holding_snapshot.
  - eexists _, _, _. split; [done|]. by apply thaw.
Qed.

(** A call, for any memory that the entry saved the registers to. *)
Lemma run_call_holding x ctx sp k : holding ctx (Some sp) k -> allowed x k ->
  exists r k1, run_call x k = Some (r, k1) /\
    holding (own ctx (current_idx (k_sched k), call_event x r k1)) (Some sp) (set_words (<[sp + 14 * 8 := u64 r]> (k_words k1)) k1).
Proof.
  intros Hh [Hr Hal]. pose proof (ho_settled _ _ _ Hh) as Hset.
  assert (forall r k1, quiet k k1 ->
    holding (own ctx (current_idx (k_sched k), Returned (u64 r))) (Some sp) (set_words (<[sp + 14 * 8 := u64 r]> (k_words k1)) k1)) as Hret.
  { intros r k1 Hq. pose proof (holding_rax _ _ _ (u64 r) (holding_quiet _ _ _ _ Hh Hq)) as Hx. by rewrite (qu_current _ _ Hq) in Hx. }
  destruct x as [entry nm prio fg argc argv|st|p|]; cbn [run_call].
  - destruct (create_run entry nm prio fg argc argv k (se_inv _ Hset)) as [[E _]|(i & k1 & E & Hk1 & Hcr)].
    + apply active_live; apply Hset.
    + exists (-1), k. split; [done|]. by apply Hret, quiet_refl.
    + exists (next_pid (k_sched k)), k1. split; [done|]. cbn [call_event].
      pose proof (si_next _ (sv_sched _ (ki_sem _ (se_inv _ Hset)) : sched_inv (k_sched k))). replace (next_pid (k_sched k) =? -1) with false by lia.
      pose proof (cr_slot _ _ _ _ _ _ _ _ _ Hcr) as Hi. pose proof (cr_pid _ _ _ _ _ _ _ _ _ Hcr) as Hpid. unfold k_proc in Hpid.
      rewrite <- Hpid, (find_pid_live (X:=none)), Hpid;
        [|apply (sv_sched _ (ki_sem _ Hk1))|slia|unfold live; fold (k_proc k1 i); by rewrite (cr_state _ _ _ _ _ _ _ _ _ Hcr)].
      pose proof (holding_rax _ _ _ (u64 (next_pid (k_sched k))) (holding_created _ _ _ _ _ _ _ _ _ _ _ Hh Hk1 Hcr)) as Hx.
      by rewrite (cr_current _ _ _ _ _ _ _ _ _ Hcr) in Hx.
  - destruct (exit_quiet st k Hset Hr) as (k1 & E & Hq). exists 0, k1. rewrite E. split; [done|by apply Hret].
  - destruct (kill_quiet p k Hset Hr Hal) as (r & k1 & E & Hq). exists r, k1. rewrite E. split; [done|by apply Hret].
  - exists 0, (on_sched scheduler_yield k). split; [done|]. by apply Hret, yield_quiet.
Qed.

Lemma call_contexts x ctx c k : contexts ctx c k -> allowed x k ->
  exists r k1 c' k', run_call x (set_words (save_context c (k_words k)).2 k) = Some (r, k1) /\
    syscall_interrupt (run_call x) c k = Some (c', k') /\ contexts (own ctx (current_idx (k_sched k), call_event x r k1)) c' k'.
Proof.
  intros Hx Hal. unfold syscall_interrupt. pose proof (freeze _ _ _ Hx) as Hh. destruct (save_context c (k_words k)) as [sp w]. cbn [snd].
  destruct (run_call_holding x _ _ _ Hh Hal) as (r & k1 & E & Hh'). exists r, k1. rewrite E. cbn [mbind option_bind].
  set (k2 := set_words _ k1) in *. change (k_sched (set_words w k)) with (k_sched k) in Hh'. case_if.
  - pose proof (holding_tick _ _ _ Hh') as Ht. destruct (scheduler_tick sp (k_sched k2)) as [sp' s'].
    eexists _, _. split; [done|]. split; [done|]. exact Ht.
  - eexists _, _. split; [done|]. split; [done|]. by apply thaw.
Qed.

(** Every step keeps the registers where [own] says. *)
Lemma mstep_contexts e ctx c k c' k' : mstep e (c, k) (c', k') -> contexts ctx c k ->
  contexts (own ctx (current_idx (k_sched k), e)) c' k'.
Proof.
  intros Hs Hx. pose proof (ho_settled _ _ _ (proj2 Hx)) as Hset. inversion Hs; subst; cbn [own].
  - apply (run_contexts ctx c k _ _ k); [done|by apply quiet_refl|done|done].
  - destruct (wait_quiet p k Hset) as (r' & k1 & E & Hq); [done..|]. simplify_eq. by apply (run_contexts ctx c k).
  - pose proof (timer_contexts _ _ _ Hx) as Ht. match goal with E : timer_interrupt _ _ = _ |- _ => by rewrite E in Ht end.
  - destruct (key_contexts sc buffer ctx c k Hx) as (b & c1 & k1 & E & Hx'); [done..|]. by simplify_eq.
  - destruct (call_contexts x ctx c k Hx) as (r' & k2 & c1 & k3 & E1 & E2 & Hx'); [done|]. by simplify_eq.
Qed.

(** Whether a step leaves the registers of entry [j] alone. *)
Definition spares (j : Z) (l : Z * event) : Prop :=
  match l.2 with
  | Switched => True
  | Created _ i _ => l.1 <> j /\ i <> j
  | _ => l.1 <> j
  end.

Lemma own_spared j tr : forall ctx, Forall (spares j) tr -> foldl own ctx tr j = ctx j.
Proof.
  induction tr as [|[cur e] tr IH]; intros ctx HF; [done|]. apply list.Forall_cons in HF as [Hs HF]. cbn [foldl]. rewrite IH by done.
  destruct e; cbn in *; unfold fupd; repeat (case_if; [lia|]); done.
Qed.

(** ** Boot *)

(** [main] runs on the boot stack as entry 0, the only process. *)
Lemma contexts_init c k : before_init k ->
  boot_stack + STACK_SIZE <= fst (mm_heap (k_mm k)) \/ fst (mm_heap (k_mm k)) + snd (mm_heap (k_mm k)) <= boot_stack ->
  room boot_stack (c_rsp c) -> contexts (fun _ => c) c (scheduler_init k).
Proof.
  intros Hb Hap Hroom. pose proof (init_inv k Hb) as Hinv. pose proof (bi_queues _ Hb) as Hq.
  assert (current_idx (k_sched (scheduler_init k)) = 0) as Ec by (by rewrite (init_sched k Hq)).
  assert (mm_heap (k_mm (scheduler_init k)) = mm_heap (k_mm k)) as Em by (unfold scheduler_init; by destruct (setup_initial_stack _ _ _ _ _)).
  assert (forall j, active (scheduler_init k) j -> j = 0) as Honly.
  { intros j [->|[Hj Hl]]; [done|]. exfalso. apply Hl. fold (k_proc (scheduler_init k) j). rewrite init_procs by (done || slia).
    by replace (j =? 0) with false by slia. }
  split; [done|]. split; [split; [done|by rewrite Em|rewrite Ec; by left]|..].
  - intros j ->%Honly. done.
  - intros j sp Hj. unfold place. rewrite Ec, (Honly j Hj). done.
Qed.

(** [scheduler_create] called by [main], without an interrupt. *)
Lemma contexts_created ctx c k entry nm prio fg argc argv i k' : contexts ctx c k -> kernel_inv k' ->
  created entry nm prio fg argc argv k i k' -> contexts (fupd ctx i (start_context (base k' i) entry argc argv)) c k'.
Proof.
  intros [Hc Hh] Hk Hcr. split; [|by eapply holding_created]. pose proof (ho_settled _ _ _ Hh) as Hset.
  rewrite (cr_current _ _ _ _ _ _ _ _ _ Hcr). unfold fupd. destruct (Z.eqb_spec (current_idx (k_sched k)) i) as [Ei|]; [|done].
  exfalso. apply (cr_free _ _ _ _ _ _ _ _ _ Hcr). rewrite <- Ei. apply active_live; apply Hset.
Qed.

Lemma tick_then_call c k x c1 k1 r k3 c2 k2 : timer_interrupt c k = (c1, k1) -> allowed x k1 ->
  run_call x (set_words (save_context c1 (k_words k1)).2 k1) = Some (r, k3) -> syscall_interrupt (run_call x) c1 k1 = Some (c2, k2) ->
  msteps [(current_idx (k_sched k), Switched); (current_idx (k_sched k1), call_event x r k3)] (c, k) (c2, k2).
Proof.
  intros E1 Hal E2 E3. eapply (ms_cons _ _ (c, k)); [apply ms_timer|]. rewrite E1. eapply (ms_cons _ _ (c1, k1)); [|apply ms_nil]. by eapply ms_call.
Qed.

End Private.

(** ** Snapshots and exceptions *)

(** A snapshot and the report of an exception show the registers of the
    process that was interrupted. *)
Lemma saved_registers c m :
  let '(sp, m') := save_context c m in
  snapshot sp m' = [c_rax c; c_rbx c; c_rcx c; c_rdx c; c_rbp c; c_rdi c; c_rsi c; c_r8 c; c_r9 c; c_r10 c; c_r11 c; c_r12 c;
    c_r13 c; c_r14 c; c_r15 c; c_rip c; c_rsp c; Z.land (c_rflags c) 0xFFFFFFFFFFFEFFFF] /\
  exception_regs c sp m' = [c_rax c; c_rbx c; c_rcx c; c_rdx c; c_rsi c; c_rdi c; c_rbp c; c_rsp c; c_r8 c; c_r9 c; c_r10 c; c_r11 c;
    c_r12 c; c_r13 c; c_r14 c; c_r15 c; c_rip c; Z.land (c_rflags c) 0xFFFFFFFFFFFEFFFF].
Proof.
  pose proof (save_load c m) as Hs. destruct (save_context c m) as [sp m']. destruct Hs as (_ & <- & _).
  unfold snapshot, exception_regs, load_context. cbn. split; repeat f_equal; lia.
Qed.

(** An exception sends the process to the start of the shell on the boot
    stack, which is in use: the next interrupt saves its registers in the last
    160 bytes of that stack, where those of the idle process may be. *)
Lemma exception_shares_stack {M : Type} (stackBase : Z) (c : Context) (k : Kernel M) :
  Z.land stackBase (-16) = stackBase ->
  let '(report, c1, k1) := exception_interrupt stackBase c k in
  c_rip c1 = userland /\ c_rsp c1 = stackBase /\ load_context (stackBase - 160) (k_words (timer_interrupt c1 k1).2) = c1.
Proof.
  intros Hal. unfold exception_interrupt. destruct (save_context c (k_words k)) as [sp w].
  set (w' := <[_ := userland]> _). set (c1 := set_rax userland (load_context sp w')).
  assert (c_rip c1 = userland /\ c_rsp c1 = stackBase) as [Hi Hs].
  { unfold c1, w', set_rax, load_context. cbn [c_rip c_rsp]. rewrite !word_insert.
    replace (sp + 8 * 15 =? sp + 15 * 8) with true by lia. replace (sp + 8 * 18 =? sp + 15 * 8) with false by lia.
    by replace (sp + 8 * 18 =? sp + 15 * 8 + 24) with true by lia. }
  split_and!; [done|done|]. unfold timer_interrupt. change (k_words (set_words w' k)) with w'. pose proof (save_load c1 w') as Hl.
  destruct (save_context c1 w') as [sp2 w2]. destruct Hl as (-> & Hl & _). rewrite Hs, Hal in *.
  unfold irq00Handler. by destruct (scheduler_tick _ _).
Qed.

(** ** A concrete machine *)

#[local] Existing Instances KernelProps.demo_linkage FreeList.FreeList_manager FreeList.FreeList_laws.

(** [main] waits for interrupts on a boot stack at 32768. *)
Definition main_context : Context :=
  mkContext 15 14 13 12 11 10 9 8 6 5 36840 4 3 2 1 0x100200 0x08 0x202 36840 0.

Definition m_boot : Kernel MM := run2 (scheduler_create 0x400000 shell_name 3 1 0 0 (scheduler_init static_kernel)) k_boot.
Definition m_shell : Context * Kernel MM := timer_interrupt main_context m_boot.
Definition m_end : Context * Kernel MM :=
  default (main_context, m_boot) (syscall_interrupt (run_call (Exit 3)) m_shell.1 m_shell.2).

Definition returns {A} (o : option A) : bool := match o with Some _ => true | None => false end.

(** Facts about this run, by computation. *)
Lemma m_exit_returns : returns (run_call (Exit 3) (set_words (save_context m_shell.1 (k_words m_shell.2)).2 m_shell.2)) = true.
Proof. vm_compute. reflexivity. Qed.

Lemma m_end_returns : returns (syscall_interrupt (run_call (Exit 3)) m_shell.1 m_shell.2) = true.
Proof. vm_compute. reflexivity. Qed.

Lemma m_shell_eq : timer_interrupt main_context m_boot = (m_shell.1, m_shell.2).
Proof. unfold m_shell. apply surjective_pairing. Qed.

Lemma m_end_eq : m_end = default (main_context, m_boot) (syscall_interrupt (run_call (Exit 3)) m_shell.1 m_shell.2).
Proof. unfold m_end. reflexivity. Qed.

Lemma m_shell_running : running m_shell.2.
Proof. vm_compute. reflexivity. Qed.

Lemma m_currents : current_idx (k_sched m_shell.2) = 1 /\ current_idx (k_sched m_end.2) = 0 /\ c_rip m_shell.1 = 0x400000.
Proof. vm_compute. split; [|split]; reflexivity. Qed.

Lemma m_boot_contexts : exists ctx, ctx 0 = main_context /\ contexts 32768 ctx main_context m_boot.
Proof.
  assert (contexts 32768 (fun _ => main_context) main_context (scheduler_init static_kernel)) as H0.
  { apply contexts_init; [exact static_before|left; vm_compute; discriminate|vm_compute; split; discriminate]. }
  unfold m_boot, run2.
  destruct (create_run 0x400000 shell_name 3 1 0 0 (scheduler_init static_kernel) k_boot_inv) as [[E Hno]|(i & k1 & E & Hk & Hcr)].
  - vm_compute. discriminate.
  - rewrite E. cbn [default snd]. exists (fun _ => main_context). exact (conj eq_refl H0).
  - rewrite E. cbn [default snd]. eexists. refine (conj _ (contexts_created _ _ _ _ _ _ _ _ _ _ _ _ H0 Hk Hcr)).
    pose proof (cr_slot _ _ _ _ _ _ _ _ _ Hcr) as Hi. unfold fupd. replace (0 =? i) with false by slia. reflexivity.
Qed.


(** Where [main] is after the tick, an exception of the shell puts the
    registers of the shell. *)
Lemma exception_shares_stack_witness :
  load_context 36704 (k_words (timer_interrupt (exception_interrupt 36864 m_shell.1 m_shell.2).1.2 (exception_interrupt 36864 m_shell.1 m_shell.2).2).2)
    = (exception_interrupt 36864 m_shell.1 m_shell.2).1.2 /\
  rsp (k_proc m_shell.2 0) < 36864.
Proof.
  pose proof (exception_shares_stack 36864 m_shell.1 m_shell.2 eq_refl) as Hx.
  destruct (exception_interrupt 36864 m_shell.1 m_shell.2) as [[report c1] k1]. split; [apply Hx|vm_compute; reflexivity].
Defined.
