(* ===== verification/Video.v ===== *)
(** * Video driver

    [Kernel/drivers/videoDriver.c]: a text cursor and characters drawn into a
    linear framebuffer.  The mode is what the boot code found in the VBE
    information block.  The framebuffer is indexed by the offset from its
    start; offsets of [height * pitch] and more are not part of it. *)

From S2P Require Import Prelude Lib Font.
Local Open Scope Z_scope.

(** ** Data *)

(** The fields of [vbe_mode_info_structure] that the driver reads. *)
Class VBE := {
  vbe_pitch : Z;
  vbe_width : Z;
  vbe_height : Z;
  vbe_bpp : Z
}.

Record Video := mkVideo {
  fb : bytes;
  cursorX : Z;
  cursorY : Z;
  fontScale : Z
}.

Definition set_fb f v := mkVideo f (cursorX v) (cursorY v) (fontScale v).
Definition set_cursorX x v := mkVideo (fb v) x (cursorY v) (fontScale v).
Definition set_cursorY y v := mkVideo (fb v) (cursorX v) y (fontScale v).
Definition set_scale s v := mkVideo (fb v) (cursorX v) (cursorY v) s.

Definition BACKGROUND_COLOR : Z := 0x000000.
Definition FOREGROUND_COLOR : Z := 0xFFFFFF.
Definition ERROR_FG_COLOR : Z := 0xFF0000.
Definition ERROR_BG_COLOR : Z := 0x000000.

(** A character cell at the current scale. *)
Definition cell_w (v : Video) : Z := FONT_WIDTH * fontScale v.
Definition cell_h (v : Video) : Z := FONT_HEIGHT * fontScale v.

Section Ops.
Context `{VBE}.

(** ** Pixels *)

Definition pixel_offset (x y : Z) : Z := u64 (x * (vbe_bpp / 8) + y * vbe_pitch).

Definition video_putPixel (color x y : Z) (v : Video) : Video :=
  let offset := pixel_offset x y in
  let f := fupd (fb v) offset (Z.land color 0xFF) in
  let f := fupd f (offset + 1) (Z.land (Z.shiftr color 8) 0xFF) in
  let f := fupd f (offset + 2) (Z.land (Z.shiftr color 16) 0xFF) in
  set_fb f v.

(** [for (y = y0; y < y0 + h; y++) for (x = x0; x < x0 + w; x++) video_putPixel(color, x, y);] *)
Definition fill_rows (color x0 y0 w h : Z) (v : Video) : Video :=
  for_loop y0 h (fun v y => for_loop x0 w (fun v x => video_putPixel color x y v) v) v.

(** The same, column by column. *)
Definition fill_columns (color x0 y0 w h : Z) (v : Video) : Video :=
  for_loop x0 w (fun v x => for_loop y0 h (fun v y => video_putPixel color x y v) v) v.

(** ** Scrolling and lines *)

(** [for (i = 0; i < n; i++) dst[i] = src[i];] *)
Definition move_bytes (dst src n : Z) (f : bytes) : bytes :=
  for_loop 0 n (fun f i => fupd f (dst + i) (f (src + i))) f.

Definition video_scrollUp (v : Video) : Video :=
  let n := i32 (u64 (u64 (vbe_height - cell_h v) * vbe_pitch)) in
  let v := set_fb (move_bytes 0 (cell_h v * vbe_pitch) n (fb v)) v in
  let y0 := i32 (u64 (vbe_height - cell_h v)) in
  fill_rows BACKGROUND_COLOR 0 y0 vbe_width (vbe_height - y0) v.

Definition video_newLine (v : Video) : Video :=
  let v := set_cursorX 0 v in
  if u64 (cursorY v + cell_h v) <? vbe_height then set_cursorY (u64 (cursorY v + cell_h v)) v
  else
    let v := video_scrollUp v in
    set_cursorY (u64 (vbe_height - cell_h v)) v.

Definition erase_cell (v : Video) : Video :=
  fill_columns BACKGROUND_COLOR (cursorX v) (cursorY v) (cell_w v) (cell_h v) v.

Definition video_backSpace (v : Video) : Video :=
  if cursorX v >=? cell_w v then
    erase_cell (set_cursorX (cursorX v - cell_w v) v)
  else if cursorY v >=? cell_h v then
    let v := set_cursorY (cursorY v - cell_h v) v in
    erase_cell (set_cursorX (u64 (vbe_width - cell_w v)) v)
  else v.

Definition video_tab (v : Video) : Video :=
  let step := cell_w v * 8 in
  let v := set_cursorX (u64 ((cursorX v / step + 1) * step)) v in
  if cursorX v >=? vbe_width then video_newLine v else v.

(** ** Characters *)

(** [isSpecialChar]: [None] for an ordinary character. *)
Definition isSpecialChar (c : Z) (v : Video) : option Video :=
  if c =? 10 then Some (video_newLine v)
  else if c =? 8 then Some (video_backSpace v)
  else if c =? 9 then Some (video_tab v)
  else None.

(** The colour of column [x] of row [y] of a character. *)
Definition glyph_color (c x y fg bg : Z) : Z :=
  u32 (if ctrue (Z.land (glyph c y) (Z.shiftl 1 (7 - x))) then fg else bg).

(** One point of a character, as a square of [fontScale] pixels. *)
Definition draw_point (color x y : Z) (v : Video) : Video :=
  for_loop 0 (fontScale v) (fun w sy =>
    for_loop 0 (fontScale v) (fun w sx =>
      video_putPixel color (u64 (cursorX v + x * fontScale v + sx)) (u64 (cursorY v + y * fontScale v + sy)) w) w) v.

Definition draw_char (c fg bg : Z) (v : Video) : Video :=
  for_loop 0 FONT_HEIGHT (fun v y =>
    for_loop 0 FONT_WIDTH (fun v x => draw_point (glyph_color c x y fg bg) x y v) v) v.

Definition video_putChar (c fg bg : Z) (v : Video) : Video :=
  match isSpecialChar c v with
  | Some v => v
  | None =>
      let v := draw_char (u8 c) fg bg v in
      let v := set_cursorX (u64 (cursorX v + cell_w v)) v in
      if cursorX v >=? vbe_width then video_newLine v else v
  end.

Definition video_putString (str : list Z) (fg bg : Z) (v : Video) : Video :=
  foldl (fun v c => video_putChar c fg bg v) v (cstr str).

Definition video_printError (msg : list Z) (v : Video) : Video :=
  video_putString msg ERROR_FG_COLOR ERROR_BG_COLOR v.

Definition video_putCharXY (c x y fg bg : Z) (v : Video) : Video :=
  let c := if (c <? 0x20) || (c >? 0x7F) then 0x20 else c in
  for_loop 0 FONT_HEIGHT (fun v row =>
    for_loop 0 FONT_WIDTH (fun v col =>
      video_putPixel (glyph_color (u8 c) col row fg bg) (u64 (x + col)) (u64 (y + row)) v) v) v.

(** ** The screen and the cursor *)

Definition video_clearScreenColor (color : Z) (v : Video) : Video :=
  set_cursorY 0 (set_cursorX 0 (fill_rows color 0 0 vbe_width vbe_height v)).

Definition video_clearScreen (v : Video) : Video := video_clearScreenColor BACKGROUND_COLOR v.

Definition setFontScale (scale : Z) (v : Video) : Video :=
  let v := set_scale (if scale <? 1 then 1 else scale) v in
  let v :=
    if cursorX v >=? vbe_width then set_cursorY (u64 (cursorY v + cell_h v)) (set_cursorX 0 v) else v in
  if cursorY v >=? vbe_height then
    let v := video_scrollUp v in
    set_cursorY (u64 (vbe_height - cell_h v)) v
  else v.

Definition video_moveCursorLeft (v : Video) : Video :=
  if cursorX v >=? cell_w v then set_cursorX (cursorX v - cell_w v) v
  else if cursorY v >=? cell_h v then
    set_cursorX (u64 (vbe_width - cell_w v)) (set_cursorY (cursorY v - cell_h v) v)
  else v.

Definition video_moveCursorRight (v : Video) : Video :=
  if u64 (cursorX v + cell_w v) <? vbe_width then set_cursorX (u64 (cursorX v + cell_w v)) v
  else if u64 (cursorY v + cell_h v) <? vbe_height then
    set_cursorY (u64 (cursorY v + cell_h v)) (set_cursorX 0 v)
  else v.

Definition video_moveCursorUp (v : Video) : Video :=
  if cursorY v >=? cell_h v then set_cursorY (cursorY v - cell_h v) v else v.

Definition video_moveCursorDown (v : Video) : Video :=
  if u64 (cursorY v + cell_h v) <? vbe_height then set_cursorY (u64 (cursorY v + cell_h v)) v else v.

Definition video_drawCursor (color : Z) (v : Video) : Video :=
  for_loop 0 (cell_w v) (fun w x =>
    video_putPixel (u32 color) (u64 (cursorX v + x)) (u64 (cursorY v + cell_h v - 2)) w) v.

Definition video_get_width : Z := vbe_width.
Definition video_get_height : Z := vbe_height.

End Ops.
