(* ===== verification/VideoProps.v ===== *)
(** * Properties of the video driver

    What the drawing operations show on the screen, and that they write
    nothing outside the framebuffer while the cursor is on the grid of
    character cells. *)

From S2P Require Import Prelude Lib Font Video.
Local Open Scope Z_scope.

Section Pixels.
Context `{VBE}.

(** A mode with three or four bytes per pixel, whose rows hold their pixels. *)
Record mode_ok : Prop := {
  mo_bpp : vbe_bpp = 24 \/ vbe_bpp = 32;
  mo_width : 0 < vbe_width < 2 ^ 16;
  mo_height : 0 < vbe_height < 2 ^ 15;
  mo_pitch : vbe_width * (vbe_bpp / 8) <= vbe_pitch < 2 ^ 15
}.

Definition on_screen (x y : Z) : Prop := 0 <= x < vbe_width /\ 0 <= y < vbe_height.

(** The colour of a pixel. *)
Definition pixel (v : Video) (x y : Z) : Z :=
  let o := pixel_offset x y in fb v o + 2 ^ 8 * fb v (o + 1) + 2 ^ 16 * fb v (o + 2).

(** Bytes that are not part of the framebuffer. *)
Definition outside (a : Z) : Prop := a < 0 \/ vbe_height * vbe_pitch <= a.

(** [v'] is [v] with the pixels of [R] painted; nothing else has changed. *)
Record paints (R : Z -> Z -> bool) (col : Z -> Z -> Z) (v v' : Video) : Prop := {
  pa_x : cursorX v' = cursorX v;
  pa_y : cursorY v' = cursorY v;
  pa_scale : fontScale v' = fontScale v;
  pa_pixel x y : on_screen x y -> pixel v' x y = if R x y then col x y else pixel v x y;
  pa_outside a : outside a -> fb v' a = fb v a
}.

Context (Hmode : mode_ok).

Lemma bpp_cases : vbe_bpp / 8 = 3 \/ vbe_bpp / 8 = 4.
Proof. destruct (mo_bpp Hmode) as [-> | ->]; [left|right]; reflexivity. Qed.

Lemma pixel_offset_eq x y :
  on_screen x y -> pixel_offset x y = x * (vbe_bpp / 8) + y * vbe_pitch /\
  0 <= pixel_offset x y /\ pixel_offset x y + 2 < vbe_height * vbe_pitch.
Proof.
  intros [Hx Hy]. pose proof (mo_width Hmode). pose proof (mo_height Hmode). pose proof (mo_pitch Hmode) as Hp.
  assert (0 <= x * (vbe_bpp / 8) + y * vbe_pitch /\ x * (vbe_bpp / 8) + y * vbe_pitch + 2 < vbe_height * vbe_pitch) as Hb.
  { destruct bpp_cases as [E|E]; rewrite E in *; nia. }
  assert (vbe_height * vbe_pitch < 2 ^ 64) by nia.
  unfold pixel_offset. rewrite u64_small by lia. done.
Qed.

(** Distinct pixels have no byte in common. *)
Lemma pixel_apart x y x' y' :
  on_screen x y -> on_screen x' y' -> (x, y) <> (x', y') ->
  pixel_offset x y + 2 < pixel_offset x' y' \/ pixel_offset x' y' + 2 < pixel_offset x y.
Proof.
  intros Ho Ho' Hne. destruct (pixel_offset_eq x y Ho) as [-> _], (pixel_offset_eq x' y' Ho') as [-> _].
  destruct Ho as [Hx Hy], Ho' as [Hx' Hy']. pose proof (mo_pitch Hmode) as Hp.
  assert (x <> x' \/ y <> y') as Hd by (destruct (decide (x = x')), (decide (y = y')); subst; auto).
  assert (y < y' \/ y' < y \/ (y = y' /\ (x < x' \/ x' < x))) as [Hl|[Hl|[-> [Hl|Hl]]]] by lia;
    destruct bpp_cases as [E|E]; rewrite E in *; nia.
Qed.

(** The 24 bits that are stored. *)
Definition rgb (c : Z) : Z := c mod 2 ^ 24.

Lemma rgb_bytes c :
  Z.land c 0xFF + 2 ^ 8 * Z.land (Z.shiftr c 8) 0xFF + 2 ^ 16 * Z.land (Z.shiftr c 16) 0xFF = rgb c.
Proof.
  change 0xFF with (Z.ones 8). rewrite !Z.land_ones, !Z.shiftr_div_pow2 by lia. unfold rgb.
  change (2 ^ 24) with (2 ^ 8 * (2 ^ 8 * 2 ^ 8)).
  rewrite (Z.rem_mul_r c), (Z.rem_mul_r (c / 2 ^ 8)) by lia. rewrite Z.div_div by lia.
  change (2 ^ 8 * 2 ^ 8) with (2 ^ 16). lia.
Qed.

Lemma putPixel_paints c x y v :
  on_screen x y -> paints (fun a b => (a =? x) && (b =? y)) (fun _ _ => rgb c) v (video_putPixel c x y v).
Proof.
  intros Ho. destruct (pixel_offset_eq x y Ho) as (_ & Hlo & Hhi). split; try done.
  - intros a b Hab. unfold pixel, video_putPixel. cbn [fb set_fb]. unfold fupd.
    destruct (Z.eqb_spec a x) as [->|Hax]; [destruct (Z.eqb_spec b y) as [->|Hby]|]; cbn [andb].
    + rewrite <- (rgb_bytes c). repeat case_if; lia.
    + destruct (pixel_apart x y x b Ho Hab) as [?|?]; [congruence|..]; repeat case_if; lia.
    + destruct (pixel_apart x y a b Ho Hab) as [?|?]; [congruence|..]; repeat case_if; lia.
  - intros a Ha. unfold video_putPixel, outside in *. cbn [fb set_fb]. unfold fupd. repeat case_if; lia.
Qed.

Lemma paints_none v col : paints (fun _ _ => false) col v v.
Proof. by split. Qed.

Lemma paints_ext R R' col col' v v' :
  (forall x y, on_screen x y -> R x y = R' x y) ->
  (forall x y, on_screen x y -> R x y = true -> col x y = col' x y) -> paints R col v v' -> paints R' col' v v'.
Proof.
  intros HR Hc [? ? ? Hp ?]. split; try done. intros x y Ho. rewrite Hp by done. rewrite <- HR by done. 
  destruct (R x y) eqn:E; [by apply Hc|done].
Qed.

Lemma paints_trans R1 R2 col v1 v2 v3 :
  paints R1 col v1 v2 -> paints R2 col v2 v3 -> paints (fun x y => R1 x y || R2 x y) col v1 v3.
Proof.
  intros [? ? ? P1 O1] [? ? ? P2 O2]. split; try congruence.
  - intros x y Ho. rewrite P2, P1 by done. destruct (R1 x y), (R2 x y); done.
  - intros a Ha. rewrite O2, O1 by done. done.
Qed.

(** A loop whose iterations paint disjoint or equal parts of one picture. *)
Lemma paints_loop (R : Z -> Z -> Z -> bool) col lo n body v :
  0 <= n ->
  (forall i v', lo <= i < lo + n -> cursorX v' = cursorX v -> cursorY v' = cursorY v -> fontScale v' = fontScale v ->
     paints (R i) col v' (body v' i)) ->
  paints (fun x y => existsb (fun i => R i x y) (seqZ lo n)) col v (for_loop lo n body v).
Proof.
  intros Hn Hb.
  assert (paints (fun x y => existsb (fun i => R i x y) (seqZ lo (lo + n - lo))) col v (for_loop lo n body v)) as Hp.
  { apply (for_loop_ind (fun k v' => paints (fun x y => existsb (fun i => R i x y) (seqZ lo (k - lo))) col v v')); [done|..].
    - replace (lo - lo) with 0 by lia. apply paints_none.
    - intros i v' Hi Hp. replace (i + 1 - lo) with ((i - lo) + 1) by lia. rewrite seqZ_snoc by lia.
      eapply paints_ext; [| |eapply paints_trans; [exact Hp|apply Hb; try apply Hp; lia]]; [|done].
      intros x y _. rewrite existsb_app. simpl. rewrite orb_false_r. replace (lo + (i - lo)) with i by lia. done. }
  by replace (lo + n - lo) with n in Hp by lia.
Qed.

Lemma existsb_range (P : Z -> bool) lo n k :
  (forall i, P i = true -> i = k) -> existsb P (seqZ lo n) = (lo <=? k) && (k <? lo + n) && P k.
Proof.
  intros HP. destruct (existsb P (seqZ lo n)) eqn:E.
  - apply existsb_exists in E as (i & Hi & HPi). apply list_elem_of_In, elem_of_seqZ in Hi.
    pose proof (HP i HPi) as ->. rewrite HPi. lia.
  - destruct ((lo <=? k) && (k <? lo + n) && P k) eqn:E'; [|done].
    apply andb_true_iff in E' as [Hr Hk]. exfalso.
    assert (existsb P (seqZ lo n) = true); [|congruence].
    apply existsb_exists. exists k. split; [|done]. apply list_elem_of_In, elem_of_seqZ. lia.
Qed.

Definition in_rect (x0 y0 w h x y : Z) : bool := (x0 <=? x) && (x <? x0 + w) && (y0 <=? y) && (y <? y0 + h).

Lemma fill_rows_paints c x0 y0 w h v :
  0 <= x0 -> 0 <= w -> x0 + w <= vbe_width -> 0 <= y0 -> 0 <= h -> y0 + h <= vbe_height ->
  paints (in_rect x0 y0 w h) (fun _ _ => rgb c) v (fill_rows c x0 y0 w h v).
Proof.
  intros. unfold fill_rows.
  eapply paints_ext; [| |apply (paints_loop (fun y a b => existsb (fun x => (a =? x) && (b =? y)) (seqZ x0 w)) (fun _ _ => rgb c)); [done|]].
  - intros a b _. cbv beta. rewrite (existsb_range _ y0 h b).
    + rewrite (existsb_range _ x0 w a) by (intros; lia). unfold in_rect. lia.
    + intros i Hi. rewrite (existsb_range _ x0 w a) in Hi by (intros; lia). lia.
  - done.
  - intros y v' Hy _ _ _. apply paints_loop; [done|]. intros x v2 Hx _ _ _. apply putPixel_paints. split; lia.
Qed.

Lemma fill_columns_paints c x0 y0 w h v :
  0 <= x0 -> 0 <= w -> x0 + w <= vbe_width -> 0 <= y0 -> 0 <= h -> y0 + h <= vbe_height ->
  paints (in_rect x0 y0 w h) (fun _ _ => rgb c) v (fill_columns c x0 y0 w h v).
Proof.
  intros. unfold fill_columns.
  eapply paints_ext; [| |apply (paints_loop (fun x a b => existsb (fun y => (a =? x) && (b =? y)) (seqZ y0 h)) (fun _ _ => rgb c)); [done|]].
  - intros a b _. cbv beta. rewrite (existsb_range _ x0 w a).
    + rewrite (existsb_range _ y0 h b) by (intros; lia). unfold in_rect. lia.
    + intros i Hi. rewrite (existsb_range _ y0 h b) in Hi by (intros; lia). lia.
  - done.
  - intros x v' Hx _ _ _. apply paints_loop; [done|]. intros y v2 Hy _ _ _. apply putPixel_paints. split; lia.
Qed.

(** ** Characters *)

Lemma draw_point_paints c x y v :
  0 < fontScale v -> 0 <= cursorX v + x * fontScale v -> cursorX v + (x + 1) * fontScale v <= vbe_width ->
  0 <= cursorY v + y * fontScale v -> cursorY v + (y + 1) * fontScale v <= vbe_height ->
  paints (in_rect (cursorX v + x * fontScale v) (cursorY v + y * fontScale v) (fontScale v) (fontScale v))
    (fun _ _ => rgb c) v (draw_point c x y v).
Proof.
  intros Hs Hx1 Hx2 Hy1 Hy2. unfold draw_point. set (s := fontScale v) in *. pose proof (mo_width Hmode). pose proof (mo_height Hmode).
  set (X := cursorX v + x * s) in *. set (Y := cursorY v + y * s) in *.
  eapply paints_ext; [| |apply (paints_loop (fun sy a b => existsb (fun sx => (a =? X + sx) && (b =? Y + sy)) (seqZ 0 s)) (fun _ _ => rgb c)); [lia|]].
  - intros a b _. cbv beta. rewrite (existsb_range _ 0 s (b - Y)).
    + rewrite (existsb_range _ 0 s (a - X)) by (intros; lia). unfold in_rect. lia.
    + intros i Hi. rewrite (existsb_range _ 0 s (a - X)) in Hi by (intros; lia). lia.
  - done.
  - intros sy v' Hsy _ _ _. apply paints_loop; [lia|]. intros sx v2 Hsx _ _ _.
    rewrite !u64_small by lia. apply putPixel_paints. split; lia.
Qed.

Lemma existsb_ext_all {A} (f g : A -> bool) l : (forall i, f i = g i) -> existsb f l = existsb g l.
Proof. intros E. induction l as [|i l IH]; [done|]. simpl. by rewrite E, IH. Qed.

Lemma existsb_and_l {A} (q : bool) (P : A -> bool) l : existsb (fun i => q && P i) l = q && existsb P l.
Proof. induction l as [|i l IH]; simpl; [by rewrite andb_false_r|]. rewrite IH. by destruct q, (P i). Qed.

(** The colour of the pixels of a cell that shows [c]. *)
Definition cell_color (c fg bg : Z) (v : Video) (a b : Z) : Z :=
  rgb (glyph_color c ((a - cursorX v) / fontScale v) ((b - cursorY v) / fontScale v) fg bg).

Lemma draw_char_paints c fg bg v :
  0 < fontScale v -> 0 <= cursorX v -> cursorX v + cell_w v <= vbe_width -> 0 <= cursorY v -> cursorY v + cell_h v <= vbe_height ->
  paints (in_rect (cursorX v) (cursorY v) (cell_w v) (cell_h v)) (cell_color c fg bg v) v (draw_char c fg bg v).
Proof.
  intros Hs Hx1 Hx2 Hy1 Hy2. unfold draw_char, cell_w, cell_h, FONT_WIDTH, FONT_HEIGHT in *. set (s := fontScale v) in *.
  set (X := cursorX v) in *. set (Y := cursorY v) in *.
  assert (forall lo u n, 0 <= n -> existsb (fun i => (lo + i * s <=? u) && (u <? lo + i * s + s)) (seqZ 0 n) = (lo <=? u) && (u <? lo + n * s)) as Hex.
  { intros lo u n Hn. rewrite (existsb_range _ 0 n ((u - lo) / s)).
    - pose proof (Z.div_mod (u - lo) s ltac:(lia)). pose proof (Z.mod_pos_bound (u - lo) s Hs). nia.
    - intros i Hi. apply (Z.div_unique_pos _ _ i (u - lo - i * s)); lia. }
  eapply paints_ext; [| |apply (paints_loop (fun y a b => existsb (fun x => in_rect (X + x * s) (Y + y * s) s s a b) (seqZ 0 8)) (cell_color c fg bg v)); [lia|]].
  - intros a b _. cbv beta.
    set (A := fun x => (X + x * s <=? a) && (a <? X + x * s + s)). set (B := fun y => (Y + y * s <=? b) && (b <? Y + y * s + s)).
    rewrite (existsb_ext_all _ (fun y => existsb A (seqZ 0 8) && B y)).
    + rewrite existsb_and_l. unfold A, B. rewrite !Hex by lia. unfold in_rect. lia.
    + intros y. rewrite andb_comm, <- existsb_and_l. apply existsb_ext_all. intros x. unfold in_rect, A, B. lia.
  - done.
  - intros y v1 Hy E1 E2 E3. apply paints_loop; [lia|]. intros x v2 Hx E1' E2' E3'.
    pose proof (draw_point_paints (glyph_color c x y fg bg) x y v2) as Hp.
    rewrite E3', E3, E1', E1, E2', E2 in Hp. fold s X Y in Hp.
    eapply paints_ext; [..|apply Hp; try lia]; try done; try nia.
    intros a b _ Hin. unfold in_rect in Hin. unfold cell_color. fold s X Y.
    replace ((a - X) / s) with x by (apply (Z.div_unique_pos _ _ x (a - X - x * s)); lia).
    by replace ((b - Y) / s) with y by (apply (Z.div_unique_pos _ _ y (b - Y - y * s)); lia).
Qed.

(** ** Scrolling *)

Lemma move_bytes_spec src n f :
  0 < src -> 0 <= n -> forall a, move_bytes 0 src n f a = if (0 <=? a) && (a <? n) then f (src + a) else f a.
Proof.
  intros Hs Hn. unfold move_bytes.
  apply (for_loop_ind (fun k f' => forall a, f' a = if (0 <=? a) && (a <? k) then f (src + a) else f a)); [done|..].
  - intros a. case_if; [lia|done].
  - intros i f' Hi IH a. unfold fupd. rewrite !IH. destruct (Z.eqb_spec a (0 + i)) as [->|Hne].
    + replace ((0 <=? src + i) && (src + i <? i)) with false by lia. 
      replace ((0 <=? 0 + i) && (0 + i <? i + 1)) with true by lia. done.
    + replace (a <? i + 1) with (a <? i) by lia. done.
Qed.

Lemma scroll_spec v :
  0 < fontScale v -> cell_h v <= vbe_height ->
  let v' := video_scrollUp v in
  cursorX v' = cursorX v /\ cursorY v' = cursorY v /\ fontScale v' = fontScale v /\
  (forall x y, on_screen x y ->
     pixel v' x y = if y + cell_h v <? vbe_height then pixel v x (y + cell_h v) else 0) /\
  (forall a, outside a -> fb v' a = fb v a).
Proof.
  intros Hs Hh. pose proof (mo_height Hmode). pose proof (mo_pitch Hmode) as Hp. pose proof (mo_width Hmode) as Hwd.
  assert (0 < cell_h v) as Hc by (unfold cell_h, FONT_HEIGHT; lia). set (h := cell_h v) in *.
  assert (0 < vbe_pitch) as Hpp by (destruct bpp_cases as [E|E]; rewrite E in *; lia).
  assert (0 <= (vbe_height - h) * vbe_pitch < 2 ^ 31) as Hn by nia.
  unfold video_scrollUp. cbv zeta. change (cell_h (set_fb _ v)) with (cell_h v). fold h.
  rewrite !(u64_small (vbe_height - h)) by lia. rewrite !(u64_small ((vbe_height - h) * vbe_pitch)) by lia.
  rewrite !i32_small by lia. set (v1 := set_fb _ v).
  replace (vbe_height - (vbe_height - h)) with h by lia.
  pose proof (fill_rows_paints BACKGROUND_COLOR 0 (vbe_height - h) vbe_width h v1) as Hf.
  destruct Hf as [F1 F2 F3 F4 F5]; try lia.
  cbv zeta. rewrite F1, F2, F3. split_and!; try done.
  - intros x y Ho. rewrite F4 by done. destruct Ho as [Hx Hy]. unfold in_rect.
    destruct (Z.ltb_spec (y + h) vbe_height) as [Hlt|Hge].
    + replace ((0 <=? x) && (x <? 0 + vbe_width) && (vbe_height - h <=? y) && (y <? vbe_height - h + h)) with false by lia.
      destruct (pixel_offset_eq x y) as (E1 & L1 & _); [by split|].
      destruct (pixel_offset_eq x (y + h)) as (E2 & _ & U2); [split; lia|].
      assert (pixel_offset x (y + h) = h * vbe_pitch + pixel_offset x y) as E by lia.
      unfold pixel, v1. cbn [fb set_fb]. rewrite !move_bytes_spec by nia. rewrite E.
      assert (pixel_offset x y + 2 < (vbe_height - h) * vbe_pitch) by nia.
      repeat (case_if; [|lia]). rewrite !Z.add_assoc. done.
    + by replace ((0 <=? x) && (x <? 0 + vbe_width) && (vbe_height - h <=? y) && (y <? vbe_height - h + h)) with true by lia.
  - intros a Ha. rewrite F5 by done. unfold v1. cbn [fb set_fb]. rewrite move_bytes_spec by nia.
    unfold outside in Ha. case_if; [nia|done].
Qed.

(** ** The grid of character cells *)

(** The screen is a whole number of cells and the cursor is on one of them. *)
Definition grid (v : Video) : Prop :=
  0 < fontScale v /\
  exists W L i j, vbe_width = cell_w v * W /\ vbe_height = cell_h v * L /\
    cursorX v = cell_w v * i /\ cursorY v = cell_h v * j /\ 0 <= i < W /\ 0 <= j < L.

Lemma grid_cell v :
  grid v -> 0 < cell_w v /\ 0 < cell_h v /\ 0 <= cursorX v /\ cursorX v + cell_w v <= vbe_width /\
  0 <= cursorY v /\ cursorY v + cell_h v <= vbe_height.
Proof.
  intros (Hs & W & L & i & j & E1 & E2 & E3 & E4 & Hi & Hj).
  assert (0 < cell_w v) by (unfold cell_w, FONT_WIDTH; lia). assert (0 < cell_h v) by (unfold cell_h, FONT_HEIGHT; lia). nia.
Qed.

Lemma mult_step h a b : 0 < h -> (h * a < h * b <-> h * a + h <= h * b).
Proof. intros Hh. split; [|lia]. intros Hl. apply Z.mul_lt_mono_pos_l in Hl; [|done]. nia. Qed.

(** Moving the cursor to another cell. *)
Lemma grid_move v v' i' j' W L :
  0 < fontScale v -> fontScale v' = fontScale v -> vbe_width = cell_w v * W -> vbe_height = cell_h v * L ->
  cursorX v' = cell_w v * i' -> cursorY v' = cell_h v * j' -> 0 <= i' < W -> 0 <= j' < L -> grid v'.
Proof. intros Hs Es. unfold grid, cell_w, cell_h in *. rewrite Es. eauto 20. Qed.

Lemma newLine_spec v :
  grid v ->
  let v' := video_newLine v in
  grid v' /\ fontScale v' = fontScale v /\ cursorX v' = 0 /\
  (forall a, outside a -> fb v' a = fb v a) /\
  if cursorY v + 2 * cell_h v <=? vbe_height
  then cursorY v' = cursorY v + cell_h v /\ fb v' = fb v
  else cursorY v' = cursorY v /\ forall x y, on_screen x y ->
    pixel v' x y = if y + cell_h v <? vbe_height then pixel v x (y + cell_h v) else 0.
Proof.
  intros Hg. pose proof (grid_cell v Hg) as (Hw & Hh & Hx0 & Hx & Hy0 & Hy).
  destruct Hg as (Hs & W & L & i & j & E1 & E2 & E3 & E4 & Hi & Hj). pose proof (mo_height Hmode).
  unfold video_newLine. set (v0 := set_cursorX 0 v). change (cell_h v0) with (cell_h v). change (cursorY v0) with (cursorY v).
  rewrite (u64_small (cursorY v + cell_h v)) by lia.
  assert ((cursorY v + cell_h v <? vbe_height) = (cursorY v + 2 * cell_h v <=? vbe_height)) as Ec.
  { apply Bool.eq_iff_eq_true. rewrite Z.ltb_lt, Z.leb_le. rewrite E2, E4. pose proof (mult_step _ (j + 1) L Hh). lia. }
  rewrite <- Ec. case_if.
  - cbn [fontScale cursorX cursorY set_cursorY]. split_and!; try done.
    eapply (grid_move v _ 0 (j + 1) W L); simpl; try done; nia.
  - destruct (scroll_spec v0 Hs ltac:(change (cell_h v0) with (cell_h v); lia)) as (S1 & S2 & S3 & S4 & S5).
    set (v1 := video_scrollUp v0) in *. assert (cell_h v1 = cell_h v) as Eh by (unfold cell_h; by rewrite S3).
    cbn [fontScale cursorX cursorY set_cursorY]. rewrite Eh, u64_small by lia.
    assert (vbe_height - cell_h v = cursorY v) as EY.
    { assert (L = j + 1) by (pose proof (mult_step _ (j + 1) L Hh); destruct (decide (j + 1 < L)) as [Hlt|]; [apply (Z.mul_lt_mono_pos_l (cell_h v)) in Hlt; lia|lia]). subst L. lia. }
    split_and!; try done.
    apply (grid_move v _ 0 j W L); simpl; try done; [rewrite S1; simpl; lia|lia..].
Qed.

(** ** One operation *)

Lemma set_cursorX_grid v i W L j :
  0 < fontScale v -> vbe_width = cell_w v * W -> vbe_height = cell_h v * L -> cursorY v = cell_h v * j ->
  0 <= j < L -> 0 <= i < W -> grid (set_cursorX (cell_w v * i) v).
Proof. intros. by apply (grid_move v _ i j W L). Qed.

(** What an operation does to the rest of memory and to the invariant. *)
Definition safe (v v' : Video) : Prop := grid v' /\ forall a, outside a -> fb v' a = fb v a.

Lemma safe_trans v1 v2 v3 : safe v1 v2 -> safe v2 v3 -> safe v1 v3.
Proof. intros [_ O1] [G2 O2]. split; [done|]. intros a Ha. rewrite O2, O1; done. Qed.

Lemma safe_newLine v : grid v -> safe v (video_newLine v).
Proof. intros Hg. destruct (newLine_spec v Hg) as (G & _ & _ & O & _). by split. Qed.

Lemma grid_paints R col v v' : paints R col v v' -> grid v -> safe v v'.
Proof.
  intros [E1 E2 E3 _ O] (Hs & W & L & i & j & ? & ? & ? & ? & ? & ?). split; [|done].
  apply (grid_move v v' i j W L); congruence.
Qed.

Lemma erase_cell_paints v :
  grid v -> paints (in_rect (cursorX v) (cursorY v) (cell_w v) (cell_h v)) (fun _ _ => 0) v (erase_cell v).
Proof. intros Hg. pose proof (grid_cell v Hg). apply (fill_columns_paints BACKGROUND_COLOR); lia. Qed.

(** Stepping the cursor back by one cell: the moves of [video_backSpace]
    and [video_moveCursorLeft]. *)
Definition step_back (v : Video) : Video :=
  if cursorX v >=? cell_w v then set_cursorX (cursorX v - cell_w v) v
  else if cursorY v >=? cell_h v then set_cursorX (vbe_width - cell_w v) (set_cursorY (cursorY v - cell_h v) v)
  else v.

Lemma step_back_grid v : grid v -> grid (step_back v).
Proof.
  intros Hg. pose proof (grid_cell v Hg) as (Hw & Hh & Hx0 & Hx & Hy0 & Hy).
  destruct Hg as (Hs & W & L & i & j & E1 & E2 & E3 & E4 & Hi & Hj). unfold step_back.
  destruct (Z.geb_spec (cursorX v) (cell_w v)); [|destruct (Z.geb_spec (cursorY v) (cell_h v))].
  - apply (grid_move v _ (i - 1) j W L); simpl; try done; nia.
  - apply (grid_move v _ (W - 1) (j - 1) W L); simpl; try done; nia.
  - apply (grid_move v _ i j W L); done.
Qed.

Lemma backSpace_eq v :
  grid v ->
  video_backSpace v = if (cursorX v >=? cell_w v) || (cursorY v >=? cell_h v) then erase_cell (step_back v) else v.
Proof.
  intros Hg. pose proof (grid_cell v Hg). pose proof (mo_width Hmode). unfold video_backSpace, step_back.
  destruct (cursorX v >=? cell_w v); [done|]. destruct (cursorY v >=? cell_h v); [|done]. cbv zeta.
  change (cell_w (set_cursorY _ v)) with (cell_w v). by rewrite u64_small by lia.
Qed.

Lemma safe_backSpace v : grid v -> safe v (video_backSpace v).
Proof.
  intros Hg. rewrite backSpace_eq by done. pose proof (step_back_grid v Hg) as Hb.
  destruct (_ || _); [|by split].
  destruct (grid_paints _ _ _ _ (erase_cell_paints _ Hb) Hb) as [G O]. split; [done|]. intros a Ha. rewrite O by done.
  unfold step_back. by repeat case_if.
Qed.

Lemma safe_moveCursorLeft v : grid v -> safe v (video_moveCursorLeft v).
Proof.
  intros Hg. pose proof (grid_cell v Hg). pose proof (mo_width Hmode).
  assert (video_moveCursorLeft v = step_back v) as ->.
  { unfold video_moveCursorLeft, step_back. by rewrite u64_small by lia. }
  split; [by apply step_back_grid|]. intros a _. unfold step_back. by repeat case_if.
Qed.

(** A cell that does not end at the edge is followed by another one. *)
Lemma next_cell h k n : 0 < h -> h * k + h < h * n -> k + 1 < n.
Proof. intros Hh Hl. apply (Z.mul_lt_mono_pos_l h); lia. Qed.

Lemma safe_moveCursorRight v : grid v -> safe v (video_moveCursorRight v).
Proof.
  intros Hg. pose proof (grid_cell v Hg) as (Hw & Hh & Hx0 & Hx & Hy0 & Hy). pose proof (mo_width Hmode). pose proof (mo_height Hmode).
  destruct Hg as (Hs & W & L & i & j & E1 & E2 & E3 & E4 & Hi & Hj). unfold video_moveCursorRight.
  rewrite !u64_small by lia. split; [|intros; by repeat case_if].
  destruct (Z.ltb_spec (cursorX v + cell_w v) vbe_width) as [Hl|_]; [|destruct (Z.ltb_spec (cursorY v + cell_h v) vbe_height) as [Hl|_]].
  - pose proof (next_cell (cell_w v) i W Hw ltac:(lia)). apply (grid_move v _ (i + 1) j W L); simpl; try done; lia.
  - pose proof (next_cell (cell_h v) j L Hh ltac:(lia)). apply (grid_move v _ 0 (j + 1) W L); simpl; try done; lia.
  - by apply (grid_move v _ i j W L).
Qed.

Lemma safe_moveCursorUp v : grid v -> safe v (video_moveCursorUp v).
Proof.
  intros Hg. pose proof (grid_cell v Hg) as (Hw & Hh & Hx0 & Hx & Hy0 & Hy).
  destruct Hg as (Hs & W & L & i & j & E1 & E2 & E3 & E4 & Hi & Hj). unfold video_moveCursorUp.
  split; [|intros; by case_if]. destruct (Z.geb_spec (cursorY v) (cell_h v)).
  - apply (grid_move v _ i (j - 1) W L); simpl; try done; nia.
  - by apply (grid_move v _ i j W L).
Qed.

Lemma safe_moveCursorDown v : grid v -> safe v (video_moveCursorDown v).
Proof.
  intros Hg. pose proof (grid_cell v Hg) as (Hw & Hh & Hx0 & Hx & Hy0 & Hy). pose proof (mo_height Hmode).
  destruct Hg as (Hs & W & L & i & j & E1 & E2 & E3 & E4 & Hi & Hj). unfold video_moveCursorDown.
  rewrite !u64_small by lia. split; [|intros; by case_if].
  destruct (Z.ltb_spec (cursorY v + cell_h v) vbe_height) as [Hl|_].
  - pose proof (next_cell (cell_h v) j L Hh ltac:(lia)). apply (grid_move v _ i (j + 1) W L); simpl; try done; lia.
  - by apply (grid_move v _ i j W L).
Qed.

(** [video_newLine] forgets the column. *)
Lemma newLine_column x v : video_newLine (set_cursorX x v) = video_newLine v.
Proof. by destruct v. Qed.

Lemma safe_tab v : grid v -> safe v (video_tab v).
Proof.
  intros Hg. pose proof (grid_cell v Hg) as (Hw & Hh & Hx0 & Hx & Hy0 & Hy). pose proof (mo_width Hmode).
  unfold video_tab. rewrite newLine_column. cbn [cursorX set_cursorX].
  set (X := u64 _). destruct (Z.geb_spec X vbe_width) as [_|Hl]; [by apply safe_newLine|].
  split; [|done]. destruct Hg as (Hs & W & L & i & j & E1 & E2 & E3 & E4 & Hi & Hj).
  set (step := cell_w v * 8) in *. pose proof (Z.div_mod (cursorX v) step ltac:(lia)) as Hd. pose proof (Z.mod_pos_bound (cursorX v) step ltac:(lia)).
  assert (0 <= cursorX v / step) by (apply Z.div_pos; lia).
  assert (0 <= (cursorX v / step + 1) * step) as Hn by lia.
  assert (cell_w v < 2 ^ 16) by lia.
  assert ((cursorX v / step + 1) * step < 2 ^ 20) by (unfold step in *; lia).
  assert (X = cell_w v * ((cursorX v / step + 1) * 8)) as EX by (unfold X; rewrite u64_small by lia; unfold step; lia).
  rewrite EX in Hl |- *. apply (set_cursorX_grid v _ W L j); try done. split; [lia|].
  apply (Z.mul_lt_mono_pos_l (cell_w v)); lia.
Qed.

(** An ordinary character: the cell is painted and the cursor advances. *)
Lemma putChar_eq c fg bg v :
  grid v -> isSpecialChar c v = None ->
  video_putChar c fg bg v =
    let v1 := draw_char (u8 c) fg bg v in
    if cursorX v + cell_w v <? vbe_width then set_cursorX (cursorX v + cell_w v) v1 else video_newLine v1.
Proof.
  intros Hg Hc. pose proof (grid_cell v Hg) as (Hw & Hh & Hx0 & Hx & Hy0 & Hy). pose proof (mo_width Hmode).
  destruct Hg as (Hs & _).
  destruct (draw_char_paints (u8 c) fg bg v) as [E1 E2 E3 _ _]; try done.
  unfold video_putChar. rewrite Hc. cbv zeta. set (v1 := draw_char _ _ _ _) in *.
  assert (cell_w v1 = cell_w v) as -> by (unfold cell_w; congruence). rewrite E1, newLine_column, u64_small by lia.
  cbn [cursorX set_cursorX]. rewrite Z.geb_leb, Z.leb_antisym. by destruct (cursorX v + cell_w v <? vbe_width).
Qed.

Lemma drawn_grid c fg bg v :
  grid v -> paints (in_rect (cursorX v) (cursorY v) (cell_w v) (cell_h v)) (cell_color c fg bg v) v (draw_char c fg bg v) /\
  safe v (draw_char c fg bg v).
Proof.
  intros Hg. pose proof (grid_cell v Hg) as (Hw & Hh & Hx0 & Hx & Hy0 & Hy). pose proof Hg as (Hs & _).
  assert (paints (in_rect (cursorX v) (cursorY v) (cell_w v) (cell_h v)) (cell_color c fg bg v) v (draw_char c fg bg v)) as Hp
    by (by apply draw_char_paints).
  split; [done|]. by eapply grid_paints.
Qed.

Lemma safe_putChar c fg bg v : grid v -> safe v (video_putChar c fg bg v).
Proof.
  intros Hg. destruct (isSpecialChar c v) as [v'|] eqn:Hc.
  - unfold video_putChar. rewrite Hc. unfold isSpecialChar in Hc. repeat case_match; simplify_eq.
    + by apply safe_newLine.
    + by apply safe_backSpace.
    + by apply safe_tab.
  - rewrite putChar_eq by done. destruct (drawn_grid (u8 c) fg bg v Hg) as [Hp Hd]. pose proof Hd as [Hg1 _].
    cbv zeta. eapply safe_trans; [exact Hd|]. set (v1 := draw_char _ _ _ _) in *. clearbody v1.
    assert (cell_w v1 = cell_w v) as Ew by (unfold cell_w; f_equal; apply Hp). rewrite <- Ew, <- (pa_x _ _ _ _ Hp).
    pose proof (grid_cell v1 Hg1) as (Hw & _).
    destruct (Z.ltb_spec (cursorX v1 + cell_w v1) vbe_width) as [Hl|_]; [|by apply safe_newLine].
    split; [|done]. destruct Hg1 as (Hs & W & L & i & j & E1 & E2 & E3 & E4 & Hi & Hj).
    pose proof (next_cell (cell_w v1) i W Hw ltac:(lia)). apply (grid_move v1 _ (i + 1) j W L); simpl; try done; lia.
Qed.

Lemma safe_clearScreenColor c v : grid v -> safe v (video_clearScreenColor c v).
Proof.
  intros Hg. pose proof (mo_width Hmode). pose proof (mo_height Hmode).
  assert (paints (in_rect 0 0 vbe_width vbe_height) (fun _ _ => rgb c) v (fill_rows c 0 0 vbe_width vbe_height v)) as Hp
    by (apply fill_rows_paints; lia).
  unfold video_clearScreenColor. set (v1 := fill_rows _ _ _ _ _ _) in *. clearbody v1. split; [|intros a Ha; simpl; by rewrite (pa_outside _ _ _ _ Hp)].
  destruct Hg as (Hs & W & L & i & j & E1 & E2 & E3 & E4 & Hi & Hj).
  apply (grid_move v _ 0 0 W L); simpl; try done; [apply Hp|lia..].
Qed.

Lemma safe_drawCursor c v : grid v -> safe v (video_drawCursor c v).
Proof.
  intros Hg. pose proof (grid_cell v Hg) as (Hw & Hh & Hx0 & Hx & Hy0 & Hy). pose proof (mo_width Hmode). pose proof (mo_height Hmode).
  assert (16 <= cell_h v) by (destruct Hg as [Hs _]; unfold cell_h, FONT_HEIGHT in *; lia).
  eapply grid_paints; [|done]. unfold video_drawCursor.
  apply (paints_loop (fun x a b => (a =? cursorX v + x) && (b =? cursorY v + cell_h v - 2)) (fun _ _ => rgb (u32 c))); [lia|].
  intros x v' Hxr _ _ _. rewrite !u64_small by lia. apply putPixel_paints. split; lia.
Qed.

Lemma ctrue_land_pow2 z i : 0 <= i -> ctrue (Z.land z (2 ^ i)) = Z.testbit z i.
Proof.
  intros Hi. unfold ctrue. destruct (Z.testbit z i) eqn:E.
  - destruct (Z.eqb_spec (Z.land z (2 ^ i)) 0) as [E0|]; [|done].
    apply (f_equal (fun w => Z.testbit w i)) in E0. rewrite Z.land_spec, E, Z.pow2_bits_true, Z.bits_0 in E0 by done. done.
  - replace (Z.land z (2 ^ i)) with 0; [done|]. symmetry. apply Z.bits_inj_0. intros k. rewrite Z.land_spec.
    destruct (decide (i = k)) as [<-|]; [by rewrite E|]. by rewrite (Z.pow2_bits_false i k), andb_false_r.
Qed.

(** The bit of the glyph that a pixel of the cell shows. *)
Lemma cell_color_eq c fg bg v x y :
  0 < fontScale v -> in_rect (cursorX v) (cursorY v) (cell_w v) (cell_h v) x y = true ->
  cell_color c fg bg v x y =
    rgb (if Z.testbit (glyph c ((y - cursorY v) / fontScale v)) (7 - (x - cursorX v) / fontScale v) then u32 fg else u32 bg).
Proof.
  intros Hs Hin. unfold cell_color, glyph_color. set (s := fontScale v) in *.
  assert (0 <= (x - cursorX v) / s < 8) as Hx.
  { unfold in_rect, cell_w, FONT_WIDTH in Hin. fold s in Hin. split; [apply Z.div_pos; lia|]. apply Z.div_lt_upper_bound; lia. }
  rewrite Z.shiftl_1_l, ctrue_land_pow2 by lia. f_equal. by case_match.
Qed.

Lemma ordinary c v : c <> 8 -> c <> 9 -> c <> 10 -> isSpecialChar c v = None.
Proof. intros. unfold isSpecialChar. by rewrite !(proj2 (Z.eqb_neq _ _)). Qed.

(** The picture with one more character. *)
Definition drawn (c fg bg : Z) (v : Video) (x y : Z) : Z :=
  if in_rect (cursorX v) (cursorY v) (cell_w v) (cell_h v) x y
  then rgb (if Z.testbit (glyph c ((y - cursorY v) / fontScale v)) (7 - (x - cursorX v) / fontScale v)
            then u32 fg else u32 bg)
  else pixel v x y.

Lemma draw_char_drawn c fg bg v x y : grid v -> on_screen x y -> pixel (draw_char c fg bg v) x y = drawn c fg bg v x y.
Proof.
  intros Hg Ho. destruct (drawn_grid c fg bg v Hg) as [[_ _ _ P _] _]. rewrite P by done. unfold drawn.
  destruct (in_rect _ _ _ _ x y) eqn:Hin; [|done]. apply cell_color_eq; [apply Hg|done].
Qed.

(** Where the cursor goes after a character, and what the screen shows. *)
Lemma advance v v1 (P : Z -> Z -> Z) v' :
  grid v1 -> cursorX v1 = cursorX v -> cursorY v1 = cursorY v -> fontScale v1 = fontScale v ->
  (forall x y, on_screen x y -> pixel v1 x y = P x y) ->
  v' = (if cursorX v + cell_w v <? vbe_width then set_cursorX (cursorX v + cell_w v) v1 else video_newLine v1) ->
  fontScale v' = fontScale v /\
  if cursorX v + cell_w v <? vbe_width then
    cursorX v' = cursorX v + cell_w v /\ cursorY v' = cursorY v /\ (forall x y, on_screen x y -> pixel v' x y = P x y)
  else if cursorY v + 2 * cell_h v <=? vbe_height then
    cursorX v' = 0 /\ cursorY v' = cursorY v + cell_h v /\ (forall x y, on_screen x y -> pixel v' x y = P x y)
  else
    cursorX v' = 0 /\ cursorY v' = cursorY v /\
    (forall x y, on_screen x y -> pixel v' x y = if y + cell_h v <? vbe_height then P x (y + cell_h v) else 0).
Proof.
  intros Hg1 E1 E2 E3 HP ->. assert (cell_h v1 = cell_h v) as Eh by (unfold cell_h; congruence).
  destruct (cursorX v + cell_w v <? vbe_width); [by split_and!|].
  destruct (newLine_spec v1 Hg1) as (_ & N1 & N2 & _ & N3). rewrite E2, Eh in N3.
  split; [congruence|]. destruct (_ <=? _); destruct N3 as [N3 N4]; split_and!; try done.
  - intros x y Ho. rewrite <- HP by done. unfold pixel. by rewrite N4.
  - intros x y Ho. rewrite N4 by done. destruct (Z.ltb_spec (y + cell_h v) vbe_height); [|done].
    apply HP. destruct Ho. pose proof (grid_cell v1 Hg1). split; lia.
Qed.

(** * Claims *)


(** The operations a program reaches through the console system calls. *)
Inductive vop :=
| Put (c fg bg : Z)
| PutString (str : list Z) (fg bg : Z)
| Clear (color : Z)
| Left | Right | Up | Down
| DrawCursor (color : Z).

Definition run_vop (v : Video) (o : vop) : Video :=
  match o with
  | Put c fg bg => video_putChar c fg bg v
  | PutString str fg bg => video_putString str fg bg v
  | Clear c => video_clearScreenColor c v
  | Left => video_moveCursorLeft v
  | Right => video_moveCursorRight v
  | Up => video_moveCursorUp v
  | Down => video_moveCursorDown v
  | DrawCursor c => video_drawCursor c v
  end.

Lemma safe_refl v : grid v -> safe v v.
Proof. by split. Qed.

Lemma safe_foldl {A} (f : Video -> A -> Video) l v :
  (forall v a, grid v -> safe v (f v a)) -> grid v -> safe v (foldl f v l).
Proof.
  intros Hf. revert v. induction l as [|a l IH]; intros v Hg; simpl; [by apply safe_refl|].
  eapply safe_trans; [by apply Hf|]. apply IH. by apply Hf.
Qed.

Lemma safe_vop v o : grid v -> safe v (run_vop v o).
Proof.
  intros Hg. destruct o; simpl.
  - by apply safe_putChar.
  - apply safe_foldl; [intros; by apply safe_putChar|done].
  - by apply safe_clearScreenColor.
  - by apply safe_moveCursorLeft.
  - by apply safe_moveCursorRight.
  - by apply safe_moveCursorUp.
  - by apply safe_moveCursorDown.
  - by apply safe_drawCursor.
Qed.

End Pixels.


(** An ordinary character paints its glyph in the cell of the cursor, in
    the two colours, and nothing else; the cursor moves to the next cell, and
    from the last cell the picture scrolls up by one line of text. *)
Theorem putChar_spec `{VBE} c fg bg v :
  mode_ok -> grid v -> 0 <= c < 128 -> c <> 8 -> c <> 9 -> c <> 10 ->
  let v' := video_putChar c fg bg v in
  fontScale v' = fontScale v /\
  if cursorX v + cell_w v <? vbe_width then
    cursorX v' = cursorX v + cell_w v /\ cursorY v' = cursorY v /\
    (forall x y, on_screen x y -> pixel v' x y = drawn c fg bg v x y)
  else if cursorY v + 2 * cell_h v <=? vbe_height then
    cursorX v' = 0 /\ cursorY v' = cursorY v + cell_h v /\
    (forall x y, on_screen x y -> pixel v' x y = drawn c fg bg v x y)
  else
    cursorX v' = 0 /\ cursorY v' = cursorY v /\
    (forall x y, on_screen x y ->
       pixel v' x y = if y + cell_h v <? vbe_height then drawn c fg bg v x (y + cell_h v) else 0).
Proof.
  intros Hm Hg Hc H8 H9 H10 v'. unfold v'. rewrite putChar_eq by auto using ordinary. unfold u8. rewrite (Z.mod_small c) by lia.
  destruct (drawn_grid Hm c fg bg v Hg) as [[E1 E2 E3 _ _] [Hg1 _]].
  eapply advance; [done|exact Hg1|exact E1|exact E2|exact E3| |reflexivity].
  intros x y Ho. by apply draw_char_drawn.
Qed.

(** Backspace undoes a character: after an ordinary character anywhere
    but in the last cell of the screen, it brings the cursor back to the cell,
    also across the end of a line, blanks the cell and leaves the rest of the
    picture as it was before the character. *)
Theorem backSpace_undoes `{VBE} c fg bg v :
  mode_ok -> grid v -> 0 <= c < 128 -> c <> 8 -> c <> 9 -> c <> 10 ->
  cursorX v + cell_w v < vbe_width \/ cursorY v + 2 * cell_h v <= vbe_height ->
  let v' := video_putChar 8 fg bg (video_putChar c fg bg v) in
  cursorX v' = cursorX v /\ cursorY v' = cursorY v /\ fontScale v' = fontScale v /\
  forall x y, on_screen x y ->
    pixel v' x y = if in_rect (cursorX v) (cursorY v) (cell_w v) (cell_h v) x y then 0 else pixel v x y.
Proof.
  intros Hm Hg Hc H8 H9 H10 Hlast v'.
  destruct (safe_putChar Hm c fg bg v Hg) as [Hg2 _].
  assert (let v2 := video_putChar c fg bg v in fontScale v2 = fontScale v /\
    cursorX (step_back v2) = cursorX v /\ cursorY (step_back v2) = cursorY v /\
    (cursorX v2 >=? cell_w v2) || (cursorY v2 >=? cell_h v2) = true /\
    forall x y, on_screen x y -> pixel v2 x y = drawn c fg bg v x y) as (S1 & S2 & S3 & S4 & S5).
  { pose proof (grid_cell v Hg) as (Hw & Hh & Hx0 & Hx & Hy0 & Hy). intros v2.
    destruct (drawn_grid Hm c fg bg v Hg) as [[E1 E2 E3 _ _] [Hg1 _]].
    destruct (advance Hm v _ (drawn c fg bg v) v2 Hg1 E1 E2 E3) as [A1 A2].
    - intros x y Ho. by apply draw_char_drawn.
    - unfold v2. rewrite putChar_eq by auto using ordinary. unfold u8. by rewrite (Z.mod_small c) by lia.
    - assert (cell_w v2 = cell_w v) as Ew by (unfold cell_w; congruence).
      assert (cell_h v2 = cell_h v) as Eh by (unfold cell_h; congruence).
      clearbody v2. unfold step_back. rewrite Ew, Eh.
      destruct (Z.ltb_spec (cursorX v + cell_w v) vbe_width); [|destruct (Z.leb_spec (cursorY v + 2 * cell_h v) vbe_height); [|lia]];
        destruct A2 as (A2 & A2' & A3); split_and!; try done; repeat case_match; simpl; lia. }
  unfold v'. clear v'. set (v2 := video_putChar c fg bg v) in *. clearbody v2.
  change (video_putChar 8 fg bg v2) with (video_backSpace v2).
  rewrite backSpace_eq, S4 by done. pose proof (step_back_grid v2 Hg2) as Hb.
  assert (fontScale (step_back v2) = fontScale v) as S6 by (unfold step_back; by repeat case_match).
  destruct (erase_cell_paints Hm _ Hb) as [P1 P2 P3 P4 _]. rewrite P1, P2, P3. split_and!; try done.
  intros x y Ho. rewrite P4 by done. unfold cell_w, cell_h. rewrite S2, S3, S6. unfold drawn, cell_w, cell_h in S5.
  replace (pixel (step_back v2) x y) with (pixel v2 x y) by (unfold step_back; by repeat case_match).
  rewrite S5 by done. by destruct (in_rect _ _ _ _ x y).
Qed.

(** ** Witnesses *)

(** The mode the boot loader asks for, and its screen after a clear. *)
#[local] Instance vbe_1024x768 : VBE := { vbe_pitch := 3072; vbe_width := 1024; vbe_height := 768; vbe_bpp := 24 }.

Definition blank (scale x y : Z) : Video := mkVideo (fun _ => 0) x y scale.

Lemma mode_1024x768 : mode_ok.
Proof. split; [by left|by vm_compute..]. Qed.

Lemma blank_grid : grid (blank 1 0 0).
Proof. split; [done|]. by exists 128, 48, 0, 0. Qed.


Lemma putChar_spec_witness :
  grid (blank 1 0 0) /\ fontScale (video_putChar 65 0xFFFFFF 0 (blank 1 0 0)) = 1.
Proof.
  split; [exact blank_grid|].
  exact (proj1 (putChar_spec 65 0xFFFFFF 0 (blank 1 0 0) mode_1024x768 blank_grid ltac:(lia) ltac:(lia) ltac:(lia) ltac:(lia))).
Defined.

Lemma backSpace_undoes_witness :
  grid (blank 1 0 0) /\ cursorX (video_putChar 8 0xFFFFFF 0 (video_putChar 65 0xFFFFFF 0 (blank 1 0 0))) = 0.
Proof.
  split; [exact blank_grid|].
  exact (proj1 (backSpace_undoes 65 0xFFFFFF 0 (blank 1 0 0) mode_1024x768 blank_grid ltac:(lia) ltac:(lia) ltac:(lia) ltac:(lia)
    (or_introl eq_refl))).
Defined.

(** Scale 5 does not divide the 768 rows into lines: [video_newLine] moves
    the cursor to row 720, whose cells end at row 800, and a character drawn
    there is written past the end of the framebuffer. *)
Theorem scale5_overrun :
  let v := video_newLine (blank 5 0 640) in
  cursorY v = 720 /\ outside (768 * 3072) /\
  fb (video_putChar 95 0xFFFFFF 0 v) (786 * 3072) <> fb v (786 * 3072).
Proof.
  split; [reflexivity|]. split; [right; simpl; lia|]. vm_compute. done.
Qed.
