(* ===== verification/Format.v ===== *)
(** * Formatted output

    The [append_*] functions of [Kernel/syscalls_kernel.c], which print into a
    buffer of limited size, and what they print. *)

From S2P Require Import Prelude Lib.
Local Open Scope Z_scope.

(** ** Operations *)

(** The buffer that the functions share through pointers: the memory, [*out],
    [*rem] and [*written]. *)
Record Out := mkOut {
  o_mem : bytes;
  o_out : Z;
  o_rem : Z;
  o_written : Z
}.

Definition append_char (o : Out) (c : Z) : Out :=
  if o_rem o <=? 1 then o
  else mkOut (fupd (o_mem o) (o_out o) (u8 c)) (o_out o + 1) (o_rem o - 1) (o_written o + 1).

(** The characters of [str] up to its terminator. *)
Fixpoint append_str (o : Out) (str : list Z) : Out :=
  match str with
  | [] => o
  | c :: str => if c =? 0 then o else append_str (append_char o c) str
  end.

Definition digit_char (digit : Z) : Z := i8 (if digit <? 10 then 48 + digit else 97 + digit - 10).

(** The first loop of [append_uint]; the digits are pushed on the buffer, the
    last one stored first, and there is room for [fuel] more. *)
Fixpoint store_digits (fuel : nat) (value base : Z) (buffer : list Z) : list Z :=
  match fuel with
  | O => buffer
  | S fuel =>
      if value >? 0 then store_digits fuel (value / base) base (digit_char (value mod base) :: buffer)
      else buffer
  end.

(** The second loop takes them off again. *)
Definition append_uint (o : Out) (value base : Z) : Out :=
  if value =? 0 then append_char o 48
  else foldl append_char o (store_digits 32 value base []).

Definition append_int (o : Out) (value : Z) : Out :=
  if value <? 0 then append_uint (append_char o 45) (u64 (i32 (- value))) 10
  else append_uint o (u64 value) 10.

(** ** What is printed *)

(** The text of a number. *)
Definition print_uint (value base : Z) : list Z :=
  if value =? 0 then [48] else store_digits 32 value base [].

Definition print_int (value : Z) : list Z :=
  if value <? 0 then 45 :: print_uint (u64 (i32 (- value))) 10 else print_uint (u64 value) 10.

Definition emit (l : list Z) (o : Out) : Out := foldl append_char o l.

Lemma emit_app l1 l2 o : emit (l1 ++ l2) o = emit l2 (emit l1 o).
Proof. apply foldl_app. Qed.

Lemma append_str_emit o str : append_str o str = emit (cstr str) o.
Proof.
  revert o. induction str as [|c str IH]; intros o; [done|]. simpl. destruct (c =? 0); [done|]. apply IH.
Qed.

Lemma append_uint_emit o v b : append_uint o v b = emit (print_uint v b) o.
Proof. unfold append_uint, print_uint. by destruct (v =? 0). Qed.

Lemma append_int_emit o v : append_int o v = emit (print_int v) o.
Proof. unfold append_int, print_int. by destruct (v <? 0); rewrite append_uint_emit. Qed.

(** A full buffer takes nothing. *)
Lemma emit_full l o : o_rem o <= 1 -> emit l o = o.
Proof.
  intros Hr. induction l as [|c l IH]; [done|]. simpl. unfold append_char. replace (o_rem o <=? 1) with true by lia. done.
Qed.

(** The bytes [l] stored from address [a]. *)
Fixpoint write_bytes (m : bytes) (a : Z) (l : list Z) : bytes :=
  match l with [] => m | c :: l => write_bytes (fupd m a (u8 c)) (a + 1) l end.

Lemma write_bytes_lookup l m a x :
  write_bytes m a l x =
    match (if a <=? x then l !! Z.to_nat (x - a) else None) with Some c => u8 c | None => m x end.
Proof.
  revert m a. induction l as [|c l IH]; intros m a; simpl; [by destruct (a <=? x)|]. rewrite IH. unfold fupd.
  destruct (Z.leb_spec a x) as [Hl|Hl], (Z.leb_spec (a + 1) x) as [Hl'|Hl']; try lia.
  - replace (Z.to_nat (x - a)) with (S (Z.to_nat (x - (a + 1)))) by lia. simpl.
    destruct (l !! _); [done|]. by replace (x =? a) with false by lia.
  - replace (Z.to_nat (x - a)) with 0%nat by lia. simpl. by replace (x =? a) with true by lia.
  - by replace (x =? a) with false by lia.
Qed.

(** A buffer of [rem] bytes takes the first [rem - 1] bytes of the text. *)
Lemma emit_spec l o :
  1 <= o_rem o ->
  let t := take (Z.to_nat (o_rem o - 1)) l in
  emit l o = mkOut (write_bytes (o_mem o) (o_out o) t) (o_out o + Z.of_nat (length t))
               (o_rem o - Z.of_nat (length t)) (o_written o + Z.of_nat (length t)).
Proof.
  revert o. induction l as [|c l IH]; intros o Hr; cbv zeta.
  - rewrite take_nil. destruct o. simpl. f_equal; lia.
  - destruct (Z.leb_spec (o_rem o) 1) as [H1|H1].
    + rewrite emit_full by done. replace (Z.to_nat (o_rem o - 1)) with 0%nat by lia. destruct o. simpl. f_equal; lia.
    + change (emit (c :: l) o) with (emit l (append_char o c)). unfold append_char. replace (o_rem o <=? 1) with false by lia.
      rewrite IH by (simpl; lia). cbn [o_rem o_mem o_out o_written].
      replace (Z.to_nat (o_rem o - 1)) with (S (Z.to_nat (o_rem o - 1 - 1))) by lia. cbn [take write_bytes length].
      f_equal; lia.
Qed.

(** ** Numbers read back *)

Definition digit_val (c : Z) : Z := if c <? 58 then c - 48 else c - 87.

Definition parse (base : Z) (l : list Z) : Z := foldl (fun n c => n * base + digit_val c) 0 l.

Lemma digit_roundtrip d : 0 <= d < 36 -> digit_val (digit_char d) = d /\ 48 <= digit_char d < 123.
Proof.
  intros Hd. unfold digit_char, i8. destruct (Z.ltb_spec d 10); rewrite Z.mod_small by lia; unfold digit_val; case_if; lia.
Qed.

Lemma parse_foldl base l n : foldl (fun n c => n * base + digit_val c) n l = n * base ^ Z.of_nat (length l) + parse base l.
Proof.
  unfold parse. revert n. induction l as [|c l IH]; intros n; [simpl; lia|]. cbn [foldl length]. rewrite IH, (IH (0 * base + _)).
  rewrite Nat2Z.inj_succ, Z.pow_succ_r by lia. lia.
Qed.

Lemma store_digits_parse fuel v base buf :
  2 <= base <= 36 -> 0 <= v < base ^ Z.of_nat fuel ->
  parse base (store_digits fuel v base buf) = v * base ^ Z.of_nat (length buf) + parse base buf.
Proof.
  intros Hb. revert v buf. induction fuel as [|fuel IH]; intros v buf Hv.
  - simpl in *. replace v with 0 by lia. lia.
  - rewrite Nat2Z.inj_succ, Z.pow_succ_r in Hv by lia. cbn [store_digits].
    destruct (Z.gtb_spec v 0) as [Hp|Hp]; [|replace v with 0 by lia; lia].
    pose proof (Z.div_mod v base ltac:(lia)) as Hd. pose proof (Z.mod_pos_bound v base ltac:(lia)).
    rewrite IH.
    + unfold parse at 1. cbn [foldl length]. rewrite parse_foldl. destruct (digit_roundtrip (v mod base)) as [-> _]; [lia|].
      rewrite Nat2Z.inj_succ, Z.pow_succ_r by lia. nia.
    + split; [apply Z.div_pos; lia|]. apply Z.div_lt_upper_bound; lia.
Qed.

Lemma store_digits_chars fuel v base buf :
  2 <= base <= 36 -> 0 <= v -> Forall (fun c => 48 <= c < 123) buf -> Forall (fun c => 48 <= c < 123) (store_digits fuel v base buf).
Proof.
  intros Hb. revert v buf. induction fuel as [|fuel IH]; intros v buf Hv Hbuf; [done|]. cbn [store_digits].
  destruct (v >? 0); [|done]. apply IH; [apply Z.div_pos; lia|]. constructor; [|done].
  apply digit_roundtrip. pose proof (Z.mod_pos_bound v base). lia.
Qed.

Lemma pow_cap base : 4 <= base -> 2 ^ 64 <= base ^ 32.
Proof. intros Hb. replace (2 ^ 64) with (4 ^ 32) by done. apply Z.pow_le_mono_l. lia. Qed.

Lemma print_uint_parse v base : 4 <= base <= 36 -> 0 <= v < 2 ^ 64 -> parse base (print_uint v base) = v.
Proof.
  intros Hb Hv. unfold print_uint. destruct (Z.eqb_spec v 0) as [->|]; [done|].
  pose proof (pow_cap base). rewrite store_digits_parse; [unfold parse; cbn [length foldl]; lia|lia|]. change (Z.of_nat 32) with 32. lia.
Qed.

Lemma print_uint_chars v base : 4 <= base <= 36 -> 0 <= v -> Forall (fun c => 48 <= c < 123) (print_uint v base).
Proof.
  intros. unfold print_uint. destruct (v =? 0); [by repeat constructor|]. apply store_digits_chars; [lia..|constructor].
Qed.

(** The number a text of [append_int] stands for. *)
Definition parse_int (l : list Z) : Z :=
  match l with 45 :: l => - parse 10 l | _ => parse 10 l end.

Lemma print_int_parse v : - 2 ^ 31 < v < 2 ^ 31 -> parse_int (print_int v) = v.
Proof.
  intros Hv. unfold print_int. destruct (Z.ltb_spec v 0).
  - rewrite i32_small, u64_small by lia. cbn [parse_int]. rewrite print_uint_parse; lia.
  - rewrite u64_small by lia. pose proof (print_uint_chars v 10 ltac:(lia) ltac:(lia)) as Hc.
    pose proof (print_uint_parse v 10 ltac:(lia) ltac:(lia)) as Hp. unfold parse_int.
    destruct Hc as [|c l Hc Hl]; [done|]. destruct c as [|c|c]; try lia.
    repeat (destruct c as [c|c|]; try done; try lia).
Qed.
