(* ===== verification/Devices.v ===== *)
(** * Clock and speaker

    [Kernel/drivers/rtc.c] and [Kernel/drivers/audioDriver.c].  What the
    hardware returns is a parameter; what the kernel sends to it is a log. *)

From S2P Require Import Prelude.
Local Open Scope Z_scope.

(** The routines of [Kernel/asm/libasm.asm] that read a clock register and an
    input port. *)
Class Hardware := {
  _readTime : Z -> Z;
  inb : Z -> Z
}.

(** The bytes and words sent to the output ports, oldest first. *)
Notation port_log := (list (Z * Z)).

Definition outb (port value : Z) (l : port_log) : port_log := l ++ [(port, u8 value)].

Definition RTC_SECONDS : Z := 0x00.
Definition RTC_MINUTES : Z := 0x02.
Definition RTC_HOURS : Z := 0x04.
Definition RTC_DAY : Z := 0x07.
Definition RTC_MONTH : Z := 0x08.
Definition RTC_YEAR : Z := 0x09.

Section Ops.
Context `{Hardware}.

Definition getTime (reg : Z) : Z :=
  if negb (reg =? RTC_SECONDS) && negb (reg =? RTC_MINUTES) && negb (reg =? RTC_HOURS) &&
     negb (reg =? RTC_DAY) && negb (reg =? RTC_MONTH) && negb (reg =? RTC_YEAR) then 0
  else
    let value := u8 (_readTime reg) in
    u8 (Z.shiftr value 4 * 10 + Z.land value 0x0F).

(** [None]: the division by a zero frequency raises an exception. *)
Definition audio_play (nFrequence : Z) (l : port_log) : option port_log :=
  if nFrequence =? 0 then None
  else
    let div := 1193180 / nFrequence in
    let l := outb 0x43 0xb6 l in
    let l := outb 0x42 (u8 div) l in
    let l := outb 0x42 (u8 (Z.shiftr div 8)) l in
    let tmp := u8 (inb 0x61) in
    Some (if negb (tmp =? Z.lor tmp 3) then outb 0x61 (Z.lor tmp 3) l else l).

Definition audio_stop (l : port_log) : port_log :=
  let tmp := Z.land (u8 (inb 0x61)) 0xFC in
  outb 0x61 tmp l.

(** A clock register that holds two decimal digits is read as their number. *)
Lemma getTime_bcd reg a b :
  In reg [RTC_SECONDS; RTC_MINUTES; RTC_HOURS; RTC_DAY; RTC_MONTH; RTC_YEAR] ->
  0 <= a <= 9 -> 0 <= b <= 9 -> _readTime reg = 16 * a + b -> getTime reg = 10 * a + b.
Proof.
  intros Hreg Ha Hb E. unfold getTime.
  replace (_ && _) with false by (simpl in Hreg; by destruct Hreg as [<-|[<-|[<-|[<-|[<-|[<-|[]]]]]]]).
  rewrite E. unfold u8. rewrite (Z.mod_small (16 * a + b)) by lia.
  rewrite Z.shiftr_div_pow2 by lia. change 0x0F with (Z.ones 4). rewrite Z.land_ones by lia.
  replace (16 * a + b) with (b + a * 2 ^ 4) by lia. rewrite Z.div_add, Z.mod_add by lia.
  rewrite (Z.div_small b), (Z.mod_small b) by lia. rewrite Z.mod_small; lia.
Qed.

End Ops.
