(* ===== verification/Syscalls.v ===== *)
(** * System calls

    [Kernel/syscalls_kernel.c] and [Kernel/syscallDispatcher.c].  A handler
    runs until it returns a value or until the calling process has to sleep;
    [Sleeps] keeps what the handler still has to do, and [resume] goes on with
    it when the process runs again.  [None] is a run that the C code leaves
    undefined (a null current process, a name that overruns its array, a
    division by zero) or that does not return. *)

From S2P Require Import Prelude Lib Process Sched SchedIface Semaphore Memory Pipe Keyboard Kernel Font Video Format Devices.
Local Open Scope Z_scope.

(** ** The state *)

Record Sys (M : Type) := mkSys {
  s_kernel : Kernel M;
  s_video : Video;
  s_mem : bytes;
  snapshot_buffer : list Z;
  s_ports : port_log
}.
Arguments mkSys {M}.
Arguments s_kernel {M}.
Arguments s_video {M}.
Arguments s_mem {M}.
Arguments snapshot_buffer {M}.
Arguments s_ports {M}.

(** Where a handler sleeps. *)
Inductive point :=
| InStdin (idx buffer count read : Z)      (** [syscall_read], keyboard buffer empty *)
| InPipeRead (id buffer count i : Z)       (** [pipe_read], pipe empty *)
| InPipeWrite (id buffer count i : Z)      (** [pipe_write], pipe full *)
| InSleep (target : Z) (beep : bool)       (** [syscall_sleep], called by [syscall_beep] or not *)
| InWait (pid : Z)                         (** [syscall_wait], child not finished *)
| InShutdown.                              (** [syscall_shutdown] never returns *)

Inductive outcome := Returns (v : Z) | Sleeps (p : point).

Definition REGISTERS_CANT : Z := 18.

(** ** User memory *)

(** The [char] at an address. *)
Definition char_in (m : bytes) (a : Z) : Z := i8 (m a).

(** The [n] characters from an address on. *)
Definition chars_in (m : bytes) (a n : Z) : list Z := (fun i => char_in m (a + i)) <$> seqZ 0 n.

(** [*(uint64_t * )a = v] *)
Definition store64 (m : bytes) (a v : Z) : bytes :=
  store32 (store32 m a (v mod 2 ^ 32)) (a + 4) (v / 2 ^ 32).

Section Ops.
Context `{Linkage} `{VBE} `{Hardware} {M : Type} `{MemManager M}.
Implicit Types s : Sys M.

Definition set_kernel v s : Sys M := mkSys v (s_video s) (s_mem s) (snapshot_buffer s) (s_ports s).
Definition set_video v s : Sys M := mkSys (s_kernel s) v (s_mem s) (snapshot_buffer s) (s_ports s).
Definition set_mem v s : Sys M := mkSys (s_kernel s) (s_video s) v (snapshot_buffer s) (s_ports s).
Definition set_ports v s : Sys M := mkSys (s_kernel s) (s_video s) (s_mem s) (snapshot_buffer s) v.

Definition on_kernel (f : Kernel M -> Kernel M) s : Sys M := set_kernel (f (s_kernel s)) s.
Definition on_video (f : Video -> Video) s : Sys M := set_video (f (s_video s)) s.
Definition s_sched s : Sched := k_sched (s_kernel s).
Definition s_pipes s : PipeSt Sched := k_pipes (s_kernel s).
Definition set_s_pipes v s : Sys M := on_kernel (set_pipes v) s.
Definition set_s_sems v s : Sys M := on_kernel (set_sems v) s.

(** A handler that returns [v]. *)
Notation ret v s := (Some (Returns v, s)).

(** ** Console and devices *)

Definition syscall_get_regs (dest : Z) s : option (outcome * Sys M) :=
  ret 1 (set_mem (for_loop 0 REGISTERS_CANT (fun m i => store64 m (dest + 8 * i) ((snapshot_buffer s).[i])) (s_mem s)) s).

Definition syscall_getTime (reg : Z) s : option (outcome * Sys M) := ret (getTime (u8 reg)) s.

Definition syscall_clearScreen s : option (outcome * Sys M) := ret 1 (on_video video_clearScreen s).

Definition sleep_until (target : Z) s : option (outcome * Sys M) :=
  if u64 (ticks_elapsed (s_kernel s)) <? target then Some (Sleeps (InSleep target false), s) else ret 0 s.

(** [start + wait_tics] *)
Definition sleep_target (duration : Z) s : Z :=
  let HZ := 18 in
  let start := u64 (ticks_elapsed (s_kernel s)) in
  let wait_tics := u32 (u32 duration * HZ + 999) / 1000 in
  u64 (start + wait_tics).

Definition syscall_sleep (duration : Z) s : option (outcome * Sys M) := sleep_until (sleep_target duration s) s.

(** The rest of [syscall_beep] after [audio_play]. *)
Definition beep_until (target : Z) s : option (outcome * Sys M) :=
  '(o, s) ← sleep_until target s;
  match o with
  | Returns _ => ret 1 (set_ports (audio_stop (s_ports s)) s)
  | Sleeps _ => Some (Sleeps (InSleep target true), s)
  end.

Definition syscall_beep (frequency duration : Z) s : option (outcome * Sys M) :=
  l ← audio_play (u32 frequency) (s_ports s);
  let s := set_ports l s in
  beep_until (sleep_target duration s) s.

Definition syscall_setFontScale (scale : Z) s : option (outcome * Sys M) :=
  if (scale <? 1) || (scale >? 5) then ret 0 s else ret 1 (on_video (setFontScale scale) s).

Definition syscall_video_putPixel (x y color : Z) s : option (outcome * Sys M) :=
  ret 0 (on_video (video_putPixel (u32 color) x y) s).

Definition syscall_video_putChar (c fg bg : Z) s : option (outcome * Sys M) :=
  ret 0 (on_video (video_putChar (i8 c) fg bg) s).

Definition syscall_video_clearScreenColor (color : Z) s : option (outcome * Sys M) :=
  ret 0 (on_video (video_clearScreenColor (u32 color)) s).

Definition syscall_video_putCharXY (c x y fg bg : Z) s : option (outcome * Sys M) :=
  ret 0 (on_video (video_putCharXY (i8 c) (i32 x) (i32 y) (u32 fg) (u32 bg)) s).

Definition syscall_is_key_pressed (scancode : Z) s : option (outcome * Sys M) :=
  ret (is_key_pressed (u8 scancode) (k_kbd (s_kernel s))) s.

(** [outw(0x604, 0x2000)], then the machine halts. *)
Definition syscall_shutdown s : option (outcome * Sys M) :=
  Some (Sleeps InShutdown, set_ports (s_ports s ++ [(0x604, 0x2000)]) s).

Definition syscall_get_screen_dimensions (width height : Z) s : option (outcome * Sys M) :=
  if (width =? 0) || (height =? 0) then ret 0 s
  else ret 1 (set_mem (store64 (store64 (s_mem s) width video_get_width) height video_get_height) s).

(** ** Reading and writing *)

(** The loop of [syscall_read] on the keyboard. *)
Fixpoint stdin_loop (fuel : nat) (idx buffer count read : Z) s : option (outcome * Sys M) :=
  match fuel with
  | O => None
  | S fuel =>
      if read <? u64 count then
        let '(c, kb) := keyboard_read_getchar (k_kbd (s_kernel s)) in
        let s := on_kernel (set_kbd kb) s in
        if c =? 0 then
          if negb (ctrue (foreground (k_proc (s_kernel s) idx))) then ret read s
          else Some (Sleeps (InStdin idx buffer count read), s)
        else
          let s := set_mem (fupd (s_mem s) (buffer + read) (u8 c)) s in
          let read := read + 1 in
          if (c =? 10) || (c =? EOF_CHAR) then ret read s
          else stdin_loop fuel idx buffer count read s
      else ret read s
  end.

(** Each iteration that does not stop stores one of the [count] characters. *)
Definition read_stdin (idx buffer count read : Z) s : option (outcome * Sys M) :=
  stdin_loop (S (Z.to_nat (count - read))) idx buffer count read s.

(** [pipe_read] from its iteration [i] on, storing the bytes it moves. *)
Definition read_pipe (id buffer count i : Z) s : option (outcome * Sys M) :=
  '(e, p) ← read_loop (Z.to_nat (count - i)) id (chars_in (s_mem s) buffer i) (s_pipes s);
  let s := set_s_pipes p s in
  match e with
  | Returned r moved => ret (u64 r) (set_mem (write_bytes (s_mem s) buffer moved) s)
  | CallBlocked moved =>
      Some (Sleeps (InPipeRead id buffer count (Z.of_nat (length moved))), set_mem (write_bytes (s_mem s) buffer moved) s)
  end.

Definition syscall_read (fd buffer count : Z) s : option (outcome * Sys M) :=
  if (buffer =? 0) || (count <=? 0) || (fd <? 0) || (fd >=? MAX_FDS) then ret 0 s
  else
    let c := scheduler_current (s_sched s) in
    if c <? 0 then None
    else
      let d := (fds (k_proc (s_kernel s) c)).[fd] in
      match fd_type d with
      | FD_PIPE_READ =>
          if negb (pipe_is_open (fd_pipe_id d) (s_pipes s)) then ret (u64 (-1)) s
          else read_pipe (fd_pipe_id d) buffer count 0 s
      | FD_STDIN =>
          if ctrue (foreground (k_proc (s_kernel s) c)) then read_stdin c buffer count 0 s else ret 0 s
      | _ => ret 0 s
      end.

(** [pipe_write] from its iteration [i] on. *)
Definition write_pipe (id buffer count i : Z) s : option (outcome * Sys M) :=
  '(e, p) ← write_loop (chars_in (s_mem s) (buffer + i) (count - i)) id (chars_in (s_mem s) buffer i) (s_pipes s);
  let s := set_s_pipes p s in
  match e with
  | Returned r _ => ret (u64 r) s
  | CallBlocked moved => Some (Sleeps (InPipeWrite id buffer count (Z.of_nat (length moved))), s)
  end.

Definition syscall_write (fd buffer count : Z) s : option (outcome * Sys M) :=
  if (buffer =? 0) || (count <=? 0) || (fd <? 0) || (fd >=? MAX_FDS) then ret 0 s
  else
    let c := scheduler_current (s_sched s) in
    if c <? 0 then None
    else
      let d := (fds (k_proc (s_kernel s) c)).[fd] in
      match fd_type d with
      | FD_PIPE_WRITE =>
          if negb (pipe_is_open (fd_pipe_id d) (s_pipes s)) then ret (u64 (-1)) s
          else write_pipe (fd_pipe_id d) buffer count 0 s
      | FD_STDOUT =>
          ret count (on_video (for_loop 0 count (fun v i =>
            video_putChar (char_in (s_mem s) (buffer + i)) FOREGROUND_COLOR BACKGROUND_COLOR v)) s)
      | _ => ret 0 s
      end.

(** ** Memory *)

Definition syscall_mem_alloc (rdi : Z) s : option (outcome * Sys M) :=
  '(p, m) ← mm_alloc rdi (k_mm (s_kernel s)); ret p (on_kernel (set_mm m) s).

Definition syscall_mem_free (rdi : Z) s : option (outcome * Sys M) :=
  m ← mm_free rdi (k_mm (s_kernel s)); ret 0 (on_kernel (set_mm m) s).

(** The manager stores the three results through the pointers; the order of
    the stores matters only when the pointers overlap. *)
Definition syscall_mem_info (rdi rsi rdx : Z) s : option (outcome * Sys M) :=
  '(total, used, free_bytes) ← mm_info (k_mm (s_kernel s));
  ret 0 (set_mem (store64 (store64 (store64 (s_mem s) rdi total) rsi used) rdx free_bytes) s).

Definition syscall_mem_kind s : option (outcome * Sys M) := ret (u64 mm_kind) s.

(** ** Processes *)

Definition syscall_create_process (entry name priority fg argc argv : Z) s : option (outcome * Sys M) :=
  '(p, k) ← scheduler_create entry (chars_in (s_mem s) name 32) (i32 priority) (i32 fg) (i32 argc) argv (s_kernel s);
  ret (u64 p) (set_kernel k s).

Definition syscall_kill (pid : Z) s : option (outcome * Sys M) :=
  '(r, k) ← scheduler_kill (i32 pid) (s_kernel s); ret (u64 r) (set_kernel k s).

Definition syscall_getpid s : option (outcome * Sys M) := ret (u64 (scheduler_getpid (s_sched s))) s.

Definition syscall_yield s : option (outcome * Sys M) := ret 0 (on_kernel (on_sched scheduler_yield) s).

Definition syscall_block (pid : Z) s : option (outcome * Sys M) :=
  ret 0 (on_kernel (on_sched (scheduler_block (i32 pid))) s).

Definition syscall_unblock (pid : Z) s : option (outcome * Sys M) :=
  ret 0 (on_kernel (on_sched (scheduler_unblock (i32 pid))) s).

Definition syscall_nice (pid new_priority : Z) s : option (outcome * Sys M) :=
  let '(r, sch) := scheduler_nice (i32 pid) (i32 new_priority) (s_sched s) in
  ret (u64 r) (on_kernel (set_sched sch) s).

Definition syscall_exit (status : Z) s : option (outcome * Sys M) :=
  k ← scheduler_exit_current (i32 status) (s_kernel s); ret 0 (set_kernel k s).

(** The inner loop of [syscall_wait] sleeps while the caller is blocked. *)
Fixpoint wait_until (fuel : nat) (pid : Z) s : option (outcome * Sys M) :=
  match fuel with
  | O => None
  | S fuel =>
      '(result, k) ← scheduler_wait pid (s_kernel s);
      let s := set_kernel k s in
      if result =? SCHEDULER_WAIT_BLOCKED then
        let c := scheduler_current (s_sched s) in
        if (c >=? 0) && state_is (s_sched s) c PROCESS_BLOCKED then Some (Sleeps (InWait pid), s)
        else wait_until fuel pid s
      else ret (u64 result) s
  end.

(** A second call is made only after a child was reaped. *)
Definition syscall_wait (pid : Z) s : option (outcome * Sys M) := wait_until 2 (i32 pid) s.

(** The strings of [syscall_ps]. *)
Definition PS_PID : list Z := [32; 80; 73; 68; 61].
Definition PS_PRI : list Z := [32; 80; 82; 73; 61].
Definition PS_FG : list Z := [32; 70; 71; 61].
Definition PS_RSP : list Z := [32; 82; 83; 80; 61; 48; 120].
Definition PS_BASE : list Z := [32; 66; 65; 83; 69; 61; 48; 120].
Definition PS_STATE : list Z := [32; 83; 84; 65; 84; 69; 61].

(** The body of the loop of [syscall_ps]. *)
Definition ps_line (o : Out) (p : PCB) : Out :=
  let o := append_str o (name p) in
  let o := append_int (append_str o PS_PID) (pid p) in
  let o := append_int (append_str o PS_PRI) (priority p) in
  let o := append_int (append_str o PS_FG) (foreground p) in
  let o := append_uint (append_str o PS_RSP) (rsp p) 16 in
  let o := append_uint (append_str o PS_BASE) (stack_base p) 16 in
  let o := append_int (append_str o PS_STATE) (state_code (state p)) in
  append_char o 10.

(** [for (i = 0; i < count && rem > 1; i++)] *)
Fixpoint ps_loop (table : list PCB) (o : Out) : Out :=
  match table with
  | [] => o
  | p :: table => if o_rem o >? 1 then ps_loop table (ps_line o p) else o
  end.

Definition syscall_ps (buf max_len : Z) s : option (outcome * Sys M) :=
  let ps_table := scheduler_list MAX_PROCESSES (s_sched s) in
  let o := ps_loop ps_table (mkOut (s_mem s) buf (i32 max_len) 0) in
  let m := if o_rem o >? 0 then fupd (o_mem o) (o_out o) 0 else o_mem o in
  ret (u64 (o_written o)) (set_mem m s).

(** ** Semaphores and pipes *)

(** A name of 32 or more characters overruns the array that it is copied to;
    the 33 characters read here are enough to tell. *)
Definition syscall_sem_open (name initial_value : Z) s : option (outcome * Sys M) :=
  '(id, m) ← sem_open (chars_in (s_mem s) name 33) (i32 initial_value) (ps_sem (s_pipes s));
  ret (u64 id) (set_s_sems m s).

Definition syscall_sem_wait (sem_id : Z) s : option (outcome * Sys M) :=
  let '(result, m) := sem_wait (i32 sem_id) (ps_sem (s_pipes s)) in
  let s := set_s_sems m s in
  if result <? 0 then ret (u64 result) s else ret 0 s.

Definition syscall_sem_post (sem_id : Z) s : option (outcome * Sys M) :=
  '(r, m) ← sem_post (i32 sem_id) (ps_sem (s_pipes s)); ret (u64 r) (set_s_sems m s).

Definition syscall_sem_close (sem_id : Z) s : option (outcome * Sys M) :=
  let '(r, m) := sem_close (i32 sem_id) (ps_sem (s_pipes s)) in
  ret (u64 r) (set_s_sems m s).

Definition syscall_pipe_open s : option (outcome * Sys M) :=
  '(id, p) ← pipe_open (s_pipes s); ret (u64 id) (set_s_pipes p s).

Definition syscall_pipe_open_capacity (capacity : Z) s : option (outcome * Sys M) :=
  '(id, p) ← pipe_open_with_capacity (i32 capacity) (s_pipes s); ret (u64 id) (set_s_pipes p s).

Definition syscall_pipe_close (pipe_id is_write : Z) s : option (outcome * Sys M) :=
  '(r, p) ← pipe_close (i32 pipe_id) (i32 is_write) (s_pipes s); ret (u64 r) (set_s_pipes p s).

Definition syscall_pipe_set_fd (pid fd pipe_id is_write : Z) s : option (outcome * Sys M) :=
  let i := get_process_by_pid (i32 pid) (s_sched s) in
  if i <? 0 then ret (u64 (-1)) s
  else if fd >=? MAX_FDS then ret (u64 (-1)) s
  else if negb (pipe_is_open (i32 pipe_id) (s_pipes s)) then ret (u64 (-1)) s
  else
    let '(r, p) := pipe_attach (i32 pipe_id) (i32 is_write) (s_pipes s) in
    let s := set_s_pipes p s in
    if r <? 0 then ret (u64 (-1)) s
    else
      let d := (fds (k_proc (s_kernel s) i)).[fd] in
      k ← match fd_type d with
          | FD_PIPE_READ => close_end (fd_pipe_id d) 0 (s_kernel s)
          | FD_PIPE_WRITE => close_end (fd_pipe_id d) 1 (s_kernel s)
          | _ => Some (s_kernel s)
          end;
      let d := mkFD (if ctrue is_write then FD_PIPE_WRITE else FD_PIPE_READ) (i32 pipe_id) in
      ret 0 (set_kernel (upd_pcb i (set_fd fd d) k) s).

(** ** Resuming *)

Definition resume (p : point) s : option (outcome * Sys M) :=
  match p with
  | InStdin idx buffer count read => read_stdin idx buffer count read s
  | InPipeRead id buffer count i => read_pipe id buffer count i s
  | InPipeWrite id buffer count i => write_pipe id buffer count i s
  | InSleep target false => sleep_until target s
  | InSleep target true => beep_until target s
  | InWait pid =>
      let c := scheduler_current (s_sched s) in
      if (c >=? 0) && state_is (s_sched s) c PROCESS_BLOCKED then Some (Sleeps p, s)
      else wait_until 2 pid s
  | InShutdown => Some (Sleeps p, s)
  end.

(** ** The dispatcher *)

Notation handler := (Z -> Z -> Z -> Z -> Z -> Z -> Sys M -> option (outcome * Sys M)).

Definition syscallHandlers : list handler :=
  [ (fun rdi rsi rdx _ _ _ => syscall_read (i32 rdi) rsi (i32 rdx));
    (fun rdi rsi rdx _ _ _ => syscall_write (i32 rdi) rsi (i32 rdx));
    (fun rdi _ _ _ _ _ => syscall_getTime rdi);
    (fun _ _ _ _ _ _ => syscall_clearScreen);
    (fun rdi rsi _ _ _ _ => syscall_beep (i32 rdi) (i32 rsi));
    (fun rdi _ _ _ _ _ => syscall_sleep (i32 rdi));
    (fun rdi _ _ _ _ _ => syscall_setFontScale (i32 rdi));
    (fun rdi _ _ _ _ _ => syscall_video_clearScreenColor rdi);
    (fun rdi rsi rdx _ _ _ => syscall_video_putPixel rdi rsi rdx);
    (fun rdi rsi rdx _ _ _ => syscall_video_putChar rdi rsi rdx);
    (fun rdi rsi rdx r10 r8 _ => syscall_video_putCharXY rdi rsi rdx r10 r8);
    (fun rdi _ _ _ _ _ => syscall_get_regs rdi);
    (fun rdi _ _ _ _ _ => syscall_is_key_pressed rdi);
    (fun _ _ _ _ _ _ => syscall_shutdown);
    (fun rdi rsi _ _ _ _ => syscall_get_screen_dimensions rdi rsi);
    (fun rdi _ _ _ _ _ => syscall_mem_alloc rdi);
    (fun rdi _ _ _ _ _ => syscall_mem_free rdi);
    (fun rdi rsi rdx _ _ _ => syscall_mem_info rdi rsi rdx);
    (fun rdi rsi rdx r10 r8 r9 => syscall_create_process rdi rsi rdx r10 r8 r9);
    (fun rdi _ _ _ _ _ => syscall_kill rdi);
    (fun _ _ _ _ _ _ => syscall_getpid);
    (fun _ _ _ _ _ _ => syscall_yield);
    (fun rdi _ _ _ _ _ => syscall_block rdi);
    (fun rdi rsi _ _ _ _ => syscall_nice rdi rsi);
    (fun rdi rsi _ _ _ _ => syscall_ps rdi rsi);
    (fun rdi _ _ _ _ _ => syscall_unblock rdi);
    (fun rdi rsi _ _ _ _ => syscall_sem_open rdi rsi);
    (fun rdi _ _ _ _ _ => syscall_sem_wait rdi);
    (fun rdi _ _ _ _ _ => syscall_sem_post rdi);
    (fun rdi _ _ _ _ _ => syscall_sem_close rdi);
    (fun _ _ _ _ _ _ => syscall_pipe_open);
    (fun rdi rsi _ _ _ _ => syscall_pipe_close rdi rsi);
    (fun rdi rsi rdx r10 _ _ => syscall_pipe_set_fd rdi rsi rdx r10);
    (fun rdi _ _ _ _ _ => syscall_wait rdi);
    (fun rdi _ _ _ _ _ => syscall_exit rdi);
    (fun rdi _ _ _ _ _ => syscall_pipe_open_capacity rdi);
    (fun _ _ _ _ _ _ => syscall_mem_kind) ].

Definition SYSCALLS_COUNT : Z := Z.of_nat (length syscallHandlers).

Definition syscallDispatcher (rdi rsi rdx r10 r8 r9 rax : Z) s : option (outcome * Sys M) :=
  if rax >=? SYSCALLS_COUNT then ret 0 s
  else
    h ← syscallHandlers !! Z.to_nat rax;
    h rdi rsi rdx r10 r8 r9 s.

End Ops.
