(* ===== verification/SyscallProps.v ===== *)
(** * Properties of the system calls

    What the handlers of [Kernel/syscalls_kernel.c] do for their caller: the
    text of the process list, reading a line, writing to the console, waiting
    for a child, and the dispatcher. *)

From S2P Require Import Prelude Lib Process ReadyQueue Sched Lifecycle SchedIface Semaphore Memory Pipe PipeProps Keyboard Wakes Kernel KernelInv KernelEnd KernelCreate KernelStep KernelProps FreeList Font Video VideoProps Format Devices Syscalls.
Local Open Scope Z_scope.

Section Props.
Context `{Linkage} `{VBE} `{Hardware} {M : Type} `{MemManager M} `{Hlaws : !MemManagerLaws M}.
Implicit Types s : Sys M.

Lemma set_kernel_same s : set_kernel (s_kernel s) s = s.
Proof. by destruct s. Qed.

Lemma set_mem_same s : set_mem (s_mem s) s = s.
Proof. by destruct s. Qed.

(** ** The process list *)

(** The line of one process. *)
Definition ps_text (p : PCB) : list Z :=
  cstr (name p) ++ PS_PID ++ print_int (pid p) ++ PS_PRI ++ print_int (priority p) ++ PS_FG ++ print_int (foreground p) ++
  PS_RSP ++ print_uint (rsp p) 16 ++ PS_BASE ++ print_uint (stack_base p) 16 ++
  PS_STATE ++ print_int (state_code (state p)) ++ [10].

Lemma ps_line_emit o p : ps_line o p = emit (ps_text p) o.
Proof.
  unfold ps_line, ps_text. rewrite !append_str_emit, !append_uint_emit, !append_int_emit.
  rewrite !emit_app. done.
Qed.

Lemma ps_loop_emit l o : ps_loop l o = emit (concat (ps_text <$> l)) o.
Proof.
  revert o. induction l as [|p l IH]; intros o; [done|]. cbn [ps_loop fmap list_fmap concat].
  destruct (Z.gtb_spec (o_rem o) 1) as [Hg|Hg]; [|by rewrite emit_full].
  by rewrite IH, ps_line_emit, emit_app.
Qed.

Lemma write_bytes_app m a l1 l2 : write_bytes m a (l1 ++ l2) = write_bytes (write_bytes m a l1) (a + Z.of_nat (length l1)) l2.
Proof.
  revert m a. induction l1 as [|c l IH]; intros m a; [simpl; by rewrite Z.add_0_r|]. cbn [app write_bytes length].
  rewrite IH. f_equal. lia.
Qed.

(** ** Reading a line *)

Definition ends_line (c : Z) : bool := (c =? 10) || (c =? EOF_CHAR).

(** The characters that a read of [n] takes from the buffer, what it leaves,
    and whether it is complete. *)
Fixpoint take_line (n : nat) (l : list Z) : list Z * list Z * bool :=
  match n, l with
  | O, _ => ([], l, true)
  | S _, [] => ([], [], false)
  | S n, c :: l =>
      if ends_line c then ([c], l, true)
      else let '(t, r, b) := take_line n l in (c :: t, r, b)
  end.

Lemma read_stdin_run n idx buffer count read s :
  kbd_wf (k_kbd (s_kernel s)) -> Forall (fun c => c <> 0) (typed (k_kbd (s_kernel s))) ->
  ctrue (foreground (k_proc (s_kernel s) idx)) = true -> count < 2 ^ 31 -> 0 <= read -> Z.of_nat n = count - read ->
  let '(t, r, b) := take_line n (typed (k_kbd (s_kernel s))) in
  exists kb, kbd_wf kb /\ typed kb = r /\
    stdin_loop (S n) idx buffer count read s =
      Some (let done := read + Z.of_nat (length t) in if b then Returns done else Sleeps (InStdin idx buffer count done),
            set_mem (write_bytes (s_mem s) (buffer + read) t) (on_kernel (set_kbd kb) s)).
Proof.
  revert read s. induction n as [|n IH]; intros read s Hw Hnz Hfg Hc Hr Hn.
  - cbn [take_line stdin_loop]. exists (k_kbd (s_kernel s)). split_and!; try done.
    rewrite u64_small by lia. replace (read <? count) with false by lia. simpl. rewrite Z.add_0_r. by destruct s as [[] ? ? ? ?].
  - remember (S n) as m eqn:Em. cbn [stdin_loop]. subst m. rewrite u64_small by lia. replace (read <? count) with true by lia.
    unfold keyboard_read_getchar. pose proof (buffer_pop_spec _ Hw) as Hp. destruct (buffer_pop _) as [c kb]. destruct Hp as [Hw' Hp].
    destruct (typed (k_kbd (s_kernel s))) as [|x l] eqn:Et; cbn [take_line].
    + destruct Hp as [-> ->]. exists (k_kbd (s_kernel s)). split_and!; try done. cbn [Z.eqb].
      change (k_proc (s_kernel (on_kernel (set_kbd (k_kbd (s_kernel s))) s)) idx) with (k_proc (s_kernel s) idx). rewrite Hfg. simpl.
      rewrite Z.add_0_r. by destruct s as [[] ? ? ? ?].
    + destruct Hp as [-> Ht]. apply list.Forall_cons in Hnz as [Hx Hnz]. replace (x =? 0) with false by lia. cbv zeta.
      fold (ends_line x). destruct (ends_line x).
      * exists kb. split_and!; try done.
      * set (s1 := set_mem _ _). specialize (IH (read + 1) s1). change (typed (k_kbd (s_kernel s1))) with (typed kb) in IH.
        rewrite Ht in IH. specialize (IH Hw' Hnz Hfg Hc ltac:(lia) ltac:(lia)).
        destruct (take_line n l) as [[t r] b]. destruct IH as (kb' & Hw2 & Ht2 & ->). exists kb'. split_and!; try done.
        cbn [length write_bytes]. rewrite Nat2Z.inj_succ. replace (read + 1 + Z.of_nat (length t)) with (read + Z.succ (Z.of_nat (length t))) by lia.
        f_equal. f_equal. unfold s1, set_mem, on_kernel, set_kernel, set_kbd. simpl. by rewrite Z.add_assoc.
Qed.

(** ** Waiting for a child *)

(** A child that was reaped cannot be found again. *)
Lemma wait_again p i k k' :
  kernel_inv k -> slot i -> live (k_sched k) i -> pid (k_proc k i) = p -> slot (current_idx (k_sched k)) -> i <> current_idx (k_sched k) ->
  running k -> kernel_inv k' -> drifts i k k' -> state (k_proc k' i) = PROCESS_DEAD ->
  scheduler_wait p k' = Some (-1, k').
Proof.
  intros Hk Hi Hl Hp Hc Hic Hrun Hk' Hd Hz. pose proof (sv_sched _ (ki_sem _ Hk)) as Hs. change (sched_inv (k_sched k)) in Hs.
  pose proof (dr_current _ _ _ Hd) as Ec.
  assert (forall j, slot j -> live (k_sched k') j -> pid (k_proc k' j) <> p) as Hno.
  { intros j Hj Hlj Hpj. destruct (decide (j = i)) as [->|Hne]; [by apply Hlj|].
    destruct (dr_others _ _ _ Hd j ltac:(slia) Hne) as (Ep & _ & _ & _ & Est).
    apply Hne. apply (si_unique _ Hs); [slia|slia| |done|unfold k_proc in *; congruence].
    intros E. apply Hlj. destruct Est as [Est|(? & Est & _)]; unfold k_proc in *; congruence. }
  assert (running k') as Hrun'.
  { unfold running in *. rewrite Ec. destruct (dr_others _ _ _ Hd (current_idx (k_sched k))) as (_ & _ & _ & _ & [E|(E & _)]); [slia|done|congruence|congruence]. }
  destruct (wait_run p k') as [[E _]|(j & Hj & Hpj & Hlj & _)]; try done.
  - by rewrite Ec.
  - intros j Hj Hlj Hpj. by destruct (Hno j Hj Hlj).
  - by destruct (Hno j Hj Hlj).
Qed.

Lemma wait_until_run p s :
  let k := s_kernel s in
  let c := current_idx (k_sched k) in
  kernel_inv k -> slot c -> running k ->
  (forall i, slot i -> live (k_sched k) i -> pid (k_proc k i) = p -> mm_freeable (k_mm k) (stack_base (k_proc k i))) ->
  (wait_until 2 p s = Some (Returns (u64 (-1)), s) /\
   (p <= 0 \/ forall i, 0 <= i < MAX_PROCESSES -> ~ (pid (k_proc k i) = p /\ live (k_sched k) i /\ child k i))) \/
  (exists i, slot i /\ pid (k_proc k i) = p /\ live (k_sched k) i /\ child k i /\
     ((state (k_proc k i) = PROCESS_ZOMBIE /\
       exists k', kernel_inv k' /\ drifts i k k' /\ state (k_proc k' i) = PROCESS_DEAD /\
         wait_until 2 p s =
           Some (Returns (u64 (if exit_status (k_proc k i) =? SCHEDULER_WAIT_BLOCKED then -1 else exit_status (k_proc k i))),
                 set_kernel k' s)) \/
      (state (k_proc k i) <> PROCESS_ZOMBIE /\
       exists k', kernel_inv k' /\ k_proc k' c = wait_fields p (k_proc k c) /\
         wait_until 2 p s = Some (Sleeps (InWait p), set_kernel k' s)))).
Proof.
  intros k c Hk Hc Hrun Hfr.
  destruct (wait_run p k Hk Hc Hrun Hfr) as [[E Hno]|(i & Hi & Hp & Hl & Hch & Hp0 & [(Hz & k' & E & Hk' & Hd & Hdead & _)|(Hz & E & Hk')])].
  - left. split; [|done]. cbn [wait_until]. fold k. rewrite E. simpl. by destruct s.
  - right. exists i. split_and!; try done. left. split; [done|]. exists k'. split_and!; try done.
    cbn [wait_until]. fold k. rewrite E. cbn [mbind option_bind]. change (s_kernel (set_kernel k' s)) with k'. unfold s_sched.
    change (s_kernel (set_kernel k' s)) with k'.
    destruct (Z.eqb_spec (exit_status (k_proc k i)) SCHEDULER_WAIT_BLOCKED) as [Est|_]; [|done].
    assert (i <> c) as Hic by (intros ->; unfold running in Hrun; fold c in Hrun; congruence).
    assert (state_is (k_sched k') (scheduler_current (k_sched k')) PROCESS_BLOCKED = false) as ->.
    { unfold scheduler_current. rewrite (dr_current _ _ _ Hd). fold c. replace (c <? 0) with false by slia.
      unfold state_is, is_state. apply bool_decide_false. intros Eb.
      destruct (dr_others _ _ _ Hd c ltac:(slia) ltac:(done)) as (_ & _ & _ & _ & [Es|(Es & _)]);
        unfold running in Hrun; fold c in Hrun; unfold k_proc in *; congruence. }
    rewrite andb_false_r, (wait_again p i k k') by done. simpl. by destruct s.
  - right. exists i. split_and!; try done. right. split; [done|]. eexists. split; [exact Hk'|].
    set (k' := on_sched _ _) in *.
    assert (k_proc k' c = wait_fields p (k_proc k c)) as Ec.
    { unfold k_proc. change (k_sched k') with (set_need_resched 1 (upd_proc c (wait_fields p) (k_sched k))).
      transitivity (proc (upd_proc c (wait_fields p) (k_sched k)) c); [done|].
      apply proc_upd_eq; [|slia]. destruct (si_rep (k_sched k) (sv_sched _ (ki_sem _ Hk))) as [Q HQ]. apply (rr_sized _ _ HQ). }
    split; [done|]. cbn [wait_until]. fold k. rewrite E. cbn [mbind option_bind]. change (s_kernel (set_kernel k' s)) with k'. unfold s_sched.
    change (s_kernel (set_kernel k' s)) with k'. change (SCHEDULER_WAIT_BLOCKED =? SCHEDULER_WAIT_BLOCKED) with true. cbv iota zeta.
    assert (scheduler_current (k_sched k') = c) as Ecur.
    { unfold scheduler_current. change (current_idx (k_sched k')) with c. by replace (c <? 0) with false by slia. }
    rewrite Ecur. replace (c >=? 0) with true by slia.
    assert (state_is (k_sched k') c PROCESS_BLOCKED = true) as ->; [|done].
    unfold state_is, is_state. apply bool_decide_true. fold (k_proc k' c). rewrite Ec. done.
Qed.

(** ** Writing to the console *)

Lemma foldl_fmap_comp {A B C} (f : C -> B -> C) (g : A -> B) l v : foldl f v (g <$> l) = foldl (fun v i => f v (g i)) v l.
Proof. revert v. induction l as [|a l IH]; intros v; [done|]. simpl. apply IH. Qed.

End Props.

(** * Claims *)

(** C34: The process list.  [syscall_ps] writes the lines of the processes in
    use, cut off to fit, and a terminator into the caller's buffer of
    [max_len] bytes, nothing outside it, and returns the length of the text;
    with no room for a terminator it writes nothing. *)
Theorem ps_spec `{Linkage} `{VBE} `{Hardware} `{MemManager M} (buf max_len : Z) (s : Sys M) :
  let n := i32 max_len in
  let text := concat (ps_text <$> scheduler_list MAX_PROCESSES (s_sched s)) in
  let t := take (Z.to_nat (n - 1)) text in
  syscall_ps buf max_len s =
    if n <=? 0 then Some (Returns 0, s)
    else Some (Returns (Z.of_nat (length t)), set_mem (write_bytes (s_mem s) buf (t ++ [0])) s).
Proof.
  intros n text t. unfold syscall_ps. fold n. rewrite ps_loop_emit. fold text. cbv zeta. pose proof (i32_range max_len) as Hn. fold n in Hn.
  destruct (Z.leb_spec n 0) as [Hle|Hgt].
  - rewrite emit_full by (simpl; lia). simpl. replace (n >? 0) with false by lia. by rewrite set_mem_same.
  - rewrite emit_spec by (simpl; lia). cbn [o_rem o_mem o_out o_written]. fold t.
    assert (Z.of_nat (length t) <= n - 1) as Ht by (unfold t; rewrite length_take; lia).
    replace (n - Z.of_nat (length t) >? 0) with true by lia. rewrite write_bytes_app, Z.add_0_l, u64_small by lia. done.
Qed.

(** Numbers in the process list read back: the digits that [append_int]
    and [append_uint] print stand for the number, in base 10 and 16. *)
Theorem print_parse_roundtrip (v u : Z) :
  - 2 ^ 31 < v < 2 ^ 31 -> 0 <= u < 2 ^ 64 ->
  forall o, exists t x, append_int o v = emit t o /\ parse_int t = v /\ append_uint o u 16 = emit x o /\ parse 16 x = u.
Proof.
  intros Hv Hu o. exists (print_int v), (print_uint u 16).
  split_and!; [apply append_int_emit|by apply print_int_parse|apply append_uint_emit|by apply print_uint_parse].
Qed.

(** Reading a line.  [syscall_read] on the keyboard by the foreground
    process takes from the buffer the characters up to the end of the line,
    the end of input or the count, stores exactly them, leaves the rest, and
    returns their number; when they run out first it keeps them and sleeps at
    the point where it goes on. *)
Theorem read_line_spec `{Linkage} `{VBE} `{Hardware} `{MemManager M} (fd buffer count : Z) (s : Sys M) :
  let k := s_kernel s in
  let c := current_idx (k_sched k) in
  0 <= c -> buffer <> 0 -> 0 < count < 2 ^ 31 -> 0 <= fd < MAX_FDS ->
  fd_type ((fds (k_proc k c)).[fd]) = FD_STDIN -> ctrue (foreground (k_proc k c)) = true ->
  kbd_wf (k_kbd k) -> Forall (fun x => x <> 0) (typed (k_kbd k)) ->
  let '(t, rest, complete) := take_line (Z.to_nat count) (typed (k_kbd k)) in
  exists kb, kbd_wf kb /\ typed kb = rest /\
    syscall_read fd buffer count s =
      Some (if (complete : bool) then Returns (Z.of_nat (length t)) else Sleeps (InStdin c buffer count (Z.of_nat (length t))),
            set_mem (write_bytes (s_mem s) buffer t) (on_kernel (set_kbd kb) s)).
Proof.
  intros k c Hc Hb Hn Hfd Ht Hfg Hw Hnz.
  pose proof (read_stdin_run (Z.to_nat count) c buffer count 0 s Hw Hnz Hfg ltac:(lia) ltac:(lia) ltac:(lia)) as Hrun.
  fold k in Hrun. destruct (take_line _ _) as [[t rest] complete]. destruct Hrun as (kb & Hw' & Ht' & E). exists kb. split_and!; try done.
  unfold syscall_read. replace (_ || _ || _ || _) with false by (unfold MAX_FDS in *; lia). unfold s_sched, scheduler_current. fold k c.
  replace (c <? 0) with false by lia. replace (c <? 0) with false by lia. rewrite Ht, Hfg. unfold read_stdin.
  replace (Z.to_nat (count - 0)) with (Z.to_nat count) by lia. rewrite E, Z.add_0_r. done.
Qed.

(** Writing to the console.  [syscall_write] on a console descriptor
    draws the characters in order, returns the count, changes nothing but the
    screen, and writes nothing outside the framebuffer. *)
Theorem write_console_spec `{Linkage} `{VBE} `{Hardware} `{MemManager M} (fd buffer count : Z) (s : Sys M) :
  let k := s_kernel s in
  let c := current_idx (k_sched k) in
  0 <= c -> buffer <> 0 -> 0 < count -> 0 <= fd < MAX_FDS ->
  fd_type ((fds (k_proc k c)).[fd]) = FD_STDOUT -> mode_ok -> grid (s_video s) ->
  exists v, syscall_write fd buffer count s = Some (Returns count, set_video v s) /\
    v = foldl (fun v ch => video_putChar ch FOREGROUND_COLOR BACKGROUND_COLOR v) (s_video s) (chars_in (s_mem s) buffer count) /\
    grid v /\ forall a, outside a -> fb v a = fb (s_video s) a.
Proof.
  intros k c Hc Hb Hn Hfd Ht Hm Hg. eexists. split; [|split; [reflexivity|]].
  - unfold syscall_write. replace (_ || _ || _ || _) with false by (unfold MAX_FDS in *; lia). unfold s_sched, scheduler_current. fold k c.
    replace (c <? 0) with false by lia. replace (c <? 0) with false by lia. rewrite Ht. unfold on_video, for_loop, chars_in.
    by rewrite foldl_fmap_comp.
  - apply safe_foldl; [|done]. intros v ch Hv. by apply safe_putChar.
Qed.

(** C33: Waiting for a child, as a system call.  It returns -1 when the caller
    has no such child; it reaps a finished child and returns its status,
    except that the status -2, which the kernel also uses for "blocked", is
    reported as -1; it puts the caller to sleep while the child runs. *)
Theorem syscall_wait_spec `{Linkage} `{VBE} `{Hardware} `{MemManager M} `{!MemManagerLaws M} (p : Z) (s : Sys M) :
  let k := s_kernel s in
  let c := current_idx (k_sched k) in
  0 <= p < 2 ^ 31 -> kernel_inv k -> slot c -> running k ->
  (forall i, slot i -> live (k_sched k) i -> pid (k_proc k i) = p -> mm_freeable (k_mm k) (stack_base (k_proc k i))) ->
  (syscall_wait p s = Some (Returns (u64 (-1)), s) /\
   (p <= 0 \/ forall i, 0 <= i < MAX_PROCESSES -> ~ (pid (k_proc k i) = p /\ live (k_sched k) i /\ child k i))) \/
  (exists i, slot i /\ pid (k_proc k i) = p /\ live (k_sched k) i /\ child k i /\
     ((state (k_proc k i) = PROCESS_ZOMBIE /\
       exists k', kernel_inv k' /\ drifts i k k' /\ state (k_proc k' i) = PROCESS_DEAD /\
         syscall_wait p s =
           Some (Returns (u64 (if exit_status (k_proc k i) =? -2 then -1 else exit_status (k_proc k i))), set_kernel k' s)) \/
      (state (k_proc k i) <> PROCESS_ZOMBIE /\
       exists k', kernel_inv k' /\ k_proc k' c = wait_fields p (k_proc k c) /\
         syscall_wait p s = Some (Sleeps (InWait p), set_kernel k' s)))).
Proof.
  intros k c Hp. unfold syscall_wait. rewrite i32_small by lia. apply wait_until_run.
Qed.

(** ** Witnesses *)

#[local] Existing Instances demo_linkage vbe_1024x768 FreeList.FreeList_manager FreeList.FreeList_laws.

#[local] Instance no_hardware : Hardware := { _readTime := fun _ => 0; inb := fun _ => 0 }.

(** The shell runs; the user has typed ["hi"], a new line and ["x"]. *)
Definition typed_hi : Kbd := fold_left (fun kb c => (buffer_push c kb).2) [104; 105; 10; 120] kbd_boot.

Definition s_run : Sys FreeList.MM := mkSys (set_kbd typed_hi k_run) (blank 1 0 0) (fun _ => 97) [] [].

Lemma typed_hi_wf : kbd_wf typed_hi /\ typed typed_hi = [104; 105; 10; 120].
Proof. split; [split; vm_compute; done|by vm_compute]. Qed.

Lemma print_parse_roundtrip_witness :
  exists t x, append_int (mkOut (fun _ => 0) 0 9 0) (-5) = emit t (mkOut (fun _ => 0) 0 9 0) /\ parse_int t = -5 /\
    append_uint (mkOut (fun _ => 0) 0 9 0) 255 16 = emit x (mkOut (fun _ => 0) 0 9 0) /\ parse 16 x = 255.
Proof. exact (print_parse_roundtrip (-5) 255 ltac:(lia) ltac:(lia) _). Defined.

Lemma s_run_facts :
  let k := s_kernel s_run in
  let c := current_idx (k_sched k) in
  c = 1 /\ fd_type ((fds (k_proc k c)).[0]) = FD_STDIN /\ fd_type ((fds (k_proc k c)).[1]) = FD_STDOUT /\
  ctrue (foreground (k_proc k c)) = true.
Proof. vm_compute. repeat split. Qed.

Lemma s_run_line : take_line (Z.to_nat 100) (typed (k_kbd (s_kernel s_run))) = ([104; 105; 10], [120], true).
Proof. vm_compute. reflexivity. Qed.

Lemma read_line_spec_witness :
  exists kb, kbd_wf kb /\ typed kb = [120] /\
    syscall_read 0 4000 100 s_run =
      Some (Returns (Z.of_nat (length [104; 105; 10])), set_mem (write_bytes (s_mem s_run) 4000 [104; 105; 10]) (on_kernel (set_kbd kb) s_run)).
Proof.
  destruct typed_hi_wf as [Hw Ht]. destruct s_run_facts as (Hc & Hin & _ & Hfg).
  assert (0 <= current_idx (k_sched (s_kernel s_run))) as Hc0 by (rewrite Hc; lia).
  assert (Forall (fun x => x <> 0) (typed (k_kbd (s_kernel s_run)))) as Hnz.
  { change (k_kbd (s_kernel s_run)) with typed_hi. rewrite Ht. repeat constructor; lia. }
  assert (0 <= 0 < MAX_FDS) as Hfd by (unfold MAX_FDS; lia).
  pose proof (read_line_spec 0 4000 100 s_run Hc0 ltac:(lia) ltac:(lia) Hfd Hin Hfg Hw Hnz) as Hr.
  rewrite s_run_line in Hr. exact Hr.
Defined.

Lemma write_console_spec_witness :
  grid (blank 1 0 0) /\ exists v, syscall_write 1 4000 3 s_run = Some (Returns 3, set_video v s_run) /\ grid v.
Proof.
  split; [exact blank_grid|].
  destruct s_run_facts as (Hc & _ & Hout & _).
  assert (0 <= current_idx (k_sched (s_kernel s_run))) as Hc0 by (rewrite Hc; lia).
  assert (0 <= 1 < MAX_FDS) as Hfd by (unfold MAX_FDS; lia).
  destruct (write_console_spec 1 4000 3 s_run Hc0 ltac:(lia) ltac:(lia) Hfd Hout mode_1024x768 blank_grid) as (v & E & _ & Hg & _).
  exists v. split; [exact E|exact Hg].
Defined.

(** The shell waits for a child that has not finished. *)
Definition s_child : Sys FreeList.MM := mkSys k_child (blank 1 0 0) (fun _ => 97) [] [].

Lemma syscall_wait_spec_witness :
  kernel_inv (s_kernel s_child) /\ exists k', kernel_inv k' /\ syscall_wait 2 s_child = Some (Sleeps (InWait 2), set_kernel k' s_child).
Proof.
  split; [exact k_child_inv|].
  destruct (syscall_wait_spec 2 s_child) as [[_ Hno]|(i & Hi & Hp & Hl & _ & [(Hz & _)|(_ & k' & Hk' & _ & E)])].
  - lia.
  - exact k_child_inv.
  - vm_compute. split; reflexivity.
  - vm_compute. reflexivity.
  - intros i Hi Hl Hp. apply (demo_stacks_freeable k_child); [vm_compute; reflexivity|exact Hi|exact Hl|].
    change (pid (k_proc k_child i) = 2) in Hp. rewrite Hp. lia.
  - exfalso. destruct Hno as [?|Hno]; [lia|]. apply (Hno 2); [slia|]. split_and!; [by vm_compute|by vm_compute|by vm_compute].
  - exfalso. assert (i = 2) as ->.
    { pose proof (sv_sched _ (ki_sem _ k_child_inv) : sched_inv (k_sched k_child)) as Hs.
      apply (si_unique _ Hs); [slia|slia|exact Hl|by vm_compute|].
      change (pid (proc (k_sched k_child) i) = 2) in Hp. rewrite Hp. by vm_compute. }
    vm_compute in Hz. discriminate Hz.
  - exists k'. split; [exact Hk'|exact E].
Defined.
