(* ===== verification/SyscallType.v ===== *)
(** * The results of the system calls

    Every handler leaves a value of its declared type [uint64_t] in [rax]. *)

From S2P Require Import Prelude Lib Process ReadyQueue Sched Lifecycle SchedIface Semaphore Memory Pipe PipeProps Keyboard Wakes Kernel KernelInv KernelEnd KernelCreate KernelStep KernelProps FreeList Font Video VideoProps Format Devices Syscalls SyscallProps.
Local Open Scope Z_scope.

Definition is_u64 (v : Z) : Prop := 0 <= v < 2 ^ 64.

Create HintDb typed.

Section Types.
Context `{Linkage} `{VBE} `{Hardware} {M : Type} `{MemManager M} `{Hlaws : !MemManagerLaws M}.
Implicit Types s : Sys M.

(** A result that, if the handler returns, has the type of the register. *)
Definition typed_result (r : option (outcome * Sys M)) : Prop :=
  forall v s', r = Some (Returns v, s') -> is_u64 v.

Lemma typed_bind {A} (x : option A) f : (forall a, typed_result (f a)) -> typed_result (x ≫= f).
Proof. intros Hf v s' E. destruct x as [a|]; [|done]. by eapply Hf. Qed.

Lemma typed_ret v s : is_u64 v -> typed_result (Some (Returns v, s)).
Proof. intros Hv v' s' [= <- <-]. done. Qed.

Lemma typed_u64 z s : typed_result (Some (Returns (u64 z), s)).
Proof. apply typed_ret, u64_range. Qed.

Lemma typed_sleeps p s : typed_result (Some (Sleeps p, s)).
Proof. done. Qed.

Lemma typed_none : typed_result None.
Proof. done. Qed.

End Types.

#[export] Hint Resolve typed_u64 typed_sleeps typed_none : typed.

(** Case analysis on a handler down to the values it returns. *)
Ltac typed_tac :=
  repeat first
    [ progress eauto with typed
    | simple apply @typed_bind; intros
    | simple apply @typed_ret; unfold is_u64; lia
    | case_match; subst ].

Section Handlers.
Context `{Linkage} `{VBE} `{Hardware} {M : Type} `{MemManager M} `{Hlaws : !MemManagerLaws M}.
Implicit Types s : Sys M.


Lemma typed_stdin fuel idx buffer count read s :
  0 <= count < 2 ^ 31 -> 0 <= read <= count -> typed_result (stdin_loop fuel idx buffer count read s).
Proof.
  intros Hc. revert read s. induction fuel as [|fuel IH]; intros read s Hr; cbn [stdin_loop]; [done|].
  rewrite u64_small by lia. destruct (Z.ltb_spec read count); [|apply typed_ret; unfold is_u64; lia].
  destruct (keyboard_read_getchar _) as [c kb]. repeat case_match; try (apply typed_ret; unfold is_u64; lia); [done|].
  apply IH. lia.
Qed.

Lemma typed_wait fuel pid s : typed_result (wait_until fuel pid s).
Proof. revert s. induction fuel as [|fuel IH]; intros s; cbn [wait_until]; typed_tac. Qed.

Lemma typed_read_pipe id buffer count i s : typed_result (read_pipe id buffer count i s).
Proof. unfold read_pipe. typed_tac. Qed.

Lemma typed_write_pipe id buffer count i s : typed_result (write_pipe id buffer count i s).
Proof. unfold write_pipe. typed_tac. Qed.

#[local] Hint Resolve typed_wait typed_read_pipe typed_write_pipe : typed.

Lemma getTime_type reg : is_u64 (getTime reg).
Proof.
  assert (Hu : forall z, is_u64 (u8 z)) by (intros z; unfold is_u64, u8; pose proof (Z.mod_pos_bound z (2 ^ 8)); lia).
  unfold getTime. case_match; [unfold is_u64; lia|apply Hu].
Qed.

Lemma typed_read fd buffer count s : - 2 ^ 31 <= count < 2 ^ 31 -> typed_result (syscall_read fd buffer count s).
Proof.
  intros Hc. unfold syscall_read. typed_tac. apply typed_stdin; lia.
Qed.

Lemma typed_write fd buffer count s : - 2 ^ 31 <= count < 2 ^ 31 -> typed_result (syscall_write fd buffer count s).
Proof. intros Hc. unfold syscall_write. typed_tac. Qed.

(** The manager returns an address of its heap. *)
Lemma typed_alloc n s :
  mm_inv (k_mm (s_kernel s)) -> 0 <= fst (mm_heap (k_mm (s_kernel s))) ->
  fst (mm_heap (k_mm (s_kernel s))) + snd (mm_heap (k_mm (s_kernel s))) <= 2 ^ 64 -> 0 < n <= 2 ^ 32 ->
  typed_result (syscall_mem_alloc n s).
Proof.
  intros Hi Hlow Hhigh Hn v s' E. unfold syscall_mem_alloc in E.
  destruct (mm_alloc_spec _ n Hi Hn) as (p & m' & Ea & _ & _ & Hp). rewrite Ea in E. cbn in E. simplify_eq.
  unfold is_u64. destruct Hp as [[-> _]|(k & Hk & Hp & _ & Hlo & Hhi & _)]; lia.
Qed.

Lemma geti_Forall (l : list Z) i (P : Z -> Prop) : Forall P l -> P inhabitant -> P (l.[i]).
Proof.
  intros Hl H0'. unfold geti. destruct (0 <=? i); [|done]. destruct (l !! Z.to_nat i) as [x|] eqn:E.
  - rewrite (list_lookup_total_correct _ _ _ E). rewrite Forall_lookup in Hl. eauto.
  - by rewrite list_lookup_total_alt, E.
Qed.
End Handlers.

#[export] Hint Resolve typed_wait typed_read_pipe typed_write_pipe : typed.

(** A handler of the table. *)
Ltac handler_tac :=
  first
    [ by apply typed_read
    | by apply typed_write
    | by apply typed_ret, getTime_type
    | by apply typed_wait
    | by apply typed_alloc; auto
    | by apply typed_ret
    | apply typed_ret; unfold is_key_pressed; apply (geti_Forall _ _ is_u64); [done|by vm_compute]
    | unfold syscall_sleep, syscall_beep, beep_until, sleep_until, syscall_setFontScale, syscall_get_screen_dimensions,
        syscall_mem_free, syscall_mem_info, syscall_create_process, syscall_kill, syscall_nice, syscall_ps, syscall_exit,
        syscall_sem_open, syscall_sem_wait, syscall_sem_post, syscall_sem_close, syscall_pipe_open, syscall_pipe_close,
        syscall_pipe_open_capacity, syscall_pipe_set_fd, syscall_shutdown; by typed_tac ].


#[local] Existing Instances demo_linkage vbe_1024x768 FreeList.FreeList_manager FreeList.FreeList_laws no_hardware.

Lemma s_run_mm k kb v m l p : k_mm (s_kernel (mkSys (set_kbd kb k : Kernel FreeList.MM) v m l p)) = k_mm k.
Proof. done. Qed.

