(* ===== verification/UserLib.v ===== *)
(** * The user library

    [Userland/SampleCodeModule/lib.c]: strings, numbers, formatted output and
    input.  A C string is the list of its characters up to its terminator; an
    array is a list of its elements.  [None] is a run that leaves an array,
    reads past the end of a format or takes an argument of the wrong type. *)

From S2P Require Import Prelude Lib.
Local Open Scope Z_scope.

(** ** Strings *)

Definition strlen (s : list Z) : Z := Z.of_nat (length (cstr s)).

(** A store into an array. *)
Definition store_at (i c : Z) (a : list Z) : option (list Z) :=
  if (0 <=? i) && (i <? Z.of_nat (length a)) then Some (seti i c a) else None.

(** [while (i < n - 1 && src[i] != '\0') dest[i] = src[i]; dest[i] = '\0';] *)
Fixpoint strncpy_loop (i n : Z) (dest src : list Z) : option (list Z) :=
  match src with
  | [] => store_at i 0 dest
  | c :: src =>
      if (i <? u64 (n - 1)) && negb (c =? 0) then
        dest ← store_at i c dest; strncpy_loop (i + 1) n dest src
      else store_at i 0 dest
  end.

Definition strncpy (dest src : list Z) (n : Z) : option (list Z) := strncpy_loop 0 n dest src.

Fixpoint toLower (str : list Z) : list Z :=
  match str with
  | [] => []
  | c :: l => if c =? 0 then str else (if (65 <=? c) && (c <=? 90) then c + 32 else c) :: toLower l
  end.

(** ** Numbers *)

Definition is_digit (c : Z) : bool := (48 <=? c) && (c <=? 57).

Fixpoint skip_blanks (s : list Z) : list Z :=
  match s with
  | c :: l => if (c =? 32) || (c =? 9) || (c =? 10) then skip_blanks l else s
  | [] => []
  end.

(** [while (isdigit(str[i])) res = res * 10 + (str[i] - '0');] *)
Fixpoint atoi_digits (res : Z) (s : list Z) : Z :=
  match s with
  | c :: s => if is_digit c then atoi_digits (i32 (i32 (res * 10) + (c - 48))) s else res
  | [] => res
  end.

Definition atoi (str : list Z) : Z :=
  let str := skip_blanks str in
  match str with
  | c :: l =>
      if c =? 45 then i32 (-1 * atoi_digits 0 l)
      else if c =? 43 then atoi_digits 0 l
      else atoi_digits 0 str
  | [] => 0
  end.

(** ** Formatted output *)

(** A variable argument. *)
Inductive arg := AInt (n : Z) | AStr (s : list Z) | ALong (v : Z).

(** [while (n > 0) { buf[i++] = n % 10 + '0'; n /= 10; }]: the digits on the
    buffer of 12, the last one stored first. *)
Fixpoint dec_digits (fuel : nat) (n : Z) (buf : list Z) : list Z :=
  match fuel with
  | O => buf
  | S fuel => if n >? 0 then dec_digits fuel (n / 10) (n mod 10 + 48 :: buf) else buf
  end.

(** What [%d] prints; negating the least [int] gives it back. *)
Definition format_int (n : Z) : list Z :=
  if n =? 0 then [48]
  else if n <? 0 then 45 :: dec_digits 12 (i32 (- n)) []
  else dec_digits 12 n [].

Definition hex_digit (d : Z) : Z := if d <? 10 then 48 + d else 65 + d - 10.

(** [for (j = 15; j >= 0; j--) { buf[j] = digit(v & 0xF); v >>= 4; }] *)
Fixpoint hex_digits (n : nat) (v : Z) (buf : list Z) : list Z :=
  match n with
  | O => buf
  | S n => hex_digits n (Z.shiftr v 4) (hex_digit (Z.land v 0xF) :: buf)
  end.

(** Leading zeros are skipped, but for the last digit. *)
Fixpoint skip_zeros (p : list Z) : list Z :=
  match p with
  | c :: ((_ :: _) as l) => if c =? 48 then skip_zeros l else p
  | _ => p
  end.

(** [printf]: the characters written and the count returned. *)
Fixpoint printf_loop (fmt : list Z) (args : list arg) (out : list Z) (count : Z) : option (list Z * Z) :=
  match fmt with
  | [] => Some (out, count)
  | c :: fmt =>
      if c =? 37 then
        match fmt with
        | [] => None
        | d :: fmt =>
            let unknown := printf_loop fmt args (out ++ [37; d]) (count + 2) in
            if d =? 115 then
              match args with
              | AStr s :: args => printf_loop fmt args (out ++ cstr s) (count + strlen s)
              | _ => None
              end
            else if d =? 100 then
              match args with
              | AInt n :: args => printf_loop fmt args (out ++ format_int n) (count + Z.of_nat (length (format_int n)))
              | _ => None
              end
            else if d =? 99 then
              match args with
              | AInt c :: args => printf_loop fmt args (out ++ [i8 c]) (count + 1)
              | _ => None
              end
            else if d =? 37 then printf_loop fmt args (out ++ [37]) (count + 1)
            else if d =? 108 then
              match fmt with
              | e :: g :: fmt =>
                  if (e =? 108) && (g =? 120) then
                    match args with
                    | ALong v :: args =>
                        let p := skip_zeros (hex_digits 16 v []) in
                        printf_loop fmt args (out ++ p) (count + Z.of_nat (length p))
                    | _ => None
                    end
                  else unknown
              | _ => unknown
              end
            else unknown
        end
      else printf_loop fmt args (out ++ [c]) (count + 1)
  end.

Definition printf (fmt : list Z) (args : list arg) : option (list Z * Z) := printf_loop (cstr fmt) args [] 0.

(** [str[str_index++] = c] for each character of a list. *)
Fixpoint append_chars (l : list Z) (str : list Z) (str_index : Z) : option (list Z * Z) :=
  match l with
  | [] => Some (str, str_index)
  | c :: l => str ← store_at str_index c str; append_chars l str (str_index + 1)
  end.

(** [sprintf] into the array [str]. *)
Fixpoint sprintf_loop (fmt : list Z) (args : list arg) (str : list Z) (str_index count : Z) : option (list Z * Z) :=
  match fmt with
  | [] => str ← store_at str_index 0 str; Some (str, count)
  | c :: fmt =>
      if c =? 37 then
        match fmt with
        | [] => None
        | d :: fmt =>
            if d =? 115 then
              match args with
              | AStr s :: args =>
                  '(str, i) ← append_chars (cstr s) str str_index; sprintf_loop fmt args str i (count + strlen s)
              | _ => None
              end
            else if d =? 100 then
              match args with
              | AInt n :: args =>
                  '(str, i) ← append_chars (format_int n) str str_index;
                  sprintf_loop fmt args str i (count + Z.of_nat (length (format_int n)))
              | _ => None
              end
            else if d =? 99 then
              match args with
              | AInt c :: args => '(str, i) ← append_chars [i8 c] str str_index; sprintf_loop fmt args str i (count + 1)
              | _ => None
              end
            else if d =? 37 then '(str, i) ← append_chars [37] str str_index; sprintf_loop fmt args str i (count + 1)
            else '(str, i) ← append_chars [37; d] str str_index; sprintf_loop fmt args str i (count + 2)
        end
      else '(str, i) ← append_chars [c] str str_index; sprintf_loop fmt args str i (count + 1)
  end.

Definition sprintf (str fmt : list Z) (args : list arg) : option (list Z * Z) := sprintf_loop (cstr fmt) args str 0 0.

(** [printHex64] prints ["0x"] and 16 digits. *)
Definition printHex64 (value : Z) : option (list Z * Z) :=
  printf [48; 120; 37; 115] [AStr (hex_digits 16 value [])].

(** The text of the time of day in a buffer of 9 or more. *)
Definition getTime (h m s : Z) : list Z :=
  let two v := [i8 (48 + v / 10); i8 (48 + v mod 10)] in
  two h ++ [58] ++ two m ++ [58] ++ two s ++ [0].

(** ** Input *)

Definition BUFFER_SIZE : Z := 256.

(** The characters come one by one from [sys_read]; [None] while the line is
    not complete. *)
Fixpoint fgets_loop (fuel : nat) (line input : list Z) : option (list Z * list Z) :=
  match fuel with
  | O => Some (line, input)
  | S fuel =>
      match input with
      | [] => None
      | c :: input => if c =? 10 then Some (line ++ [c], input) else fgets_loop fuel (line ++ [c]) input
      end
  end.

(** The line, or [None] for the null pointer, and what is left of the input. *)
Definition fgets (n : Z) (input : list Z) : option (option (list Z) * list Z) :=
  if n <=? 0 then Some (None, input)
  else '(line, rest) ← fgets_loop (Z.to_nat (n - 1)) [] input; Some (Some line, rest).

(** What a conversion of [scanf] stores. *)
Inductive stored := StoredStr (s : list Z) | StoredInt (n : Z) | StoredChar (c : Z).

Fixpoint skip_spaces (s : list Z) : list Z :=
  match s with c :: l => if (c =? 32) || (c =? 9) then skip_spaces l else s | [] => [] end.

(** The characters before the end of the line, and the rest. *)
Fixpoint until_eol (s : list Z) : list Z * list Z :=
  match s with
  | c :: l => if (c =? 0) || (c =? 10) then ([], s) else let '(t, r) := until_eol l in (c :: t, r)
  | [] => ([], [])
  end.

Fixpoint span_digits (s : list Z) : list Z * list Z :=
  match s with
  | c :: l => if is_digit c then let '(t, r) := span_digits l in (c :: t, r) else ([], s)
  | [] => ([], [])
  end.

Definition at_eol (s : list Z) : bool := match s with [] => true | c :: _ => (c =? 10) || (c =? 0) end.

(** What the conversions did, one entry for each argument taken: the value
    stored through it, or [None] when its conversion found nothing. *)
Notation conversions := (list (option stored)).

(** The [count] that [scanf] returns. *)
Definition scan_count (st : conversions) : Z := Z.of_nat (length (omap id st)).

(** [case 's'], and the set of everything but a new line. *)
Definition scan_string (input : list Z) (st : conversions) : list Z * conversions :=
  let '(t, rest) := until_eol input in
  (rest, st ++ [if Z.of_nat (length t) >? 0 then Some (StoredStr t) else None]).

(** [case 'd']: the text of the number is cut to the 31 characters of [temp]. *)
Definition scan_int (input : list Z) (st : conversions) : list Z * conversions :=
  let input := skip_spaces input in
  let '(sign, rest) :=
    match input with c :: l => if (c =? 45) || (c =? 43) then ([c], l) else ([], input) | [] => ([], []) end in
  match rest with
  | c :: _ =>
      if is_digit c then
        let '(t, rest) := span_digits rest in
        (skip_spaces rest, st ++ [Some (StoredInt (atoi (take 31 (sign ++ t))))])
      else (rest, st ++ [None])
  | [] => (rest, st ++ [None])
  end.

(** [case 'c'] *)
Definition scan_char (input : list Z) (st : conversions) : list Z * conversions :=
  match input with
  | c :: l => if c =? 0 then (input, st ++ [None]) else (l, st ++ [Some (StoredChar c)])
  | [] => (input, st ++ [None])
  end.

(** The loop of [scanf] over the format. *)
Fixpoint scanf_loop (fmt input : list Z) (st : conversions) : option conversions :=
  let next fmt '((input, st) : list Z * conversions) :=
    if at_eol input then Some st else scanf_loop fmt input st in
  match fmt with
  | [] => Some st
  | f :: fmt =>
      if (f =? 32) || (f =? 9) || (f =? 10) then scanf_loop fmt (skip_spaces input) st
      else if at_eol input then Some st
      else if f =? 37 then
        match fmt with
        | [] => None
        | d :: fmt' =>
            let conversion :=
              if d =? 115 then next fmt' (scan_string input st)
              else if d =? 100 then next fmt' (scan_int input st)
              else if d =? 99 then next fmt' (scan_char input st)
              else next fmt' (input, st) in
            match fmt' with
            | e :: g :: h :: k :: fmt =>
                if (d =? 91) && (e =? 94) && (g =? 92) && (h =? 110) && (k =? 93)
                then let '(input, st) := scan_string input st in scanf_loop fmt input st
                else conversion
            | _ => conversion
            end
        end
      else
        match input with
        | c :: l => if c =? f then next fmt (l, st) else Some st
        | [] => Some st
        end
  end.

(** [scanf] on the characters that [sys_read] delivers: what was stored, the
    count and what is left. *)
Definition scanf (fmt input : list Z) : option (conversions * Z * list Z) :=
  '(line, rest) ← fgets BUFFER_SIZE input;
  match line with
  | None => Some ([], 0, rest)
  | Some line => st ← scanf_loop (cstr fmt) line []; Some (st, scan_count st, rest)
  end.
