(* ===== verification/UserLibProps.v ===== *)
(** * Properties of the user library

    [sprintf] stores what [printf] writes, and only inside its array; numbers
    printed are read back; the copies are cut and terminated. *)

From S2P Require Import Prelude Lib UserLib.
Local Open Scope Z_scope.

(** ** Stores into an array *)

Lemma store_at_app (out : list Z) c x rest :
  store_at (Z.of_nat (length out)) c (out ++ x :: rest) = Some (out ++ c :: rest).
Proof.
  unfold store_at. rewrite length_app. cbn [length]. replace (_ && _) with true by lia. f_equal.
  by apply seti_middle.
Qed.

Lemma store_at_end (out : list Z) c : store_at (Z.of_nat (length out)) c out = None.
Proof. unfold store_at. by replace (_ && _) with false by lia. Qed.

(** The stores of a run of characters behind [out]. *)
Lemma append_chars_spec l out tl :
  append_chars l (out ++ tl) (Z.of_nat (length out)) =
  if (length l <=? length tl)%nat
  then Some (out ++ l ++ drop (length l) tl, Z.of_nat (length (out ++ l))) else None.
Proof.
  revert out tl. induction l as [|c l IH]; intros out tl; cbn [append_chars].
  - simpl. by rewrite app_nil_r.
  - destruct tl as [|x tl]; [rewrite app_nil_r, store_at_end; done|].
    rewrite store_at_app. cbn [mbind option_bind length Nat.leb].
    replace (Z.of_nat (length out) + 1) with (Z.of_nat (length (out ++ [c]))) by (rewrite length_app; simpl; lia).
    change (out ++ c :: tl) with (out ++ [c] ++ tl). rewrite app_assoc, IH. by rewrite <- !app_assoc.
Qed.

(** ** Formatted output *)

(** The conversion that [printf] has and [sprintf] has not. *)
Definition no_llx (fmt : list Z) : Prop := forall a b, fmt <> a ++ [37; 108; 108; 120] ++ b.

Lemma no_llx_tail c fmt : no_llx (c :: fmt) -> no_llx fmt.
Proof. intros H a b ->. by apply (H (c :: a) b). Qed.

(** What [printf] prints extends what it has printed, and the count is its
    length. *)
Lemma printf_loop_grows fmt args out r n :
  printf_loop fmt args out (Z.of_nat (length out)) = Some (r, n) ->
  out `prefix_of` r /\ n = Z.of_nat (length r).
Proof.
  remember (length fmt) as m eqn:Em. revert fmt Em args out. 
  induction m as [m IH] using lt_wf_ind; intros fmt Em args out E.
  assert (Hstep : forall l fmt' args', (length fmt' < m)%nat ->
    printf_loop fmt' args' (out ++ l) (Z.of_nat (length out) + Z.of_nat (length l)) = Some (r, n) ->
    out `prefix_of` r /\ n = Z.of_nat (length r)).
  { intros l fmt' args' Hl E'. rewrite <- Nat2Z.inj_add, <- length_app in E'.
    destruct (IH _ Hl fmt' eq_refl _ _ E') as [Hp ->]. split; [|done].
    etrans; [|exact Hp]. by apply prefix_app_r. }
  destruct fmt as [|c fmt]; cbn [printf_loop] in E; [by simplify_eq|]. cbn [length] in Em.
  case_if; [|by apply (Hstep [c] fmt args); [lia|]].
  destruct fmt as [|d fmt]; [done|]. cbn [length] in Em. unfold strlen in E.
  repeat (case_if || case_match); simplify_eq; cbn [length] in Hstep;
    eapply Hstep; try exact E; cbn [length]; lia.
Qed.

(** One append of [sprintf] against one of [printf]. *)
Lemma sprintf_step l fmt args out tl :
  (forall out tl, sprintf_loop fmt args (out ++ tl) (Z.of_nat (length out)) (Z.of_nat (length out)) =
    match printf_loop fmt args out (Z.of_nat (length out)) with
    | Some (r, n) => if n <? Z.of_nat (length (out ++ tl)) then Some (r ++ 0 :: drop (S (length r)) (out ++ tl), n) else None
    | None => None
    end) ->
  ('(str, i) ← append_chars l (out ++ tl) (Z.of_nat (length out));
   sprintf_loop fmt args str i (Z.of_nat (length out) + Z.of_nat (length l))) =
  match printf_loop fmt args (out ++ l) (Z.of_nat (length out) + Z.of_nat (length l)) with
  | Some (r, n) => if n <? Z.of_nat (length (out ++ tl)) then Some (r ++ 0 :: drop (S (length r)) (out ++ tl), n) else None
  | None => None
  end.
Proof.
  intros IH. rewrite append_chars_spec, <- Nat2Z.inj_add, <- length_app.
  destruct (printf_loop fmt args (out ++ l) _) as [[r n]|] eqn:E.
  - destruct (printf_loop_grows _ _ _ _ _ E) as [[u ->] ->].
    destruct (length l <=? length tl)%nat eqn:El; cbn [mbind option_bind].
    + rewrite app_assoc, IH, E. rewrite !length_app, length_drop.
      replace (Z.of_nat _ <? Z.of_nat (length out + length l + (length tl - length l))) with
        (Z.of_nat (length out + length l + length u) <? Z.of_nat (length out + length tl)) by lia.
      case_if; [|done]. do 4 f_equal.
      rewrite (drop_app_ge (out ++ l)), (drop_app_ge out) by (rewrite ?length_app; lia).
      rewrite drop_drop, length_app. f_equal. lia.
    + rewrite !length_app. by replace (_ <? _) with false by lia.
  - destruct (length l <=? length tl)%nat eqn:El; cbn [mbind option_bind]; [|done].
    by rewrite app_assoc, IH, E.
Qed.

Lemma sprintf_loop_printf fmt args out tl :
  no_llx fmt ->
  sprintf_loop fmt args (out ++ tl) (Z.of_nat (length out)) (Z.of_nat (length out)) =
  match printf_loop fmt args out (Z.of_nat (length out)) with
  | Some (r, n) => if n <? Z.of_nat (length (out ++ tl)) then Some (r ++ 0 :: drop (S (length r)) (out ++ tl), n) else None
  | None => None
  end.
Proof.
  remember (length fmt) as m eqn:Em. revert fmt Em args out tl.
  induction m as [m IH] using lt_wf_ind; intros fmt Em args out tl Hn.
  destruct fmt as [|c fmt]; cbn [sprintf_loop printf_loop].
  { destruct tl as [|x tl]; [rewrite app_nil_r, store_at_end; by replace (_ <? _) with false by lia|].
    rewrite store_at_app, length_app. cbn [mbind option_bind length]. replace (_ <? _) with true by lia.
    rewrite drop_app_ge by lia. by replace (S (length out) - length out)%nat with 1%nat by lia. }
  cbn [length] in Em. pose proof (no_llx_tail _ _ Hn) as Hn1.
  destruct (c =? 37) eqn:Ec; [|apply (sprintf_step [c]); intros; eapply IH; [|done|done]; lia].
  destruct fmt as [|d fmt]; [done|]. cbn [length] in Em. pose proof (no_llx_tail _ _ Hn1) as Hn2. unfold strlen.
  assert (IHf : forall args out tl,
    sprintf_loop fmt args (out ++ tl) (Z.of_nat (length out)) (Z.of_nat (length out)) =
    match printf_loop fmt args out (Z.of_nat (length out)) with
    | Some (r, n) => if n <? Z.of_nat (length (out ++ tl)) then Some (r ++ 0 :: drop (S (length r)) (out ++ tl), n) else None
    | None => None
    end) by (intros; eapply IH; [|done|done]; lia).
  destruct (d =? 115); [destruct args as [|[]]; try done; by apply sprintf_step|].
  destruct (d =? 100); [destruct args as [|[]]; try done; by apply sprintf_step|].
  destruct (d =? 99); [destruct args as [|[]]; try done; by apply (sprintf_step [_])|].
  destruct (d =? 37); [by apply (sprintf_step [_])|].
  destruct (d =? 108) eqn:Ed; [|by apply (sprintf_step [37; d])].
  destruct fmt as [|e [|g fmt]]; try by apply (sprintf_step [37; d]).
  destruct ((e =? 108) && (g =? 120)) eqn:Eg; [|by apply (sprintf_step [37; d])].
  exfalso. apply (Hn [] fmt). simpl. repeat f_equal; lia.
Qed.


Definition prompt_fmt : list Z := [80; 58; 37; 115; 32; 37; 100; 37; 37].

Lemma prompt_no_llx : no_llx (cstr prompt_fmt).
Proof. intros a b E. repeat (destruct a as [|? a]; simplify_eq/=). Qed.


(** ** Numbers *)

Lemma dec_digits_app fuel n buf : dec_digits fuel n buf = dec_digits fuel n [] ++ buf.
Proof.
  revert n buf. induction fuel as [|fuel IH]; intros n buf; cbn [dec_digits]; [done|].
  case_if; [|done]. rewrite IH, (IH _ [_]), <- app_assoc. done.
Qed.

Lemma dec_digits_digit fuel n : Forall (fun c => is_digit c = true) (dec_digits fuel n []).
Proof.
  revert n. induction fuel as [|fuel IH]; intros n; cbn [dec_digits]; [done|]. case_if; [|done].
  rewrite dec_digits_app. apply Forall_app. split; [done|]. constructor; [|done]. unfold is_digit.
  pose proof (Z.mod_pos_bound n 10). lia.
Qed.

Lemma dec_digits_length fuel n : (length (dec_digits fuel n []) <= fuel)%nat.
Proof.
  revert n. induction fuel as [|fuel IH]; intros n; cbn [dec_digits]; [done|]. case_if; [|simpl; lia].
  rewrite dec_digits_app, length_app. simpl. specialize (IH (n / 10)). lia.
Qed.

Lemma dec_digits_nonempty fuel n : 0 < n -> dec_digits (S fuel) n [] <> [].
Proof. intros. cbn [dec_digits]. replace (n >? 0) with true by lia. rewrite dec_digits_app. by destruct (dec_digits _ _ []). Qed.

Lemma atoi_digits_app a b res :
  Forall (fun c => is_digit c = true) a -> atoi_digits res (a ++ b) = atoi_digits (atoi_digits res a) b.
Proof.
  intros H. revert res. induction H as [|c a Hc _ IH]; intros res; simpl; [done|]. by rewrite Hc.
Qed.

Lemma atoi_digits_dec fuel n :
  0 <= n < 2 ^ 31 -> n < 10 ^ Z.of_nat fuel -> atoi_digits 0 (dec_digits fuel n []) = n.
Proof.
  revert n. induction fuel as [|fuel IH]; intros n Hn Hf; cbn [dec_digits]; [simpl in *; lia|].
  case_if; [|simpl; lia]. rewrite dec_digits_app, atoi_digits_app by apply dec_digits_digit.
  rewrite Nat2Z.inj_succ, Z.pow_succ_r in Hf by lia. pose proof (Z.div_mod n 10). pose proof (Z.mod_pos_bound n 10).
  rewrite IH by lia. cbn [atoi_digits]. replace (is_digit _) with true by (unfold is_digit; lia).
  rewrite (i32_small (n / 10 * 10)), i32_small; lia.
Qed.

Lemma dec_12 n : 0 <= n < 2 ^ 31 -> atoi_digits 0 (dec_digits 12 n []) = n.
Proof. intros. apply atoi_digits_dec; [done|]. change (10 ^ Z.of_nat 12) with 1000000000000. lia. Qed.

(** The text of an [int]: a sign and digits. *)
Lemma format_int_shape n :
  - 2 ^ 31 < n < 2 ^ 31 -> exists sign ds, format_int n = sign ++ ds /\
    (sign = [] \/ sign = [45]) /\ ds <> [] /\ Forall (fun c => is_digit c = true) ds /\ (length ds <= 12)%nat /\
    n = (if sign is [] then 1 else -1) * atoi_digits 0 ds /\ 0 <= atoi_digits 0 ds < 2 ^ 31.
Proof.
  intros Hn. unfold format_int. pose proof (dec_digits_digit 12). pose proof (dec_digits_length 12).
  case_if; [exists [], [48]; replace n with 0 by lia; split_and!; simpl; eauto; try lia; by repeat constructor|].
  case_if.
  - exists [45], (dec_digits 12 (i32 (- n)) []). rewrite i32_small by lia. rewrite dec_12 by lia.
    split_and!; eauto using dec_digits_nonempty; try lia. apply dec_digits_nonempty; lia.
  - exists [], (dec_digits 12 n []). rewrite dec_12 by lia. split_and!; eauto; try lia.
    apply dec_digits_nonempty; lia.
Qed.

Lemma digit_first ds : ds <> [] -> Forall (fun c => is_digit c = true) ds -> exists c l, ds = c :: l /\ 48 <= c <= 57.
Proof.
  intros H1 H2. destruct H2 as [|c l Hc _]; [done|]. exists c, l. split; [done|]. unfold is_digit in Hc. lia.
Qed.

Lemma atoi_sign sign ds :
  sign = [] \/ sign = [45] -> ds <> [] -> Forall (fun c => is_digit c = true) ds ->
  0 <= atoi_digits 0 ds < 2 ^ 31 ->
  atoi (sign ++ ds) = (if sign is [] then 1 else -1) * atoi_digits 0 ds.
Proof.
  intros Hs Hne Hds Hb. destruct (digit_first ds) as (c & l & -> & Hc); [done..|]. unfold atoi.
  destruct Hs as [-> | ->]; cbn [app skip_blanks]; repeat (case_if; [lia|]); [lia|].
  rewrite Z.eqb_refl. apply i32_small. lia.
Qed.

(** ** Input *)

(** [fgets] takes a line that fits, its new line included. *)
Lemma fgets_line n (line rest : list Z) :
  Forall (fun c => c <> 10) line -> Z.of_nat (length line) < n - 1 ->
  fgets n (line ++ 10 :: rest) = Some (Some (line ++ [10]), rest).
Proof.
  intros Hl Hn. unfold fgets. replace (n <=? 0) with false by lia.
  assert (forall fuel pre, (length line < fuel)%nat ->
    fgets_loop fuel pre (line ++ 10 :: rest) = Some (pre ++ line ++ [10], rest)) as ->; [|done|lia].
  clear Hn. induction Hl as [|c line Hc _ IH]; intros [|fuel] pre Hf; simpl in Hf; try lia; simpl; [done|].
  replace (c =? 10) with false by lia. rewrite IH by lia. by rewrite <- app_assoc.
Qed.

Lemma span_digits_spec ds c rest :
  Forall (fun c => is_digit c = true) ds -> is_digit c = false -> span_digits (ds ++ c :: rest) = (ds, c :: rest).
Proof. intros H Hc. induction H as [|x ds Hx _ IH]; simpl; [by rewrite Hc|]. by rewrite Hx, IH. Qed.

Lemma scan_int_spec sign ds st :
  sign = [] \/ sign = [45] -> ds <> [] -> Forall (fun c => is_digit c = true) ds -> (length ds <= 12)%nat ->
  scan_int (sign ++ ds ++ [10]) st = ([10], st ++ [Some (StoredInt (atoi (sign ++ ds)))]).
Proof.
  intros Hs Hne Hds Hlen. destruct (digit_first ds) as (c & l & E & Hc); [done..|]. unfold scan_int.
  assert (Esk : skip_spaces (sign ++ ds ++ [10]) = sign ++ ds ++ [10]).
  { destruct Hs as [-> | ->]; [|done]. rewrite E. simpl. by replace (_ || _) with false by lia. }
  rewrite Esk. pose proof (span_digits_spec ds 10 [] Hds eq_refl) as Hsp. subst ds.
  assert (Et : take 31 (sign ++ c :: l) = sign ++ c :: l)
    by (apply take_ge; rewrite length_app; destruct Hs as [-> | ->]; simpl in *; lia).
  destruct Hs as [-> | ->]; cbn [app] in *.
  - replace ((c =? 45) || (c =? 43)) with false by lia. replace (is_digit c) with true by (unfold is_digit; lia).
    cbv beta iota. rewrite Hsp. rewrite app_nil_l. by rewrite Et.
  - cbn -[span_digits take atoi is_digit]. replace (is_digit c) with true by (unfold is_digit; lia).
    rewrite Hsp. cbv beta iota. by rewrite (Et : take 31 (45 :: c :: l) = _).
Qed.

(** C36: Every [int] but the least one survives being printed and read:
    [atoi] of what [%d] prints is the number, and [scanf("%d")] on the line
    [printf("%d\n")] writes stores it, returns 1 and takes that line and no
    more of the input. *)
Theorem printf_scanf_roundtrip (n : Z) (rest : list Z) :
  - 2 ^ 31 < n < 2 ^ 31 ->
  atoi (format_int n) = n /\
  exists out, printf [37; 100; 10] [AInt n] = Some (out, Z.of_nat (length out)) /\
    scanf [37; 100] (out ++ rest) = Some ([Some (StoredInt n)], 1, rest).
Proof.
  intros Hn. destruct (format_int_shape n Hn) as (sign & ds & Ef & Hs & Hne & Hds & Hlen & En & Hb).
  assert (Ea : atoi (format_int n) = n) by (rewrite Ef, atoi_sign by done; done).
  split; [done|]. exists (format_int n ++ [10]). split.
  { unfold printf. cbn. rewrite length_app. simpl. do 2 f_equal. lia. }
  assert (Hlen' : Z.of_nat (length (format_int n)) < 256 - 1)
    by (rewrite Ef, length_app; destruct Hs as [-> | ->]; simpl; lia).
  assert (H10 : Forall (fun c => c <> 10) (format_int n)).
  { rewrite Ef. apply Forall_app. split; [destruct Hs as [-> | ->]; by repeat constructor|].
    eapply list.Forall_impl; [exact Hds|]. unfold is_digit. lia. }
  unfold scanf, BUFFER_SIZE. rewrite <- app_assoc. cbn [app]. rewrite fgets_line by done. cbn [mbind option_bind].
  assert (E : scanf_loop (cstr [37; 100]) (format_int n ++ [10]) [] = Some [Some (StoredInt n)]).
  { rewrite Ef, <- app_assoc. destruct (digit_first ds) as (c & l & E & Hc); [done..|].
    assert (Hat : at_eol (sign ++ ds ++ [10]) = false)
      by (rewrite E; destruct Hs as [-> | ->]; cbn; lia).
    cbn -[scan_int at_eol]. rewrite Hat, scan_int_spec by done. cbn. by rewrite <- Ef, Ea. }
  by rewrite E.
Qed.

Lemma printf_scanf_roundtrip_witness : atoi (format_int (-2147483647)) = -2147483647.
Proof. apply (printf_scanf_roundtrip (-2147483647) []). lia. Defined.

(** The least [int] is printed as a lone sign. *)
Lemma format_int_min : format_int (- 2 ^ 31) = [45].
Proof. by vm_compute. Qed.

(** ** Copies *)

Lemma strncpy_loop_spec n src pre tl :
  1 <= n < 2 ^ 64 -> Z.of_nat (length pre) < n -> n <= Z.of_nat (length (pre ++ tl)) ->
  let t := take (Z.to_nat (n - 1) - length pre) (cstr src) in
  strncpy_loop (Z.of_nat (length pre)) n (pre ++ tl) src = Some (pre ++ t ++ 0 :: drop (S (length t)) tl).
Proof.
  intros Hn. revert pre tl. induction src as [|c src IH]; intros pre tl Hp Hlen; cbn [strncpy_loop cstr];
    rewrite length_app in Hlen; destruct tl as [|x tl]; try (simpl in Hlen; lia).
  { rewrite take_nil. simpl. by rewrite store_at_app. }
  rewrite u64_small by lia.
  destruct (c =? 0) eqn:Ec; [rewrite andb_false_r, take_nil; simpl; by rewrite store_at_app|].
  rewrite andb_true_r. case_if.
  - rewrite store_at_app. cbn [mbind option_bind].
    replace (Z.of_nat (length pre) + 1) with (Z.of_nat (length (pre ++ [c]))) by (rewrite length_app; simpl; lia).
    change (pre ++ c :: tl) with (pre ++ [c] ++ tl). rewrite app_assoc, IH by (rewrite !length_app; simpl in *; lia).
    rewrite length_app. replace (Z.to_nat (n - 1) - length pre)%nat
      with (S (Z.to_nat (n - 1) - (length pre + length [c])))%nat by (simpl; lia).
    by rewrite <- !app_assoc.
  - replace (Z.to_nat (n - 1) - length pre)%nat with O by lia. simpl. by rewrite store_at_app.
Qed.

(** [strncpy] into an array of [n] bytes or more leaves the first [n - 1]
    characters of the source, or all of it when it is shorter, always with a
    terminator behind them and without touching what follows. *)
Theorem strncpy_spec (dest src : list Z) (n : Z) :
  1 <= n < 2 ^ 64 -> n <= Z.of_nat (length dest) ->
  let t := take (Z.to_nat (n - 1)) (cstr src) in
  strncpy dest src n = Some (t ++ 0 :: drop (S (length t)) dest).
Proof.
  intros Hn Hlen. unfold strncpy. pose proof (strncpy_loop_spec n src [] dest Hn) as H. simpl in H.
  rewrite Nat.sub_0_r in H. apply H; lia.
Qed.

Lemma strncpy_spec_witness :
  strncpy (replicate 5 7) [97; 98; 99; 100; 101; 0] 4 = Some [97; 98; 99; 0; 7].
Proof. rewrite (strncpy_spec (replicate 5 7) [97; 98; 99; 100; 101; 0] 4); [done|lia|simpl; lia]. Defined.

(** With [n = 0] the bound [n - 1] wraps, and the whole source is copied. *)
Lemma strncpy_zero : strncpy [7; 7] [97; 98; 99; 0] 0 = None.
Proof. by vm_compute. Qed.
