(* ===== verification/UserProg.v ===== *)
(** * User programs

    What a program of [Userland/SampleCodeModule] does between its system
    calls is a function of the replies it gets, so that a program is a tree of
    calls.  A kernel is any function from the history of a program and its
    next call to a reply; running a program against one gives the trace of its
    calls.  Theorems about the programs quantify over every kernel. *)

From Stdlib Require Import Ascii String.
From S2P Require Import Prelude Lib UserLib.
Local Open Scope Z_scope.

(** The characters of a string literal. *)
Fixpoint lit (s : string) : list Z :=
  match s with
  | EmptyString => []
  | String c s => Z.of_N (N_of_ascii c) :: lit s
  end.

Arguments lit !s / : simpl nomatch.

(** ** System calls *)

(** The functions that the programs start as processes. *)
Inductive entry := OwnedEntry | LaunchEntry | MVarWriter | MVarReader | ZeroToMax | EndlessLoop | ProcessInc.

(** The argument [char **argv] of a new process: a heap block, the context of
    one side of a pipeline, or strings of the caller. *)
Record TCommandLaunch := mkLaunch { l_argc : Z; l_argv : list (list Z); stdin_pipe : Z; stdout_pipe : Z }.

Inductive argval := ABlock (p : Z) | AContext (ctx : TCommandLaunch) | AStrings (l : list (list Z)).

Inductive call :=
  | SysRead (fd n : Z)
  | SysWrite (fd : Z) (bytes : list Z)
  | SysCreate (f : entry) (name : list Z) (priority fg argc : Z) (argv : argval)
  | SysKill (pid : Z)
  | SysGetpid
  | SysYield
  | SysBlock (pid : Z)
  | SysUnblock (pid : Z)
  | SysNice (pid priority : Z)
  | SysPs (n : Z)
  | SysPipeOpen
  | SysPipeOpenCapacity (capacity : Z)
  | SysPipeClose (id is_write : Z)
  | SysPipeSetFd (pid fd id is_write : Z)
  | SysWait (pid : Z)
  | SysExit (status : Z)
  | SysMemAlloc (size : Z)
  | SysMemFree (p : Z)
  | SysMemInfo
  | SysMemKind
  | SysSemOpen (name : list Z) (value : Z)
  | SysSemWait (id : Z)
  | SysSemPost (id : Z)
  | SysSemClose (id : Z)
  | SysClearScreen
  | SysSleep (ms : Z)
  | SysBeep (frequency duration : Z)
  | SysGetTime (reg : Z)
  | SysSetFontScale (scale : Z)
  | SysRegs
  | SysPutChar (c fg bg : Z)
  | SysPutCharXY (c x y fg bg : Z)
  | SysPutPixel (x y color : Z)
  | SysClearScreenColor (color : Z)
  | SysScreenDims
  | SysIsKeyPressed (scancode : Z)
  | SysShutdown.

(** The value in [rax], and what the call stored in the caller's buffers. *)
Definition reply : Type := Z * list Z.

(** ** Programs *)

(** [Wrong] is a run with undefined behaviour; [Pause] is a loop that has used
    the iterations it was given. *)
Inductive prog (A : Type) :=
  | Ret (a : A)
  | Sys (c : call) (k : reply -> prog A)
  | Wrong
  | Pause.
Arguments Ret {A}.
Arguments Sys {A}.
Arguments Wrong {A}.
Arguments Pause {A}.

Fixpoint prog_bind {A B} (f : A -> prog B) (p : prog A) : prog B :=
  match p with
  | Ret a => f a
  | Sys c k => Sys c (fun r => prog_bind f (k r))
  | Wrong => Wrong
  | Pause => Pause
  end.

#[export] Instance prog_mret : MRet prog := @Ret.
#[export] Instance prog_mbind : MBind prog := @prog_bind.

(** A system call whose result is the [int] in [eax]. *)
Definition sys (c : call) : prog Z := Sys c (fun r => Ret (i32 r.1)).

(** A system call whose result is a pointer or another 64-bit value. *)
Definition sys64 (c : call) : prog Z := Sys c (fun r => Ret (u64 r.1)).

Definition sys_read (fd n : Z) : prog (Z * list Z) := Sys (SysRead fd n) (fun r => Ret (i32 r.1, r.2)).

(** [while (1)] with a body that goes on with [inl] or leaves with [inr]; at
    most [n] iterations are run. *)
Fixpoint iterate {S A} (n : nat) (body : S -> prog (S + A)) (s : S) : prog A :=
  match n with
  | O => Pause
  | S n => x ← body s; match x with inl s => iterate n body s | inr a => Ret a end
  end.

(** ** Runs *)

Notation trace := (list (call * reply)).

Definition kernel : Type := trace -> call -> reply.

(** How a run ends. *)
Inductive ending (A : Type) := Done (a : A) | Undefined | Unfinished.
Arguments Done {A}.
Arguments Undefined {A}.
Arguments Unfinished {A}.

Fixpoint run {A} (k : kernel) (p : prog A) (tr : trace) : trace * ending A :=
  match p with
  | Ret a => (tr, Done a)
  | Sys c f => let r := k tr c in run k (f r) (tr ++ [(c, r)])
  | Wrong => (tr, Undefined)
  | Pause => (tr, Unfinished)
  end.

Lemma run_bind {A B} k (f : A -> prog B) (p : prog A) tr :
  run k (p ≫= f) tr =
  match run k p tr with
  | (tr', Done a) => run k (f a) tr'
  | (tr', Undefined) => (tr', Undefined)
  | (tr', Unfinished) => (tr', Unfinished)
  end.
Proof. revert tr. induction p as [a|c g IH| |]; intros tr; simpl; [done|apply IH|done..]. Qed.

(** A run only adds to the history. *)
Lemma run_prefix {A} k (p : prog A) tr : exists t, (run k p tr).1 = tr ++ t.
Proof.
  revert tr. induction p as [a|c g IH| |]; intros tr; simpl; try by exists []; rewrite app_nil_r.
  destruct (IH (k tr c) (tr ++ [(c, k tr c)])) as [t ->]. rewrite <- app_assoc. by eexists.
Qed.

(** ** Output *)

(** [putchar] for each character. *)
Fixpoint put_all (l : list Z) : prog () :=
  match l with
  | [] => Ret ()
  | c :: l => sys (SysWrite 1 [c]);; put_all l
  end.

(** [printf] on the screen or on the pipe behind descriptor 1. *)
Definition uprintf (fmt : list Z) (args : list arg) : prog Z :=
  match printf fmt args with
  | Some (out, n) => put_all out;; Ret n
  | None => Wrong
  end.

(** What a call adds to the output of the program on descriptor 1. *)
Definition written (e : call * reply) : list Z :=
  match e.1 with SysWrite fd bytes => if fd =? 1 then bytes else [] | _ => [] end.

Definition output (tr : trace) : list Z := concat (written <$> tr).

(** The calls of a trace that are not output. *)
Definition is_write (c : call) : bool := match c with SysWrite _ _ => true | _ => false end.

Definition actions (tr : trace) : trace := filter (fun e => is_write e.1 = false) tr.

Lemma output_app a b : output (a ++ b) = output a ++ output b.
Proof. unfold output. by rewrite fmap_app, concat_app. Qed.

Lemma actions_app a b : actions (a ++ b) = actions a ++ actions b.
Proof. apply list.filter_app. Qed.

Lemma run_put_all k l tr :
  exists t, run k (put_all l) tr = (tr ++ t, Done ()) /\ output t = l /\ actions t = [].
Proof.
  revert tr. induction l as [|c l IH]; intros tr; [by exists []; rewrite app_nil_r|].
  cbn [put_all]. unfold sys. cbn -[run]. cbn [run].
  destruct (IH (tr ++ [(SysWrite 1 [c], k tr (SysWrite 1 [c]))])) as (t & -> & Ho & Ha).
  exists ((SysWrite 1 [c], k tr (SysWrite 1 [c])) :: t). rewrite <- app_assoc. split; [done|].
  change (?x :: t) with ([x] ++ t). by rewrite output_app, actions_app, Ho, Ha.
Qed.

(** [printf] writes its text and nothing else. *)
Lemma run_uprintf k fmt args out n tr :
  printf fmt args = Some (out, n) ->
  exists t, run k (uprintf fmt args) tr = (tr ++ t, Done n) /\ output t = out /\ actions t = [].
Proof.
  intros E. unfold uprintf. rewrite E, run_bind. destruct (run_put_all k out tr) as (t & -> & H). by exists t.
Qed.

(** ** Programs that only make calls of one kind *)

Fixpoint only {A} (P : call -> bool) (p : prog A) : Prop :=
  match p with
  | Sys c f => P c = true /\ forall r, only P (f r)
  | _ => True
  end.

Lemma only_bind {A B} P (f : A -> prog B) (p : prog A) :
  only P p -> (forall a, only P (f a)) -> only P (p ≫= f).
Proof. intros Hp Hf. induction p as [a|c g IH| |]; simpl in *; naive_solver. Qed.

Lemma run_only {A} P k (p : prog A) tr t x :
  only P p -> run k p tr = (tr ++ t, x) -> Forall (fun e => P e.1 = true) t.
Proof.
  revert tr t. induction p as [a|c g IH| |]; intros tr t Hp E; simpl in *; simplify_eq.
  - by rewrite <- (app_nil_r tr) in H at 1; apply app_inv_head in H as <-.
  - destruct Hp as [Hc Hp]. destruct (run_prefix k (g (k tr c)) (tr ++ [(c, k tr c)])) as [u Eu].
    rewrite E in Eu. cbn in Eu. rewrite <- app_assoc in Eu. apply app_inv_head in Eu as ->.
    constructor; [done|]. eapply (IH (k tr c) (tr ++ [(c, k tr c)])); [done|]. by rewrite E, <- app_assoc.
  - by rewrite <- (app_nil_r tr) in H at 1; apply app_inv_head in H as <-.
  - by rewrite <- (app_nil_r tr) in H at 1; apply app_inv_head in H as <-.
Qed.

(** The calls that are neither output nor requests for memory. *)
Definition is_mem (c : call) : bool := match c with SysMemAlloc _ | SysMemFree _ => true | _ => false end.

Definition control (tr : trace) : list call := filter (fun c => is_write c || is_mem c = false) (fst <$> tr).

Lemma control_app a b : control (a ++ b) = control a ++ control b.
Proof. unfold control. by rewrite fmap_app, list.filter_app. Qed.

Lemma control_mem t : Forall (fun e => is_mem e.1 = true) t -> control t = [].
Proof.
  unfold control. induction 1 as [|[c r] t Hc _ IH]; [done|]. cbn [fst fmap list_fmap]. rewrite filter_cons.
  destruct (decide _) as [E|]; [|done]. cbn in Hc. rewrite Hc in E. by destruct (is_write c).
Qed.

Lemma control_actions t : actions t = [] -> control t = [].
Proof.
  unfold actions, control. induction t as [|[c r] t IH]; [done|]. rewrite filter_cons. cbn [fst fmap list_fmap].
  destruct (decide _) as [|E]; [done|]. intros Ht. rewrite filter_cons. cbn in E. apply not_false_is_true in E.
  destruct (decide _) as [E'|]; [by rewrite E in E'|by apply IH].
Qed.
