(* ===== verification/UserCalls.v ===== *)
(** * Calls of the user library

    The functions of [SampleCodeModule/lib.c] that make one system call, and the
    loop that empties the keyboard. *)

From S2P Require Import Prelude Lib UserLib UserProg.
Local Open Scope Z_scope.

Module Calls.

(** The same loop as in [Kernel/lib.c]. *)
Definition strcmp : list Z -> list Z -> Z := Lib.strcmp.

Definition get_regs : prog (Z * list Z) := Sys SysRegs (fun r => Ret (i32 r.1, r.2)).

Definition is_key_pressed_syscall (scancode : Z) : prog Z := sys (SysIsKeyPressed (u8 scancode)).

Definition clearScreen : prog () := sys SysClearScreen;; Ret ().

Definition getReg (reg : Z) : prog Z := x ← sys64 (SysGetTime (u8 reg)); Ret (u8 x).

(** The result is the new [current_font_scale]. *)
Definition setFontScale (scale : Z) : prog Z := sys (SysSetFontScale scale);; Ret scale.

Definition video_putPixel (x y color : Z) : prog () := sys (SysPutPixel x y (u32 color));; Ret ().

Definition video_putChar (c fg bg : Z) : prog () := sys (SysPutChar c (u32 fg) (u32 bg));; Ret ().

Definition video_clearScreenColor (color : Z) : prog () := sys (SysClearScreenColor (u32 color));; Ret ().

Definition video_putCharXY (x y c fg bg : Z) : prog () := sys (SysPutCharXY c x y (u32 fg) (u32 bg));; Ret ().

Definition sleep (ms : Z) : prog () := sys (SysSleep ms);; Ret ().

Definition beep (frequency duration : Z) : prog () := sys (SysBeep frequency duration);; Ret ().

Definition shutdown : prog () := sys SysShutdown;; Ret ().

(** The result, the width and the height. *)
Definition getScreenDims : prog (Z * list Z) := Sys SysScreenDims (fun r => Ret (i32 r.1, r.2)).

(** The result, and the character if one was read. *)
Definition try_getchar : prog (Z * list Z) := sys_read 0 1.

Definition clear_key_buffer (n : nat) : prog () :=
  iterate n (fun _ => '(r, _) ← try_getchar; Ret (if r =? 0 then inr () else inl ())) ().

(** The buffer is empty when [clear_key_buffer] ends: it reads one character at
    a time, and stops at the first read that returns nothing.  A read that
    fails, with a result below 0, does not stop it. *)
Lemma clear_key_buffer_spec (k : kernel) (n : nat) : forall tr,
  exists t, (run k (clear_key_buffer n) tr = (tr ++ t, Unfinished) /\ length t = n /\
      Forall (fun e => e.1 = SysRead 0 1 /\ i32 e.2.1 <> 0) t) \/
    (exists r, run k (clear_key_buffer n) tr = (tr ++ t ++ [(SysRead 0 1, r)], Done ()) /\ i32 r.1 = 0 /\ (length t < n)%nat /\
      Forall (fun e => e.1 = SysRead 0 1 /\ i32 e.2.1 <> 0) t).
Proof.
  unfold clear_key_buffer. induction n as [|n IH]; intros tr; cbn [iterate].
  - exists []. left. by rewrite app_nil_r.
  - rewrite !run_bind. set (r := k tr (SysRead 0 1)).
    assert (run k try_getchar tr = (tr ++ [(SysRead 0 1, r)], Done (i32 r.1, r.2))) as -> by done. cbn [run]. destruct (Z.eqb_spec (i32 r.1) 0) as [E|E]; cbn [run].
    + exists []. right. exists r. split_and!; [done|done|cbn; lia|constructor].
    + destruct (IH (tr ++ [(SysRead 0 1, r)])) as (t & [(Er & Hl & HF)|(r' & Er & E' & Hl & HF)]); exists ((SysRead 0 1, r) :: t); rewrite Er, <- app_assoc.
      * left. split_and!; [done|cbn; lia|by constructor].
      * right. exists r'. split_and!; [done|done|cbn; lia|by constructor].
Qed.
End Calls.
