(* ===== verification/ShellParse.v ===== *)
(** * The command line

    [Userland/SampleCodeModule/shell/commands_utils.c] and
    [commands_registry.c]: how a line is cut into arguments in place, and how
    a command is found.  A [char *] is the list of the bytes from the place it
    points to up to the end of its array, terminator included. *)

From Stdlib Require Import String.
From S2P Require Import Prelude Lib UserLib UserProg.
Local Open Scope Z_scope.

Definition MAX_ARGS : Z := 8.

Definition OK : Z := 0.
Definition ERROR : Z := -1.
Definition EXIT_CODE : Z := 1.
Definition CMD_ERROR : Z := -2.

(** ** [commands_utils.c] *)

(** [while (len > 0 && blank(text[len - 1])) text[--len] = 0;] *)
Fixpoint trim_end (len : nat) (text : list Z) : list Z :=
  match len with
  | O => text
  | S len =>
      let c := text.[Z.of_nat len] in
      if (c =? 32) || (c =? 9) then trim_end len (seti (Z.of_nat len) 0 text) else text
  end.

Definition trim_spaces (text : list Z) : list Z :=
  let text := skip_spaces text in
  trim_end (length (cstr text)) text.

(** The loop of [fillCommandAndArgs] at the bytes [input] that begin at index
    [i]: the bytes it leaves and the indices it puts into [args]. *)
Fixpoint fill_loop (input : list Z) (i argc : Z) (inArg : bool) : list Z * list Z :=
  match input with
  | [] => ([], [])
  | c :: rest =>
      if negb (c =? 0) && (argc <? MAX_ARGS) then
        if c =? 32 then
          let '(t, args) := fill_loop rest (i + 1) argc false in (0 :: t, args)
        else if negb inArg then
          let '(t, args) := fill_loop rest (i + 1) (argc + 1) true in (c :: t, i :: args)
        else
          let '(t, args) := fill_loop rest (i + 1) argc true in (c :: t, args)
      else (input, [])
  end.

(** The strings that [args] designates afterwards; [argc] is their number. *)
Definition fillCommandAndArgs (input : list Z) : list (list Z) :=
  let '(t, args) := fill_loop input 0 0 false in
  (fun i => cstr (drop (Z.to_nat i) t)) <$> args.

(** ** [commands_registry.c] *)

(** The functions of the commands, by name. *)
Inductive cmd_fn :=
  | F_helpCmd | F_exitCmd | F_setUserCmd | F_clearCmd | F_timeCmd | F_fontSizeCmd | F_exceptionCmd | F_regsCmd
  | F_loop_main | F_ps_main | F_kill_main | F_nice_main | F_block_main | F_unblock_main
  | F_cat_main | F_wc_main | F_filter_main | F_mvar_main | F_mem_main
  | F_test_sync_cmd | F_test_mm_cmd | F_test_proc_cmd | F_test_prio_cmd.

#[export] Instance cmd_fn_eq_dec : EqDecision cmd_fn.
Proof. solve_decision. Defined.

Record TShellCmd := mkCmd {
  name : list Z;
  function : cmd_fn;
  help : list Z;
  runs_in_shell : Z;
  is_test : Z;
}.

(** The last entry, all zeros, ends the table. *)
Definition shellCmds : list TShellCmd := [
  mkCmd (lit "help") F_helpCmd (lit ": Muestra los comandos disponibles" ++ [10]) 1 0;
  mkCmd (lit "exit") F_exitCmd (lit ": Salir del shell" ++ [10]) 1 0;
  mkCmd (lit "set-user") F_setUserCmd (lit ": Setea el nombre de usuario, con un maximo de 10 caracteres" ++ [10]) 1 0;
  mkCmd (lit "clear") F_clearCmd (lit ": Limpia la pantalla" ++ [10]) 1 0;
  mkCmd (lit "time") F_timeCmd (lit ": Muestra la hora actual" ++ [10]) 1 0;
  mkCmd (lit "font-size") F_fontSizeCmd (lit ": Cambia el tamanio de la fuente" ++ [10]) 1 0;
  mkCmd (lit "exceptions") F_exceptionCmd
    (lit ": Testear excepciones. Ingrese: exceptions [zero/invalidOpcode] para testear alguna operacion" ++ [10]) 1 0;
  mkCmd (lit "regs") F_regsCmd (lit ": Muestra los ultimos 18 registros de la CPU" ++ [10]) 1 0;
  mkCmd (lit "loop") F_loop_main (lit ": Corre un proceso de loop infinito" ++ [10]) 0 0;
  mkCmd (lit "ps") F_ps_main (lit ": Devuelve una lista de todos los procesos activos" ++ [10]) 1 0;
  mkCmd (lit "kill") F_kill_main (lit ": Mata un proceso por PID" ++ [10]) 1 0;
  mkCmd (lit "nice") F_nice_main (lit ": Cambia la prioridad de un proceso" ++ [10]) 1 0;
  mkCmd (lit "block") F_block_main (lit ": Bloquea un proceso por PID" ++ [10]) 1 0;
  mkCmd (lit "unblock") F_unblock_main (lit ": Desbloquea un proceso PID" ++ [10]) 1 0;
  mkCmd (lit "cat") F_cat_main (lit ": Imprime stdin tal como lo recibe" ++ [10]) 0 0;
  mkCmd (lit "wc") F_wc_main (lit ": Cuenta lineas recibidas por stdin" ++ [10]) 0 0;
  mkCmd (lit "filter") F_filter_main (lit ": Filtra vocales del stdin" ++ [10]) 0 0;
  mkCmd (lit "mvar") F_mvar_main
    (lit ": Simula MVar con lectores/escritores. Uso: mvar <escritores> <lectores>" ++ [10]) 1 0;
  mkCmd (lit "mem") F_mem_main (lit ": Muestra el estado de la memoria" ++ [10]) 0 0;
  mkCmd (lit "test_sync") F_test_sync_cmd (lit ": Testea los semaforos. Uso: test_sync <n> <use_sem>" ++ [10]) 0 1;
  mkCmd (lit "test_mm") F_test_mm_cmd (lit ": Testea el memory manager. Uso: test_mm <max_bytes>" ++ [10]) 0 1;
  mkCmd (lit "test_proc") F_test_proc_cmd (lit ": Testea procesos. Uso: test_proc <max_processes>" ++ [10]) 0 1;
  mkCmd (lit "test_prio") F_test_prio_cmd (lit ": Testea prioridades. Uso: test_prio <max_value>" ++ [10]) 0 1
].

(** [None] is the null pointer, as a name and as a result. *)
Definition find_command (nm : option (list Z)) : option TShellCmd :=
  nm ← nm; List.find (fun c => strcmp nm (name c) =? 0) shellCmds.

Definition command_is_test (command : option TShellCmd) : bool :=
  match command with Some c => ctrue (is_test c) | None => false end.

(** ** [commands.c], the checks of the arguments *)

Definition is_positive_number (text : list Z) : bool :=
  let s := cstr text in
  match s with
  | [] => false
  | c :: _ => negb (c =? 48) && forallb is_digit s
  end.
