(* ===== verification/ShellParseProps.v ===== *)
(** * Properties of the command line *)

From Stdlib Require Import String.
From S2P Require Import Prelude Lib UserLib UserProg ShellParse.
Local Open Scope Z_scope.

(** ** Arguments *)

(** The characters before the first space, and the rest. *)
Fixpoint until_space (l : list Z) : list Z * list Z :=
  match l with
  | [] => ([], [])
  | c :: l' => if c =? 32 then ([], l) else let '(w, r) := until_space l' in (c :: w, r)
  end.

Fixpoint drop_spaces (l : list Z) : list Z :=
  match l with c :: l' => if c =? 32 then drop_spaces l' else l | [] => [] end.

(** The words of a line, at most [n] of them: the last one that is allowed
    takes the rest of the line. *)
Fixpoint words_upto (n : nat) (l : list Z) : list (list Z) :=
  match n with
  | O => []
  | S n' =>
      match drop_spaces l with
      | [] => []
      | l => match n' with O => [l] | S _ => let '(w, r) := until_space l in w :: words_upto n' r end
      end
  end.

Lemma drop_spaces_space l : drop_spaces (32 :: l) = drop_spaces l.
Proof. done. Qed.

Lemma words_upto_space n l : words_upto n (32 :: l) = words_upto n l.
Proof. by destruct n. Qed.

(** The strings at indices of a buffer that begins at index [i]. *)
Definition strings_at (i : Z) (t args : list Z) : list (list Z) :=
  (fun j => cstr (drop (Z.to_nat (j - i)) t)) <$> args.

Lemma strings_at_cons i c t args :
  Forall (fun j => i + 1 <= j) args -> strings_at i (c :: t) args = strings_at (i + 1) t args.
Proof.
  intros H. apply list_fmap_ext. intros n j Hj. rewrite Forall_lookup in H. apply H in Hj.
  by replace (Z.to_nat (j - i)) with (S (Z.to_nat (j - (i + 1)))) by lia.
Qed.

(** What the loop does from any of its states: inside a word it leaves that
    word terminated, and the words that follow are the words of the rest. *)
Lemma fill_loop_spec (n : nat) input i argc inArg t args :
  argc = MAX_ARGS - Z.of_nat n -> fill_loop input i argc inArg = (t, args) ->
  Forall (fun j => i <= j) args /\
  strings_at i t args = words_upto n (if inArg then (until_space (cstr input)).2 else cstr input) /\
  (n = O -> t = input) /\ (inArg = true -> n <> O -> cstr t = (until_space (cstr input)).1).
Proof.
  unfold MAX_ARGS. revert n i argc inArg t args.
  induction input as [|c input IH]; intros n i argc inArg t args En E; cbn [fill_loop] in E.
  { simplify_eq. split; [constructor|]. split; [|done]. destruct inArg; by destruct n. }
  destruct (c =? 0) eqn:Ec.
  { simpl in E. simplify_eq. cbn [cstr]. rewrite Ec. split; [constructor|]. split; [|done]. destruct inArg; by destruct n. }
  destruct n as [|n].
  { unfold MAX_ARGS in E. replace (argc <? 8) with false in E by lia. rewrite andb_false_r in E. simplify_eq.
    split; [constructor|]. by destruct inArg. }
  unfold MAX_ARGS in E. replace (argc <? 8) with true in E by lia. cbn [negb andb] in E.
  assert (mono : forall args, Forall (fun j => i + 1 <= j) args -> Forall (fun j => i <= j) args)
    by (intros; eapply list.Forall_impl; [done|]; simpl; lia).
  destruct (c =? 32) eqn:Es; [|destruct inArg; cbn [negb] in E];
    match type of E with context [fill_loop ?a ?b ?d ?e] => destruct (fill_loop a b d e) as [t' args'] eqn:E' end; simplify_eq.
  - assert (c = 32) as -> by lia. destruct (IH (S n) _ _ _ _ _ eq_refl E') as (Hm & Hs & _ & _).
    split; [auto|]. rewrite strings_at_cons, Hs by done. split; [|split; [lia|]].
    + cbn [cstr]. change (32 =? 0) with false. cbv iota. destruct inArg; cbn [until_space Z.eqb Pos.eqb snd]; by rewrite words_upto_space.
    + by intros ->.
  - destruct (IH (S n) _ _ _ _ _ eq_refl E') as (Hm & Hs & _ & Ht).
    split; [auto|]. rewrite strings_at_cons, Hs by done. cbn [cstr]. rewrite Ec. cbn [until_space]. rewrite Es.
    destruct (until_space (cstr input)) as [w r]. simpl in *. split; [done|]. split; [lia|].
    intros _ _. by rewrite Ht.
  - destruct (IH n (i + 1) (8 - Z.of_nat (S n) + 1) true _ _ ltac:(lia) E') as (Hm & Hs & Hz & Ht).
    split; [constructor; [lia|auto]|]. cbn [strings_at fmap list_fmap]. rewrite Z.sub_diag. cbn [Z.to_nat drop].
    fold (strings_at i (c :: t') args'). rewrite strings_at_cons, Hs by done. cbn [cstr]. rewrite Ec.
    cbn [words_upto drop_spaces]. rewrite Es. split; [|done]. change (drop (Z.to_nat 0) ?x) with x. cbn [cstr]. rewrite Ec.
    destruct n as [|n]; [by rewrite (Hz eq_refl)|]. cbn [until_space]. rewrite Es.
    destruct (until_space (cstr input)) as [w r]. simpl in *. by rewrite (Ht eq_refl ltac:(done)).
Qed.

Lemma fill_words input : fillCommandAndArgs input = words_upto 8 (cstr input).
Proof.
  unfold fillCommandAndArgs. destruct (fill_loop input 0 0 false) as [t args] eqn:E.
  destruct (fill_loop_spec 8 _ _ _ _ _ _ eq_refl E) as (_ & Hs & _). rewrite <- Hs.
  apply list_fmap_ext. intros n j _. by rewrite Z.sub_0_r.
Qed.

Lemma words_upto_length n l : (length (words_upto n l) <= n)%nat.
Proof.
  revert l. induction n as [|n IH]; intros l; cbn [words_upto]; [done|].
  destruct (drop_spaces l); [simpl; lia|]. destruct n as [|n]; [done|]. destruct (until_space _) as [w r].
  cbn [length]. specialize (IH r). lia.
Qed.

(** C37: [fillCommandAndArgs] cuts a line at its spaces: the arguments are the
    words of the line in order, each terminated, at most [MAX_ARGS] of them,
    and the eighth takes all that is left of the line, spaces included. *)
Theorem fillCommandAndArgs_spec (input : list Z) :
  fillCommandAndArgs input = words_upto 8 (cstr input) /\
  Z.of_nat (length (fillCommandAndArgs input)) <= MAX_ARGS.
Proof.
  rewrite fill_words. split; [done|]. pose proof (words_upto_length 8 (cstr input)). unfold MAX_ARGS. lia.
Qed.

(** ** Trimming *)

Definition blank (c : Z) : bool := (c =? 32) || (c =? 9).

Lemma skip_spaces_cstr s : cstr (skip_spaces s) = skip_spaces (cstr s).
Proof.
  induction s as [|c s IH]; [done|]. cbn [skip_spaces cstr]. destruct (c =? 0) eqn:E.
  - replace ((c =? 32) || (c =? 9)) with false by lia. cbn [cstr]. by rewrite E.
  - cbn [skip_spaces]. case_if; [done|]. cbn [cstr]. by rewrite E.
Qed.

Lemma skip_spaces_split s :
  exists a, s = a ++ skip_spaces s /\ forallb blank a = true /\ (forall c l, skip_spaces s = c :: l -> blank c = false).
Proof.
  induction s as [|c s (a & E & Ha & Hs)]; [by exists []|]. cbn [skip_spaces]. case_if.
  - exists (c :: a). cbn. rewrite Ha, andb_true_r. split; [by rewrite <- E|]. done.
  - exists []. split_and!; [done|done|]. intros c' l [= <- <-]. done.
Qed.

(** A text without its blanks at both ends. *)
Definition strip (l : list Z) : list Z := rev (skip_spaces (rev (skip_spaces l))).

Lemma trim_end_strip l r :
  Forall (fun c => c <> 0) l -> r = [] \/ (exists r', r = 0 :: r') ->
  cstr (trim_end (length l) (l ++ r)) = rev (skip_spaces (rev l)).
Proof.
  revert r. induction l as [|c l IH] using rev_ind; intros r Hl Hr; [by destruct Hr as [-> | [r' ->]]|].
  pose proof Hl as Hlc. apply Forall_app in Hl as [Hl Hc].
  rewrite length_app. cbn [length]. rewrite Nat.add_1_r, rev_app_distr. cbn [trim_end rev app skip_spaces].
  rewrite <- app_assoc. cbn [app]. rewrite geti_middle by done. case_if.
  - rewrite seti_middle by done. by apply IH; eauto.
  - cbn [rev]. rewrite rev_involutive. change (l ++ c :: r) with (l ++ [c] ++ r). rewrite app_assoc.
    destruct Hr as [-> | [r' ->]]; [rewrite app_nil_r; by apply cstr_all|by apply cstr_app_zero].
Qed.

Lemma strip_split l :
  exists a b, l = a ++ strip l ++ b /\ forallb blank a = true /\ forallb blank b = true /\
    (forall c m, strip l = c :: m -> blank c = false) /\ (forall m c, strip l = m ++ [c] -> blank c = false).
Proof.
  unfold strip. destruct (skip_spaces_split l) as (a & Ea & Ha & Hfirst). set (m := skip_spaces l) in *. clearbody m.
  destruct (skip_spaces_split (rev m)) as (b & Eb & Hb & Hlast). set (x := skip_spaces (rev m)) in *. clearbody x.
  exists a, (rev b). split_and!; [| done | | |].
  - rewrite Ea. f_equal. rewrite <- rev_app_distr, <- Eb. by rewrite rev_involutive.
  - rewrite forallb_forall in *. intros y Hy%in_rev. auto.
  - intros c y E. apply (Hfirst c (y ++ rev b)). rewrite app_comm_cons, <- E, <- rev_app_distr, <- Eb.
    by rewrite rev_involutive.
  - intros y c E. apply (Hlast c (rev y)). rewrite <- (rev_involutive x), E, rev_app_distr. done.
Qed.

Lemma trim_spaces_strip text : cstr (trim_spaces text) = strip (cstr text).
Proof.
  unfold trim_spaces, strip. rewrite <- skip_spaces_cstr.
  destruct (cstr_prefix (skip_spaces text)) as (r & Er & Hr). rewrite Er at 2.
  apply trim_end_strip; [apply cstr_nonzero|done].
Qed.

(** [trim_spaces] leaves the string without its blanks at both ends, and
    with every character between them. *)
Theorem trim_spaces_spec (text : list Z) :
  cstr (trim_spaces text) = strip (cstr text) /\
  exists a b, cstr text = a ++ cstr (trim_spaces text) ++ b /\
    forallb blank a = true /\ forallb blank b = true /\
    (forall c l, cstr (trim_spaces text) = c :: l -> blank c = false) /\
    (forall l c, cstr (trim_spaces text) = l ++ [c] -> blank c = false).
Proof.
  rewrite trim_spaces_strip. split; [done|apply strip_split].
Qed.

(** ** Commands *)

Lemma names_distinct : NoDup (name <$> shellCmds).
Proof. apply (bool_decide_unpack (NoDup (name <$> shellCmds))). by vm_compute. Qed.

Lemma names_chars : Forall (fun c => chars (name c) /\ cstr (name c) = name c) shellCmds.
Proof. unfold chars. repeat constructor; simpl; lia. Qed.

(** [find_command] finds a command exactly when the table has it under that
    name. *)
Theorem find_command_spec (nm : list Z) (c : TShellCmd) :
  chars nm -> find_command (Some nm) = Some c <-> c ∈ shellCmds /\ name c = cstr nm.
Proof.
  intros Hnm. cbn [find_command mbind option_bind].
  pose proof names_distinct as Hd. pose proof names_chars as Hc. induction shellCmds as [|x l IH].
  { split; [done|]. intros [H _]. by apply not_elem_of_nil in H. }
  apply list.Forall_cons in Hc as [[Hx Ex] Hc]. apply list.NoDup_cons in Hd as [Hn Hd]. specialize (IH Hd Hc).
  cbn [List.find]. pose proof (strcmp_eq nm (name x) Hnm Hx) as Hs. rewrite Ex in Hs. rewrite list.elem_of_cons. case_if.
  - assert (E : cstr nm = name x) by (apply Hs; lia). split; [intros [= ->]; auto|].
    intros [[-> | Hin] En]; [done|]. exfalso. apply Hn. rewrite <- E, <- En. by apply list_elem_of_fmap_2.
  - rewrite IH. split; [intros []; auto|]. intros [[-> | Hin] En]; [|done].
    assert (strcmp nm (name x) = 0) by (apply Hs; done). lia.
Qed.
