(* ===== verification/Apps.v ===== *)
(** * Applications

    [Userland/SampleCodeModule/apps]: each program as the calls it makes.
    [argv] is the list of the argument strings, and [argc] its length.  Loops
    that end when the kernel says so take the number of iterations to run. *)

From Stdlib Require Import String.
From S2P Require Import Prelude Lib UserLib UserProg.
Local Open Scope Z_scope.

Definition STDIN : Z := 0.
Definition STDOUT : Z := 1.

(** A line of text. *)
Definition ln (s : string) : list Z := lit s ++ [10].

(** [printf] for its effect. *)
Definition say (fmt : list Z) (args : list arg) : prog () := uprintf fmt args;; Ret ().

Definition argc (argv : list (list Z)) : Z := Z.of_nat (length argv).

(** [argv[i]] for an index below [argc]. *)
Definition argv_at (argv : list (list Z)) (i : nat) : list Z := nth i argv [].

(** ** Filters of the standard input *)

Definition IO_BUFFER_SIZE : Z := 128.
Definition EOF_CHAR : Z := 4.

(** The bytes of a buffer before the first [EOF_CHAR], and whether there is
    one. *)
Fixpoint before_eof (l : list Z) : list Z * bool :=
  match l with
  | [] => ([], false)
  | c :: l => if c =? EOF_CHAR then ([], true) else let '(t, eof) := before_eof l in (c :: t, eof)
  end.

(** [if (n > 0) sys_write(STDOUT, buffer, n);] *)
Definition write_some (bytes : list Z) : prog () :=
  if 0 <? Z.of_nat (length bytes) then sys (SysWrite STDOUT bytes);; Ret () else Ret ().

Definition cat_main (n : nat) : prog Z :=
  iterate n (fun _ : () =>
    '(read, buffer) ← sys_read STDIN IO_BUFFER_SIZE;
    if read >? 0 then
      let '(bytes, eof) := before_eof (take (Z.to_nat read) buffer) in
      write_some bytes;;
      Ret (if eof : bool then inr 0 else inl ())
    else Ret (inr 0)) ().

Definition is_vowel (c : Z) : bool :=
  (c =? 97) || (c =? 101) || (c =? 105) || (c =? 111) || (c =? 117) ||
  (c =? 65) || (c =? 69) || (c =? 73) || (c =? 79) || (c =? 85).

(** [for (i = 0; i < read; i++)]: the characters kept, and whether [EOF_CHAR]
    ended the loop. *)
Fixpoint filter_loop (input : list Z) : list Z * bool :=
  match input with
  | [] => ([], false)
  | c :: input =>
      if c =? EOF_CHAR then ([], true)
      else let '(out, eof) := filter_loop input in (if is_vowel c then out else c :: out, eof)
  end.

Definition filter_main (n : nat) : prog Z :=
  iterate n (fun _ : () =>
    '(read, input) ← sys_read STDIN IO_BUFFER_SIZE;
    if read >? 0 then
      let '(output, eof) := filter_loop (take (Z.to_nat read) input) in
      write_some output;;
      Ret (if eof : bool then inr 0 else inl ())
    else Ret (inr 0)) ().

(** The lines counted, and whether [EOF_CHAR] ended the loop. *)
Fixpoint wc_loop (buffer : list Z) (lines : Z) : Z * bool :=
  match buffer with
  | [] => (lines, false)
  | c :: buffer =>
      if c =? EOF_CHAR then (lines, true)
      else wc_loop buffer (if c =? 10 then i32 (lines + 1) else lines)
  end.

Definition wc_main (n : nat) : prog Z :=
  iterate n (fun lines =>
    '(read, buffer) ← sys_read STDIN IO_BUFFER_SIZE;
    if read >? 0 then
      let '(lines, eof) := wc_loop (take (Z.to_nat read) buffer) lines in
      if eof : bool then say (ln "%d") [AInt lines];; Ret (inr 0) else Ret (inl lines)
    else say (ln "%d") [AInt lines];; Ret (inr 0)) 0.

(** ** Processes *)

Definition block_main (argv : list (list Z)) : prog Z :=
  if argc argv <? 2 then say (ln "Usage: block <pid>") [];; Ret 0
  else sys (SysBlock (atoi (argv_at argv 1)));; Ret 0.

Definition unblock_main (argv : list (list Z)) : prog Z :=
  if argc argv <? 2 then say (ln "Usage: unblock <pid>") [];; Ret 0
  else sys (SysUnblock (atoi (argv_at argv 1)));; Ret 0.

(** [sys_kill] is declared to return [uint64_t]. *)
Definition kill_main (argv : list (list Z)) : prog Z :=
  if negb (argc argv =? 2) then say (ln "Usage: kill <pid>") [];; Ret (-1)
  else
    let pid := atoi (argv_at argv 1) in
    r ← sys64 (SysKill pid);
    if r <? 0 then say (ln "Error: could not kill process %d.") [AInt pid];; Ret (-1) else Ret 0.

(** So is [sys_nice]. *)
Definition nice_main (argv : list (list Z)) : prog Z :=
  if negb (argc argv =? 3) then say (ln "Usage: nice <pid> <priority>") [];; Ret (-1)
  else
    let pid := atoi (argv_at argv 1) in
    let newPriority := atoi (argv_at argv 2) in
    r ← sys64 (SysNice pid newPriority);
    if r <? 0 then
      say (ln "Error: could not change process %d priority to %d.") [AInt pid; AInt newPriority];; Ret (-1)
    else Ret 0.

(** A negative [n] makes [sys_write] run past the buffer. *)
Definition ps_main : prog Z :=
  Sys (SysPs 4096) (fun r =>
    let n := i32 r.1 in
    if (0 <=? n) && (n <=? 4096) then sys (SysWrite 1 (take (Z.to_nat n) r.2));; Ret 0 else Wrong).

(** The 64 bytes of [line] are uninitialised before [sprintf]. *)
Definition loop_main (n : nat) : prog Z :=
  pid ← sys SysGetpid;
  iterate n (fun _ : () =>
    match sprintf (replicate 64 0) (ln "[loop] PID %d running...") [AInt pid] with
    | Some (line, len) => sys (SysWrite STDOUT (take (Z.to_nat len) line));; Ret (inl ())
    | None => Wrong
    end) ().

(** [sys_mem_info] stores three values. *)
Definition mem_main : prog Z :=
  Sys SysMemInfo (fun r =>
    match r.2 with
    | [total; used; free] =>
        kind ← sys64 SysMemKind;
        say (ln "Memory status:") [];;
        say (ln "  Manager:   %s") [AStr (if kind =? 1 then lit "Buddy system" else lit "Free list")];;
        say (ln "  Total:     %d bytes") [AInt (i32 total)];;
        say (ln "  Used:      %d bytes") [AInt (i32 used)];;
        say (ln "  Free:      %d bytes") [AInt (i32 free)];;
        say (ln "  Used %%:    %d%%") [AInt (i32 (if total >? 0 then u64 (used * 100) / total else 0))];;
        Ret 0
    | _ => Wrong
    end).
