(* ===== verification/AppsProps.v ===== *)
(** * Properties of the applications *)

From Stdlib Require Import String.
From S2P Require Import Prelude Lib UserLib UserLibProps UserProg Apps.
Local Open Scope Z_scope.

(** ** Streams *)

(** The reads of a history. *)
Definition is_read (c : call) : bool := match c with SysRead _ _ => true | _ => false end.

Definition reads (tr : trace) : nat := length (filter (fun e => is_read e.1 = true) tr).

Lemma reads_app a b : reads (a ++ b) = (reads a + reads b)%nat.
Proof. unfold reads. by rewrite list.filter_app, length_app. Qed.

Lemma reads_actions t : actions t = [] -> reads t = O.
Proof.
  unfold actions, reads. induction t as [|[c r] t IH]; [done|]. rewrite !filter_cons. cbn.
  by destruct c; cbn.
Qed.

(** A kernel that delivers [chunks] on the standard input, one per read, and
    then the end of the stream. *)
Definition feeds (chunks : list (list Z)) (k : kernel) : Prop :=
  forall tr n, k tr (SysRead STDIN n) =
    match chunks !! reads tr with
    | Some c => (Z.of_nat (length c), c)
    | None => (0, [])
    end.

(** What [sys_read] delivers fits the buffer. *)
Definition chunks_ok (chunks : list (list Z)) : Prop :=
  Forall (fun c => (1 <= length c <= 128)%nat) chunks.

Section Reader.
Context {S : Type} (step : S -> list Z -> prog (S + Z)) (fin : S -> prog (S + Z)).
Context (spec : S -> list Z -> list Z) (P : S -> Prop).
Context (chunks : list (list Z)) (k : kernel).
Hypothesis Hfeeds : feeds chunks k.
Hypothesis Hchunks : chunks_ok chunks.

(** At the end of the stream the program writes what is left to write. *)
Hypothesis Hfin : forall s tr, P s -> exists t,
  run k (fin s) tr = (tr ++ t, Done (inr 0)) /\ actions t = [] /\ output t = spec s [].

(** On a chunk it writes its share of the output, and all of it when it
    stops there. *)
Hypothesis Hstep : forall s c tr, P s -> exists t x,
  run k (step s c) tr = (tr ++ t, Done x) /\ actions t = [] /\
  match x with
  | inl s' => P s' /\ forall rest, spec s (c ++ rest) = output t ++ spec s' rest
  | inr v => v = 0 /\ forall rest, spec s (c ++ rest) = output t
  end.

Definition reader_body (s : S) : prog (S + Z) :=
  '(read, buf) ← sys_read STDIN IO_BUFFER_SIZE;
  if read >? 0 then step s (take (Z.to_nat read) buf) else fin s.

Lemma reader_spec n s tr :
  P s -> (length chunks - reads tr < n)%nat ->
  exists t, run k (iterate n reader_body s) tr = (tr ++ t, Done 0) /\
    output t = spec s (concat (drop (reads tr) chunks)).
Proof.
  revert s tr. induction n as [|n IH]; intros s tr HP Hn; [lia|].
  cbn [iterate]. rewrite run_bind. unfold reader_body at 1, sys_read. cbn -[run]. cbn [run]. rewrite Hfeeds.
  set (ev := (SysRead STDIN IO_BUFFER_SIZE, _)).
  assert (Hev : reads [ev] = 1%nat /\ output [ev] = []) by done. destruct Hev as [Hr1 Ho1].
  destruct (chunks !! reads tr) as [c|] eqn:Ec; cbn.
  - pose proof Hchunks as Hc. unfold chunks_ok in Hc. rewrite Forall_lookup in Hc. specialize (Hc _ _ Ec).
    rewrite i32_small by lia. replace (Z.of_nat (length c) >? 0) with true by lia. rewrite Nat2Z.id, take_ge by lia.
    destruct (Hstep s c (tr ++ [ev]) HP) as (t & x & -> & Ha & Hx). rewrite (drop_S _ _ _ Ec). cbn [concat].
    destruct x as [s'|v].
    + destruct Hx as [HP' Hx]. destruct (IH s' ((tr ++ [ev]) ++ t) HP') as (t' & -> & Ho).
      { rewrite !reads_app, Hr1, (reads_actions t) by done. apply lookup_lt_Some in Ec. lia. }
      exists ([ev] ++ t ++ t'). split; [by rewrite !app_assoc|]. rewrite !output_app, Ho1, Ho, Hx. simpl. do 3 f_equal.
      rewrite !reads_app, Hr1, (reads_actions t) by done. f_equal. lia.
    + destruct Hx as [-> Hx]. exists ([ev] ++ t). split; [by rewrite app_assoc|]. by rewrite output_app, Ho1, Hx.
  - change (i32 0 >? 0) with false. cbv iota.
    destruct (Hfin s (tr ++ [ev]) HP) as (t & -> & Ha & Ho). exists ([ev] ++ t). split; [by rewrite app_assoc|].
    rewrite output_app, Ho1, Ho, drop_ge by (by apply lookup_ge_None). done.
Qed.
End Reader.

(** ** The filters *)

Lemma run_write_some k bytes tr :
  exists t, run k (write_some bytes) tr = (tr ++ t, Done ()) /\ actions t = [] /\ output t = bytes.
Proof.
  unfold write_some. destruct bytes as [|c l]; [by exists []; rewrite app_nil_r|].
  replace (_ <? _) with true by (cbn [length]; lia). cbn.
  eexists [_]. split; [done|]. cbn. split; [done|]. unfold output. cbn. by rewrite app_nil_r.
Qed.

Lemma before_eof_app a b :
  before_eof (a ++ b) = if (before_eof a).2 then before_eof a else ((before_eof a).1 ++ (before_eof b).1, (before_eof b).2).
Proof.
  induction a as [|c a IH]; cbn; [by destruct (before_eof b)|]. case_if; [done|].
  rewrite IH. destruct (before_eof a) as [t []]; done.
Qed.

(** A filter is [before_eof] with some characters dropped. *)
Lemma filter_loop_spec l :
  filter_loop l = (filter (fun c => is_vowel c = false) (before_eof l).1, (before_eof l).2).
Proof.
  induction l as [|c l IH]; [done|]. cbn [filter_loop before_eof]. case_if; [done|]. rewrite IH.
  destruct (before_eof l) as [t e]. cbn [fst snd]. rewrite filter_cons. destruct (is_vowel c) eqn:E; by destruct (decide _).
Qed.

(** The number of lines in a text. *)
Definition newlines (l : list Z) : Z := Z.of_nat (length (filter (fun c => c = 10) l)).

Lemma newlines_cons c l : newlines (c :: l) = (if c =? 10 then 1 else 0) + newlines l.
Proof. unfold newlines. rewrite filter_cons. destruct (decide _); case_if; simpl; lia. Qed.

Lemma newlines_nonneg l : 0 <= newlines l.
Proof. unfold newlines. lia. Qed.

Lemma newlines_app a b : newlines (a ++ b) = newlines a + newlines b.
Proof. unfold newlines. rewrite list.filter_app, length_app. lia. Qed.

Lemma wc_loop_spec l n :
  - 2 ^ 31 <= n < 2 ^ 31 -> wc_loop l n = (i32 (n + newlines (before_eof l).1), (before_eof l).2).
Proof.
  revert n. induction l as [|c l IH]; intros n Hn; cbn [wc_loop before_eof].
  { unfold newlines. simpl. by rewrite Z.add_0_r, i32_small. }
  case_if; [unfold newlines; simpl; by rewrite Z.add_0_r, i32_small|].
  destruct (before_eof l) as [t e]. cbn [fst snd] in *. rewrite newlines_cons.
  case_if; rewrite IH by (try done; apply i32_range); [|done]. by rewrite i32_add, Z.add_assoc.
Qed.

Definition not_vowel (l : list Z) : list Z := filter (fun c => is_vowel c = false) l.

(** What each filter writes for the stream [l]. *)
Definition cat_out (_ : ()) (l : list Z) : list Z := (before_eof l).1.
Definition filter_out (_ : ()) (l : list Z) : list Z := not_vowel (before_eof l).1.

Lemma cat_runs chunks k n tr :
  feeds chunks k -> chunks_ok chunks -> (length chunks - reads tr < n)%nat ->
  exists t, run k (cat_main n) tr = (tr ++ t, Done 0) /\ output t = cat_out () (concat (drop (reads tr) chunks)).
Proof.
  intros Hf Hc Hn. unfold cat_main. apply (reader_spec
    (fun _ l => let '(b, eof) := before_eof l in write_some b;; Ret (if eof : bool then inr 0 else inl ()))
    (fun _ => Ret (inr 0)) cat_out (fun _ => True) chunks k Hf Hc); [| |done|done].
  - intros [] t _. exists []. by rewrite app_nil_r.
  - intros [] c t _. unfold cat_out. destruct (before_eof c) as [b eof] eqn:E.
    rewrite run_bind. destruct (run_write_some k b t) as (u & -> & Ha & Ho). exists u, (if eof then inr 0 else inl ()).
    split_and!; [done|done|]. destruct eof; (split; [done|]); intros rest; rewrite before_eof_app, E; cbn; by rewrite Ho.
Qed.

Lemma filter_runs chunks k n tr :
  feeds chunks k -> chunks_ok chunks -> (length chunks - reads tr < n)%nat ->
  exists t, run k (filter_main n) tr = (tr ++ t, Done 0) /\ output t = filter_out () (concat (drop (reads tr) chunks)).
Proof.
  intros Hf Hc Hn. unfold filter_main. apply (reader_spec
    (fun _ l => let '(b, eof) := filter_loop l in write_some b;; Ret (if eof : bool then inr 0 else inl ()))
    (fun _ => Ret (inr 0)) filter_out (fun _ => True) chunks k Hf Hc); [| |done|done].
  - intros [] t _. exists []. by rewrite app_nil_r.
  - intros [] c t _. unfold filter_out. rewrite filter_loop_spec. fold (not_vowel (before_eof c).1).
    destruct (before_eof c) as [b eof] eqn:E. cbn [fst snd].
    rewrite run_bind. destruct (run_write_some k (not_vowel b) t) as (u & -> & Ha & Ho).
    exists u, (if eof then inr 0 else inl ()).
    split_and!; [done|done|]. destruct eof; (split; [done|]); intros rest; rewrite before_eof_app, E; cbn; rewrite Ho;
      [done|]. unfold not_vowel. by rewrite list.filter_app.
Qed.

Definition wc_out (lines : Z) (l : list Z) : list Z := format_int (i32 (lines + newlines (before_eof l).1)) ++ [10].

Lemma run_say_int k n tr :
  exists t, run k (say (ln "%d") [AInt n]) tr = (tr ++ t, Done ()) /\ actions t = [] /\ output t = format_int n ++ [10].
Proof.
  unfold say. rewrite run_bind.
  destruct (run_uprintf k (ln "%d") [AInt n] (format_int n ++ [10]) (Z.of_nat (length (format_int n)) + 1) tr)
    as (t & -> & Ho & Ha); [done|]. by exists t.
Qed.

Lemma wc_runs chunks k n tr :
  feeds chunks k -> chunks_ok chunks -> (length chunks - reads tr < n)%nat ->
  exists t, run k (wc_main n) tr = (tr ++ t, Done 0) /\ output t = wc_out 0 (concat (drop (reads tr) chunks)).
Proof.
  intros Hf Hc Hn. unfold wc_main. apply (reader_spec
    (fun lines l => let '(lines, eof) := wc_loop l lines in
      if eof : bool then say (ln "%d") [AInt lines];; Ret (inr 0) else Ret (inl lines))
    (fun lines => say (ln "%d") [AInt lines];; Ret (inr 0)) wc_out (fun n => - 2 ^ 31 <= n < 2 ^ 31) chunks k Hf Hc);
    [| |lia|done].
  - intros m t Hm. rewrite run_bind. destruct (run_say_int k m t) as (u & -> & Ha & Ho). exists u. split_and!; [done|done|].
    rewrite Ho. unfold wc_out, newlines. simpl. by rewrite Z.add_0_r, i32_small.
  - intros m c t Hm. rewrite wc_loop_spec by done. unfold wc_out. destruct (before_eof c) as [b eof] eqn:E. cbn [fst snd].
    destruct eof.
    + rewrite run_bind. destruct (run_say_int k (i32 (m + newlines b)) t) as (u & -> & Ha & Ho). exists u, (inr 0).
      split_and!; [done..|]. intros rest. by rewrite before_eof_app, E, Ho.
    + exists [], (inl (i32 (m + newlines b))). rewrite app_nil_r. split_and!; [done|done|apply i32_range..|].
      intros rest. rewrite before_eof_app, E. cbn [fst snd]. rewrite newlines_app, i32_add. cbn. by rewrite Z.add_assoc.
Qed.

(** C30: Fed any stream in pieces of 1 to 128 bytes, [cat] ends and has written
    the stream up to its first [EOF_CHAR], and [filter] the same text without
    its vowels; [wc] writes the number of lines in that text, for fewer than
    2^31 lines.  How the stream is cut into pieces makes no difference. *)
Theorem filters_spec (chunks : list (list Z)) (k : kernel) (n : nat) :
  feeds chunks k -> chunks_ok chunks -> (length chunks < n)%nat ->
  (exists t, run k (cat_main n) [] = (t, Done 0) /\ output t = (before_eof (concat chunks)).1) /\
  (exists t, run k (filter_main n) [] = (t, Done 0) /\ output t = not_vowel (before_eof (concat chunks)).1) /\
  (newlines (before_eof (concat chunks)).1 < 2 ^ 31 ->
   exists t, run k (wc_main n) [] = (t, Done 0) /\ output t = format_int (newlines (before_eof (concat chunks)).1) ++ [10]).
Proof.
  intros Hf Hc Hn. assert (Hn' : (length chunks - reads [] < n)%nat) by (cbn; lia).
  split_and!; [destruct (cat_runs _ _ _ _ Hf Hc Hn') as (t & E & Ho)|destruct (filter_runs _ _ _ _ Hf Hc Hn') as (t & E & Ho)
    |intros Hl; destruct (wc_runs _ _ _ _ Hf Hc Hn') as (t & E & Ho)]; exists t; [done..|]. split; [done|].
  rewrite Ho. unfold wc_out. pose proof (newlines_nonneg (before_eof (concat chunks)).1).
  change (concat (drop (reads []) chunks)) with (concat chunks). by rewrite Z.add_0_l, i32_small by lia.
Qed.

(** The kernel that delivers [chunks], and replies 0 otherwise. *)
Definition feeder (chunks : list (list Z)) : kernel := fun tr c =>
  match c with
  | SysRead _ _ => match chunks !! reads tr with Some c => (Z.of_nat (length c), c) | None => (0, []) end
  | _ => (0, [])
  end.

Lemma filters_spec_witness :
  exists t, run (feeder [lit "Hola"; 10 :: lit "che" ++ [10; 4]; lit "x"]) (filter_main 4) [] = (t, Done 0) /\
    output t = lit "Hl" ++ 10 :: lit "ch" ++ [10].
Proof.
  set (chunks := [lit "Hola"; 10 :: lit "che" ++ [10; 4]; lit "x"]).
  destruct (filters_spec chunks (feeder chunks) 4) as (_ & H & _);
    [done|by repeat constructor; simpl; lia|simpl; lia|exact H].
Defined.
