(* ===== verification/Shell.v ===== *)
(** * The shell

    [Userland/SampleCodeModule/shell]: reading a line, starting a command as a
    process with a copy of its arguments on the heap, and pipelines of two
    commands. *)

From Stdlib Require Import String.
From S2P Require Import Prelude Lib UserLib UserProg ShellParse Apps.
Local Open Scope Z_scope.

(** ** The memory of the user programs

    All the programs share one address space.  A heap block is an array of
    pointers, an array of characters, or the arguments of a worker of
    [mvar]. *)

Inductive obj := Ptrs (l : list Z) | Chars (l : list Z) | Worker (pipe_id delay_ms worker_id : Z).

Notation heap := (gmap Z obj).

Record Shell := mkShell {
  shellUser : list Z;
  current_font_scale : Z;
  uheap : heap;
}.

Definition set_user (v : list Z) (s : Shell) : Shell := mkShell v (current_font_scale s) (uheap s).
Definition set_scale (v : Z) (s : Shell) : Shell := mkShell (shellUser s) v (uheap s).
Definition set_heap (v : heap) (s : Shell) : Shell := mkShell (shellUser s) (current_font_scale s) v.

(** [shellUser] has 11 bytes. *)
Definition shell_init : Shell := mkShell (lit "usuario" ++ replicate 4 0) 1 ∅.

Definition MAX_LINE_LENGTH : Z := 100.
Definition MAX_USER_LENGTH : Z := 10.

(** ** Reading a line *)

(** [do n = sys_read(0, &c, 1); while (n == 0);]: a read that reports bytes
    without storing any leaves [c] uninitialised. *)
Definition getchar (n : nat) : prog Z :=
  iterate n (fun _ : () =>
    '(m, buf) ← sys_read 0 1;
    if m =? 0 then Ret (inl ()) else match buf with c :: _ => Ret (inr c) | [] => Wrong end) ().

(** A store into an array. *)
Definition store (i c : Z) (a : list Z) : prog (list Z) :=
  match store_at i c a with Some a => Ret a | None => Wrong end.

Definition readLine_step (n : nat) (maxLen : Z) (st : list Z * Z) : prog (list Z * Z + list Z) :=
  let '(buf, len) := st in
  c ← getchar n;
  if c =? 10 then
    put_all [10];;
    buf ← store len 0 buf;
    Ret (inr buf)
  else if c =? 8 then
    if len >? 0 then put_all [8; 32; 8];; Ret (inl (buf, len - 1))
    else sys (SysBeep 500 100);; Ret (inl (buf, len))
  else if len <? maxLen - 1 then
    buf ← store len c buf;
    put_all [c];;
    Ret (inl (buf, len + 1))
  else Ret (inl (buf, len)).

(** The line is read into the array [buf]. *)
Definition readLine (n : nat) (buf : list Z) (maxLen : Z) : prog (list Z) :=
  iterate n (readLine_step n maxLen) (buf, 0).

(** ** Copies of arguments *)

Definition ptrs_of (h : heap) (p : Z) : list Z := match h !! p with Some (Ptrs l) => l | _ => [] end.

(** [copy[i] = q] *)
Definition set_ptr (p i q : Z) (h : heap) : heap := <[p := Ptrs (seti i q (ptrs_of h p))]> h.

(** [for (i = 0; i < argc; i++) if (argv[i] != NULL) sys_mem_free(argv[i]);] *)
Fixpoint free_loop (l : list Z) (h : heap) : prog heap :=
  match l with
  | [] => Ret h
  | q :: l => if q =? 0 then free_loop l h else sys (SysMemFree q);; free_loop l (delete q h)
  end.

Definition free_args (argc p : Z) (h : heap) : prog heap :=
  if p =? 0 then Ret h
  else
    h ← free_loop (take (Z.to_nat argc) (ptrs_of h p)) h;
    sys (SysMemFree p);;
    Ret (delete p h).

Fixpoint copy_loop (argc i p : Z) (rest : list (list Z)) (h : heap) : prog (Z * heap) :=
  match rest with
  | [] => Ret (p, set_ptr p argc 0 h)
  | s :: rest =>
      let len := strlen s in
      q ← sys64 (SysMemAlloc (u64 (len + 1)));
      let h := set_ptr p i q h in
      if q =? 0 then h ← free_args argc p h; Ret (0, h)
      else copy_loop argc (i + 1) p rest (<[q := Chars (cstr s ++ [0])]> h)
  end.

Definition copy_args (argv : list (list Z)) (h : heap) : prog (Z * heap) :=
  let n := argc argv in
  p ← sys64 (SysMemAlloc (8 * (n + 1)));
  if p =? 0 then Ret (0, h)
  else copy_loop n 0 p argv (<[p := Ptrs (replicate (Z.to_nat (n + 1)) 0)]> h).

(** ** Commands *)

Section Commands.
(** The functions of the table. *)
Variable call_function : cmd_fn -> list (list Z) -> Shell -> prog (Z * Shell).

Definition usage (b : bool) (text : list Z) : prog bool := if b then say text [];; Ret false else Ret true.

Definition command_args_are_valid (command : TShellCmd) (argv : list (list Z)) : prog bool :=
  let one_number := negb (argc argv =? 2) || negb (is_positive_number (argv_at argv 1)) in
  if negb (command_is_test (Some command)) then Ret true
  else if strcmp (name command) (lit "test_mm") =? 0 then usage one_number (ln "Usage: test_mm <max_memory_bytes>")
  else if strcmp (name command) (lit "test_proc") =? 0 then usage one_number (ln "Usage: test_proc <max_processes>")
  else if strcmp (name command) (lit "test_prio") =? 0 then usage one_number (ln "Usage: test_prio <max_value>")
  else if strcmp (name command) (lit "test_sync") =? 0 then
    usage (negb (argc argv =? 3) || negb (is_positive_number (argv_at argv 1)) ||
           negb ((strcmp (argv_at argv 2) (lit "0") =? 0) || (strcmp (argv_at argv 2) (lit "1") =? 0)))
      (ln "Usage: test_sync <n> <use_sem>")
  else Ret true.

(** The part of [CommandParse] behind the search for the command. *)
Definition start_command (command : TShellCmd) (args : list (list Z)) (foreground : Z) (s : Shell) : prog (Z * Shell) :=
  valid ← command_args_are_valid command args;
  if negb valid then Ret (CMD_ERROR, s)
  else
    '(process_args, h) ← copy_args args (uheap s);
    if process_args =? 0 then say (ln "Error: no hay memoria para crear el proceso") [];; Ret (CMD_ERROR, set_heap h s)
    else
      pid ← sys (SysCreate OwnedEntry (name command) 3 foreground (argc args) (ABlock process_args));
      if pid <? 0 then
        h ← free_args (argc args) process_args h;
        say (ln "Error: no se pudo crear el proceso") [];;
        Ret (CMD_ERROR, set_heap h s)
      else if ctrue foreground then sys (SysWait pid);; Ret (OK, set_heap h s)
      else say (ln "[%d]") [AInt pid];; Ret (OK, set_heap h s).

(** [command_process_owned_entry], in the process of the command. *)
Definition command_process_owned_entry (argc argv : Z) (s : Shell) : prog (Z * Shell) :=
  let ptrs := ptrs_of (uheap s) argv in
  let string q := match uheap s !! q with Some (Chars l) => l | _ => [] end in
  '(status, s) ←
    (if negb (argc =? 0) && negb (argv =? 0) && negb (ptrs.[0] =? 0) then
       match find_command (Some (string (ptrs.[0]))) with
       | Some command => call_function (function command) (string <$> take (Z.to_nat argc) ptrs) s
       | None => Ret (ERROR, s)
       end
     else Ret (ERROR, s));
  h ← free_args (i32 argc) argv (uheap s);
  sys (SysExit status);;
  Ret (u64 status, set_heap h s).

(** ** Pipelines *)

(** [command_process_entry] *)
Definition command_process_entry (args : list (list Z)) (s : Shell) : prog (Z * Shell) :=
  match args with
  | [] => sys (SysExit CMD_ERROR);; Ret (u64 CMD_ERROR, s)
  | a :: _ =>
      match find_command (Some a) with
      | Some command =>
          '(status, s) ← call_function (function command) args s;
          sys (SysExit status);; Ret (u64 status, s)
      | None => sys (SysExit ERROR);; Ret (u64 ERROR, s)
      end
  end.

(** Attaching one descriptor: [true] when the process has to give up. *)
Definition attach (pid fd pipe is_write : Z) : prog bool :=
  if pipe >=? 0 then r ← sys (SysPipeSetFd pid fd pipe is_write); Ret (r <? 0) else Ret false.

Definition command_launch_entry (ctx : TCommandLaunch) (s : Shell) : prog (Z * Shell) :=
  pid ← sys SysGetpid;
  failed ← attach pid STDIN (stdin_pipe ctx) 0;
  if failed : bool then sys (SysExit CMD_ERROR);; Ret (u64 CMD_ERROR, s)
  else
    failed ← attach pid STDOUT (stdout_pipe ctx) 1;
    if failed : bool then sys (SysExit CMD_ERROR);; Ret (u64 CMD_ERROR, s)
    else command_process_entry (l_argv ctx) s.

(** The indices of the bars of a line. *)
Fixpoint bars (i : nat) (l : list Z) : list nat :=
  match l with
  | [] => []
  | c :: l => if c =? 124 then i :: bars (S i) l else bars (S i) l
  end.

(** The pipe and the two processes. *)
Definition launch_pipeline (left_args right_args : list (list Z)) : prog Z :=
  pipe_id ← sys SysPipeOpen;
  if pipe_id <? 0 then say (ln "Error: no se pudo crear el pipe") [];; Ret CMD_ERROR
  else
    let left_ctx := mkLaunch (argc left_args) left_args (-1) pipe_id in
    let right_ctx := mkLaunch (argc right_args) right_args pipe_id (-1) in
    left_pid ← sys (SysCreate LaunchEntry (argv_at left_args 0) 3 1 0 (AContext left_ctx));
    if left_pid <? 0 then
      sys (SysPipeClose pipe_id 0);;
      sys (SysPipeClose pipe_id 1);;
      say (ln "Error: no se pudo crear el proceso izquierdo") [];; Ret CMD_ERROR
    else
      right_pid ← sys (SysCreate LaunchEntry (argv_at right_args 0) 3 1 0 (AContext right_ctx));
      if right_pid <? 0 then
        sys (SysKill left_pid);;
        sys (SysPipeClose pipe_id 0);;
        sys (SysPipeClose pipe_id 1);;
        say (ln "Error: no se pudo crear el proceso derecho") [];; Ret CMD_ERROR
      else
        sys (SysWait left_pid);;
        sys (SysWait right_pid);;
        Ret OK.

(** The line is cut at its only bar, in place. *)
Definition execute_pipeline (commandInput : list Z) : prog Z :=
  match bars 0 (cstr commandInput) with
  | [] => Ret ERROR
  | [pos] =>
      let left := trim_spaces (take pos commandInput ++ [0]) in
      let right := trim_spaces (drop (S pos) commandInput) in
      if (hd 0 left =? 0) || (hd 0 right =? 0) then say (ln "Error: pipe incompleto") [];; Ret CMD_ERROR
      else
        let left_args := fillCommandAndArgs left in
        let right_args := fillCommandAndArgs right in
        if (argc left_args =? 0) || (argc right_args =? 0) then say (ln "Error: pipe incompleto") [];; Ret CMD_ERROR
        else if strcmp (argv_at right_args (pred (length right_args))) (lit "&") =? 0 then
          say (ln "Error: pipes en background no soportados") [];; Ret CMD_ERROR
        else
          match find_command (head left_args), find_command (head right_args) with
          | Some _, Some _ => launch_pipeline left_args right_args
          | _, _ => Ret ERROR
          end
  | _ => say (ln "Error: solo se soporta un pipe") [];; Ret CMD_ERROR
  end.

(** ** [CommandParse] *)

Definition CommandParse (commandInput : list Z) (s : Shell) : prog (Z * Shell) :=
  if existsb (fun c => c =? 124) (cstr commandInput) then r ← execute_pipeline commandInput; Ret (r, s)
  else
    let args := fillCommandAndArgs commandInput in
    if argc args =? 0 then Ret (ERROR, s)
    else
      let background := (argc args >? 1) && (strcmp (argv_at args (pred (length args))) (lit "&") =? 0) in
      let foreground := cbool (negb background) in
      let args := if background then take (pred (length args)) args else args in
      match find_command (head args) with
      | None => Ret (ERROR, s)
      | Some command =>
          if ctrue (runs_in_shell command) then call_function (function command) args s
          else start_command command args foreground s
      end.

(** ** The loop *)

Definition shellPrompt (s : Shell) : prog () :=
  say (lit "%s") [AStr (lit "TP-SO-")];; say (lit "%s") [AStr (shellUser s)];; say (lit "%s") [AStr (lit ":~$ ")].

(** [if (buffer[len - 1] == '\n') buffer[len - 1] = '\0';] *)
Definition chomp (buffer : list Z) : list Z :=
  let i := strlen buffer - 1 in if buffer.[i] =? 10 then seti i 0 buffer else buffer.

(** One turn of [shellLoop]; the loop that puts the letters in lower case is
    the one of [toLower].  The bytes that [CommandParse] overwrites in
    [buffer] are not kept: the next [readLine] fills the array again from its
    beginning and puts a terminator. *)
Definition shell_turn (n : nat) (st : list Z * Shell) : prog (list Z * Shell + Shell) :=
  let '(buffer, s) := st in
  shellPrompt s;;
  buffer ← readLine n buffer MAX_LINE_LENGTH;
  if strlen buffer =? 0 then Ret (inl (buffer, s))
  else
    let buffer := toLower (chomp buffer) in
    '(result, s) ← CommandParse buffer s;
    if result =? ERROR then
      say (lit "%s") [AStr (ln "Comando no encontrado, escriba help para ver los comandos disponibles")];;
      Ret (inl (buffer, s))
    else if result =? EXIT_CODE then Ret (inr s)
    else Ret (inl (buffer, s)).

Definition shellLoop (n : nat) (buffer : list Z) (s : Shell) : prog Shell :=
  say (lit "%s") [AStr (ln "Bienvenido a la shell del grupo 9!")];;
  iterate n (shell_turn n) (buffer, s).

(** [main] of [sampleCodeModule.c]. *)
Definition shell_main (n : nat) (buffer : list Z) (s : Shell) : prog Z :=
  shellLoop n buffer s;;
  Ret 0.
End Commands.
