(* ===== verification/ShellCmds.v ===== *)
(** * The commands of the shell

    [shell/commands_builtin.c] and [apps/mvar.c], and the table of functions
    that [find_command] selects from. *)

From Stdlib Require Import String.
From S2P Require Import Prelude Lib UserLib UserProg ShellParse Apps Shell.
Local Open Scope Z_scope.

(** ** [commands_builtin.c] *)

(** Two registers of a line. *)
Definition regs_line (a b : string) (x y : Z) : prog () :=
  say (lit a ++ lit ": %llx" ++ [9] ++ lit b ++ ln ": %llx") [ALong x; ALong y].

(** The snapshot has the layout of [CPURegisters]. *)
Definition regsCmd : prog Z :=
  Sys SysRegs (fun r =>
    match r.2 with
    | [rax; rbx; rcx; rdx; rbp; rdi; rsi; r8; r9; r10; r11; r12; r13; r14; r15; rip; rsp; rflags] =>
        regs_line "RAX" "RBX" rax rbx;;
        regs_line "RCX" "RDX" rcx rdx;;
        regs_line "RSI" "RDI" rsi rdi;;
        regs_line "RBP" "R8 " rbp r8;;
        regs_line "R9 " "R10" r9 r10;;
        regs_line "R11" "R12" r11 r12;;
        regs_line "R13" "R14" r13 r14;;
        regs_line "R15" "RIP" r15 rip;;
        regs_line "RSP" "RFLAGS" rsp rflags;;
        Ret OK
    | _ => Wrong
    end).

(** The lines of the commands of one kind; the loops begin at index 1. *)
Fixpoint help_lines (tests : bool) (l : list TShellCmd) : prog () :=
  match l with
  | [] => Ret ()
  | c :: l =>
      (if eqb (command_is_test (Some c)) tests
       then say (lit "%s") [AStr (name c)];; say (lit "%s") [AStr (help c)] else Ret ());;
      help_lines tests l
  end.

Definition helpCmd : prog Z :=
  say (lit "%s") [AStr (ln "Comandos disponibles:")];;
  help_lines false (tail shellCmds);;
  say (lit "%s") [AStr (10 :: ln "Tests provistos:")];;
  help_lines true (tail shellCmds);;
  Ret OK.

Definition exitCmd : prog Z :=
  sys SysClearScreen;;
  say (lit "%s") [AStr (ln "Saliendo del shell...")];;
  sys (SysSleep 1000);;
  sys SysShutdown;;
  Ret EXIT_CODE.

(** [newName] has [MAX_USER_LENGTH + 1] bytes. *)
Definition setUserCmd (n : nat) (s : Shell) : prog (Z * Shell) :=
  say (lit "%s") [AStr (lit "Ingrese el nuevo nombre de usuario: ")];;
  newName ← readLine n (replicate 11 0) (MAX_USER_LENGTH + 1);
  match strncpy (shellUser s) newName MAX_USER_LENGTH with
  | Some user =>
      say (ln "Nombre de usuario actualizado a: %s") [AStr user];;
      Ret (OK, set_user user s)
  | None => Wrong
  end.

Definition clearCmd : prog Z := sys SysClearScreen;; Ret OK.

(** [getTime] asks for the seconds first. *)
Definition timeCmd : prog Z :=
  s ← sys64 (SysGetTime 0);
  m ← sys64 (SysGetTime 2);
  h ← sys64 (SysGetTime 4);
  say (ln "Hora del sistema: %s") [AStr (getTime (u8 h) (u8 m) (u8 s))];;
  Ret OK.

Definition fontSizeCmd (n : nat) (s : Shell) : prog (Z * Shell) :=
  say (lit "Ingrese el nuevo tamanio de la fuente (1-3): ") [];;
  input ← readLine n (replicate 10 0) 10;
  let size := atoi input in
  if (size <? 1) || (size >? 3) then
    say (ln "Tamanio invalido. Debe estar entre 1 y 3.") [];; Ret (CMD_ERROR, s)
  else
    sys (SysSetFontScale size);;
    sys SysClearScreen;;
    say (ln "Tamanio de fuente cambiado a: %d") [AInt size];;
    Ret (OK, set_scale size s).

(** The division and the instruction raise an exception. *)
Definition exceptionCmd (argv : list (list Z)) : prog Z :=
  if negb (argc argv =? 2) then
    say (ln "Error: cantidad invalida de argumentos." ++ ln "Uso: exceptions [zero, invalidOpcode]") [];; Ret CMD_ERROR
  else if strcmp (argv_at argv 1) (lit "zero") =? 0 then Wrong
  else if strcmp (argv_at argv 1) (lit "invalidopcode") =? 0 then
    say (ln "Ejecutando invalidOpcode...") [];; Wrong
  else
    say (ln "Error: tipo de excepcion invalido." ++
         ln "Ingrese exceptions [zero, invalidOpcode] para testear alguna operacion") [];; Ret CMD_ERROR.

(** ** [mvar.c] *)

Definition MVAR_MAX_WRITERS : Z := 26.
Definition MVAR_MAX_READERS : Z := 20.
Definition MVAR_PIPE_FD : Z := 2.
Definition MVAR_WORKER_DELAY_MS : Z := 350.
Definition MVAR_MAX_DELAY_FACTOR : Z := 3.

(** [sizeof(MVarWorkerArgs)] is 12. *)
Definition spawn_mvar_worker (e : entry) (nm : list Z) (pipe_id worker_id delay_ms : Z) (h : heap) : prog (Z * heap) :=
  args ← sys64 (SysMemAlloc 12);
  if args =? 0 then Ret (-1, h)
  else
    let h := <[args := Worker pipe_id delay_ms worker_id]> h in
    pid ← sys (SysCreate e nm 3 0 0 (ABlock args));
    if pid <? 0 then sys (SysMemFree args);; Ret (-1, delete args h) else Ret (pid, h).

(** A name in an array of 32 bytes. *)
Definition worker_name (fmt : list Z) (a : arg) : prog (list Z) :=
  match sprintf (replicate 32 0) fmt [a] with Some (nm, _) => Ret (cstr nm) | None => Wrong end.

(** [for (i = i0; i < i0 + n; i++)]: the workers created. *)
Fixpoint spawn_loop (e : entry) (fmt error : list Z) (pipe_id first delay : Z) (n : nat) (i created : Z) (h : heap) :
    prog (Z * heap) :=
  match n with
  | O => Ret (created, h)
  | S n =>
      nm ← worker_name fmt (AInt (first + i));
      '(pid, h) ← spawn_mvar_worker e nm pipe_id (first + i) delay h;
      if pid <? 0 then
        say error [AInt (first + i)];;
        spawn_loop e fmt error pipe_id first delay n (i + 1) created h
      else spawn_loop e fmt error pipe_id first delay n (i + 1) (created + 1) h
  end.

Definition mvar_main (argv : list (list Z)) (h : heap) : prog (Z * heap) :=
  if negb (argc argv =? 3) then
    say (ln "Uso: mvar <escritores> <lectores>") [];;
    say (ln "  escritores: cantidad de procesos escritores (1-26)") [];;
    say (ln "  lectores: cantidad de procesos lectores (1-20)") [];;
    Ret (-2, h)
  else
    let num_writers := atoi (argv_at argv 1) in
    let num_readers := atoi (argv_at argv 2) in
    if (num_writers <=? 0) || (num_writers >? MVAR_MAX_WRITERS) then
      say (ln "Error: escritores debe estar entre 1 y 26.") [];; Ret (-2, h)
    else if (num_readers <=? 0) || (num_readers >? MVAR_MAX_READERS) then
      say (ln "Error: lectores debe estar entre 1 y 20.") [];; Ret (-2, h)
    else
      pipe_id ← sys (SysPipeOpenCapacity 1);
      if pipe_id <? 0 then say (ln "Error: no se pudo crear el pipe.") [];; Ret (-2, h)
      else
        say (ln "Iniciando MVar con %d escritores y %d lectores.") [AInt num_writers; AInt num_readers];;
        say (ln "Pipe ID: %d") [AInt pipe_id];;
        '(created_writers, h) ← spawn_loop MVarWriter (lit "mvar_writer_%c")
          (ln "Error: no se pudo crear el escritor %c.") pipe_id 65 MVAR_WORKER_DELAY_MS (Z.to_nat num_writers) 0 0 h;
        let reader_delay := MVAR_WORKER_DELAY_MS *
          (if num_readers <? MVAR_MAX_DELAY_FACTOR then num_readers else MVAR_MAX_DELAY_FACTOR) in
        '(created_readers, h) ← spawn_loop MVarReader (lit "mvar_reader_%d")
          (ln "Error: no se pudo crear el lector %d.") pipe_id 0 reader_delay (Z.to_nat num_readers) 0 0 h;
        say (ln "Creados %d/%d escritores y %d/%d lectores.")
          [AInt created_writers; AInt num_writers; AInt created_readers; AInt num_readers];;
        say (ln "La simulacion queda corriendo en background.") [];;
        Ret (0, h).

Definition mvar_exit (status : Z) (h : heap) : prog (Z * heap) := sys (SysExit status);; Ret (u64 status, h).

(** What both workers do before their loop: the arguments are copied and
    freed, and the pipe becomes descriptor 2. *)
Definition mvar_worker (raw_args is_write : Z) (body : Z -> Z -> prog Z) (h : heap) : prog (Z * heap) :=
  if raw_args =? 0 then mvar_exit 1 h
  else
    match h !! raw_args with
    | Some (Worker pipe_id delay_ms worker_id) =>
        sys (SysMemFree raw_args);;
        let h := delete raw_args h in
        pid ← sys SysGetpid;
        r ← sys (SysPipeSetFd pid MVAR_PIPE_FD pipe_id is_write);
        if r <? 0 then mvar_exit 1 h
        else body worker_id delay_ms;; mvar_exit 0 h
    | _ => Wrong
    end.

Definition mvar_writer_entry (n : nat) (raw_args : Z) : heap -> prog (Z * heap) :=
  mvar_worker raw_args 1 (fun worker_id delay_ms =>
    iterate n (fun _ : () =>
      written ← sys (SysWrite MVAR_PIPE_FD [i8 worker_id]);
      if negb (written =? 1) then Ret (inr 0)
      else sys SysYield;; sys (SysSleep delay_ms);; Ret (inl ())) ()).

Definition reader_colors : list Z := [
  0xFF4D4D; 0x00D26A; 0x0096FF; 0xFFD23F; 0xD66BFF;
  0x00E5E5; 0xFF8A00; 0x8AFF00; 0x4D79FF; 0xFF66B3;
  0x66FF99; 0xB366FF; 0xFF3333; 0x33FFCC; 0xCCFF33;
  0xFF33CC; 0x33CCFF; 0xFFCC33; 0x99FF33; 0x3399FF].

Definition mvar_reader_entry (n : nat) (raw_args : Z) : heap -> prog (Z * heap) :=
  mvar_worker raw_args 0 (fun worker_id delay_ms =>
    let color := reader_colors.[Z.rem worker_id MVAR_MAX_READERS] in
    iterate n (fun _ : () =>
      '(read, buf) ← sys_read MVAR_PIPE_FD 1;
      if read =? 1 then
        sys (SysPutChar (hd 63 buf) color 0);; sys SysYield;; sys (SysSleep delay_ms);; Ret (inl ())
      else Ret (inr 0)) ()).

(** ** The table *)

Section Table.
(** The iterations of the loops, and the test programs. *)
Context (n : nat) (test : cmd_fn -> list (list Z) -> Shell -> prog (Z * Shell)).

Definition call_function (f : cmd_fn) (argv : list (list Z)) (s : Shell) : prog (Z * Shell) :=
  let plain (p : prog Z) := r ← p; Ret (r, s) in
  match f with
  | F_helpCmd => plain helpCmd
  | F_exitCmd => plain exitCmd
  | F_setUserCmd => setUserCmd n s
  | F_clearCmd => plain clearCmd
  | F_timeCmd => plain timeCmd
  | F_fontSizeCmd => fontSizeCmd n s
  | F_exceptionCmd => plain (exceptionCmd argv)
  | F_regsCmd => plain regsCmd
  | F_loop_main => plain (loop_main n)
  | F_ps_main => plain ps_main
  | F_kill_main => plain (kill_main argv)
  | F_nice_main => plain (nice_main argv)
  | F_block_main => plain (block_main argv)
  | F_unblock_main => plain (unblock_main argv)
  | F_cat_main => plain (cat_main n)
  | F_wc_main => plain (wc_main n)
  | F_filter_main => plain (filter_main n)
  | F_mvar_main => '(r, h) ← mvar_main argv (uheap s); Ret (r, set_heap h s)
  | F_mem_main => plain mem_main
  | F_test_sync_cmd | F_test_mm_cmd | F_test_proc_cmd | F_test_prio_cmd => test f (tail argv) s
  end.
End Table.
