(* ===== verification/ShellProps.v ===== *)
(** * Commands as processes

    The copies of the arguments of a command on the heap: who owns them, and
    that they are freed on every path. *)

From Stdlib Require Import String.
From S2P Require Import Prelude Lib UserLib UserLibProps UserProg ShellParse ShellParseProps Apps Shell ShellCmds.
Local Open Scope Z_scope.

(** ** Running a program *)

Lemma run_sys {A} k c (f : Z -> prog A) tr :
  run k (x ← sys c; f x) tr = run k (f (i32 (k tr c).1)) (tr ++ [(c, k tr c)]).
Proof. done. Qed.

Lemma run_sys64 {A} k c (f : Z -> prog A) tr :
  run k (x ← sys64 c; f x) tr = run k (f (u64 (k tr c).1)) (tr ++ [(c, k tr c)]).
Proof. done. Qed.

(** A message is output and nothing else. *)
Lemma run_say {A} k fmt args out n (f : prog A) tr :
  printf fmt args = Some (out, n) ->
  exists t, run k (say fmt args;; f) tr = run k f (tr ++ t) /\ actions t = [] /\ output t = out.
Proof.
  intros E. unfold say. rewrite !run_bind. destruct (run_uprintf k _ _ _ _ tr E) as (t & -> & Ho & Ha). by exists t.
Qed.

(** Steps over a message whose text is a literal. *)
Ltac say_step :=
  match goal with
  | |- context [run ?k (say ?fmt ?args;; ?f) ?tr] =>
      let t := fresh "t" in let Ht := fresh "Ht" in let E := fresh "E" in
      edestruct (run_say k fmt args _ _ f tr eq_refl) as (t & E & Ht & _); rewrite E; clear E
  end.

(** The [int] that a call returned. *)
Definition answered (t : trace) (c : call) (v : Z) : Prop := exists r, (c, r) ∈ t /\ v = i32 r.1.

(** ** Heap blocks in use *)

Definition live_step (l : gset Z) (e : call * reply) : gset Z :=
  match e.1 with
  | SysMemAlloc _ => let p := u64 e.2.1 in if p =? 0 then l else {[p]} ∪ l
  | SysMemFree p => l ∖ {[p]}
  | _ => l
  end.

(** The blocks that have been allocated and not freed. *)
Definition live (tr : trace) : gset Z := foldl live_step ∅ tr.

(** A memory manager does not hand out a block that is in use. *)
Definition fresh_blocks (k : kernel) : Prop := forall tr n, u64 (k tr (SysMemAlloc n)).1 ∉ live tr.

Lemma live_snoc tr e : live (tr ++ [e]) = live_step (live tr) e.
Proof. unfold live. by rewrite foldl_app. Qed.

Lemma live_zero tr : 0 ∉ live tr.
Proof.
  induction tr as [|[c r] tr IH] using rev_ind; [set_solver|]. rewrite live_snoc. unfold live_step. cbn.
  destruct c; try done; [case_if; set_solver by lia|set_solver].
Qed.

Lemma live_actions tr t : actions t = [] -> live (tr ++ t) = live tr.
Proof.
  revert tr. induction t as [|[c r] t IH]; intros tr H; [by rewrite app_nil_r|].
  unfold actions in H. rewrite filter_cons in H. destruct (decide _) as [|Hc]; [done|].
  change ((c, r) :: t) with ([(c, r)] ++ t). rewrite app_assoc, (IH _ H), live_snoc. by destruct c.
Qed.

(** ** Copies of arguments *)

(** The heap of the model has the blocks that are in use. *)
Definition heap_ok (h : heap) (tr : trace) : Prop := dom h = live tr.

Lemma free_loop_run k l h tr :
  heap_ok h tr ->
  exists t h', run k (free_loop l h) tr = (tr ++ t, Done h') /\ heap_ok h' (tr ++ t) /\
    live (tr ++ t) = live tr ∖ list_to_set l /\ (forall q, q ∉ l -> h' !! q = h !! q).
Proof.
  unfold heap_ok. revert h tr. induction l as [|q l IH]; intros h tr Hh; cbn [free_loop].
  { exists [], h. rewrite app_nil_r. split_and!; [done|done|set_solver|done]. }
  pose proof (live_zero tr) as Hz. case_if.
  - destruct (IH h tr Hh) as (t & h' & -> & Hd & Hl & Hs). exists t, h'. assert (q = 0) as -> by lia.
    split_and!; [done|done|set_solver|set_solver].
  - rewrite run_sys. set (e := (SysMemFree q, _)).
    destruct (IH (delete q h) (tr ++ [e])) as (t & h' & -> & Hd & Hl & Hs).
    { rewrite live_snoc. cbn. rewrite dom_delete_L. by rewrite Hh. }
    exists ([e] ++ t), h'. rewrite app_assoc. split_and!; [done|done| |].
    + rewrite Hl, live_snoc. cbn. set_solver.
    + intros x Hx. rewrite Hs by set_solver. apply lookup_delete_ne. set_solver.
Qed.

Lemma free_args_run k n p h tr :
  heap_ok h tr -> p <> 0 ->
  exists t h', run k (free_args n p h) tr = (tr ++ t, Done h') /\ heap_ok h' (tr ++ t) /\
    live (tr ++ t) = live tr ∖ list_to_set (p :: take (Z.to_nat n) (ptrs_of h p)) /\
    (forall q, q ∉ p :: take (Z.to_nat n) (ptrs_of h p) -> h' !! q = h !! q).
Proof.
  intros Hh Hp. unfold free_args. replace (p =? 0) with false by lia. rewrite run_bind.
  destruct (free_loop_run k (take (Z.to_nat n) (ptrs_of h p)) h tr Hh) as (t & h' & -> & Hd & Hl & Hs).
  rewrite run_sys. cbn [run]. set (e := (SysMemFree p, _)).
  exists (t ++ [e]), (delete p h'). rewrite app_assoc. unfold heap_ok in *. rewrite live_snoc, dom_delete_L, Hd. cbn.
  split_and!; [done|done| |].
  - rewrite Hl. set_solver.
  - intros q Hq. rewrite lookup_delete_ne by set_solver. apply Hs. set_solver.
Qed.

(** The strings that the pointers [l] of a heap designate. *)
Definition holds (h : heap) (l : list Z) (args : list (list Z)) : Prop :=
  Forall2 (fun q s => h !! q = Some (Chars (cstr s ++ [0]))) l args.

Lemma holds_frame h h' l args : holds h l args -> (forall q, q ∈ l -> h' !! q = h !! q) -> holds h' l args.
Proof.
  intros H. induction H as [|q s l args Hq _ IH]; intros E; constructor.
  - by rewrite E by set_solver.
  - apply IH. set_solver.
Qed.

(** The block [p] and the strings behind it hold [args]; [L] are the blocks in
    use, and [L0] those of them that are not part of the copy. *)
Definition owns (h : heap) (p : Z) (args : list (list Z)) (L0 L : gset Z) : Prop :=
  exists l, h !! p = Some (Ptrs (l ++ [0])) /\
    holds h l args /\
    0 ∉ p :: l /\ NoDup (p :: l) /\ L = L0 ∪ list_to_set (p :: l) /\ L0 ## list_to_set (p :: l).

Lemma set_ptr_lookup p i q h l :
  h !! p = Some (Ptrs l) -> set_ptr p i q h = <[p := Ptrs (seti i q l)]> h.
Proof. intros E. unfold set_ptr, ptrs_of. by rewrite E. Qed.

(** When a block of the copy is refused, what was copied is freed. *)
Lemma copy_fail k p n l m L0 h tr :
  heap_ok h tr -> Z.of_nat (length l) <= n -> h !! p = Some (Ptrs (l ++ replicate m 0)) ->
  p <> 0 -> live tr = L0 ∪ list_to_set (p :: l) -> L0 ## list_to_set (p :: l) ->
  exists t h', run k (free_args n p h) tr = (tr ++ t, Done h') /\ heap_ok h' (tr ++ t) /\
    (forall q, q ∈ L0 -> h' !! q = h !! q) /\ live (tr ++ t) = L0.
Proof.
  intros Hh Hn Hp Hp0 HL HD. destruct (free_args_run k n p h tr Hh Hp0) as (t & h' & E & Hd & Hl & Hs).
  assert (Eptr : ptrs_of h p = l ++ replicate m 0) by (unfold ptrs_of; by rewrite Hp). rewrite Eptr in *.
  rewrite take_app_ge in * by lia. pose proof (live_zero tr) as Hz. rewrite HL in Hz.
  assert (Hr : forall x, x ∈ take (Z.to_nat n - length l) (replicate m 0) -> x = 0).
  { intros x Hx%elem_of_take. destruct Hx as (j & Hx & _). by apply lookup_replicate in Hx as [-> _]. }
  exists t, h'. split_and!; [done|done| |].
  - intros q Hq. apply Hs. intros [->|[Hx|Hx]%elem_of_app]%list.elem_of_cons; [set_solver|set_solver|].
    apply Hr in Hx. set_solver.
  - rewrite Hl, HL. apply set_eq. intros x. specialize (Hr x). set_solver.
Qed.

(** From a state where the strings of [prev] have been copied. *)
Lemma copy_loop_run k p rest : forall argc i l prev L0 h tr,
  fresh_blocks k -> heap_ok h tr ->
  i = Z.of_nat (length l) -> argc = i + Z.of_nat (length rest) ->
  h !! p = Some (Ptrs (l ++ replicate (S (length rest)) 0)) -> holds h l prev ->
  0 ∉ p :: l -> NoDup (p :: l) -> live tr = L0 ∪ list_to_set (p :: l) -> L0 ## list_to_set (p :: l) ->
  exists t r h', run k (copy_loop argc i p rest h) tr = (tr ++ t, Done (r, h')) /\ heap_ok h' (tr ++ t) /\
    (forall q, q ∈ L0 -> h' !! q = h !! q) /\
    ((r = 0 /\ live (tr ++ t) = L0) \/ (r = p /\ owns h' p (prev ++ rest) L0 (live (tr ++ t)))).
Proof.
  induction rest as [|s rest IH]; intros argc i l prev L0 h tr Hf Hh Hi Hn Hp Hl H0 Hnd HL HD; cbn [copy_loop].
  { exists [], p, (set_ptr p argc 0 h). rewrite app_nil_r. rewrite (set_ptr_lookup _ _ _ _ _ Hp). cbn [length replicate].
    rewrite seti_middle by (simpl in Hn; lia).
    rewrite insert_id by done. split_and!; [done|done|done|]. right. split; [done|]. exists l. by rewrite app_nil_r. }
  rewrite run_sys64. set (n := u64 (strlen s + 1)). set (q := u64 (k tr (SysMemAlloc n)).1).
  pose proof (Hf tr n) as Hfr. fold q in Hfr. set (e := (SysMemAlloc n, _)).
  assert (Elive : live (tr ++ [e]) = if q =? 0 then live tr else {[q]} ∪ live tr) by (rewrite live_snoc; done).
  rewrite (set_ptr_lookup _ _ _ _ _ Hp). cbn [length replicate]. rewrite seti_middle by done.
  set (h1 := <[p := _]> h). assert (Hpl : p ∈ live tr) by (rewrite <- Hh; by eapply elem_of_dom_2).
  assert (Hd1 : dom h1 = live tr) by (unfold h1; rewrite dom_insert_L, Hh; set_solver).
  assert (Hp1 : h1 !! p = Some (Ptrs (l ++ q :: replicate (S (length rest)) 0))) by apply lookup_insert_eq.
  assert (Hs1 : forall x, x <> p -> h1 !! x = h !! x) by (intros; by apply lookup_insert_ne).
  clearbody h1. destruct (q =? 0) eqn:Eq.
  - assert (Eq0 : q = 0) by lia. rewrite Eq0 in Hp1. rewrite run_bind.
    destruct (copy_fail k p argc l (S (S (length rest))) L0 h1 (tr ++ [e])) as (t & h' & -> & Hd' & Hs' & Hl');
      [by rewrite <- Elive in Hd1|lia|done|set_solver|by rewrite Elive|done|].
    exists ([e] ++ t), 0, h'. rewrite app_assoc. split_and!; [done|done| |auto].
    intros x Hx. rewrite Hs' by done. apply Hs1. set_solver.
  - assert (Hqp : q ∉ p :: l) by (rewrite HL in Hfr; set_solver).
    destruct (IH argc (i + 1) (l ++ [q]) (prev ++ [s]) L0 (<[q := Chars (cstr s ++ [0])]> h1) (tr ++ [e]))
      as (t & r & h' & -> & Hd' & Hs' & Hr); try done.
    + unfold heap_ok. by rewrite Elive, dom_insert_L, Hd1.
    + rewrite length_app. simpl. lia.
    + simpl in Hn. lia.
    + rewrite lookup_insert_ne by set_solver. by rewrite Hp1, <- app_assoc.
    + apply Forall2_app; [|constructor; [by rewrite lookup_insert_eq|done]].
      apply (holds_frame h); [done|]. intros x Hx. rewrite lookup_insert_ne by set_solver. apply Hs1.
      apply list.NoDup_cons in Hnd as [Hnp _]. by intros ->.
    + set_solver by lia.
    + rewrite app_comm_cons. apply list.NoDup_app. split_and!; [done|set_solver|by apply NoDup_singleton].
    + rewrite Elive, HL. set_solver.
    + rewrite HL in Hfr. set_solver.
    + exists ([e] ++ t), r, h'. rewrite app_assoc. rewrite <- (app_assoc prev) in Hr. split_and!; [done|done| |done].
      intros x Hx. rewrite Hs', lookup_insert_ne by set_solver. apply Hs1. set_solver.
Qed.

(** Copying and freeing only ask for memory. *)
Lemma only_free_args n p h : only is_mem (free_args n p h).
Proof.
  unfold free_args. case_if; [done|]. apply only_bind; [|by intros; simpl].
  generalize (take (Z.to_nat n) (ptrs_of h p)). intros l. revert h. induction l as [|q l IH]; intros h; cbn [free_loop]; [done|].
  case_if; [done|]. simpl. auto.
Qed.

Lemma only_copy_args args h : only is_mem (copy_args args h).
Proof.
  unfold copy_args. simpl. split; [done|]. intros r. case_if; [done|]. generalize (<[u64 r.1 := Ptrs (replicate (Z.to_nat (argc args + 1)) 0)]> h).
  generalize (argc args) at 1. generalize 0 at 1. generalize (u64 r.1).
  induction args as [|s args IH]; intros p i n h1; cbn [copy_loop]; [done|]. simpl. split; [done|]. intros r'.
  case_if; [|apply IH]. apply only_bind; [apply only_free_args|done].
Qed.

Lemma copy_args_run k args h tr :
  fresh_blocks k -> heap_ok h tr ->
  exists t p h', run k (copy_args args h) tr = (tr ++ t, Done (p, h')) /\ heap_ok h' (tr ++ t) /\ control t = [] /\
    (forall q, q ∈ live tr -> h' !! q = h !! q) /\
    ((p = 0 /\ live (tr ++ t) = live tr) \/ (p <> 0 /\ owns h' p args (live tr) (live (tr ++ t)))).
Proof.
  intros Hf Hh. enough (exists t p h', run k (copy_args args h) tr = (tr ++ t, Done (p, h')) /\ heap_ok h' (tr ++ t) /\
    (forall q, q ∈ live tr -> h' !! q = h !! q) /\
    ((p = 0 /\ live (tr ++ t) = live tr) \/ (p <> 0 /\ owns h' p args (live tr) (live (tr ++ t))))) as (t & p & h' & E & H1 & H2).
  { exists t, p, h'. split_and!; try done; [|apply H2..]. apply control_mem. eapply run_only; [apply only_copy_args|exact E]. }
  unfold copy_args. rewrite run_sys64. set (n := 8 * (argc args + 1)). set (p := u64 (k tr (SysMemAlloc n)).1).
  pose proof (Hf tr n) as Hfr. fold p in Hfr. set (e := (SysMemAlloc n, _)).
  assert (Elive : live (tr ++ [e]) = if p =? 0 then live tr else {[p]} ∪ live tr) by (rewrite live_snoc; done).
  destruct (p =? 0) eqn:Ep.
  { exists [e], 0, h. unfold heap_ok. rewrite Elive. by split_and!; [..|left]. }
  destruct (copy_loop_run k p args (argc args) 0 [] [] (live tr)
    (<[p := Ptrs (replicate (Z.to_nat (argc args + 1)) 0)]> h) (tr ++ [e])) as (t & r & h' & -> & Hd & Hs & Hr);
    [done|..|].
  - unfold heap_ok. by rewrite Elive, dom_insert_L, Hh.
  - done.
  - unfold argc. lia.
  - rewrite lookup_insert_eq. by replace (Z.to_nat (argc args + 1)) with (S (length args)) by (unfold argc; lia).
  - constructor.
  - set_solver by lia.
  - apply NoDup_singleton.
  - rewrite Elive. set_solver.
  - set_solver.
  - exists ([e] ++ t), r, h'. rewrite app_assoc. split_and!; [done|done| |].
    + intros q Hq. rewrite Hs by done. apply lookup_insert_ne. by intros ->.
    + destruct Hr as [?|[-> ?]]; [by left|right]. split; [lia|done].
Qed.

(** Freeing a copy frees all of it and nothing else. *)
Lemma owned_free k p args L0 h tr :
  heap_ok h tr -> owns h p args L0 (live tr) ->
  exists t h', run k (free_args (argc args) p h) tr = (tr ++ t, Done h') /\ heap_ok h' (tr ++ t) /\ control t = [] /\
    (forall q, q ∈ L0 -> h' !! q = h !! q) /\ live (tr ++ t) = L0.
Proof.
  intros Hh (l & Hp & Hl & H0 & _ & HL & HD). pose proof (Forall2_length Hl) as Hlen.
  destruct (copy_fail k p (argc args) l 1 L0 h tr) as (t & h' & E & H); [done|unfold argc; lia|done|set_solver|done|done|].
  exists t, h'. split_and!; try apply H; [done|]. apply control_mem. eapply run_only; [apply only_free_args|exact E].
Qed.

Lemma live_other tr c r : is_mem c = false -> live (tr ++ [(c, r)]) = live tr.
Proof. rewrite live_snoc. by destruct c. Qed.

(** ** Starting a command *)

Lemma heap_unchanged h h' tr tr' :
  heap_ok h tr -> heap_ok h' tr' -> live tr' = live tr -> (forall q, q ∈ live tr -> h' !! q = h !! q) -> h' = h.
Proof.
  unfold heap_ok. intros H1 H2 E Hs. apply map_eq. intros q. destruct (decide (q ∈ live tr)) as [|Hq]; [auto|].
  rewrite (proj1 (not_elem_of_dom h' q)), (proj1 (not_elem_of_dom h q)); [done|congruence..].
Qed.

(** The check of the arguments of a command only writes. *)
Lemma args_are_valid_run k command args tr :
  exists t b, run k (command_args_are_valid command args) tr = (tr ++ t, Done b) /\ actions t = [].
Proof.
  assert (Hu : forall b text out n, printf text [] = Some (out, n) ->
    exists t v, run k (usage b text) tr = (tr ++ t, Done v) /\ actions t = []).
  { intros b text out n E. unfold usage. destruct b; [|exists [], true; by rewrite app_nil_r].
    destruct (run_say k text [] out n (Ret false) tr E) as (t & -> & Ha & _). by exists t, false. }
  unfold command_args_are_valid. cbv zeta. repeat case_if; try (eapply Hu; reflexivity); exists [], true; by rewrite app_nil_r.
Qed.

(** C19: Against every kernel whose memory manager gives out blocks that are not
    in use, starting a command ends with one of two outcomes.  Either it
    reports an error, and then the heap is what it was: every block that was
    allocated for the arguments has been freed, and no process was created.
    Or one process has been created that owns a copy of the arguments, each of
    them terminated, in blocks of their own, and these are all the blocks that
    are in use and were not before; the shell has waited for the process
    exactly when it runs in the foreground. *)
Theorem start_command_spec (k : kernel) (command : TShellCmd) (args : list (list Z)) (fg : Z) (s : Shell) (tr : trace) :
  fresh_blocks k -> heap_ok (uheap s) tr ->
  exists t r s', run k (start_command command args fg s) tr = (tr ++ t, Done (r, s')) /\
    heap_ok (uheap s') (tr ++ t) /\
    ((r = CMD_ERROR /\ s' = s /\ live (tr ++ t) = live tr /\
      (control t = [] \/ exists p, control t = [SysCreate OwnedEntry (name command) 3 fg (argc args) (ABlock p)])) \/
     (r = OK /\ exists p pid, 0 <= pid /\ owns (uheap s') p args (live tr) (live (tr ++ t)) /\
      control t = SysCreate OwnedEntry (name command) 3 fg (argc args) (ABlock p) :: (if ctrue fg then [SysWait pid] else []))).
Proof.
  intros Hf Hh. unfold start_command. rewrite run_bind.
  destruct (args_are_valid_run k command args tr) as (t0 & valid & -> & Ha0).
  pose proof (live_actions tr t0 Ha0) as Hl0. pose proof (control_actions t0 Ha0) as Hc0.
  assert (Hset : forall h, h = uheap s -> set_heap h s = s) by (intros h ->; by destruct s).
  destruct valid; cbn [negb].
  2:{ exists t0, CMD_ERROR, s. unfold heap_ok. rewrite Hl0. split_and!; auto 10. }
  rewrite run_bind. destruct (copy_args_run k args (uheap s) (tr ++ t0)) as (t1 & p & h & -> & Hh1 & Hc1 & Hs1 & Hp);
    [done|by unfold heap_ok; rewrite Hl0|]. rewrite Hl0 in *.
  destruct Hp as [[-> Hl1]|[Hp0 Ho]].
  { cbn [Z.eqb]. say_step. exists (t0 ++ t1 ++ t), CMD_ERROR, s. cbn [run].
    rewrite !app_assoc in *. rewrite (Hset h).
    2:{ eapply heap_unchanged; [exact Hh|exact Hh1|done|done]. }
    unfold heap_ok. rewrite live_actions, Hl1 by done. rewrite !control_app, Hc0, Hc1, (control_actions t) by done.
    split_and!; auto 10. }
  replace (p =? 0) with false by lia. rewrite run_sys. set (c := SysCreate _ _ _ _ _ _). set (e := (c, _)).
  assert (He : live (((tr ++ t0) ++ t1) ++ [e]) = live ((tr ++ t0) ++ t1)) by (by apply live_other).
  assert (Hce : control [e] = [c]) by done. set (pid := i32 _). clearbody e pid.
  assert (Hh2 : heap_ok h (((tr ++ t0) ++ t1) ++ [e])) by (unfold heap_ok; by rewrite He).
  destruct (pid <? 0) eqn:Epid; [|destruct (ctrue fg)].
  - rewrite run_bind. destruct (owned_free k p args (live tr) h (((tr ++ t0) ++ t1) ++ [e])) as (t2 & h2 & -> & Hh3 & Hc3 & Hs3 & Hl3);
      [done|by rewrite He|]. say_step. cbn [run]. exists (t0 ++ t1 ++ [e] ++ t2 ++ t), CMD_ERROR, s.
    rewrite !app_assoc in *. rewrite (Hset h2).
    2:{ eapply heap_unchanged; [exact Hh|exact Hh3|done|]. intros q Hq. by rewrite Hs3, Hs1. }
    unfold heap_ok. rewrite live_actions, Hl3 by done.
    rewrite !control_app, Hc0, Hc1, Hce, Hc3, (control_actions t) by done. split_and!; eauto 10.
  - rewrite run_sys. set (e2 := (SysWait pid, _)). cbn [run].
    assert (He2 : live ((((tr ++ t0) ++ t1) ++ [e]) ++ [e2]) = live ((tr ++ t0) ++ t1)) by (rewrite <- He; by apply live_other).
    exists (t0 ++ t1 ++ [e] ++ [e2]), OK, (set_heap h s). rewrite !app_assoc in *. unfold heap_ok. rewrite He2.
    split_and!; [done|done|]. right. split; [done|]. exists p, pid. split_and!; [lia|done|].
    by rewrite !control_app, Hc0, Hc1, Hce.
  - say_step.
    cbn [run]. exists (t0 ++ t1 ++ [e] ++ t), OK, (set_heap h s). rewrite !app_assoc in *. unfold heap_ok.
    rewrite live_actions, He by done. split_and!; [done|done|]. right. split; [done|]. exists p, pid. split_and!; [lia|done|].
    by rewrite !control_app, Hc0, Hc1, Hce, (control_actions t).
Qed.

(** The process of a command runs the function of the command on the
    arguments that its parent copied for it, frees the whole copy and nothing
    else, provided the function leaves the heap as it found it, and exits with
    the status of the function. *)
Theorem owned_entry_spec (fn : cmd_fn -> list (list Z) -> Shell -> prog (Z * Shell))
    (k : kernel) (p : Z) (a : list Z) (rest : list (list Z)) (c : TShellCmd) (L0 : gset Z)
    (s s1 : Shell) (tr tr1 : trace) (status : Z) :
  let args := a :: rest in
  heap_ok (uheap s) tr -> owns (uheap s) p args L0 (live tr) -> argc args < 2 ^ 31 ->
  find_command (Some (cstr a ++ [0])) = Some c ->
  run k (fn (function c) ((fun x => cstr x ++ [0]) <$> args) s) tr = (tr1, Done (status, s1)) ->
  uheap s1 = uheap s -> live tr1 = live tr ->
  exists t s', run k (command_process_owned_entry fn (argc args) p s) tr = (tr1 ++ t, Done (u64 status, s')) /\
    heap_ok (uheap s') (tr1 ++ t) /\ live (tr1 ++ t) = L0 /\ control t = [SysExit status].
Proof.
  intros args Hh Ho Hn Hc Hrun E1 E2. pose proof Ho as (l & Hp & Hl & H0 & Hnd & HL & HD).
  unfold command_process_owned_entry. cbv zeta.
  assert (Eptr : ptrs_of (uheap s) p = l ++ [0]) by (unfold ptrs_of; by rewrite Hp). rewrite Eptr.
  pose proof (Forall2_length Hl) as Hlen.
  assert (Etake : take (Z.to_nat (argc args)) (l ++ [0]) = l) by (apply take_app_length'; unfold argc; lia). rewrite Etake.
  assert (Estr : (fun q => match uheap s !! q with Some (Chars l) => l | _ => [] end) <$> l = (fun x => cstr x ++ [0]) <$> args).
  { clear -Hl. induction Hl as [|q x l args Hq _ IH]; [done|]. cbn. by rewrite Hq, IH. }
  rewrite Estr. destruct l as [|q l]; [done|]. inversion Hl as [|? ? ? ? Hq Hl']; subst.
  change ((q :: l) ++ [0]).[0] with q.
  replace (negb (argc args =? 0) && negb (p =? 0) && negb (q =? 0)) with true.
  2:{ unfold argc, args. cbn [length]. symmetry. rewrite !andb_true_iff, !negb_true_iff. set_solver by lia. }
  rewrite Hq, Hc. rewrite run_bind, Hrun, run_bind.
  rewrite i32_small by (unfold argc in *; lia). rewrite E1.
  destruct (owned_free k p args L0 (uheap s) tr1) as (t & h' & -> & Hh' & Hct & Hs' & Hlive);
    [unfold heap_ok; by rewrite E2|by rewrite E2|].
  rewrite run_sys. cbn [run]. set (e := (SysExit status, _)).
  assert (He : live ((tr1 ++ t) ++ [e]) = live (tr1 ++ t)) by (by apply live_other).
  exists (t ++ [e]), (set_heap h' s1). rewrite app_assoc. unfold heap_ok. rewrite He.
  split_and!; [done|done|done|]. by rewrite control_app, Hct.
Qed.

(** A kernel with a memory manager of its own: blocks are taken upwards, and
    every other call replies 7. *)
Definition demo_kernel : kernel := fun tr c =>
  match c with
  | SysMemAlloc _ => let p := u64 (16 * (1 + Z.of_nat (length tr))) in (if decide (p ∈ live tr) then 0 else p, [])
  | _ => (7, [])
  end.

Lemma demo_fresh : fresh_blocks demo_kernel.
Proof.
  intros tr n. unfold demo_kernel. destruct (decide _) as [|H]; cbn [fst]; [exact (live_zero tr)|].
  rewrite u64_small; [done|apply u64_range].
Qed.

Definition cat_cmd : TShellCmd := mkCmd (lit "cat") F_cat_main (lit ": Imprime stdin tal como lo recibe" ++ [10]) 0 0.

Lemma start_command_spec_witness :
  exists t r s', run demo_kernel (start_command cat_cmd [lit "cat"; lit "-"] 1 shell_init) [] = (t, Done (r, s')) /\
    heap_ok (uheap s') t.
Proof.
  destruct (start_command_spec demo_kernel cat_cmd [lit "cat"; lit "-"] 1 shell_init [] demo_fresh eq_refl)
    as (t & r & s' & E & H & _). exists t, r, s'. exact (conj E H).
Defined.

(** The copy of the arguments of a command, and the process on it. *)
Definition demo_history : trace := [(SysMemAlloc 16, (16, [])); (SysMemAlloc 4, (32, []))].
Definition demo_shell : Shell :=
  mkShell (lit "usuario") 1 (<[16 := Ptrs [32; 0]]> (<[32 := Chars (lit "cat" ++ [0])]> ∅)).

Lemma demo_owns : owns (uheap demo_shell) 16 [lit "cat"] ∅ (live demo_history).
Proof.
  exists [32]. split_and!; [done| | |by apply (bool_decide_unpack _)|by vm_compute|set_solver].
  - by repeat constructor.
  - by apply (bool_decide_unpack _).
Qed.

Lemma owned_entry_spec_witness :
  exists t s', run (fun _ _ => (0, []))
    (command_process_owned_entry (call_function 1 (fun _ _ s => Ret (0, s))) 1 16 demo_shell) demo_history =
      ((demo_history ++ [(SysRead 0 128, (0, []))]) ++ t, Done (0, s')) /\
    live ((demo_history ++ [(SysRead 0 128, (0, []))]) ++ t) = ∅.
Proof.
  destruct (owned_entry_spec (call_function 1 (fun _ _ s => Ret (0, s))) (fun _ _ => (0, [])) 16 (lit "cat") [] cat_cmd ∅
    demo_shell demo_shell demo_history (demo_history ++ [(SysRead 0 128, (0, []))]) 0) as (t & s' & E & _ & Hl & _);
    [by vm_compute|exact demo_owns|done|done|done|done|by vm_compute|].
  exists t, s'. exact (conj E Hl).
Defined.
