(* ===== verification/PipelineProps.v ===== *)
(** * Pipelines of two commands *)

From Stdlib Require Import String.
From S2P Require Import Prelude Lib UserLib UserLibProps UserProg ShellParse ShellParseProps Apps Shell ShellCmds ShellProps.
Local Open Scope Z_scope.

(** The calls of a pipeline, for each way it can go. *)
Definition left_create (la : list (list Z)) (id : Z) : call :=
  SysCreate LaunchEntry (argv_at la 0) 3 1 0 (AContext (mkLaunch (argc la) la (-1) id)).
Definition right_create (ra : list (list Z)) (id : Z) : call :=
  SysCreate LaunchEntry (argv_at ra 0) 3 1 0 (AContext (mkLaunch (argc ra) ra id (-1))).

Definition pipeline_calls (la ra : list (list Z)) (id lpid rpid : Z) : list call :=
  SysPipeOpen ::
  if id <? 0 then []
  else left_create la id ::
    if lpid <? 0 then [SysPipeClose id 0; SysPipeClose id 1]
    else right_create ra id ::
      if rpid <? 0 then [SysKill lpid; SysPipeClose id 0; SysPipeClose id 1]
      else [SysWait lpid; SysWait rpid].

Lemma launch_pipeline_run k la ra tr :
  exists t id lpid rpid, run k (launch_pipeline la ra) tr =
    (tr ++ t, Done (if (0 <=? id) && (0 <=? lpid) && (0 <=? rpid) then OK else CMD_ERROR)) /\
    control t = pipeline_calls la ra id lpid rpid /\
    answered t SysPipeOpen id /\ (0 <= id -> answered t (left_create la id) lpid) /\
    (0 <= id -> 0 <= lpid -> answered t (right_create ra id) rpid).
Proof.
  unfold answered.
  unfold launch_pipeline. rewrite run_sys. set (e1 := (SysPipeOpen, _)). set (id := i32 _). unfold pipeline_calls.
  destruct (id <? 0) eqn:E1.
  { say_step. exists ([e1] ++ t), id, 0, 0. rewrite E1, control_app, (control_actions t), app_assoc by done.
    replace (0 <=? id) with false by lia. split_and!; [done|done| |lia..]. eexists. split; [by left|done]. }
  cbv zeta. rewrite run_sys. fold (left_create la id). set (e2 := (left_create la id, _)). set (lpid := i32 _).
  destruct (lpid <? 0) eqn:E2.
  { rewrite !run_sys. set (e3 := (SysPipeClose id 0, _)). set (e4 := (SysPipeClose id 1, _)). say_step.
    exists ([e1; e2; e3; e4] ++ t), id, lpid, 0. rewrite E1, E2, control_app, (control_actions t) by done.
    replace (0 <=? lpid) with false by lia. rewrite andb_false_r. cbn [run]. rewrite <- !app_assoc. split_and!; [done|done| | |lia].
    - eexists. split; [by left|done].
    - intros _. eexists. split; [right; by left|done]. }
  rewrite run_sys. fold (right_create ra id). set (e3 := (right_create ra id, _)). set (rpid := i32 _).
  destruct (rpid <? 0) eqn:E3; rewrite !run_sys.
  - set (e4 := (SysKill lpid, _)). set (e5 := (SysPipeClose id 0, _)). set (e6 := (SysPipeClose id 1, _)). say_step.
    exists ([e1; e2; e3; e4; e5; e6] ++ t), id, lpid, rpid. rewrite E1, E2, E3, control_app, (control_actions t) by done.
    replace (0 <=? rpid) with false by lia. rewrite andb_false_r. cbn [run]. rewrite <- !app_assoc.
    split_and!; [done|done| | |]; intros; eexists; (split; [by repeat constructor|done]).
  - set (e4 := (SysWait lpid, _)). set (e5 := (SysWait rpid, _)).
    exists [e1; e2; e3; e4; e5], id, lpid, rpid. rewrite E1, E2, E3. cbn [run]. rewrite <- !app_assoc.
    replace (0 <=? id) with true by lia. replace (0 <=? lpid) with true by lia. replace (0 <=? rpid) with true by lia.
    split_and!; [done|done| | |]; intros; eexists; (split; [by repeat constructor|done]).
Qed.

(** The bars of a line split it. *)
Lemma bars_none i l : bars i l = [] -> 124 ∉ l.
Proof.
  revert i. induction l as [|c l IH]; intros i E; [set_solver|]. cbn in E. case_if; [done|].
  apply not_elem_of_cons. split; [lia|eauto].
Qed.

Lemma bars_one i l pos :
  bars i l = [pos] -> (i <= pos)%nat /\ (pos - i < length l)%nat /\
    l = take (pos - i) l ++ 124 :: drop (S (pos - i)) l /\ 124 ∉ take (pos - i) l /\ 124 ∉ drop (S (pos - i)) l.
Proof.
  revert i. induction l as [|c l IH]; intros i E; [done|]. cbn in E. case_if.
  - simplify_eq. rewrite Nat.sub_diag. cbn. assert (c = 124) as -> by lia. assert (H : 124 ∉ l) by (eapply bars_none; eauto).
    split_and!; [lia|lia|done|set_solver|by rewrite drop_0].
  - destruct (IH _ E) as (H1 & H2 & H3 & H4 & H5). replace (pos - i)%nat with (S (pos - S i)) by lia.
    cbn. split_and!; [lia|lia|by rewrite <- H3| |done]. apply not_elem_of_cons. split; [lia|done].
Qed.

Lemma cstr_take n l : (n <= length (cstr l))%nat -> take n l = take n (cstr l).
Proof.
  intros H. destruct (cstr_prefix l) as (r & E & _). rewrite E at 1. by rewrite take_app_le.
Qed.

Lemma cstr_drop n l : (n <= length (cstr l))%nat -> cstr (drop n l) = drop n (cstr l).
Proof.
  revert l. induction n as [|n IH]; intros l H; [by rewrite !drop_0|]. destruct l as [|c l]; [done|].
  cbn in *. case_if; [cbn in H; lia|]. cbn in *. apply IH. lia.
Qed.

(** C20: A pipeline either changes nothing, with an error, or the line has one
    bar with a known command on each side of it, and then the calls are, in
    order: the pipe is opened, the left command is created with the pipe as its
    output and the right one with the pipe as its input, both on the words of
    their side of the line, and the shell waits for both and returns [OK].
    When one of these calls fails, the shell has closed both ends of the pipe
    and killed the left process if there is one, and returns an error. *)
Theorem execute_pipeline_spec (k : kernel) (line : list Z) (tr : trace) :
  exists t r, run k (execute_pipeline line) tr = (tr ++ t, Done r) /\
  ((control t = [] /\ (r = ERROR \/ r = CMD_ERROR)) \/
   exists l0 r0 la ra cl cr id lpid rpid,
     cstr line = l0 ++ 124 :: r0 /\ 124 ∉ l0 /\ 124 ∉ r0 /\
     la = words_upto 8 (strip l0) /\ ra = words_upto 8 (strip r0) /\
     find_command (head la) = Some cl /\ find_command (head ra) = Some cr /\
     control t = pipeline_calls la ra id lpid rpid /\
     answered t SysPipeOpen id /\ (0 <= id -> answered t (left_create la id) lpid) /\
     (0 <= id -> 0 <= lpid -> answered t (right_create ra id) rpid) /\
     r = if (0 <=? id) && (0 <=? lpid) && (0 <=? rpid) then OK else CMD_ERROR).
Proof.
  unfold execute_pipeline.
  assert (Herr : forall text out n, printf text [] = Some (out, n) ->
    exists t r, run k (say text [];; Ret CMD_ERROR) tr = (tr ++ t, Done r) /\ (control t = [] /\ (r = ERROR \/ r = CMD_ERROR))).
  { intros text out n E. destruct (run_say k text [] out n (Ret CMD_ERROR) tr E) as (t & -> & Ha & _).
    exists t, CMD_ERROR. rewrite (control_actions t) by done. auto. }
  assert (Herr0 : exists t r, run k (Ret ERROR) tr = (tr ++ t, Done r) /\ (control t = [] /\ (r = ERROR \/ r = CMD_ERROR))).
  { exists [], ERROR. rewrite app_nil_r. auto. }
  destruct (bars 0 (cstr line)) as [|pos [|]] eqn:Eb; 
    [by destruct Herr0 as (t & r & E & H); exists t, r; auto| |
     by match goal with |- context [say ?text _] => edestruct (Herr text _ _ eq_refl) as (t & r & E & H) end; exists t, r; auto].
  destruct (bars_one _ _ _ Eb) as (_ & Hlen & Esplit & Hl & Hr). rewrite Nat.sub_0_r in *.
  rewrite cstr_take by lia. set (l0 := take pos (cstr line)) in *.
  assert (Er : cstr (drop (S pos) line) = drop (S pos) (cstr line)) by (apply cstr_drop; lia).
  set (r0 := drop (S pos) (cstr line)) in *. rewrite !fill_words, !trim_spaces_strip, Er.
  rewrite (cstr_app_zero l0 []) by (apply Forall_take, cstr_nonzero). cbv zeta.
  repeat (case_if; [by match goal with |- context [say ?text _] => edestruct (Herr text _ _ eq_refl) as (t & r & E & H) end; exists t, r; auto|]).
  destruct (find_command (head (words_upto 8 (strip l0)))) as [cl|] eqn:El; [|by destruct Herr0 as (t & r & E & H); exists t, r; auto].
  destruct (find_command (head (words_upto 8 (strip r0)))) as [cr|] eqn:Ecr; [|by destruct Herr0 as (t & r & E & H); exists t, r; auto].
  destruct (launch_pipeline_run k (words_upto 8 (strip l0)) (words_upto 8 (strip r0)) tr) as (t & id & lpid & rpid & -> & H).
  eexists t, _. split; [reflexivity|]. right. exists l0, r0. do 2 eexists. exists cl, cr, id, lpid, rpid.
  destruct H as (? & ? & ? & ?). split_and!; done.
Qed.
