(* ===== verification/ReadLineProps.v ===== *)
(** * Reading a line from the keyboard *)

From Stdlib Require Import String.
From S2P Require Import Prelude Lib UserLib UserLibProps UserProg ShellParse ShellParseProps Apps AppsProps Shell ShellCmds ShellProps.
Local Open Scope Z_scope.

(** A kernel that delivers the keys [keys] one by one, and no byte while there
    are none. *)
Definition types (keys : list Z) (k : kernel) : Prop :=
  forall tr, k tr (SysRead 0 1) = match keys !! reads tr with Some c => (1, [c]) | None => (0, []) end.

(** What a line is after some keys: a backspace takes the last character away,
    and a key that does not fit is ignored. *)
Definition edit_key (maxLen : Z) (line : list Z) (c : Z) : list Z :=
  if c =? 8 then removelast line
  else if Z.of_nat (length line) <? maxLen - 1 then line ++ [c] else line.

Definition edit (maxLen : Z) (keys : list Z) : list Z := foldl (edit_key maxLen) [] keys.

(** What the screen shows of some output: a backspace erases. *)
Definition shown (line : list Z) (out : list Z) : list Z :=
  foldl (fun line c => if c =? 8 then removelast line else line ++ [c]) line out.

Lemma shown_app line a b : shown line (a ++ b) = shown (shown line a) b.
Proof. apply foldl_app. Qed.

Lemma shown_erase line c : shown (line ++ [c]) [8; 32; 8] = line.
Proof. cbn. by rewrite removelast_last, removelast_last. Qed.

(** One key, in a state where the array begins with the line. *)
Lemma run_getchar k n keys c tr :
  types keys k -> keys !! reads tr = Some c ->
  run k (getchar (S n)) tr = (tr ++ [(SysRead 0 1, (1, [c]))], Done c).
Proof. intros Hk Hc. specialize (Hk tr). rewrite Hc in Hk. unfold getchar. cbn. by rewrite !Hk. Qed.

Lemma run_put {A} k l (f : prog A) tr :
  exists t, run k (put_all l;; f) tr = run k f (tr ++ t) /\ actions t = [] /\ output t = l.
Proof. rewrite run_bind. destruct (run_put_all k l tr) as (t & -> & Ho & Ha). by exists t. Qed.

Ltac put_step :=
  match goal with
  | |- context [run ?k (put_all ?l;; ?f) ?tr] =>
      let t := fresh "t" in let Ha := fresh "Ha" in let Ho := fresh "Ho" in let E := fresh "E" in
      destruct (run_put k l f tr) as (t & E & Ha & Ho); rewrite E; clear E
  end.

Lemma readLine_key k n keys maxLen c line r tr :
  types keys k -> keys !! reads tr = Some c -> c <> 10 ->
  Z.of_nat (length line) <= maxLen - 1 -> maxLen <= Z.of_nat (length (line ++ r)) ->
  exists t r', run k (readLine_step (S n) maxLen (line ++ r, Z.of_nat (length line))) tr =
      (tr ++ t, Done (inl (edit_key maxLen line c ++ r', Z.of_nat (length (edit_key maxLen line c))))) /\
    length (edit_key maxLen line c ++ r') = length (line ++ r) /\
    Z.of_nat (length (edit_key maxLen line c)) <= maxLen - 1 /\ reads t = 1%nat /\
    shown line (output t) = edit_key maxLen line c.
Proof.
  intros Hk Hc Hn Hlen Hcap. unfold readLine_step. rewrite run_bind, (run_getchar _ _ _ _ _ Hk Hc).
  set (e := (SysRead 0 1, _)). assert (He : reads [e] = 1%nat /\ output [e] = []) by done. destruct He as [He1 He2].
  replace (c =? 10) with false by lia. unfold edit_key. destruct (c =? 8) eqn:E8.
  - destruct line as [|x line _] using rev_ind.
    + cbn [length]. change (Z.of_nat 0 >? 0) with false. cbv iota. rewrite run_sys. cbn [run]. set (e2 := (SysBeep 500 100, _)). exists ([e] ++ [e2]), r.
      rewrite app_assoc. by split_and!.
    + rewrite length_app in *. cbn [length] in *. replace (_ >? 0) with true by lia.
      put_step.
      exists ([e] ++ t), (x :: r). rewrite removelast_last. cbn [run]. rewrite <- !app_assoc. cbn [app].
      split_and!; [do 4 f_equal; lia|done|lia| |].
      * change (e :: t) with ([e] ++ t). rewrite (reads_app [e]), (reads_actions t) by done. done.
      * change (e :: t) with ([e] ++ t). rewrite (output_app [e]), Ho, He2. apply shown_erase.
  - case_if.
    + destruct r as [|x r]; [rewrite app_nil_r in Hcap; lia|]. rewrite run_bind. unfold store. rewrite store_at_app. cbn [run].
      put_step.
      exists ([e] ++ t), r. cbn [run]. rewrite <- !app_assoc, !length_app. cbn [app length].
      split_and!; [do 4 f_equal; lia|done|lia| |].
      * change (e :: t) with ([e] ++ t). rewrite (reads_app [e]), (reads_actions t) by done. done.
      * change (e :: t) with ([e] ++ t). rewrite (output_app [e]), Ho, He2. cbn. by rewrite E8.
    + exists [e], r. by split_and!.
Qed.

Lemma readLine_loop k n m keys maxLen l rest : forall line r tr,
  types keys k -> drop (reads tr) keys = l ++ 10 :: rest -> Forall (fun c => c <> 10) l -> (length l < n)%nat ->
  Z.of_nat (length line) <= maxLen - 1 -> maxLen <= Z.of_nat (length (line ++ r)) ->
  let e := foldl (edit_key maxLen) line l in
  exists t r', run k (iterate n (readLine_step (S m) maxLen) (line ++ r, Z.of_nat (length line))) tr = (tr ++ t, Done (e ++ 0 :: r')) /\
    length (e ++ 0 :: r') = length (line ++ r) /\ Z.of_nat (length e) <= maxLen - 1 /\
    reads t = S (length l) /\ shown line (output t) = e ++ [10].
Proof.
  revert n. induction l as [|c l IH]; intros n line r tr Hk Hd Hl Hn Hlen Hcap; (destruct n as [|n]; [simpl in Hn; lia|]);
    assert (Hc : keys !! reads tr = head (drop (reads tr) keys)) by (by rewrite <- (Nat.add_0_r (reads tr)) at 1;
      rewrite <- lookup_drop; destruct (drop (reads tr) keys)); rewrite Hd in Hc; cbn [iterate]; rewrite run_bind.
  - unfold readLine_step. rewrite run_bind, (run_getchar _ _ _ _ _ Hk Hc). change (10 =? 10) with true. cbv iota.
    put_step. destruct r as [|x r]; [rewrite app_nil_r in Hcap; lia|]. rewrite run_bind. unfold store. rewrite store_at_app.
    cbn [run foldl]. set (e := (SysRead 0 1, _)). exists ([e] ++ t), r. rewrite <- !app_assoc, !length_app.
    split_and!; [done|done|done| |].
    + by rewrite (reads_app [e]), (reads_actions t).
    + by rewrite (output_app [e]), Ho.
  - apply list.Forall_cons in Hl as [Hc10 Hl].
    destruct (readLine_key k m keys maxLen c line r tr) as (t & r' & -> & Hlen' & Hle & Hr & Hs); [done..|].
    destruct (IH n (edit_key maxLen line c) r' (tr ++ t)) as (t' & r2 & -> & H1 & H2 & H3 & H4); try done.
    + rewrite reads_app, Hr, <- drop_drop, Hd. done.
    + simpl in Hn. lia.
    + lia.
    + exists (t ++ t'), r2. rewrite app_assoc. cbn [foldl]. split_and!; [done|lia|done| |].
      * rewrite reads_app, Hr, H3. done.
      * by rewrite output_app, shown_app, Hs.
Qed.

(** C32: [readLine] into an array of [maxLen] bytes or more ends at the first
    new line and leaves the edited line with a terminator, never more than
    [maxLen - 1] characters and never outside the array; it takes that line and
    no more of the keys, and the screen shows what the array holds. *)
Theorem readLine_spec (k : kernel) (n : nat) (l rest buf : list Z) (maxLen : Z) :
  types (l ++ 10 :: rest) k -> Forall (fun c => c <> 10) l -> (length l < n)%nat ->
  1 <= maxLen <= Z.of_nat (length buf) ->
  exists t r, run k (readLine n buf maxLen) [] = (t, Done (edit maxLen l ++ 0 :: r)) /\
    length (edit maxLen l ++ 0 :: r) = length buf /\ Z.of_nat (length (edit maxLen l)) <= maxLen - 1 /\
    reads t = S (length l) /\ shown [] (output t) = edit maxLen l ++ [10].
Proof.
  intros Hk Hl Hn Hm. unfold readLine, edit. destruct n as [|n]; [lia|].
  destruct (readLine_loop k (S n) n (l ++ 10 :: rest) maxLen l rest [] buf []) as (t & r & E & H); [done..|simpl; lia|simpl; lia|].
  by exists t, r.
Qed.

Definition typist (keys : list Z) : kernel := fun tr c =>
  match c with
  | SysRead _ _ => match keys !! reads tr with Some c => (1, [c]) | None => (0, []) end
  | _ => (0, [])
  end.

Lemma readLine_spec_witness :
  exists t r, run (typist (lit "pz" ++ 8 :: lit "s" ++ 10 :: lit "x")) (readLine 9 (replicate 100 0) 100) [] =
    (t, Done (lit "ps" ++ 0 :: r)).
Proof.
  destruct (readLine_spec (typist (lit "pz" ++ 8 :: lit "s" ++ 10 :: lit "x")) 9 (lit "pz" ++ 8 :: lit "s") (lit "x")
    (replicate 100 0) 100) as (t & r & E & _); [done|by repeat constructor|simpl; lia|simpl; lia|].
  by exists t, r.
Defined.
