(* ===== verification/MVarProps.v ===== *)
(** * Properties of [mvar] *)

From Stdlib Require Import String Sorting.Sorted.
From S2P Require Import Prelude Lib UserLib UserLibProps UserProg ShellParse Apps Shell ShellCmds ShellProps.
Local Open Scope Z_scope.

(** Worker [j] is created by [e] with the pipe [pipe_id] and the arguments in
    block [q]. *)
Definition spawned (e : entry) (pipe_id delay : Z) (h : heap) (t : trace) (jq : Z * Z) : Prop :=
  h !! jq.2 = Some (Worker pipe_id delay jq.1) /\
  exists nm r, (SysCreate e nm 3 0 0 (ABlock jq.2), r) ∈ t /\ 0 <= i32 r.1.

Lemma spawned_weaken e id d h h' t t' jq :
  spawned e id d h t jq -> h' !! jq.2 = h !! jq.2 -> t ⊆ t' -> spawned e id d h' t' jq.
Proof. intros (Hh & nm & r & Hin & Hr) E Ht. split; [by rewrite E|]. exists nm, r. auto. Qed.

Lemma spawn_run k e nm id j d h tr :
  fresh_blocks k -> heap_ok h tr ->
  exists t pid h', run k (spawn_mvar_worker e nm id j d h) tr = (tr ++ t, Done (pid, h')) /\ heap_ok h' (tr ++ t) /\
    ((pid < 0 /\ h' = h /\ live (tr ++ t) = live tr) \/
     (exists q, 0 <= pid /\ q ∉ live tr /\ live (tr ++ t) = {[q]} ∪ live tr /\
        (forall x, x ∈ live tr -> h' !! x = h !! x) /\ spawned e id d h' t (j, q))).
Proof.
  intros Hf Hh. unfold spawn_mvar_worker. rewrite run_sys64. set (q := u64 _). pose proof (Hf tr 12) as Hfr. fold q in Hfr.
  set (e1 := (SysMemAlloc 12, _)).
  assert (El : live (tr ++ [e1]) = if q =? 0 then live tr else {[q]} ∪ live tr) by (rewrite live_snoc; done).
  destruct (q =? 0) eqn:Eq.
  { exists [e1], (-1), h. unfold heap_ok. rewrite El. cbn [run]. split_and!; [done|done|left; lia || done]. }
  cbv zeta. rewrite run_sys. set (c := SysCreate _ _ _ _ _ _). set (r := k _ c). set (e2 := (c, r)).
  assert (El2 : live ((tr ++ [e1]) ++ [e2]) = {[q]} ∪ live tr) by (rewrite <- El; by apply live_other).
  case_if.
  - rewrite run_sys. cbn [run]. set (e3 := (SysMemFree q, _)). exists ([e1] ++ [e2] ++ [e3]), (-1), h. rewrite !app_assoc.
    assert (El3 : live (((tr ++ [e1]) ++ [e2]) ++ [e3]) = live tr) by (rewrite live_snoc, El2; cbn; set_solver).
    rewrite El3. unfold heap_ok in *. rewrite El3. rewrite delete_insert_id.
    2:{ apply not_elem_of_dom. by rewrite Hh. }
    split_and!; [done|done|left; done].
  - exists ([e1] ++ [e2]), (i32 r.1), (<[q := Worker id d j]> h). rewrite app_assoc, El2. unfold heap_ok. rewrite El2.
    split_and!; [done|by rewrite dom_insert_L, Hh|right]. exists q. split_and!; [lia|done|done| |].
    + intros x Hx. apply lookup_insert_ne. by intros ->.
    + split; [apply lookup_insert_eq|]. exists nm, r. split; [right; by left|cbn; lia].
Qed.

(** Names fit their array. *)
Definition names_fit (fmt : list Z) (first n : Z) : Prop :=
  forall j, first <= j < first + n -> exists nm len, sprintf (replicate 32 0) fmt [AInt j] = Some (nm, len).

Lemma spawn_loop_run k e fmt err id first d m : forall i created h tr,
  fresh_blocks k -> heap_ok h tr -> 0 <= i -> names_fit fmt (first + i) (Z.of_nat m) ->
  (forall j, exists out n, printf err [AInt j] = Some (out, n)) ->
  exists t h' ws, run k (spawn_loop e fmt err id first d m i created h) tr = (tr ++ t, Done (created + Z.of_nat (length ws), h')) /\
    heap_ok h' (tr ++ t) /\ live (tr ++ t) = live tr ∪ list_to_set (snd <$> ws) /\
    (forall x, x ∈ live tr -> h' !! x = h !! x) /\ list_to_set (snd <$> ws) ## live tr /\ NoDup (snd <$> ws) /\
    Forall (spawned e id d h' t) ws /\ Forall (fun jq => first + i <= jq.1 < first + i + Z.of_nat m) ws /\
    StronglySorted Z.lt (fst <$> ws).
Proof.
  induction m as [|m IH]; intros i created h tr Hf Hh Hi Hn He; cbn [spawn_loop].
  { exists [], h, []. rewrite app_nil_r, Z.add_0_r. cbn.
    split_and!; try done; [set_solver|constructor..]. }
  destruct (Hn (first + i)) as (nm & len & En); [lia|]. unfold worker_name. rewrite run_bind, En. cbn [run].
  rewrite run_bind. destruct (spawn_run k e (cstr nm) id (first + i) d h tr Hf Hh) as (t & pid & h1 & -> & Hh1 & Hcase).
  assert (Hn' : names_fit fmt (first + (i + 1)) (Z.of_nat m)) by (intros j Hj; apply Hn; lia).
  destruct Hcase as [(Hp & -> & Hl)|(q & Hp & Hq & Hl & Hs & Hsp)].
  - replace (pid <? 0) with true by lia. destruct (He (first + i)) as (out & n & Eo).
    destruct (run_say k err [AInt (first + i)] out n (spawn_loop e fmt err id first d m (i + 1) created h) (tr ++ t) Eo)
      as (t1 & -> & Ha & _). pose proof (live_actions (tr ++ t) t1 Ha) as Hl1. rewrite Hl in Hl1.
    destruct (IH (i + 1) created h ((tr ++ t) ++ t1)) as (t2 & h' & ws & -> & H1 & H2 & H3 & H4 & H5 & H6 & H7 & H8);
      [done|unfold heap_ok; by rewrite Hl1|lia|done|done|]. rewrite Hl1 in *.
    exists (t ++ t1 ++ t2), h', ws. rewrite !app_assoc. split_and!; try done.
    + eapply list.Forall_impl; [exact H6|]. intros jq Hj. eapply spawned_weaken; [exact Hj|done|set_solver].
    + eapply list.Forall_impl; [exact H7|]. cbn. lia.
  - replace (pid <? 0) with false by lia.
    destruct (IH (i + 1) (created + 1) h1 (tr ++ t)) as (t2 & h' & ws & -> & H1 & H2 & H3 & H4 & H5 & H6 & H7 & H8);
      [done|done|lia|done|done|]. rewrite Hl in *.
    exists (t ++ t2), h', ((first + i, q) :: ws). rewrite app_assoc. cbn [fmap list_fmap fst snd].
    split_and!; try done.
    + do 3 f_equal. cbn [length]. lia.
    + rewrite H2. set_solver.
    + intros x Hx. rewrite H3 by set_solver. auto.
    + set_solver.
    + apply list.NoDup_cons. split; [|done]. intros Hin. assert (q ∈ (list_to_set (snd <$> ws) : gset Z)) by set_solver. set_solver.
    + constructor.
      * apply (spawned_weaken e id d h1 _ t); [done| |set_solver]. apply H3. set_solver.
      * eapply list.Forall_impl; [exact H6|]. intros jq Hj. eapply spawned_weaken; [exact Hj|done|set_solver].
    + constructor; [cbn; lia|]. eapply list.Forall_impl; [exact H7|]. cbn. lia.
    + constructor; [done|]. rewrite Forall_fmap. eapply list.Forall_impl; [exact H7|]. cbn. lia.
Qed.

Lemma names_fit_all fmt out :
  no_llx (cstr fmt) -> (forall j, exists n, printf fmt [AInt j] = Some (out j, n)) ->
  (forall j, (length (out j) < 32)%nat) -> forall first n, names_fit fmt first n.
Proof.
  intros Hf Hp Hl first n j _. destruct (Hp j) as [m Hj]. destruct (printf_loop_grows _ _ [] _ _ Hj) as [_ ->].
  pose proof (sprintf_loop_printf (cstr fmt) [AInt j] [] (replicate 32 0) Hf) as E.
  change (printf_loop (cstr fmt) [AInt j] [] (Z.of_nat (length []))) with (printf fmt [AInt j]) in E. rewrite Hj in E.
  specialize (Hl j). replace (_ <? _) with true in E; [by do 2 eexists|]. rewrite app_nil_l, length_replicate. lia.
Qed.

Lemma format_int_length n : (length (format_int n) <= 13)%nat.
Proof.
  unfold format_int. pose proof (dec_digits_length 12). repeat case_if; cbn [length]; [lia| |].
  - specialize (H (i32 (- n))). lia.
  - specialize (H n). lia.
Qed.

Lemma reader_names first n : names_fit (lit "mvar_reader_%d") first n.
Proof.
  apply (names_fit_all _ (fun j => lit "mvar_reader_" ++ format_int j)).
  - intros a b E. repeat (destruct a as [|? a]; simplify_eq/=).
  - intros j. by eexists.
  - intros j. rewrite length_app. pose proof (format_int_length j). cbn. lia.
Qed.

Lemma writer_names first n : names_fit (lit "mvar_writer_%c") first n.
Proof.
  apply (names_fit_all _ (fun j => lit "mvar_writer_" ++ [i8 j])).
  - intros a b E. repeat (destruct a as [|? a]; simplify_eq/=).
  - intros j. by eexists.
  - intros j. cbn. lia.
Qed.

(** [mvar] with acceptable numbers of workers opens its pipe of one byte
    and creates at most that many writers and readers, numbered upwards, each
    with a block of its own that holds the pipe, its delay and its number;
    these blocks are the only ones in use that were not before, so that the
    block of a worker that could not be created has been freed.  Without a
    pipe nothing is allocated and nothing created. *)
Theorem mvar_main_spec (k : kernel) (a w r : list Z) (h : heap) (tr : trace) :
  fresh_blocks k -> heap_ok h tr -> 1 <= atoi w <= MVAR_MAX_WRITERS -> 1 <= atoi r <= MVAR_MAX_READERS ->
  exists t v h' id, run k (mvar_main [a; w; r] h) tr = (tr ++ t, Done (v, h')) /\ heap_ok h' (tr ++ t) /\
    answered t (SysPipeOpenCapacity 1) id /\
    ((id < 0 /\ v = -2 /\ h' = h /\ control t = [SysPipeOpenCapacity 1]) \/
     (0 <= id /\ v = 0 /\ exists ws rs,
        Forall (spawned MVarWriter id MVAR_WORKER_DELAY_MS h' t) ws /\
        Forall (spawned MVarReader id (MVAR_WORKER_DELAY_MS * Z.min (atoi r) MVAR_MAX_DELAY_FACTOR) h' t) rs /\
        Forall (fun jq => 65 <= jq.1 < 65 + atoi w) ws /\ Forall (fun jq => 0 <= jq.1 < atoi r) rs /\
        StronglySorted Z.lt (fst <$> ws) /\ StronglySorted Z.lt (fst <$> rs) /\
        NoDup (snd <$> ws ++ rs) /\ list_to_set (snd <$> ws ++ rs) ## live tr /\
        live (tr ++ t) = live tr ∪ list_to_set (snd <$> ws ++ rs))).
Proof.
  intros Hf Hh Hw Hr. unfold mvar_main. change (negb (argc [a; w; r] =? 3)) with false. cbn [argv_at nth]. cbv iota zeta.
  unfold MVAR_MAX_WRITERS, MVAR_MAX_READERS in *.
  replace ((atoi w <=? 0) || (atoi w >? 26)) with false by lia. replace ((atoi r <=? 0) || (atoi r >? 20)) with false by lia.
  rewrite run_sys. set (e := (SysPipeOpenCapacity 1, _)). set (id := i32 _).
  assert (Ha : answered [e] (SysPipeOpenCapacity 1) id) by (eexists; split; [by left|done]).
  assert (He : live (tr ++ [e]) = live tr) by (by apply live_other). assert (Hce : control [e] = [SysPipeOpenCapacity 1]) by done.
  clearbody e id. case_if.
  { say_step. cbn [run]. exists ([e] ++ t), (-2), h, id. rewrite app_assoc. unfold heap_ok.
    rewrite (live_actions (tr ++ [e]) t), He by done.
    rewrite control_app, Hce, (control_actions t) by done. split_and!; [done|done| |left; split_and!; try done; lia].
    destruct Ha as (x & Hin & ?). exists x. rewrite elem_of_app. auto. }
  say_step. say_step. rewrite run_bind.
  assert (Hl1 : live (((tr ++ [e]) ++ t) ++ t0) = live tr) by (by rewrite (live_actions _ t0), (live_actions _ t), He).
  destruct (spawn_loop_run k MVarWriter (lit "mvar_writer_%c") (ln "Error: no se pudo crear el escritor %c.") id 65
    MVAR_WORKER_DELAY_MS (Z.to_nat (atoi w)) 0 0 h (((tr ++ [e]) ++ t) ++ t0))
    as (t1 & h1 & ws & -> & Hh1 & L1 & S1 & D1 & N1 & F1 & R1 & O1);
    [done|unfold heap_ok; by rewrite Hl1|lia|apply writer_names|by intros; do 2 eexists|]. rewrite Hl1 in *.
  rewrite run_bind.
  match goal with |- context [spawn_loop MVarReader ?f ?er id 0 ?d ?m 0 0 h1] =>
    destruct (spawn_loop_run k MVarReader f er id 0 d m 0 0 h1 ((((tr ++ [e]) ++ t) ++ t0) ++ t1))
      as (t2 & h2 & rs & -> & Hh2 & L2 & S2 & D2 & N2 & F2 & R2 & O2);
      [done|done|lia|apply reader_names|by intros; do 2 eexists|] end.
  say_step. say_step. cbn [run]. exists ([e] ++ t ++ t0 ++ t1 ++ t2 ++ t3 ++ t4), 0, h2, id.
  assert (Hl2 : live (((((((tr ++ [e]) ++ t) ++ t0) ++ t1) ++ t2) ++ t3) ++ t4) = live tr ∪ list_to_set (snd <$> ws ++ rs)).
  { rewrite (live_actions _ t4), (live_actions _ t3), L2, L1 by done. rewrite fmap_app, list_to_set_app_L. set_solver. }
  rewrite !app_assoc. split_and!; [done|unfold heap_ok; rewrite (live_actions _ t4), (live_actions _ t3) by done; exact Hh2| |].
  { destruct Ha as (x & Hin & ?). exists x. rewrite !elem_of_app. auto 10. }
  right. split_and!; [lia|done|]. exists ws, rs. rewrite L1 in *. rewrite !Z.add_0_r, !Z2Nat.id in * by lia.
  split_and!; try done.
  - apply list.Forall_forall. intros jq Hj. rewrite list.Forall_forall in F1.
    eapply spawned_weaken; [by apply F1| |set_solver]. apply S2.
    assert (jq.2 ∈ ws.*2) by (by apply list_elem_of_fmap_2). set_solver.
  - eapply list.Forall_impl; [exact F2|]. intros jq Hj.
    replace (Z.min _ _) with (if atoi r <? MVAR_MAX_DELAY_FACTOR then atoi r else MVAR_MAX_DELAY_FACTOR) by (case_if; lia).
    eapply spawned_weaken; [exact Hj|done|set_solver].
  - rewrite fmap_app. apply list.NoDup_app. split_and!; [done|set_solver|done].
  - rewrite fmap_app. set_solver.
Qed.


Lemma mvar_main_spec_witness :
  exists t v h', run demo_kernel (mvar_main [lit "mvar"; lit "2"; lit "3"] ∅) [] = (t, Done (v, h')) /\ heap_ok h' t.
Proof.
  assert (Hw : 1 <= atoi (lit "2") <= MVAR_MAX_WRITERS) by (vm_compute; split; discriminate).
  assert (Hr : 1 <= atoi (lit "3") <= MVAR_MAX_READERS) by (vm_compute; split; discriminate).
  assert (Hh : heap_ok ∅ []) by (apply dom_empty_L).
  destruct (mvar_main_spec demo_kernel (lit "mvar") (lit "2") (lit "3") ∅ [] demo_fresh Hh Hw Hr)
    as (t & v & h' & id & E & H & _). exists t, v, h'. exact (conj E H).
Defined.

(** [kill] and [nice] never report a failure: the call returns an unsigned
    value, which is not negative. *)
Lemma kill_reports_nothing k a p tr :
  run k (kill_main [a; p]) tr = (tr ++ [(SysKill (atoi p), k tr (SysKill (atoi p)))], Done 0).
Proof.
  unfold kill_main. change (negb (argc [a; p] =? 2)) with false. cbv iota zeta. rewrite run_sys64. cbn [argv_at nth].
  pose proof (u64_range (k tr (SysKill (atoi p))).1). by replace (_ <? 0) with false by lia.
Qed.

(** A new user name of ten characters loses its last one. *)
Lemma set_user_cut :
  strncpy (replicate 11 0) (lit "abcdefghij" ++ [0]) MAX_USER_LENGTH = Some (lit "abcdefghi" ++ [0; 0]).
Proof. done. Qed.
