(* ===== verification/TestUtil.v ===== *)
(** * What the tests share

    [Userland/SampleCodeModule/tests/test_util.c]: two multiply-with-carry
    generators, a uniform number below a bound computed in [double], the
    reading of numbers, and the check of a block of memory. *)

From Stdlib Require Import String.
From S2P Require Import Prelude Lib UserLib UserProg ShellParse.
Local Open Scope Z_scope.

(** ** The generator *)

Record Rng := mkRng { m_z : Z; m_w : Z }.

(** The initial values of the static variables. *)
Definition rng_init : Rng := mkRng 362436069 521288629.

Definition GetUint (r : Rng) : Z * Rng :=
  let z := u32 (36969 * Z.land (m_z r) 65535 + Z.shiftr (m_z r) 16) in
  let w := u32 (18000 * Z.land (m_w r) 65535 + Z.shiftr (m_w r) 16) in
  (u32 (u32 (Z.shiftl z 16) + w), mkRng z w).

(** ** Doubles

    The numbers that occur are not negative, and neither overflow nor
    underflow: a [double] is [mant * 2 ^ expo] with a mantissa of at most 53
    bits, and an operation rounds its exact result to the nearest one, ties to
    even. *)
Record double := mkDouble { mant : Z; expo : Z }.

Definition round_double (x : double) : double :=
  let s := Z.max 0 (Z.log2 (mant x) - 52) in
  let q := Z.shiftr (mant x) s in
  let r := 2 * (mant x mod 2 ^ s) in
  mkDouble (if (2 ^ s <? r) || ((r =? 2 ^ s) && Z.odd q) then q + 1 else q) (expo x + s).

Definition dmul (x y : double) : double := round_double (mkDouble (mant x * mant y) (expo x + expo y)).

(** The conversion to an integer type drops the fraction. *)
Definition trunc (x : double) : Z :=
  if expo x <? 0 then Z.shiftr (mant x) (- expo x) else Z.shiftl (mant x) (expo x).

(** [2.328306435454494e-10], rounded to a [double]. *)
Definition SCALE : double := mkDouble 2147483647 (-63).

(** [u + 1.0] is exact: both are below [2 ^ 33]. *)
Definition GetUniform (max : Z) (r : Rng) : Z * Rng :=
  let '(u, r) := GetUint r in
  (u32 (trunc (dmul (dmul (mkDouble (u + 1) 0) SCALE) (mkDouble max 0))), r).

(** ** Arguments *)

Definition i64 (z : Z) : Z := (z + 2 ^ 63) mod 2 ^ 64 - 2 ^ 63.

(** [for (; str[i] != '\0'; ++i)] of [satoi]. *)
Fixpoint satoi_loop (res : Z) (str : list Z) : option Z :=
  match str with
  | [] => Some res
  | c :: str =>
      if c =? 0 then Some res
      else if negb (is_digit c) then None
      else satoi_loop (i64 (i64 (i64 (res * 10) + c) - 48)) str
  end.

Definition satoi (str : list Z) : Z :=
  let '(sign, digits) := match str with c :: l => if c =? 45 then (-1, l) else (1, str) | [] => (1, []) end in
  match satoi_loop 0 digits with Some res => i64 (res * sign) | None => 0 end.

(** ** Memory *)

(** [for (i = 0; i < size; i++, p++)], with [n] bytes left. *)
Fixpoint memcheck_loop (p value : Z) (n : nat) (m : bytes) : Z :=
  match n with
  | O => 1
  | S n => if negb (m p =? value) then 0 else memcheck_loop (p + 1) value n m
  end.

Definition memcheck (start value size : Z) (m : bytes) : Z := memcheck_loop start (u8 value) (Z.to_nat size) m.

(** ** Multiply with carry *)

(** One half of the generator, with multiplier [a]. *)
Definition mwc (a x : Z) : Z := a * (x mod 2 ^ 16) + x / 2 ^ 16.

(** The states from which a half never reaches 0 nor leaves 32 bits. *)
Definition mwc_ok (a x : Z) : Prop := 0 < x < a * 2 ^ 16.

Lemma mwc_step a x : 0 < a <= 2 ^ 16 -> mwc_ok a x -> mwc_ok a (mwc a x) /\ u32 (a * Z.land x 65535 + Z.shiftr x 16) = mwc a x.
Proof.
  intros Ha [H0 H1]. change 65535 with (Z.ones 16). rewrite Z.land_ones, Z.shiftr_div_pow2 by lia. fold (mwc a x).
  assert (mwc_ok a (mwc a x)) as Hok.
  { unfold mwc_ok, mwc. pose proof (Z.div_mod x (2 ^ 16)). pose proof (Z.mod_pos_bound x (2 ^ 16)).
    assert (x / 2 ^ 16 < a) by (apply Z.div_lt_upper_bound; lia). assert (0 <= x / 2 ^ 16) by (apply Z.div_pos; lia). nia. }
  split; [done|]. apply u32_small. unfold mwc_ok in Hok. nia.
Qed.

Definition rng_ok (r : Rng) : Prop := mwc_ok 36969 (m_z r) /\ mwc_ok 18000 (m_w r).

Lemma GetUint_spec r : rng_ok r ->
  rng_ok (GetUint r).2 /\ (GetUint r).2 = mkRng (mwc 36969 (m_z r)) (mwc 18000 (m_w r)) /\ 0 <= (GetUint r).1 < 2 ^ 32.
Proof.
  intros [Hz Hw]. unfold GetUint. cbn [fst snd].
  destruct (mwc_step 36969 (m_z r) ltac:(lia) Hz) as [Hz' ->], (mwc_step 18000 (m_w r) ltac:(lia) Hw) as [Hw' ->].
  split_and!; [done..|apply u32_range|apply u32_range].
Qed.

(** ** Rounding *)

(** Rounding up is by half a unit of the last of 53 places. *)
Lemma round_double_upper x : 0 <= mant x ->
  let s := Z.max 0 (Z.log2 (mant x) - 52) in
  0 <= mant (round_double x) /\ expo (round_double x) = expo x + s /\
  mant (round_double x) * 2 ^ s * 2 ^ 53 <= mant x * (2 ^ 53 + 1).
Proof.
  intros Hx s. unfold round_double. fold s. cbn [mant expo]. rewrite Z.shiftr_div_pow2 by lia.
  assert (0 < 2 ^ s) by (apply Z.pow_pos_nonneg; lia).
  pose proof (Z.div_mod (mant x) (2 ^ s)). pose proof (Z.mod_pos_bound (mant x) (2 ^ s)).
  assert (0 <= mant x / 2 ^ s) by (apply Z.div_pos; lia). split_and!; [case_if; lia|done|].
  case_if; [|nia]. assert (2 ^ s <= 2 * (mant x mod 2 ^ s)) as Hr by lia.
  assert (0 < s) as Hs by (destruct (Z.eq_dec s 0) as [->|]; [rewrite Z.mod_1_r in Hr; lia|lia]).
  assert (2 ^ (s + 52) <= mant x) as Hm.
  { replace (s + 52) with (Z.log2 (mant x)) by lia. apply Z.log2_spec. destruct (Z.eq_dec (mant x) 0) as [E|]; [|lia].
    rewrite E, Z.mod_0_l in Hr by lia. lia. }
  rewrite Z.pow_add_r in Hm by lia. nia.
Qed.

Lemma trunc_lt x b : 0 <= mant x -> 0 <= b -> (forall s, 0 <= s -> 0 <= expo x + s -> mant x * 2 ^ (expo x + s) < b * 2 ^ s) ->
  0 <= trunc x < b.
Proof.
  intros Hx Hb H. unfold trunc. case_if.
  - rewrite Z.shiftr_div_pow2 by lia. split; [apply Z.div_pos; [lia|apply Z.pow_pos_nonneg; lia]|].
    apply Z.div_lt_upper_bound; [apply Z.pow_pos_nonneg; lia|]. specialize (H (- expo x) ltac:(lia) ltac:(lia)).
    replace (expo x + - expo x) with 0 in H by lia. lia.
  - rewrite Z.shiftl_mul_pow2 by lia. specialize (H 0 ltac:(lia) ltac:(lia)). rewrite Z.add_0_r in H.
    assert (0 < 2 ^ expo x) by (apply Z.pow_pos_nonneg; lia). nia.
Qed.

Lemma dmul_upper x y : 0 <= mant x -> 0 <= mant y ->
  exists s, 0 <= s /\ 0 <= mant (dmul x y) /\ expo (dmul x y) = expo x + expo y + s /\
    mant (dmul x y) * 2 ^ s * 2 ^ 53 <= mant x * mant y * (2 ^ 53 + 1).
Proof.
  intros Hx Hy. destruct (round_double_upper (mkDouble (mant x * mant y) (expo x + expo y))) as (H1 & H2 & H3); [cbn [mant]; nia|].
  eexists. split_and!; [apply Z.le_max_l|done..].
Qed.

(** The scaled product stays below [max], with both roundings. *)
Lemma scaled_below u max : 0 <= u < 2 ^ 32 -> 0 < max ->
  0 <= trunc (dmul (dmul (mkDouble (u + 1) 0) SCALE) (mkDouble max 0)) < max.
Proof.
  intros Hu Hmax. destruct (dmul_upper (mkDouble (u + 1) 0) SCALE) as (s1 & Hs1 & Hm1 & He1 & Hb1); [cbn [mant SCALE]; lia..|].
  set (x := dmul _ SCALE) in *. destruct (dmul_upper x (mkDouble max 0)) as (s2 & Hs2 & Hm2 & He2 & Hb2); [done|cbn [mant]; lia|].
  set (y := dmul x _) in *. cbn [mant expo SCALE] in Hb1, He1, Hb2, He2.
  assert (mant y * 2 ^ (s1 + s2) < max * 2 ^ 63) as Hy.
  { rewrite Z.pow_add_r by lia. assert (0 < 2 ^ s1) by (apply Z.pow_pos_nonneg; lia). assert (0 < 2 ^ s2) by (apply Z.pow_pos_nonneg; lia).
    apply (Z.mul_lt_mono_pos_r (2 ^ 106)); [lia|].
    apply Z.le_lt_trans with (2 ^ 32 * 2147483647 * (2 ^ 53 + 1) * (2 ^ 53 + 1) * max); [|lia].
    apply Z.le_trans with ((mant x * 2 ^ s1 * 2 ^ 53) * (max * (2 ^ 53 + 1))); [|nia].
    transitivity (mant y * 2 ^ s2 * 2 ^ 53 * (2 ^ s1 * 2 ^ 53)); [lia|].
    transitivity (mant x * max * (2 ^ 53 + 1) * (2 ^ s1 * 2 ^ 53)); [apply Z.mul_le_mono_nonneg_r; lia|lia]. }
  apply trunc_lt; [done|lia|]. intros s Hs Hes. rewrite He2, He1 in *.
  replace (0 + -63 + s1 + 0 + s2 + s) with (s1 + s2 + s - 63) in * by lia.
  apply (Z.mul_lt_mono_pos_r (2 ^ 63)); [lia|]. rewrite <- Z.mul_assoc, <- Z.pow_add_r by lia.
  replace (s1 + s2 + s - 63 + 63) with (s1 + s2 + s) by lia. rewrite Z.pow_add_r by lia.
  assert (0 < 2 ^ s) by (apply Z.pow_pos_nonneg; lia). nia.
Qed.

Lemma GetUniform_below max r : rng_ok r -> 0 <= max < 2 ^ 32 ->
  rng_ok (GetUniform max r).2 /\ 0 <= (GetUniform max r).1 <= Z.max 0 (max - 1).
Proof.
  intros Hr Hmax. destruct (GetUint_spec r Hr) as (Hr' & _ & Hu). unfold GetUniform. destruct (GetUint r) as [u r'].
  cbn [fst snd] in *. split; [done|]. destruct (Z.eq_dec max 0) as [->|].
  - set (x := dmul _ SCALE). replace (trunc _) with 0; [done|]. unfold dmul, trunc, round_double. cbn [mant expo].
    rewrite Z.mul_0_r. cbn. case_if; [by rewrite Z.shiftr_0_l|by rewrite Z.shiftl_0_l].
  - pose proof (scaled_below u max Hu ltac:(lia)). rewrite u32_small; lia.
Qed.

(** The random numbers of the tests: starting from the initial values of the
    static variables, the two halves of the generator never reach 0 and never
    overflow their 32 bits, and a number drawn below [max] is below [max],
    also after the two roundings of its floating-point product. *)
Theorem random_spec (n : nat) (max : Z) :
  let r := Nat.iter n (fun r => (GetUint r).2) rng_init in
  0 < m_z r < 36969 * 2 ^ 16 /\ 0 < m_w r < 18000 * 2 ^ 16 /\
  (GetUint r).2 = mkRng (36969 * (m_z r mod 2 ^ 16) + m_z r / 2 ^ 16) (18000 * (m_w r mod 2 ^ 16) + m_w r / 2 ^ 16) /\
  (0 < max < 2 ^ 32 -> 0 <= (GetUniform max r).1 < max).
Proof.
  cbv zeta. assert (rng_ok (Nat.iter n (fun r => (GetUint r).2) rng_init)) as Hok.
  { induction n as [|n IH]; [by split|]. by apply GetUint_spec. }
  set (r := Nat.iter _ _ _) in *. split_and!; try apply Hok; [by apply GetUint_spec|].
  intros Hm. destruct (GetUniform_below max r Hok ltac:(lia)). lia.
Qed.

Lemma random_spec_witness :
  (0 < 100 < 2 ^ 32) /\ 0 <= (GetUniform 100 (Nat.iter 3 (fun r => (GetUint r).2) rng_init)).1 < 100.
Proof. split; [lia|]. apply (random_spec 3 100). lia. Defined.

(** The first draws, as a C compiler computes them. *)
Example first_draws : (GetUniform 100 rng_init).1 = 19 /\ (GetUniform 100 (GetUint rng_init).2).1 = 54.
Proof. by vm_compute. Qed.

(** ** Numbers *)

Lemma i64_small z : - 2 ^ 63 <= z < 2 ^ 63 -> i64 z = z.
Proof. intros. unfold i64. rewrite Z.mod_small; lia. Qed.

Lemma i64_add a b : i64 (i64 a + b) = i64 (a + b).
Proof.
  unfold i64. f_equal. replace ((a + 2 ^ 63) mod 2 ^ 64 - 2 ^ 63 + b + 2 ^ 63) with ((a + 2 ^ 63) mod 2 ^ 64 + b) by lia.
  rewrite Z.add_mod_idemp_l by lia. f_equal. lia.
Qed.

(** A number that is not 0 stays so as [uint64_t]. *)
Lemma satoi_u64 a : satoi a <> 0 -> u64 (satoi a) <> 0.
Proof.
  assert (- 2 ^ 63 <= satoi a < 2 ^ 63) as Ha.
  { unfold satoi. destruct (match a with [] => _ | _ => _ end) as [s d]. destruct (satoi_loop 0 d) as [v|]; [|lia].
    unfold i64. pose proof (Z.mod_pos_bound (v * s + 2 ^ 63) (2 ^ 64)). lia. }
  unfold u64. intros H0 H. apply Z.mod_divide in H as [q Hq]; lia.
Qed.

Lemma satoi_loop_digits l res :
  forallb is_digit (cstr l) = true -> 0 <= res -> (res + 1) * 10 ^ Z.of_nat (length (cstr l)) <= 10 ^ 18 ->
  exists v, satoi_loop res l = Some v /\ res <= v < 10 ^ 18.
Proof.
  revert res. induction l as [|c l IH]; intros res Hd Hr Hb; cbn [satoi_loop cstr] in *;
    [exists res; cbn in Hb; split; [done|lia]|].
  case_if; [exists res; cbn in Hb; split; [done|lia]|]. cbn [forallb length] in *. apply andb_true_iff in Hd as [Hc Hd]. rewrite Hc. cbn [negb].
  rewrite Nat2Z.inj_succ, Z.pow_succ_r in Hb by lia. unfold is_digit in Hc.
  assert (0 < 10 ^ Z.of_nat (length (cstr l))) by (apply Z.pow_pos_nonneg; lia).
  assert (res * 10 + 10 <= 10 ^ 18) by nia.
  rewrite (i64_small (res * 10)), (i64_small (res * 10 + c)), (i64_small (res * 10 + c - 48)) by lia.
  destruct (IH (res * 10 + c - 48) Hd) as (v & E & H1); [lia|nia|]. exists v. split; [done|lia].
Qed.

(** What the shell accepts as a positive number the tests read as one: a
    text of at most 18 characters that passes [is_positive_number] has a
    positive value under [satoi]. *)
Theorem positive_number_satoi (text : list Z) :
  is_positive_number text = true -> (length (cstr text) <= 18)%nat -> 0 < satoi text.
Proof.
  unfold is_positive_number, satoi. intros Hp Hlen. destruct text as [|c l]; [done|]. cbn [cstr] in *.
  destruct (c =? 0) eqn:E0; [done|]. apply andb_true_iff in Hp as [Hc Hd]. cbn [forallb length] in *.
  apply andb_true_iff in Hd as [Hcd Hd]. unfold is_digit in Hcd. replace (c =? 45) with false by lia.
  cbn [satoi_loop]. rewrite E0. replace (is_digit c) with true by (unfold is_digit; lia). cbn [negb].
  rewrite (i64_small (0 * 10)), (i64_small (0 * 10 + c)), (i64_small (0 * 10 + c - 48)) by lia.
  assert (Hb : 10 * 10 ^ Z.of_nat (length (cstr l)) <= 10 ^ 18).
  { rewrite <- Z.pow_succ_r by lia. apply Z.pow_le_mono_r; lia. }
  assert (0 < 10 ^ Z.of_nat (length (cstr l))) by (apply Z.pow_pos_nonneg; lia).
  destruct (satoi_loop_digits l (0 * 10 + c - 48) Hd) as (v & E & H1); [lia|nia|].
  rewrite E, i64_small by lia. lia.
Qed.

Lemma positive_number_satoi_witness : 0 < satoi (lit "4096").
Proof. apply positive_number_satoi; [done|simpl; lia]. Defined.

(** Twenty digits overflow, and the tests take the result for the text of no
    number. *)
Lemma satoi_overflow : is_positive_number (lit "18446744073709551616") = true /\ satoi (lit "18446744073709551616") = 0.
Proof. by vm_compute. Qed.

(** ** Blocks of memory *)

Lemma memcheck_spec p v n m : 0 <= v < 256 -> 0 <= n -> memcheck p v n m = 1 <-> forall x, p <= x < p + n -> m x = v.
Proof.
  intros Hv Hn. unfold memcheck, u8. rewrite Z.mod_small by done. replace n with (Z.of_nat (Z.to_nat n)) by lia.
  rewrite Nat2Z.id. generalize (Z.to_nat n). clear n Hn. intros n. revert p. induction n as [|n IH]; intros p; cbn [memcheck_loop]; [split; [lia|done]|].
  destruct (m p =? v) eqn:E; cbn [negb].
  - rewrite IH. split; intros H x Hx; [destruct (Z.eq_dec x p) as [->|]; [lia|]|]; apply H; lia.
  - split; [done|]. intros H. specialize (H p). lia.
Qed.

Lemma memcheck_bool p v n m : memcheck p v n m = 0 \/ memcheck p v n m = 1.
Proof.
  unfold memcheck. generalize (u8 v), (Z.to_nat n). clear. intros v n. revert p.
  induction n as [|n IH]; intros p; cbn [memcheck_loop]; [by right|]. case_if; [by left|apply IH].
Qed.
