(* ===== verification/TestSync.v ===== *)
(** * The synchronization test

    [Userland/SampleCodeModule/tests/test_sync.c]: processes that add to a
    shared variable, with or without a semaphore around each addition.  The
    scheduler can stop a process between any two accesses to memory, so that a
    run is any interleaving of the steps of the processes.  The semaphore is
    the abstract one: [SemaphoreProps] shows that the kernel's behaves so. *)

From Stdlib Require Import String.
From S2P Require Import Prelude Lib UserLib UserProg ShellParse TestUtil.
Local Open Scope Z_scope.

(** ** Processes *)

(** Where a process is in the loop of [process_inc]: before [sys_sem_wait],
    before the load of [slowInc], between its load and its store, and before
    [sys_sem_post]. *)
Inductive phase := Before | Inside | Loaded (aux : Z) | Stored.

#[export] Instance phase_eq_dec : EqDecision phase.
Proof. solve_decision. Defined.

Record Proc := mkProc { left : nat; inc : Z; ph : phase }.

Record Sync := mkSync { sem : Z; global : Z; procs : list Proc }.

Section Steps.
(** [use_sem] *)
Variable use_sem : bool.

(** One step of a process: the semaphore, the variable and the process
    after it. *)
Inductive pstep : Z -> Z -> Proc -> Z -> Z -> Proc -> Prop :=
  | step_wait v g n i :
      (use_sem = true -> 0 < v) ->
      pstep v g (mkProc (S n) i Before) (if use_sem then v - 1 else v) g (mkProc (S n) i Inside)
  | step_load v g n i :
      pstep v g (mkProc n i Inside) v g (mkProc n i (Loaded g))
  | step_store v g n i aux :
      pstep v g (mkProc n i (Loaded aux)) v (i64 (aux + i)) (mkProc n i Stored)
  | step_post v g n i :
      pstep v g (mkProc (S n) i Stored) (if use_sem then v + 1 else v) g (mkProc n i Before).

Inductive step : Sync -> Sync -> Prop :=
  | step_proc v g v' g' pre p p' post :
      pstep v g p v' g' p' -> step (mkSync v g (pre ++ p :: post)) (mkSync v' g' (pre ++ p' :: post)).

Inductive steps : nat -> Sync -> Sync -> Prop :=
  | steps_refl s : steps 0 s s
  | steps_next n s s' s'' : steps n s s' -> step s' s'' -> steps (S n) s s''.
End Steps.

(** [test_sync]: two processes that subtract and two that add, [n] times
    each. *)
Definition sync_init (n : nat) : Sync :=
  mkSync 1 0 [mkProc n (-1) Before; mkProc n 1 Before; mkProc n (-1) Before; mkProc n 1 Before].

Definition finished (s : Sync) : Prop := Forall (fun p => left p = O /\ ph p = Before) (procs s).

(** ** The invariant *)

Definition inside (p : Proc) : Z := match ph p with Before => 0 | _ => 1 end.

(** What a process has added so far, when it had [n] rounds to do. *)
Definition added (n : nat) (p : Proc) : Z :=
  (Z.of_nat n - Z.of_nat (left p)) * inc p + match ph p with Stored => inc p | _ => 0 end.

(** The steps a process has left. *)
Definition work (p : Proc) : Z :=
  4 * Z.of_nat (left p) - match ph p with Before => 0 | Inside => 1 | Loaded _ => 2 | Stored => 3 end.

Definition sum (f : Proc -> Z) (l : list Proc) : Z := foldr (fun p n => f p + n) 0 l.

Lemma sum_app f a b : sum f (a ++ b) = sum f a + sum f b.
Proof. unfold sum. induction a as [|p a IH]; simpl; lia. Qed.

Lemma sum_middle f pre p post : sum f (pre ++ p :: post) = sum f pre + f p + sum f post.
Proof. rewrite sum_app. simpl. lia. Qed.

Lemma inside_nonneg l : 0 <= sum inside l.
Proof. unfold sum. induction l as [|p l IH]; simpl; [lia|]. unfold inside at 1. destruct (ph p); lia. Qed.

(** At most one process is between its wait and its post, the value it has
    loaded is the value of the variable, and the variable is the sum of what
    all have added. *)
Record sync_inv (n : nat) (s : Sync) : Prop := {
  si_sem : sem s = 1 - sum inside (procs s);
  si_nonneg : 0 <= sem s;
  si_loaded : Forall (fun p => forall aux, ph p = Loaded aux -> aux = global s) (procs s);
  si_busy : Forall (fun p => ph p <> Before -> left p <> O) (procs s);
  si_global : global s = i64 (sum (added n) (procs s));
}.

(** A process inside excludes the others. *)
Lemma others_before pre p post :
  sum inside (pre ++ p :: post) <= 1 -> inside p = 1 -> Forall (fun q => ph q = Before) (pre ++ post).
Proof.
  rewrite sum_middle. intros H1 H2. pose proof (inside_nonneg pre). pose proof (inside_nonneg post).
  assert (Hz : forall l, sum inside l = 0 -> Forall (fun q => ph q = Before) l).
  { clear. induction l as [|q l IH]; intros Hs; [constructor|]. change (inside q + sum inside l = 0) in Hs.
    pose proof (inside_nonneg l). unfold inside at 1 in Hs. destruct (ph q) eqn:E; try lia. constructor; [done|apply IH; lia]. }
  apply Forall_app. split; apply Hz; lia.
Qed.

Lemma sync_step n s s' : sync_inv n s -> step true s s' -> sync_inv n s'.
Proof.
  intros [Hs Hp Hl Hb Hg] Hst. destruct Hst as [v g v' g' pre p p' post Hp'].
  cbn [sem global procs] in *. rewrite sum_middle in Hs, Hg. apply Forall_app in Hl as [Hl1 Hl2], Hb as [Hb1 Hb2].
  apply list.Forall_cons in Hl2 as [Hl Hl2], Hb2 as [Hb Hb2].
  pose proof (others_before pre p post) as Hot. rewrite sum_middle in Hot.
  destruct Hp' as [v g m i Hv|v g m i|v g m i aux|v g m i]; cbn [sem global procs]; (constructor; cbn [sem global procs]);
    rewrite ?sum_middle; try apply Forall_app; try (split; [done|constructor; [|done]]); unfold inside, added in *; cbn [ph left inc] in *;
    try done; try lia.
  - intros aux [= ->]. done.
  - intros _. by apply Hb.
  - assert (Hz : Forall (fun q => ph q = Before) (pre ++ post)) by (apply Hot; [lia|done]). apply Forall_app in Hz as [Hz1 Hz2].
    split; [|constructor; [done|]]; (eapply list.Forall_impl; [eassumption|]); cbn; intros q ->; done.
  - intros _. by apply Hb.
  - rewrite (Hl aux eq_refl), Hg, i64_add. f_equal. lia.
  - rewrite Hg. f_equal. lia.
Qed.

Lemma sync_init_inv n : sync_inv n (sync_init n).
Proof.
  constructor; cbn; [done|lia|by repeat constructor|by repeat constructor|].
  unfold sync_init, added. cbn. rewrite i64_small; lia.
Qed.

Lemma sync_reachable n m s : steps true m (sync_init n) s -> sync_inv n s.
Proof.
  remember (sync_init n) as s0 eqn:E. induction 1 as [|m s1 s2 s3 _ IH Hst]; subst; [apply sync_init_inv|].
  eapply sync_step; [by apply IH|done].
Qed.

(** Every step is progress. *)
Lemma step_work u s s' : step u s s' -> sum work (procs s') = sum work (procs s) - 1.
Proof.
  intros Hst. destruct Hst as [v g v' g' pre p p' post Hp]. cbn [procs]. rewrite !sum_middle.
  destruct Hp; unfold work at 2 5; cbn [left ph]; lia.
Qed.

Lemma steps_work u m s s' : steps u m s s' -> sum work (procs s') = sum work (procs s) - Z.of_nat m.
Proof. induction 1 as [|m s1 s2 s3 _ IH Hst]; [lia|]. apply step_work in Hst. lia. Qed.

Lemma work_nonneg l : Forall (fun p => ph p <> Before -> left p <> O) l -> 0 <= sum work l.
Proof.
  induction 1 as [|p l Hp _ IH]; [done|]. change (0 <= work p + sum work l). unfold work at 1.
  destruct (ph p); [lia|..]; (assert (left p <> O) by (by apply Hp)); lia.
Qed.

(** While a process has not finished, some process can go on. *)
Lemma sync_progress n s : sync_inv n s -> finished s \/ exists s', step true s s'.
Proof.
  intros [Hs Hp Hl Hb Hg]. destruct s as [v g l]. cbn [sem procs] in *. unfold finished. cbn [procs].
  destruct (decide (Exists (fun p => ph p <> Before) l)) as [He|He].
  - right. apply list.Exists_exists in He as (p & Hin & Hph). apply list_elem_of_split in Hin as (pre & post & ->).
    apply Forall_app in Hb as [_ Hb]. apply list.Forall_cons in Hb as [Hb _]. specialize (Hb Hph).
    destruct p as [m i []]; cbn in *; [done|eexists; constructor; constructor..|].
    destruct m as [|m]; [done|]. eexists. constructor. constructor.
  - apply not_Exists_Forall in He; [|apply _].
    assert (Hall : Forall (fun p => ph p = Before) l).
    { eapply list.Forall_impl; [exact He|]. intros p H. by destruct (decide (ph p = Before)). }
    assert (Hz : sum inside l = 0).
    { clear -Hall. induction Hall as [|p l Hp _ IH]; [done|]. change (inside p + sum inside l = 0). unfold inside at 1. by rewrite Hp, IH. }
    destruct (decide (Forall (fun p => left p = O) l)) as [Hf|Hf].
    + left. by apply Forall_and.
    + right. apply not_Forall_Exists in Hf; [|apply _]. apply list.Exists_exists in Hf as (p & Hin & Hn).
      rewrite list.Forall_forall in Hall. specialize (Hall _ Hin). apply list_elem_of_split in Hin as (pre & post & ->).
      destruct p as [[|m] i ph]; cbn in *; [done|]. subst ph. eexists. constructor. constructor. lia.
Qed.



(** Running a given interleaving. *)
Lemma steps_cons u n s s' s'' : step u s s' -> steps u n s' s'' -> steps u (S n) s s''.
Proof. intros H1 H2. induction H2 as [|n s1 s2 s3 _ IH H3]; econstructor; [constructor|done|by apply IH|done]. Qed.

Lemma step_at u v g v' g' p p' i l :
  l !! i = Some p -> pstep u v g p v' g' p' -> step u (mkSync v g l) (mkSync v' g' (<[i := p']> l)).
Proof.
  intros Hi Hp. assert (Hlt : (i < length l)%nat) by (by eapply lookup_lt_Some).
  rewrite insert_take_drop by done. rewrite <- (take_drop_middle l i p Hi) at 1. by constructor.
Qed.

Ltac go i := eapply steps_cons; [eapply (step_at _ _ _ _ _ _ _ i); [reflexivity|by econstructor]|cbn].

(** Without the semaphore an update can be lost: two processes load the same
    value, and one of the four updates has no effect. *)
Lemma race_without_semaphore : exists s, steps false 16 (sync_init 1) s /\ finished s /\ global s = 1.
Proof.
  eexists. split.
  - unfold sync_init. go 0%nat. go 1%nat. go 0%nat. go 1%nat. go 0%nat. go 1%nat. go 0%nat. go 1%nat.
    go 2%nat. go 2%nat. go 2%nat. go 2%nat. go 3%nat. go 3%nat. go 3%nat. go 3%nat. apply steps_refl.
  - split; [by repeat constructor|done].
Qed.
