(* ===== verification/TestMM.v ===== *)
(** * The memory test

    [Userland/SampleCodeModule/tests/test_mm.c]: blocks of random sizes are
    requested, filled with a pattern each, checked and given back, for ever.
    The test sees its own memory as [bytes]; the generator of [TestUtil] and
    the memory are passed along. *)

From Stdlib Require Import String.
From S2P Require Import Prelude Lib UserLib UserProg Apps Memory ShellParse ShellProps TestUtil FreeList.
Local Open Scope Z_scope.

Definition MAX_BLOCKS : nat := 128.

Record mm_rq := mkRq { address : Z; rq_size : Z }.

(** [while (rq < MAX_BLOCKS && total < max_memory)], with [n] elements of the
    array left; the result is the part of the array that is filled. *)
Fixpoint request_loop (n : nat) (max_memory total : Z) (r : Rng) : prog (list mm_rq * Rng) :=
  match n with
  | O => Ret ([], r)
  | S n =>
      if total <? max_memory then
        let '(u, r) := GetUniform (u32 (u64 (u64 (max_memory - total) - 1))) r in
        let size := u32 (u + 1) in
        address ← sys64 (SysMemAlloc size);
        if negb (address =? 0) then
          '(rqs, r) ← request_loop n max_memory (u32 (total + size)) r;
          Ret (mkRq address size :: rqs, r)
        else Ret ([], r)
      else Ret ([], r)
  end.

(** [memset] of [_loader.c]. *)
Definition user_memset (destination c length : Z) (m : bytes) : bytes :=
  memset_loop destination (u8 c) (Z.to_nat length) m.

(** [_start] of [_loader.c], up to the call of [main]. *)
Definition user_start (bss endOfBinary : Z) (m : bytes) : bytes := user_memset bss 0 (u64 (endOfBinary - bss)) m.

(** The three loops over the blocks, from index [i]. *)
Fixpoint fill_blocks (i : Z) (rqs : list mm_rq) (m : bytes) : bytes :=
  match rqs with
  | [] => m
  | q :: rqs => fill_blocks (i + 1) rqs (if negb (address q =? 0) then user_memset (address q) i (rq_size q) m else m)
  end.

(** The first block whose pattern is damaged. *)
Fixpoint check_blocks (i : Z) (rqs : list mm_rq) (m : bytes) : option Z :=
  match rqs with
  | [] => None
  | q :: rqs =>
      if negb (address q =? 0) && (memcheck (address q) i (rq_size q) m =? 0) then Some i
      else check_blocks (i + 1) rqs m
  end.

Fixpoint free_blocks (rqs : list mm_rq) : prog () :=
  match rqs with
  | [] => Ret ()
  | q :: rqs => (if negb (address q =? 0) then sys64 (SysMemFree (address q));; Ret () else Ret ());; free_blocks rqs
  end.

(** The body of [while (1)]. *)
Definition mm_round (max_memory : Z) (x : Rng * bytes) : prog (Rng * bytes + Z) :=
  let '(r, m) := x in
  '(rqs, r) ← request_loop MAX_BLOCKS max_memory 0 r;
  let m := fill_blocks 0 rqs m in
  match check_blocks 0 rqs m with
  | Some i =>
      say (ln "test_mm ERROR: solapamiento detectado en bloque %d") [AInt i];;
      Ret (inr (u64 (-1)))
  | None => free_blocks rqs;; Ret (inl (r, m))
  end.

Definition test_mm (n : nat) (argv : list (list Z)) (r : Rng) (m : bytes) : prog Z :=
  if negb (argc argv =? 1) then say (ln "Uso: test_mm <max_memory_bytes>") [];; Ret (u64 (-1))
  else
    let max_memory := u64 (satoi (argv_at argv 0)) in
    if max_memory <=? 0 then Ret (u64 (-1))
    else iterate n (mm_round max_memory) (r, m).

(** ** Patterns *)

Definition inside (q : mm_rq) (x : Z) : Prop := address q <= x < address q + rq_size q.

(** Blocks with an address and at least one byte. *)
Definition blocks_ok (rqs : list mm_rq) : Prop := Forall (fun q => address q <> 0 /\ 0 < rq_size q) rqs.

(** No two blocks share a byte. *)
Definition apart (q q' : mm_rq) : Prop := disjoint_regions (address q) (rq_size q) (address q') (rq_size q').

Definition all_apart (rqs : list mm_rq) : Prop :=
  forall i j q q', i <> j -> rqs !! i = Some q -> rqs !! j = Some q' -> apart q q'.

Lemma all_apart_cons q rqs : all_apart (q :: rqs) <-> Forall (apart q) rqs /\ all_apart rqs.
Proof.
  split.
  - intros H. split; [|intros i j x y Hij Hx Hy; by apply (H (S i) (S j)); [congruence|..]].
    apply list.Forall_lookup. intros j x Hx. by apply (H 0%nat (S j)).
  - intros [Hq H] [|i] [|j] x y Hij Hx Hy; simplify_eq/=.
    + by eapply list.Forall_lookup in Hq.
    + eapply list.Forall_lookup in Hq; [|done]. unfold apart, disjoint_regions in *. lia.
    + by apply (H i j); [congruence|..].
Qed.

Lemma user_memset_spec a c n m x : 0 <= c < 256 -> 0 <= n ->
  user_memset a c n m x = if (a <=? x) && (x <? a + n) then c else m x.
Proof.
  intros Hc Hn. unfold user_memset. rewrite memset_loop_spec. unfold u8. rewrite Z.mod_small by done. by rewrite Z2Nat.id.
Qed.

(** A program starts with its uninitialised variables zero and the rest of
    its memory as loaded. *)
Lemma user_start_spec bss endOfBinary m x : bss <= endOfBinary < bss + 2 ^ 64 ->
  user_start bss endOfBinary m x = if (bss <=? x) && (x <? endOfBinary) then 0 else m x.
Proof.
  intros Hb. unfold user_start. rewrite u64_small, user_memset_spec by lia.
  by replace (bss + (endOfBinary - bss)) with endOfBinary by lia.
Qed.

Lemma fill_outside i rqs m x : blocks_ok rqs -> 0 <= i -> i + Z.of_nat (length rqs) <= 256 ->
  Forall (fun q => ~ inside q x) rqs -> fill_blocks i rqs m x = m x.
Proof.
  intros Hok. revert i m. induction Hok as [|q rqs [Ha Hs] _ IH]; intros i m Hi Hl Hx; [done|]. cbn [fill_blocks length] in *.
  apply list.Forall_cons in Hx as [Hq Hx]. rewrite IH by (done || lia). replace (address q =? 0) with false by lia. cbn [negb].
  rewrite user_memset_spec by lia. unfold inside in Hq. by replace (_ && _) with false by lia.
Qed.

(** The bytes of disjoint blocks hold the indices of their blocks. *)
Lemma fill_inside i rqs m j q x : blocks_ok rqs -> all_apart rqs -> 0 <= i -> i + Z.of_nat (length rqs) <= 256 ->
  rqs !! j = Some q -> inside q x -> fill_blocks i rqs m x = i + Z.of_nat j.
Proof.
  intros Hok. revert i m j. induction Hok as [|q0 rqs [Ha Hs] Hok IH]; intros i m j Hd Hi Hl Hj Hx; [done|]. cbn [fill_blocks length] in *.
  apply all_apart_cons in Hd as [Hq0 Hd]. destruct j as [|j]; simplify_eq/=.
  - rewrite fill_outside; [|done|lia|lia|].
    + replace (address q =? 0) with false by lia. cbn [negb]. rewrite user_memset_spec by lia. unfold inside in Hx.
      replace (_ && _) with true by lia. lia.
    + eapply list.Forall_impl; [exact Hq0|]. unfold apart, disjoint_regions, inside in *. lia.
  - rewrite (IH _ _ j) by (done || lia). lia.
Qed.

Lemma check_none i rqs m : blocks_ok rqs -> 0 <= i -> i + Z.of_nat (length rqs) <= 256 ->
  check_blocks i rqs m = None <-> forall j q x, rqs !! j = Some q -> inside q x -> m x = i + Z.of_nat j.
Proof.
  intros Hok. revert i. induction Hok as [|q rqs [Ha Hs] _ IH]; intros i Hi Hl; cbn [check_blocks length] in *; [done|].
  replace (address q =? 0) with false by lia. cbn [negb andb].
  pose proof (memcheck_spec (address q) i (rq_size q) m ltac:(lia) ltac:(lia)) as Hm.
  destruct (memcheck_bool (address q) i (rq_size q) m) as [E|E]; rewrite E in *; cbn [Z.eqb].
  - split; [done|]. intros H. assert (0 = 1) as Hbad; [|lia]. apply Hm. intros x Hx. specialize (H 0%nat q x eq_refl Hx). lia.
  - rewrite IH by lia. destruct Hm as [Hm _]. specialize (Hm eq_refl). split; intros H.
    + intros [|j] q' x Hj Hx; simplify_eq/=; [rewrite Hm by done; lia|]. rewrite (H j q' x) by done. lia.
    + intros j q' x Hj Hx. rewrite (H (S j) q' x) by done. lia.
Qed.

(** The check after filling is exact. *)
Lemma check_fill rqs m : blocks_ok rqs -> Z.of_nat (length rqs) <= 256 ->
  check_blocks 0 rqs (fill_blocks 0 rqs m) = None <-> all_apart rqs.
Proof.
  intros Hok Hl. rewrite check_none by (done || lia). split.
  - intros H i j q q' Hij Hi Hj. pose proof Hok as Hok'. eapply list.Forall_lookup in Hok as [_ Hs]; [|exact Hi].
    eapply list.Forall_lookup in Hok' as [_ Hs']; [|exact Hj].
    destruct (Z_le_gt_dec (address q + rq_size q) (address q')); [by left|].
    destruct (Z_le_gt_dec (address q' + rq_size q') (address q)); [by right|].
    specialize (H i q (Z.max (address q) (address q')) Hi ltac:(unfold inside; lia)) as H1.
    specialize (H j q' (Z.max (address q) (address q')) Hj ltac:(unfold inside; lia)) as H2. lia.
  - intros Hd j q x Hj Hx. by eapply fill_inside.
Qed.

(** ** Rounds

    What the test relies on: [R tr L] says that after the calls [tr] the test
    holds the blocks [L], with the sizes it asked for. *)
Record allocator (k : kernel) (R : trace -> regions -> Prop) : Prop := {
  al_alloc tr L n : R tr L -> 0 < n < 2 ^ 32 ->
    let r := k tr (SysMemAlloc n) in let p := u64 r.1 in
    R (tr ++ [(SysMemAlloc n, r)]) (if p =? 0 then L else <[p := n]> L) /\
    (p <> 0 -> forall q j, L !! q = Some j -> disjoint_regions p n q j);
  al_free tr L p n : R tr L -> L !! p = Some n ->
    R (tr ++ [(SysMemFree p, k tr (SysMemFree p))]) (delete p L);
  al_size tr L p n : R tr L -> L !! p = Some n -> 0 < n
}.

(** The blocks held after those of an array have been added. *)
Definition held (rqs : list mm_rq) (L : regions) : regions := foldl (fun L q => <[address q := rq_size q]> L) L rqs.

(** Blocks that are new and do not overlap those of [L]. *)
Definition beside (L : regions) (q : mm_rq) : Prop :=
  forall p n, L !! p = Some n -> disjoint_regions (address q) (rq_size q) p n.

Definition total (rqs : list mm_rq) : Z := foldr (fun q s => rq_size q + s) 0 rqs.

Lemma size_draw max_memory tot r : rng_ok r -> 0 <= tot < max_memory -> max_memory < 2 ^ 64 ->
  let d := GetUniform (u32 (u64 (u64 (max_memory - tot) - 1))) r in
  rng_ok d.2 /\ 0 < u32 (d.1 + 1) < 2 ^ 32 /\ (max_memory < 2 ^ 32 -> u32 (d.1 + 1) <= max_memory - tot).
Proof.
  intros Hr Ht Hm. rewrite (u64_small (max_memory - tot)), u64_small by lia. cbv zeta.
  pose proof (u32_range (max_memory - tot - 1)) as Hu.
  destruct (GetUniform_below (u32 (max_memory - tot - 1)) r Hr Hu) as [Hr' Hd].
  set (d := GetUniform _ _) in *.
  split; [done|]. rewrite u32_small by lia. split; [lia|]. intros. rewrite u32_small in Hd by lia. lia.
Qed.

Lemma no_blocks L : blocks_ok [] /\ all_apart [] /\ Forall (beside L) [].
Proof. split_and!; [constructor|by intros [] ?|constructor]. Qed.

Lemma held_insert a s rqs L : Forall (fun q => address q <> a) rqs -> held rqs (<[a := s]> L) = <[a := s]> (held rqs L).
Proof.
  intros H. revert L. induction H as [|q rqs Hq _ IH]; intros L; [done|]. change (held (q :: rqs) ?X) with (held rqs (<[address q := rq_size q]> X)).
  rewrite insert_insert_ne by done. apply IH.
Qed.

Lemma held_lookup a rqs L : Forall (fun q => address q <> a) rqs -> held rqs L !! a = L !! a.
Proof.
  intros H. revert L. induction H as [|q rqs Hq _ IH]; intros L; [done|]. change (held (q :: rqs) L) with (held rqs (<[address q := rq_size q]> L)).
  rewrite IH. by apply lookup_insert_ne.
Qed.

(** Blocks that are apart have different addresses. *)
Lemma apart_addresses q rqs : 0 < rq_size q -> blocks_ok rqs -> Forall (apart q) rqs -> Forall (fun q' => address q' <> address q) rqs.
Proof.
  intros Hs Hok Ha. apply list.Forall_forall. intros x Hx. pose proof (proj1 (list.Forall_forall _ _) Hok x Hx) as [_ Hx'].
  pose proof (proj1 (list.Forall_forall _ _) Ha x Hx) as Hd. unfold apart, disjoint_regions in Hd. lia.
Qed.

(** On any kernel the array has blocks of one byte or more, together no larger
    than asked for. *)
Lemma request_any k n max_memory tot r tr : rng_ok r -> 0 <= tot -> max_memory < 2 ^ 64 ->
  exists t rqs r', run k (request_loop n max_memory tot r) tr = (tr ++ t, Done (rqs, r')) /\ rng_ok r' /\
    blocks_ok rqs /\ (length rqs <= n)%nat /\ output t = [] /\
    (max_memory < 2 ^ 32 -> tot <= max_memory -> tot + total rqs <= max_memory).
Proof.
  revert tot r tr. induction n as [|n IH]; intros tot r tr Hr Ht Hm; cbn [request_loop];
    [|destruct (tot <? max_memory) eqn:Em]; try by exists [], [], r; rewrite app_nil_r; split_and!; try done; [constructor|cbn; lia..].
  destruct (size_draw max_memory tot r Hr ltac:(lia) Hm) as (Hr1 & Hs & Hb). destruct (GetUniform _ r) as [u r1]. cbn [fst snd] in *.
  set (sz := u32 (u + 1)) in *. rewrite run_sys64. set (e := (SysMemAlloc sz, _)). set (p := u64 _).
  destruct (p =? 0) eqn:Ep; cbn [negb]; [exists [e], [], r1; split_and!; try done; [constructor|cbn; lia..]|].
  rewrite run_bind. destruct (IH (u32 (tot + sz)) r1 (tr ++ [e])) as (t & rqs & r2 & -> & Hr2 & Hok & Hlen & Ho & Htot); [done|apply u32_range|done|].
  exists ([e] ++ t), (mkRq p sz :: rqs), r2. rewrite app_assoc. cbn [run length total foldr]. split_and!; try done.
  - constructor; [cbn; lia|done].
  - lia.
  - intros Hm32 Hle. specialize (Hb Hm32). rewrite u32_small in Htot by lia. cbn [rq_size]. fold (total rqs). lia.
Qed.

Section Rounds.
Context (k : kernel) (R : trace -> regions -> Prop) (Hal : allocator k R).

(** The blocks requested are new and apart from each other. *)
Lemma request_run n max_memory tot r tr L : rng_ok r -> 0 <= tot -> max_memory < 2 ^ 64 -> R tr L ->
  exists t rqs r', run k (request_loop n max_memory tot r) tr = (tr ++ t, Done (rqs, r')) /\
    R (tr ++ t) (held rqs L) /\ all_apart rqs /\ Forall (beside L) rqs.
Proof.
  revert tot r tr L. induction n as [|n IH]; intros tot r tr L Hr Ht Hm HR; cbn [request_loop];
    [|destruct (tot <? max_memory) eqn:Em]; try by exists [], [], r; rewrite app_nil_r; split_and!; try apply no_blocks.
  destruct (size_draw max_memory tot r Hr ltac:(lia) Hm) as (Hr1 & Hs & Hb). destruct (GetUniform _ r) as [u r1]. cbn [fst snd] in *.
  set (sz := u32 (u + 1)) in *. rewrite run_sys64. set (e := (SysMemAlloc sz, _)).
  destruct (al_alloc k R Hal tr L sz HR Hs) as [HR1 Hap]. set (p := u64 (k tr (SysMemAlloc sz)).1) in *. fold e in HR1.
  destruct (p =? 0) eqn:Ep; cbn [negb]; [exists [e], [], r1; by split_and!; try apply no_blocks|].
  rewrite run_bind. destruct (IH (u32 (tot + sz)) r1 (tr ++ [e]) (<[p := sz]> L)) as (t & rqs & r2 & -> & HR2 & Had & Hbe);
    [done|apply u32_range|done|done|].
  exists ([e] ++ t), (mkRq p sz :: rqs), r2. rewrite app_assoc. cbn [run held foldl address rq_size]. split_and!; try done.
  - apply all_apart_cons. split; [|done]. eapply list.Forall_impl; [exact Hbe|]. intros q Hq.
    specialize (Hq p sz (lookup_insert_eq _ _ _)). unfold apart, disjoint_regions in *. cbn. lia.
  - constructor; [intros q j Hq; apply (Hap ltac:(lia) q j Hq)|]. eapply list.Forall_impl; [exact Hbe|]. intros q Hq x j Hx.
    apply Hq. rewrite lookup_insert_ne; [done|]. intros ->. pose proof (Hap ltac:(lia) _ _ Hx).
    pose proof (al_size k R Hal _ _ _ _ HR Hx). unfold disjoint_regions in *. lia.
Qed.

Lemma free_run rqs tr L : blocks_ok rqs -> all_apart rqs -> Forall (beside L) rqs -> R tr (held rqs L) ->
  (forall p n, L !! p = Some n -> 0 < n) ->
  exists t, run k (free_blocks rqs) tr = (tr ++ t, Done ()) /\ R (tr ++ t) L /\ output t = [].
Proof.
  intros Hok Had Hbe HR HL. revert tr HR. induction Hok as [|q rqs [Ha Hs] Hok IH]; intros tr HR; cbn [free_blocks].
  { exists []. by rewrite app_nil_r. }
  apply all_apart_cons in Had as [Hq Had]. apply list.Forall_cons in Hbe as [Hb Hbe].
  pose proof (apart_addresses q rqs Hs Hok Hq) as Hne. cbn [held foldl] in HR. fold (held rqs (<[address q := rq_size q]> L)) in HR.
  rewrite held_insert in HR by done. replace (address q =? 0) with false by lia. cbn [negb]. rewrite run_bind, run_sys64.
  cbn [run]. set (e := (SysMemFree (address q), _)).
  pose proof (al_free k R Hal _ _ _ _ HR (lookup_insert_eq _ _ _)) as HR'. fold e in HR'. rewrite delete_insert_id in HR'.
  2:{ rewrite held_lookup by done. destruct (L !! address q) as [n|] eqn:E; [|done]. specialize (Hb _ _ E). specialize (HL _ _ E).
      unfold disjoint_regions in Hb. lia. }
  destruct (IH Had Hbe _ HR') as (t & -> & HRt & Ho). exists ([e] ++ t). by rewrite app_assoc.
Qed.

(** A round finds nothing, writes nothing, and leaves what was held. *)
Lemma round_run max_memory r m tr L : rng_ok r -> max_memory < 2 ^ 64 -> R tr L ->
  exists t r' m', run k (mm_round max_memory (r, m)) tr = (tr ++ t, Done (inl (r', m'))) /\ rng_ok r' /\ R (tr ++ t) L /\ output t = [].
Proof.
  intros Hr Hm HR. unfold mm_round. rewrite run_bind.
  destruct (request_any k MAX_BLOCKS max_memory 0 r tr Hr ltac:(lia) Hm) as (t & rqs & r' & E & Hr' & Hok & Hlen & Ho & _).
  destruct (request_run MAX_BLOCKS max_memory 0 r tr L Hr ltac:(lia) Hm HR) as (t2 & rqs2 & r2 & E2 & HR' & Had & Hbe).
  rewrite E in E2. injection E2 as Et <- <-. apply app_inv_head in Et as <-. rewrite E.
  cbv zeta. set (m' := fill_blocks 0 rqs m).
  assert (check_blocks 0 rqs m' = None) as -> by (apply check_fill; [done|unfold MAX_BLOCKS in Hlen; lia|done]). rewrite run_bind.
  destruct (free_run rqs (tr ++ t) L Hok Had Hbe HR') as (t' & -> & HRt & Ho'); [intros p n; apply (al_size k R Hal _ _ _ _ HR)|].
  exists (t ++ t'), r', m'. by rewrite app_assoc, output_app, Ho, Ho'.
Qed.

Lemma rounds_run n max_memory r m tr L : rng_ok r -> max_memory < 2 ^ 64 -> R tr L ->
  exists t, run k (iterate n (mm_round max_memory) (r, m)) tr = (tr ++ t, Unfinished) /\ R (tr ++ t) L /\ output t = [].
Proof.
  revert r m tr. induction n as [|n IH]; intros r m tr Hr Hm HR; cbn [iterate]; [exists []; by rewrite app_nil_r|].
  rewrite run_bind. destruct (round_run max_memory r m tr L Hr Hm HR) as (t & r' & m' & -> & Hr' & HR' & Ho).
  destruct (IH r' m' (tr ++ t) Hr' Hm HR') as (t' & -> & HRt & Ho'). exists (t ++ t'). by rewrite app_assoc, output_app, Ho, Ho'.
Qed.
End Rounds.

(** ** The test on a memory manager *)

Section Manager.
Context {M : Type} `{Hmm : MemManagerLaws M}.

(** The memory system calls as the manager serves them, and its state after
    the calls of a history. *)
Definition serve (c : call) (m : M) : Z * M :=
  match c with
  | SysMemAlloc n => default (0, m) (mm_alloc n m)
  | SysMemFree p => (0, default m (mm_free p m))
  | _ => (0, m)
  end.

Definition served (m : M) (tr : trace) : M := foldl (fun m e => (serve e.1 m).2) m tr.

Definition mm_kernel (m : M) : kernel := fun tr c => ((serve c (served m tr)).1, []).

(** The blocks in use are those of [m0] and the ones held, at least as long as
    asked for. *)
Record holds (m0 : M) (tr : trace) (L : regions) : Prop := {
  ho_inv : mm_inv (served m0 tr);
  ho_heap : mm_heap (served m0 tr) = mm_heap m0;
  ho_live p : is_Some (mm_live (served m0 tr) !! p) <-> is_Some (mm_live m0 !! p) \/ is_Some (L !! p);
  ho_size p n : L !! p = Some n -> mm_live m0 !! p = None /\ 0 < n /\ exists j, n <= j /\ mm_live (served m0 tr) !! p = Some j
}.

(** Every block that is free in [m0] can be given back once it is in use. *)
Definition returnable (m0 : M) : Prop :=
  forall m p, mm_inv m -> mm_heap m = mm_heap m0 -> mm_live m0 !! p = None -> mm_freeable m p.

(** The heap has addresses of 64 bits. *)
Definition heap_fits (m0 : M) : Prop := 0 <= fst (mm_heap m0) /\ fst (mm_heap m0) + snd (mm_heap m0) <= 2 ^ 64.

Lemma served_snoc m0 tr c r : served m0 (tr ++ [(c, r)]) = (serve c (served m0 tr)).2.
Proof. unfold served. by rewrite foldl_app. Qed.

Lemma holds_alloc m0 tr L n r p m' j : holds m0 tr L -> mm_alloc n (served m0 tr) = Some (p, m') -> mm_inv m' -> mm_heap m' = mm_heap m0 ->
  mm_live m' = <[p := j]> (mm_live (served m0 tr)) -> mm_live (served m0 tr) !! p = None -> 0 < n <= j ->
  holds m0 (tr ++ [(SysMemAlloc n, r)]) (<[p := n]> L).
Proof.
  intros [Hi Hh Hl Hs] E Hi' Hh' Hl' Hn Hj. assert (served m0 (tr ++ [(SysMemAlloc n, r)]) = m') as Em by (rewrite served_snoc; cbn; by rewrite E).
  assert (mm_live m0 !! p = None) as H0.
  { apply eq_None_not_Some. intros Hs0. apply eq_None_not_Some in Hn. apply Hn, Hl. by left. }
  split; rewrite Em; [done|done|..].
  - intros q. rewrite Hl'. destruct (decide (q = p)) as [->|Hne]; [rewrite !lookup_insert_eq; split; eauto|].
    rewrite !lookup_insert_ne by done. apply Hl.
  - intros q i. rewrite Hl'. destruct (decide (q = p)) as [->|Hne].
    + rewrite !lookup_insert_eq. intros [= <-]. split_and!; [done|lia|]. exists j. by split; [lia|].
    + rewrite !lookup_insert_ne by done. apply Hs.
Qed.

Lemma mm_kernel_allocator m0 : heap_fits m0 -> returnable m0 -> allocator (mm_kernel m0) (holds m0).
Proof.
  intros Hfit Hret. split.
  - intros tr L n HL Hn. pose proof HL as [Hi Hh Hl Hs]. cbv zeta.
    destruct (mm_alloc_spec _ n Hi ltac:(lia)) as (p & m' & E & Hi' & Hh' & Hc). rewrite Hh in *.
    assert ((mm_kernel m0 tr (SysMemAlloc n)).1 = p) as -> by (unfold mm_kernel; cbn; by rewrite E).
    destruct Hc as [[-> ->]|(j & Hj & Hp & Hl' & Hlo & Hhi & Hd)].
    + cbn. split; [|done]. split; rewrite served_snoc; cbn; rewrite E; done.
    + unfold heap_fits in Hfit. rewrite u64_small by lia. replace (p =? 0) with false by lia.
      assert (mm_live (served m0 tr) !! p = None) as Hnone.
      { destruct (mm_live (served m0 tr) !! p) as [i|] eqn:Ei; [|done]. specialize (Hd _ _ Ei).
        pose proof (mm_live_heap _ _ _ Hi Ei). unfold disjoint_regions in Hd. lia. }
      split; [by eapply holds_alloc; eauto; lia|]. intros _ q i Hq. destruct (Hs _ _ Hq) as (_ & _ & i' & Hi2 & Hq').
      specialize (Hd _ _ Hq'). unfold disjoint_regions in *. lia.
  - intros tr L p n [Hi Hh Hl Hs] Hp. destruct (Hs _ _ Hp) as (H0 & _ & j & _ & Hj).
    destruct (mm_free_spec _ p j Hi Hj (Hret _ _ Hi Hh H0)) as (m' & E & Hi' & Hh' & Hl').
    split; rewrite served_snoc; cbn; rewrite E; cbn; [done|congruence|..].
    + intros q. rewrite Hl'. destruct (decide (q = p)) as [->|Hne]; [rewrite !lookup_delete_eq, H0; by split; [intros []|intros [[]|[]]]|].
      rewrite !lookup_delete_ne by done. apply Hl.
    + intros q i. rewrite Hl'. destruct (decide (q = p)) as [->|Hne]; [by rewrite lookup_delete_eq|].
      rewrite !lookup_delete_ne by done. apply Hs.
  - intros tr L p n [_ _ _ Hs] Hp. by apply Hs in Hp as (_ & Hn & _).
Qed.

(** C17: The memory test passes on a correct manager: for any argument it accepts,
    any number of rounds run without a message, and leave in use exactly the
    blocks that were in use before. *)
Theorem test_mm_passes (m0 : M) (n : nat) (a : list Z) (r : Rng) (mem : bytes) :
  mm_inv m0 -> heap_fits m0 -> returnable m0 -> rng_ok r -> satoi a <> 0 ->
  exists t, run (mm_kernel m0) (test_mm n [a] r mem) [] = (t, Unfinished) /\ output t = [] /\
    mm_inv (served m0 t) /\ dom (mm_live (served m0 t)) = dom (mm_live m0).
Proof.
  intros Hi Hfit Hret Hr Ha. pose proof (mm_kernel_allocator m0 Hfit Hret) as Hal.
  assert (holds m0 [] ∅) as H0 by (split; [done|done|intros p; rewrite lookup_empty; naive_solver|done]).
  unfold test_mm. change (argc [a] =? 1) with true. cbn [negb argv_at nth]. pose proof (satoi_u64 a Ha) as Hu. pose proof (u64_range (satoi a)).
  replace (u64 (satoi a) <=? 0) with false by lia.
  destruct (rounds_run _ _ Hal n (u64 (satoi a)) r mem [] ∅ Hr ltac:(lia) H0) as (t & -> & [Hi' _ Hl _] & Ho).
  exists t. split_and!; try done. apply set_eq. intros p. rewrite !elem_of_dom. cbn in Hl. rewrite Hl, lookup_empty. naive_solver.
Qed.

End Manager.

Lemma free_calls k rqs tr : blocks_ok rqs ->
  exists t, run k (free_blocks rqs) tr = (tr ++ t, Done ()) /\ fst <$> t = (fun q => SysMemFree (address q)) <$> rqs.
Proof.
  intros Hok. revert tr. induction Hok as [|q rqs [Ha _] _ IH]; intros tr; cbn [free_blocks]; [exists []; by rewrite app_nil_r|].
  replace (address q =? 0) with false by lia. cbn [negb]. rewrite run_bind, run_sys64. cbn [run]. set (e := (SysMemFree _, _)).
  destruct (IH (tr ++ [e])) as (t & -> & Ht). exists ([e] ++ t). rewrite app_assoc. split; [done|]. cbn. by rewrite Ht.
Qed.

(** C18: What the test reports is an overlap: on any kernel at all, a round requests
    at most 128 blocks that are together no larger than asked for; it ends with
    an error exactly when two of them share a byte, and otherwise gives every
    one of them back, in order. *)
Theorem test_mm_detects (k : kernel) (max_memory : Z) (r : Rng) (mem : bytes) (tr : trace) :
  rng_ok r -> max_memory < 2 ^ 64 ->
  exists t rqs r' t', run k (request_loop MAX_BLOCKS max_memory 0 r) tr = (tr ++ t, Done (rqs, r')) /\
    (length rqs <= 128)%nat /\ (0 <= max_memory < 2 ^ 32 -> total rqs <= max_memory) /\
    ((all_apart rqs /\ (exists mem', run k (mm_round max_memory (r, mem)) tr = ((tr ++ t) ++ t', Done (inl (r', mem')))) /\
        fst <$> t' = (fun q => SysMemFree (address q)) <$> rqs) \/
     (~ all_apart rqs /\ run k (mm_round max_memory (r, mem)) tr = ((tr ++ t) ++ t', Done (inr (2 ^ 64 - 1))) /\
        actions t' = [] /\ output t' <> [])).
Proof.
  intros Hr Hm. destruct (request_any k MAX_BLOCKS max_memory 0 r tr Hr ltac:(lia) Hm) as (t & rqs & r' & E & Hr' & Hok & Hlen & _ & Htot).
  unfold mm_round. rewrite run_bind, E. cbv zeta.
  pose proof (check_fill rqs mem Hok ltac:(unfold MAX_BLOCKS in Hlen; lia)) as Hc.
  destruct (check_blocks 0 rqs _) as [i|].
  - edestruct (@run_say (Rng * bytes + Z) k (ln "test_mm ERROR: solapamiento detectado en bloque %d") [AInt i]) as (t' & -> & Ha & Ho); [reflexivity|].
    exists t, rqs, r', t'. split_and!; [done|done|lia|right]. split_and!; [by intros ?%Hc|done|done|by rewrite Ho].
  - rewrite run_bind. destruct (free_calls k rqs (tr ++ t) Hok) as (t' & -> & Ht).
    exists t, rqs, r', t'. split_and!; [done|done|lia|left]. split_and!; [by apply Hc|by eexists|done].
Qed.

(** ** Witnesses *)

#[local] Existing Instances FreeList.FreeList_manager FreeList.FreeList_laws.

(** The first-fit manager with its first block in use. *)
Lemma first_fit_returnable : returnable FreeList.demo2.
Proof.
  intros m p _ Hh Hp. cbn. unfold FreeList.freeable. injection Hh as -> _. intros ->. revert Hp. by vm_compute.
Qed.

Lemma first_fit_inv : FreeList.fl_inv FreeList.demo2.
Proof. apply (FreeList.fl_inv_intro _ _ FreeList.demo2_rep). repeat split; reflexivity. Qed.

Lemma test_mm_passes_witness :
  satoi (lit "500") <> 0 /\ exists t, run (mm_kernel FreeList.demo2) (test_mm 3 [lit "500"] rng_init (fun _ => 0)) [] = (t, Unfinished) /\
    output t = [] /\ dom (FreeList.live (served FreeList.demo2 t)) = dom (FreeList.live FreeList.demo2).
Proof.
  split; [by vm_compute|].
  destruct (test_mm_passes FreeList.demo2 3 (lit "500") rng_init (fun _ => 0)) as (t & E & Ho & _ & Hd).
  - exact first_fit_inv.
  - unfold heap_fits. split; vm_compute; discriminate.
  - exact first_fit_returnable.
  - split; split; vm_compute; reflexivity.
  - by vm_compute.
  - exact (ex_intro _ t (conj E (conj Ho Hd))).
Defined.

(** A kernel that hands out the same address again and again. *)
Lemma test_mm_detects_witness :
  exists t, run (fun _ _ => (4096, [])) (mm_round 100 (rng_init, fun _ => 0)) [] = (t, Done (inr (2 ^ 64 - 1))).
Proof.
  destruct (test_mm_detects (fun _ _ => (4096, [])) 100 rng_init (fun _ => 0) []) as (t & rqs & r' & t' & E & _ & _ & [(Had & _)|(_ & Er & _)]).
  - split; split; vm_compute; reflexivity.
  - lia.
  - exfalso. revert E. intros E. vm_compute in E. injection E as _ <- _.
    specialize (Had 0%nat 1%nat _ _ ltac:(discriminate) eq_refl eq_refl). unfold apart, disjoint_regions in Had. cbn in Had. lia.
  - by eexists.
Defined.
