(* ===== verification/TestProc.v ===== *)
(** * The process test

    [Userland/SampleCodeModule/tests/test_proc.c]: processes that run for ever
    are pids_created, blocked, unblocked and pids_killed at random, until none is left,
    for ever.  The first part has the rules by which runs of programs with
    loops are reasoned about. *)

From Stdlib Require Import String.
From S2P Require Import Prelude Lib UserLib UserProg Apps ShellParse ShellProps TestUtil.
Local Open Scope Z_scope.

(** ** Runs and assertions *)

(** From a history [tr] a run of [p] on [k] meets [Q]: of the history and the
    result if it ends; when it has used its iterations, the history meets
    [U]. *)
Definition meets {A} (k : kernel) (U : trace -> Prop) (p : prog A) (tr : trace) (Q : trace -> A -> Prop) : Prop :=
  match run k p tr with
  | (tr', Done a) => Q tr' a
  | (_, Undefined) => False
  | (tr', Unfinished) => U tr'
  end.

(** [for (rq = 0; rq < max; rq++)] with a [uint8_t] counter; [inr] leaves the
    function.  At most [n] iterations are run. *)
Fixpoint for_u8 {S A} (n : nat) (max : Z) (body : Z -> S -> prog (S + A)) (rq : Z) (s : S) : prog (S + A) :=
  if rq <? max then
    match n with
    | O => Pause
    | S n => x ← body rq s; match x with inl s => for_u8 n max body (u8 (rq + 1)) s | inr a => Ret (inr a) end
    end
  else Ret (inl s).

Section Rules.
Context (k : kernel) (U : trace -> Prop).

Lemma meets_ret {A} (a : A) tr Q : Q tr a -> meets k U (Ret a) tr Q.
Proof. done. Qed.

Lemma meets_bind {A B} (p : prog A) (f : A -> prog B) tr Q :
  meets k U p tr (fun tr' a => meets k U (f a) tr' Q) -> meets k U (p ≫= f) tr Q.
Proof. unfold meets. rewrite run_bind. by destruct (run k p tr) as [tr' []]. Qed.

Lemma meets_mono {A} (p : prog A) tr (Q Q' : trace -> A -> Prop) :
  meets k U p tr Q -> (forall tr' a, Q tr' a -> Q' tr' a) -> meets k U p tr Q'.
Proof. unfold meets. intros H HQ. destruct (run k p tr) as [tr' []]; auto. Qed.

Lemma meets_sys {A} c (f : Z -> prog A) tr Q :
  meets k U (f (i32 (k tr c).1)) (tr ++ [(c, k tr c)]) Q -> meets k U (x ← sys c; f x) tr Q.
Proof. done. Qed.

Lemma meets_sys64 {A} c (f : Z -> prog A) tr Q :
  meets k U (f (u64 (k tr c).1)) (tr ++ [(c, k tr c)]) Q -> meets k U (x ← sys64 c; f x) tr Q.
Proof. done. Qed.

Lemma meets_say {A} fmt args out n (f : prog A) tr Q :
  printf fmt args = Some (out, n) ->
  (forall t, actions t = [] -> output t = out -> meets k U f (tr ++ t) Q) -> meets k U (say fmt args;; f) tr Q.
Proof. intros E H. unfold meets. destruct (run_say k fmt args out n f tr E) as (t & -> & Ha & Ho). by apply H. Qed.

(** [while (1)], with an invariant. *)
Lemma meets_iterate {S A} (body : S -> prog (S + A)) (I : trace -> S -> Prop) Q : (forall tr s, I tr s -> U tr) ->
  (forall s tr, I tr s -> meets k U (body s) tr (fun tr' x => match x with inl s' => I tr' s' | inr a => Q tr' a end)) ->
  forall n s tr, I tr s -> meets k U (iterate n body s) tr Q.
Proof.
  intros HU Hb. induction n as [|n IH]; intros s tr HI; [by apply (HU tr s)|]. cbn [iterate]. apply meets_bind. eapply meets_mono; [by apply Hb|].
  intros tr' [s'|a] Hx; [by apply IH|by apply meets_ret].
Qed.

(** The loop over the array, with an invariant. *)
Lemma meets_for {S A} max (body : Z -> S -> prog (S + A)) (I : Z -> trace -> S -> Prop) (Q : trace -> A -> Prop) :
  max < 256 -> (forall rq tr s, I rq tr s -> U tr) ->
  (forall rq s tr, 0 <= rq < max -> I rq tr s ->
     meets k U (body rq s) tr (fun tr' x => match x with inl s' => I (rq + 1) tr' s' | inr a => Q tr' a end)) ->
  forall n rq s tr, 0 <= rq <= max -> I rq tr s ->
  meets k U (for_u8 n max body rq s) tr (fun tr' x => match x with inl s' => I max tr' s' | inr a => Q tr' a end).
Proof.
  intros Hm HU Hb. induction n as [|n IH]; intros rq s tr Hrq HI; cbn [for_u8]; destruct (Z.ltb_spec rq max).
  - by apply (HU rq tr s).
  - apply meets_ret. by replace max with rq by lia.
  - apply meets_bind. eapply meets_mono; [apply Hb; [lia|done]|]. intros tr' [s'|a] Hx; [|by apply meets_ret].
    rewrite u8_small by lia. apply IH; [lia|done].
  - apply meets_ret. by replace max with rq by lia.
Qed.
End Rules.

(** ** The test *)

Inductive State := RUNNING | BLOCKED | KILLED.

#[export] Instance State_eq_dec : EqDecision State.
Proof. solve_decision. Defined.

Record p_rq := mkPrq { rq_pid : Z; rq_state : State }.

#[export] Instance p_rq_inhabited : Inhabited p_rq := populate (mkPrq 0 KILLED).

(** [p_rqs[rq].state = st] *)
Definition set_rq_state (rq : Z) (st : State) (rqs : list p_rq) : list p_rq := seti rq (mkPrq (rq_pid (rqs.[rq])) st) rqs.

Definition endless : call := SysCreate EndlessLoop (lit "endless_loop") 3 0 0 (AStrings []).

Definition create_body (rq : Z) (s : list p_rq * Z) : prog (list p_rq * Z + Z) :=
  let '(p_rqs, alive) := s in
  pid ← sys endless;
  if pid =? -1 then say (ln "test_proc: ERROR creando proceso") [];; Ret (inr (u64 (-1)))
  else Ret (inl (seti rq (mkPrq pid RUNNING) p_rqs, u8 (alive + 1))).

(** The array, [alive] and the generator. *)
Notation pstate := (list p_rq * Z * Rng)%type.

Definition act_body (rq : Z) (s : pstate) : prog (pstate + Z) :=
  let '(p_rqs, alive, r) := s in
  let '(u, r) := GetUniform 100 r in
  let action := u8 (u mod 2) in
  let pid := rq_pid (p_rqs.[rq]) in
  match rq_state (p_rqs.[rq]) with
  | KILLED => Ret (inl (p_rqs, alive, r))
  | st =>
      if action =? 0 then
        x ← sys64 (SysKill pid);
        if x =? u64 (-1) then say (ln "test_proc: ERROR matando proceso") [];; Ret (inr (u64 (-1)))
        else
          sys (SysWait pid);;
          Ret (inl (set_rq_state rq KILLED p_rqs, u8 (alive - 1), r))
      else if bool_decide (st = RUNNING) then
        x ← sys64 (SysBlock pid);
        if x =? u64 (-1) then say (ln "test_proc: ERROR bloqueando proceso") [];; Ret (inr (u64 (-1)))
        else Ret (inl (set_rq_state rq BLOCKED p_rqs, alive, r))
      else Ret (inl (p_rqs, alive, r))
  end.

Definition unblock_body (rq : Z) (s : pstate) : prog (pstate + Z) :=
  let '(p_rqs, alive, r) := s in
  if bool_decide (rq_state (p_rqs.[rq]) = BLOCKED) then
    let '(u, r) := GetUniform 100 r in
    if ctrue (u mod 2) then
      x ← sys64 (SysUnblock (rq_pid (p_rqs.[rq])));
      if x =? u64 (-1) then say (ln "test_proc: ERROR desbloqueando proceso") [];; Ret (inr (u64 (-1)))
      else Ret (inl (set_rq_state rq RUNNING p_rqs, alive, r))
    else Ret (inl (p_rqs, alive, r))
  else Ret (inl (p_rqs, alive, r)).

(** [while (alive > 0)]: the inner [inl] is the end of the loop, its [inr] the
    end of the function. *)
Definition pass (n : nat) (max : Z) (s : pstate) : prog (pstate + (pstate + Z)) :=
  if s.1.2 >? 0 then
    x ← for_u8 n max act_body 0 s;
    match x with
    | inr v => Ret (inr (inr v))
    | inl s =>
        x ← for_u8 n max unblock_body 0 s;
        match x with inr v => Ret (inr (inr v)) | inl s => Ret (inl s) end
    end
  else Ret (inr (inl s)).

(** The body of [while (1)]. *)
Definition proc_round (n : nat) (max : Z) (s : pstate) : prog (pstate + Z) :=
  let '(p_rqs, alive, r) := s in
  x ← for_u8 n max create_body 0 (p_rqs, alive);
  match x with
  | inr v => Ret (inr v)
  | inl (p_rqs, alive) => iterate n (pass n max) (p_rqs, alive, r)
  end.

(** [junk] is what the array holds before it is written. *)
Definition test_processes (n : nat) (junk : p_rq) (argv : list (list Z)) (r : Rng) : prog Z :=
  if negb (argc argv =? 1) then say (ln "Uso: test_proc <max_processes>") [];; Ret (u64 (-1))
  else
    let max_processes := u64 (satoi (argv_at argv 0)) in
    if max_processes <=? 0 then Ret (u64 (-1))
    else iterate n (proc_round n max_processes) (replicate (Z.to_nat max_processes) junk, 0, r).

(** ** The processes of the array *)

Definition alive_pids (rqs : list p_rq) : list Z := rq_pid <$> filter (fun q => rq_state q <> KILLED) rqs.

Lemma alive_pids_app a b : alive_pids (a ++ b) = alive_pids a ++ alive_pids b.
Proof. unfold alive_pids. by rewrite list.filter_app, fmap_app. Qed.

Lemma alive_pids_cons q l : alive_pids (q :: l) = if decide (rq_state q = KILLED) then alive_pids l else rq_pid q :: alive_pids l.
Proof. unfold alive_pids. rewrite filter_cons. by destruct (decide (rq_state q = KILLED)), (decide (rq_state q <> KILLED)). Qed.

(** The array around an element. *)
Lemma array_split (rqs : list p_rq) rq : 0 <= rq < Z.of_nat (length rqs) ->
  exists a b, rqs = a ++ rqs.[rq] :: b /\ rq = Z.of_nat (length a) /\ forall x, seti rq x rqs = a ++ x :: b.
Proof.
  intros Hrq. destruct (lookup_lt_is_Some_2 rqs (Z.to_nat rq)) as [q Hq]; [lia|].
  apply list_elem_of_split_length in Hq as (a & b & -> & Ha). assert (rq = Z.of_nat (length a)) as E by lia.
  exists a, b. rewrite (geti_middle a q b rq E). split_and!; [done|done|]. intros x. by apply seti_middle.
Qed.

Lemma alive_pids_kill rqs rq : 0 <= rq < Z.of_nat (length rqs) -> rq_state (rqs.[rq]) <> KILLED ->
  alive_pids rqs ≡ₚ rq_pid (rqs.[rq]) :: alive_pids (set_rq_state rq KILLED rqs).
Proof.
  intros Hrq Hst. unfold set_rq_state. destruct (array_split rqs rq Hrq) as (a & b & E & _ & Hs). rewrite Hs. rewrite E at 1.
  rewrite !alive_pids_app, !alive_pids_cons. cbn [rq_state rq_pid]. rewrite decide_False by done. rewrite decide_True by done.
  by rewrite Permutation_middle.
Qed.

Lemma alive_pids_set rqs rq st : 0 <= rq < Z.of_nat (length rqs) -> rq_state (rqs.[rq]) <> KILLED -> st <> KILLED ->
  alive_pids (set_rq_state rq st rqs) = alive_pids rqs.
Proof.
  intros Hrq Hst Hst'. unfold set_rq_state. destruct (array_split rqs rq Hrq) as (a & b & E & _ & Hs). rewrite Hs. rewrite E at 2.
  rewrite !alive_pids_app, !alive_pids_cons. cbn [rq_state rq_pid]. by rewrite !decide_False by done.
Qed.

Lemma alive_pids_create rqs rq p : 0 <= rq < Z.of_nat (length rqs) ->
  alive_pids (take (Z.to_nat (rq + 1)) (seti rq (mkPrq p RUNNING) rqs)) = alive_pids (take (Z.to_nat rq) rqs) ++ [p].
Proof.
  intros Hrq. destruct (array_split rqs rq Hrq) as (a & b & E & El & Hs). rewrite Hs. rewrite E at 1. rewrite El.
  rewrite Nat2Z.id. replace (Z.to_nat (Z.of_nat (length a) + 1)) with (length a + 1)%nat by lia.
  rewrite take_app_add, take_app_length. cbn [take]. rewrite alive_pids_app. by rewrite alive_pids_cons, decide_False by done.
Qed.

Lemma length_set_rq_state rqs rq st : length (set_rq_state rq st rqs) = length rqs.
Proof. apply length_seti. Qed.

(** ** What serves the calls *)

(** [R tr l]: after the history [tr] the processes [l] exist.  A call on one of
    them fails only on a [faulty] kernel; the wait that follows a kill is part
    of it. *)
Record process_server (k : kernel) (faulty : trace -> Prop) (R : trace -> list Z -> Prop) : Prop := {
  sv_perm tr l l' : l ≡ₚ l' -> R tr l -> R tr l';
  sv_create tr l : R tr l ->
    let r := k tr endless in
    if i32 r.1 =? -1 then True else R (tr ++ [(endless, r)]) (i32 r.1 :: l);
  sv_kill tr l p : R tr (p :: l) ->
    let r := k tr (SysKill p) in
    if u64 r.1 =? u64 (-1) then faulty tr
    else let tr := tr ++ [(SysKill p, r)] in R (tr ++ [(SysWait p, k tr (SysWait p))]) l;
  sv_block tr l p : R tr (p :: l) ->
    let r := k tr (SysBlock p) in
    if u64 r.1 =? u64 (-1) then faulty tr else R (tr ++ [(SysBlock p, r)]) (p :: l);
  sv_unblock tr l p : R tr (p :: l) ->
    let r := k tr (SysUnblock p) in
    if u64 r.1 =? u64 (-1) then faulty tr else R (tr ++ [(SysUnblock p, r)]) (p :: l)
}.

Section Server.
Context (k : kernel) (faulty : trace -> Prop) (R : trace -> list Z -> Prop) (Hsv : process_server k faulty R).
(** The number of processes, and those that exist before the test. *)
Context (max : Z) (l0 : list Z) (Hmax : 0 < max < 256).

Definition exists_some (tr : trace) : Prop := exists l, R tr l.

(** How the test ends: with a message, since a process could not be pids_created or
    since the kernel is faulty. *)
Definition stopped (tr : trace) (v : Z) : Prop :=
  v = u64 (-1) /\ exists tr0 t, tr = tr0 ++ t /\ actions t = [] /\
    ((exists tr1 l, R tr1 l /\ tr0 = tr1 ++ [(endless, k tr1 endless)] /\ i32 (k tr1 endless).1 = -1 /\ output t = ln "test_proc: ERROR creando proceso") \/
     (exists tr1 e, tr0 = tr1 ++ [e] /\ faulty tr1)).

(** The array after the creation of [rq] processes. *)
Definition creating (rq : Z) (tr : trace) (s : list p_rq * Z) : Prop :=
  Z.of_nat (length s.1) = max /\ s.2 = rq /\ Z.of_nat (length (alive_pids (take (Z.to_nat rq) s.1))) = rq /\
  R tr (alive_pids (take (Z.to_nat rq) s.1) ++ l0).

Definition acting (tr : trace) (s : pstate) : Prop :=
  Z.of_nat (length s.1.1) = max /\ s.1.2 = Z.of_nat (length (alive_pids s.1.1)) /\ R tr (alive_pids s.1.1 ++ l0).

Definition next_or_stop {S} (I : trace -> S -> Prop) (tr : trace) (x : S + Z) : Prop :=
  match x with inl s => I tr s | inr v => stopped tr v end.

Lemma creating_some rq tr s : creating rq tr s -> exists_some tr.
Proof. intros (_ & _ & _ & HR). by eexists. Qed.

Lemma acting_some tr s : acting tr s -> exists_some tr.
Proof. intros (_ & _ & HR). by eexists. Qed.

Lemma stop_faulty msg n out tr e : printf msg [] = Some (out, n) -> faulty tr ->
  forall S (I : trace -> S -> Prop), meets k exists_some (say msg [];; Ret (inr (u64 (-1)))) (tr ++ [e]) (next_or_stop I).
Proof.
  intros E Hf S I. eapply meets_say; [exact E|]. intros t Ha _. apply meets_ret. split; [done|]. exists (tr ++ [e]), t.
  split_and!; [done|done|]. right. by exists tr, e.
Qed.

Lemma create_message : exists n, printf (ln "test_proc: ERROR creando proceso") [] = Some (ln "test_proc: ERROR creando proceso", n).
Proof. eexists. vm_compute. reflexivity. Qed.

Lemma create_step rq s tr : 0 <= rq < max -> creating rq tr s -> meets k exists_some (create_body rq s) tr (next_or_stop (creating (rq + 1))).
Proof.
  destruct s as [rqs alive]. intros Hrq (Hl & Ha & Hn & HR). cbn [fst snd] in *. unfold create_body. apply meets_sys.
  pose proof (sv_create _ _ _ Hsv tr _ HR) as Hc. set (r := k tr endless) in *. cbv zeta in Hc. destruct (i32 r.1 =? -1) eqn:Ep.
  - destruct create_message as [n En]. eapply meets_say; [exact En|]. intros t Hact Hout. apply meets_ret. split; [done|]. exists (tr ++ [(endless, r)]), t.
    split_and!; [done|done|]. left. exists tr, (alive_pids (take (Z.to_nat rq) rqs) ++ l0). fold r. split_and!; [exact HR|done|lia|exact Hout].
  - apply meets_ret. unfold next_or_stop, creating. cbn [fst snd]. rewrite length_seti, alive_pids_create by lia. rewrite length_app. cbn [length].
    split_and!; [done|rewrite u8_small by lia; lia|lia|]. eapply (sv_perm _ _ _ Hsv); [|exact Hc]. rewrite <- app_assoc. cbn. by rewrite Permutation_middle.
Qed.

(** An entry of the array and the rest of the processes. *)
Lemma acting_split rqs rq tr : 0 <= rq < Z.of_nat (length rqs) -> rq_state (rqs.[rq]) <> KILLED -> R tr (alive_pids rqs ++ l0) ->
  R tr (rq_pid (rqs.[rq]) :: alive_pids (set_rq_state rq KILLED rqs) ++ l0).
Proof. intros Hrq Hst. apply (sv_perm _ _ _ Hsv). rewrite (alive_pids_kill rqs rq Hrq Hst). done. Qed.

Lemma acting_keep rqs rq tr st : 0 <= rq < Z.of_nat (length rqs) -> rq_state (rqs.[rq]) <> KILLED -> st <> KILLED ->
  R tr (rq_pid (rqs.[rq]) :: alive_pids (set_rq_state rq KILLED rqs) ++ l0) -> R tr (alive_pids (set_rq_state rq st rqs) ++ l0).
Proof. intros Hrq Hst Hst'. apply (sv_perm _ _ _ Hsv). rewrite (alive_pids_set rqs rq st Hrq Hst Hst'), (alive_pids_kill rqs rq Hrq Hst). done. Qed.

Lemma act_kill rqs alive r rq tr : 0 <= rq < max -> acting tr (rqs, alive, r) -> rq_state (rqs.[rq]) <> KILLED ->
  meets k exists_some (x ← sys64 (SysKill (rq_pid (rqs.[rq])));
           if x =? u64 (-1) then say (ln "test_proc: ERROR matando proceso") [];; Ret (inr (u64 (-1)))
           else sys (SysWait (rq_pid (rqs.[rq])));; Ret (inl (set_rq_state rq KILLED rqs, u8 (alive - 1), r))) tr (next_or_stop acting).
Proof.
  intros Hrq (Hl & Ha & HR) Hst. cbn [fst snd] in *. apply meets_sys64.
  pose proof (sv_kill _ _ _ Hsv tr _ _ (acting_split rqs rq tr ltac:(lia) Hst HR)) as Hk. cbv zeta in Hk.
  destruct (u64 _ =? u64 (-1)); [eapply stop_faulty; [reflexivity|done]|]. apply meets_sys, meets_ret.
  pose proof (Permutation_length (alive_pids_kill rqs rq ltac:(lia) Hst)) as Hlen. cbn [length] in Hlen.
  assert (length (alive_pids rqs) <= length rqs)%nat by (unfold alive_pids; rewrite length_fmap; apply length_filter).
  split_and!; cbn [fst snd]; [by rewrite length_set_rq_state|rewrite u8_small by lia; lia|done].
Qed.

Lemma act_step rq s tr : 0 <= rq < max -> acting tr s -> meets k exists_some (act_body rq s) tr (next_or_stop acting).
Proof.
  destruct s as [[rqs alive] r]. intros Hrq Hact. unfold act_body. destruct (GetUniform 100 r) as [u r'].
  assert (acting tr (rqs, alive, r')) as Hact' by exact Hact. pose proof Hact as (Hl & Ha & HR). cbn [fst snd] in *.
  destruct (rq_state (rqs.[rq])) eqn:Est; [..|by apply meets_ret].
  - case_if; [apply act_kill; [done|done|congruence]|]. rewrite bool_decide_true by done. apply meets_sys64.
    pose proof (sv_block _ _ _ Hsv tr _ _ (acting_split rqs rq tr ltac:(lia) ltac:(congruence) HR)) as Hk. cbv zeta in Hk.
    destruct (u64 _ =? u64 (-1)); [eapply stop_faulty; [reflexivity|done]|]. apply meets_ret.
    split_and!; cbn [fst snd]; [by rewrite length_set_rq_state|rewrite alive_pids_set by (done || lia || congruence); lia|].
    by apply acting_keep; [lia|congruence|..].
  - case_if; [apply act_kill; [done|done|congruence]|]. rewrite bool_decide_false by done. by apply meets_ret.
Qed.

Lemma unblock_step rq s tr : 0 <= rq < max -> acting tr s -> meets k exists_some (unblock_body rq s) tr (next_or_stop acting).
Proof.
  destruct s as [[rqs alive] r]. intros Hrq Hact. unfold unblock_body. case_bool_decide as Est; [|by apply meets_ret].
  destruct (GetUniform 100 r) as [u r']. assert (acting tr (rqs, alive, r')) as Hact' by exact Hact. pose proof Hact as (Hl & Ha & HR). cbn [fst snd] in *.
  case_if; [|by apply meets_ret]. apply meets_sys64.
  pose proof (sv_unblock _ _ _ Hsv tr _ _ (acting_split rqs rq tr ltac:(lia) ltac:(congruence) HR)) as Hk. cbv zeta in Hk.
  destruct (u64 _ =? u64 (-1)); [eapply stop_faulty; [reflexivity|done]|]. apply meets_ret.
  split_and!; cbn [fst snd]; [by rewrite length_set_rq_state|rewrite alive_pids_set by (done || lia || congruence); lia|].
  by apply acting_keep; [lia|congruence|..].
Qed.

(** Between rounds only the processes that were there before are left. *)
Definition resting (tr : trace) (s : pstate) : Prop := Z.of_nat (length s.1.1) = max /\ s.1.2 = 0 /\ R tr l0.

Lemma round_step n s tr : resting tr s -> meets k exists_some (proc_round n max s) tr (next_or_stop resting).
Proof.
  destruct s as [[rqs alive] r]. intros (Hl & Ha & HR). cbn [fst snd] in *. unfold proc_round. apply meets_bind.
  eapply meets_mono; [apply (meets_for k exists_some max create_body creating stopped ltac:(lia) creating_some create_step n 0); [lia|]|].
  { split_and!; cbn [fst snd take]; done. }
  intros tr' [[rqs' alive']|v] Hx; [|by apply meets_ret]. destruct Hx as (Hl' & Ha' & Hn & HR'). cbn [fst snd] in *.
  rewrite take_ge in Hn, HR' by lia. apply (meets_iterate k exists_some _ acting); [exact acting_some| |split_and!; cbn [fst snd]; [done|lia|done]].
  clear -Hsv Hmax. intros s tr Hact. unfold pass. case_if.
  - apply meets_bind. eapply meets_mono.
    { apply (meets_for k exists_some max act_body (fun _ => acting) stopped ltac:(lia) (fun _ => acting_some)) with (rq := 0); [|lia|exact Hact]. intros rq s' tr' Hrq Hs'. by apply act_step. }
    intros tr' [s'|v] Hs'; [|by apply meets_ret]. apply meets_bind. eapply meets_mono.
    { apply (meets_for k exists_some max unblock_body (fun _ => acting) stopped ltac:(lia) (fun _ => acting_some)) with (rq := 0); [|lia|exact Hs']. intros rq s2 tr2 Hrq Hs2. by apply unblock_step. }
    intros tr2 [s2|v] Hs2; by apply meets_ret.
  - apply meets_ret. destruct s as [[rqs alive] r], Hact as (Hl & Ha & HR). cbn [fst snd] in *. split_and!; cbn [fst snd]; [done|lia|].
    destruct (alive_pids rqs); [done|cbn [length] in Ha; lia].
Qed.

(** The test goes on for ever, or stops with a message. *)
Lemma test_run n junk a r tr : u64 (satoi a) = max -> R tr l0 -> meets k exists_some (test_processes n junk [a] r) tr stopped.
Proof.
  intros Ea HR. unfold test_processes. change (argc [a] =? 1) with true. cbn [negb argv_at nth]. rewrite Ea. replace (max <=? 0) with false by lia.
  apply (meets_iterate k exists_some _ resting).
  - intros tr' s (_ & _ & HR'). by eexists.
  - intros s tr'. apply round_step.
  - split_and!; cbn [fst snd]; [rewrite length_replicate; lia|done|done].
Qed.
End Server.

(** ** Rounds on any kernel *)

Definition pids_created (t : trace) : list Z :=
  omap (fun e => match e.1 with SysCreate _ _ _ _ _ _ => Some (i32 e.2.1) | _ => None end) t.

Definition pids_killed (t : trace) : list Z := omap (fun e => match e.1 with SysKill p => Some p | _ => None end) t.

Definition pids_waited (t : trace) : list Z := omap (fun e => match e.1 with SysWait p => Some p | _ => None end) t.

(** [l] are the processes that were pids_created since [tr0] and not pids_killed. *)
Definition accounts (tr0 tr : trace) (l : list Z) : Prop :=
  exists t, tr = tr0 ++ t /\ pids_created t ≡ₚ pids_killed t ++ l /\ pids_killed t = pids_waited t /\ output t = [].

Lemma accounts_snoc tr0 tr l l' t' : accounts tr0 tr l -> pids_created t' ++ l ≡ₚ pids_killed t' ++ l' -> pids_killed t' = pids_waited t' -> output t' = [] ->
  accounts tr0 (tr ++ t') l'.
Proof.
  intros (t & -> & Hc & Hk & Ho) Hc' Hk' Ho'. exists (t ++ t'). rewrite app_assoc, output_app, Ho, Ho'. unfold pids_created, pids_killed, pids_waited in *.
  rewrite !omap_app. split_and!; [done| |congruence|done]. rewrite Hc, <- !app_assoc. apply Permutation_app_head.
  by rewrite Permutation_app_comm.
Qed.

Lemma accounts_server k tr0 : process_server k (fun _ => True) (accounts tr0).
Proof.
  split.
  - intros tr l l' Hp (t & -> & Hc & Hx). exists t. by rewrite <- Hp.
  - intros tr l Hl. cbv zeta. case_if; [done|]. by apply (accounts_snoc tr0 tr l).
  - intros tr l p Hl. cbv zeta. case_if; [done|]. rewrite <- app_assoc. by apply (accounts_snoc tr0 tr (p :: l)).
  - intros tr l p Hl. cbv zeta. case_if; [done|]. by apply (accounts_snoc tr0 tr (p :: l)).
  - intros tr l p Hl. cbv zeta. case_if; [done|]. by apply (accounts_snoc tr0 tr (p :: l)).
Qed.

(** A round of the process test cleans up.  On any kernel at all, a round that
    comes to its end, for up to 255 processes and whatever the generator
    draws, has pids_killed exactly the processes it pids_created, each of them once, has
    pids_waited for each of them in the order of the kills, and has written
    nothing. *)
Theorem test_proc_kills_all (k : kernel) (n : nat) (rqs : list p_rq) (r : Rng) (tr tr' : trace) (s : pstate) :
  (0 < length rqs < 256)%nat -> run k (proc_round n (Z.of_nat (length rqs)) (rqs, 0, r)) tr = (tr', Done (inl s)) ->
  exists t, tr' = tr ++ t /\ pids_created t ≡ₚ pids_killed t /\ pids_killed t = pids_waited t /\ output t = [].
Proof.
  intros Hl E. pose proof (round_step k (fun _ => True) (accounts tr) (accounts_server k tr) (Z.of_nat (length rqs)) [] ltac:(lia) n (rqs, 0, r) tr) as Hm.
  unfold meets in Hm. rewrite E in Hm. destruct Hm as (_ & _ & t & Ht & Hc & Hx).
  - split_and!; [done|done|]. exists []. by rewrite app_nil_r.
  - rewrite app_nil_r in Hc. by exists t.
Qed.

(** A kernel that answers every call. *)
Definition counting (tr : trace) (c : call) : reply :=
  match c with SysCreate _ _ _ _ _ _ => (2 + Z.of_nat (length tr), []) | _ => (0, []) end.

Definition demo_round : trace * ending (pstate + Z) :=
  run counting (proc_round 20 3 (replicate 3 (mkPrq 0 KILLED), 0, rng_init)) [].

Lemma test_proc_kills_all_witness :
  pids_created demo_round.1 = [2; 3; 4] /\ pids_created demo_round.1 ≡ₚ pids_killed demo_round.1.
Proof.
  split; [vm_compute; reflexivity|].
  destruct demo_round as [tr' [[s|v]| |]] eqn:E; [|vm_compute in E; discriminate..].
  destruct (test_proc_kills_all counting 20 (replicate 3 (mkPrq 0 KILLED)) rng_init [] tr' s) as (t & -> & Hc & _).
  - cbn. lia.
  - exact E.
  - exact Hc.
Defined.
