(* ===== verification/TestProcKernel.v ===== *)
(** * The process test on the kernel

    The program of [TestProc] against the kernel of [Kernel], with timer
    interrupts: after each call of the test any number of ticks come, and then
    ticks until the test has the processor again, which the absence of
    starvation bounds. *)

From Stdlib Require Import String.
From S2P Require Import Prelude Process ReadyQueue Sched Lifecycle SchedIface Lib Semaphore SemaphoreProps Memory FreeList Pipe Keyboard Wakes Kernel KernelInv KernelEnd KernelCreate KernelStep KernelProps ContextSwitch UserLib UserProg Apps TestUtil TestProc.
Local Open Scope Z_scope.

Section OnKernel.
Context `{Linkage} {M : Type} `{Hmm : MemManagerLaws M}.
Implicit Types k : Kernel M.

(** ** Changes that keep the processes *)

(** Every process goes on, except that of entry [x]. *)
Record carries (x : Z) k k' : Prop := {
  ca_inv : kernel_inv k';
  ca_heap : mm_heap (k_mm k') = mm_heap (k_mm k);
  ca_waits p : waits (sems k') p -> waits (sems k) p;
  ca_entry j : slot j -> j <> x -> live (k_sched k) j ->
    live (k_sched k') j /\ pid (k_proc k' j) = pid (k_proc k j) /\ stack_base (k_proc k' j) = stack_base (k_proc k j)
}.

Lemma carries_refl x k : kernel_inv k -> carries x k k.
Proof. by split. Qed.

Lemma carries_trans x k1 k2 k3 : carries x k1 k2 -> carries (-1) k2 k3 -> carries x k1 k3.
Proof.
  intros [I1 H1 W1 E1] [I2 H2 W2 E2]. split; [done|congruence|auto|]. intros j Hj Hx Hl. destruct (E1 j Hj Hx Hl) as (L1 & P1 & B1).
  destruct (E2 j Hj ltac:(slia) L1) as (L2 & P2 & B2). split_and!; congruence || done.
Qed.

Lemma carries_tick r k : kernel_inv k -> carries (-1) k (irq00Handler r k).2.
Proof.
  intros Hk. pose proof (sv_sched _ (ki_sem _ Hk)) as Hs. change (sched_inv (k_sched k)) in Hs.
  assert (k_sched (irq00Handler r k).2 = (scheduler_tick r (k_sched k)).2) as Es.
  { unfold irq00Handler. change (k_sched (timer_handler k)) with (k_sched k). by destruct (scheduler_tick r (k_sched k)). }
  assert (k_mm (irq00Handler r k).2 = k_mm k /\ sem_table (sems (irq00Handler r k).2) = sem_table (sems k)) as [Em Et].
  { unfold irq00Handler. change (k_sched (timer_handler k)) with (k_sched k). by destruct (scheduler_tick r (k_sched k)). }
  pose proof (scheduler_tick_step r (k_sched k) Hs) as Hst. split; [by apply tick_inv|by rewrite Em|intros p; by apply waits_table|].
  intros j Hj _ Hl. unfold k_proc. rewrite Es. split; [by apply (sched_step_live _ _ _ Hst Hj)|].
  destruct (Hst j ltac:(slia)) as (D & _). apply durable_eq in D. by destr_and.
Qed.

(** A change of the state of one process that waits on no semaphore. *)
Lemma carries_upd i f s' k : kernel_inv k -> slot i -> live (k_sched k) i -> ~ waits (sems k) (pid (k_proc k i)) ->
  sched_inv s' -> one_upd i f (k_sched k) s' ->
  (forall p, pid (f p) = pid p /\ stack_base (f p) = stack_base p /\ waiting_for (f p) = waiting_for p /\ name (f p) = name p /\
     fds (f p) = fds p /\ state (f p) <> PROCESS_DEAD) ->
  carries (-1) k (set_sched s' k).
Proof.
  intros Hk Hi Hl Hw Hs' Hu Hf.
  assert (forall j, 0 <= j < MAX_PROCESSES -> pid (proc s' j) = pid (k_proc k j) /\ stack_base (proc s' j) = stack_base (k_proc k j) /\
    waiting_for (proc s' j) = waiting_for (k_proc k j) /\ name (proc s' j) = name (k_proc k j) /\ fds (proc s' j) = fds (k_proc k j) /\
    (state (proc s' j) = PROCESS_DEAD <-> state (k_proc k j) = PROCESS_DEAD) /\ (j <> i -> state (proc s' j) = state (k_proc k j))) as Hp.
  { intros j Hj. pose proof (ou_core _ _ _ _ Hu j Hj) as E. apply pcb_core_eq in E. fold (k_proc k j) in E. destruct (Z.eqb_spec j i) as [->|Hne].
    - destruct (Hf (k_proc k i)) as (? & ? & ? & ? & ? & ?). destr_and. unfold live in Hl. fold (k_proc k i) in Hl. split_and!; congruence || (split; congruence).
    - destr_and. split_and!; congruence || (split; congruence). }
  assert (shrinks (k_sched k) s') as Hsh.
  { split.
    - intros j Hj Hlj. destruct (Hp j ltac:(slia)) as (? & ? & ? & _ & _ & Hd & _). unfold live in *. fold (k_proc k j). split_and!; [tauto|done|done|by left].
    - by destruct (Hp 0 ltac:(slia)) as (_ & _ & ? & _).
    - intros j Hj. destruct (Hp j Hj) as (_ & _ & _ & En & Ef & _). unfold arrays_ok. by rewrite En, Ef. }
  assert (kernel_inv (set_sched s' k)) as Hk'.
  { apply (kernel_inv_shrink k); try done; [|apply (ki_kbd _ Hk)|eapply stacks_shrink; [apply (ki_stacks _ Hk)|done]].
    apply (sem_inv_table none none (sems k)); [apply Hk|done|]. intros j Hj Hwj Hb. change (sem_sched (sems k)) with (k_sched k) in *. fold (k_proc k j) in *.
    destruct (Hp j Hj) as (Ep & _ & _ & _ & _ & _ & Es). split; [done|]. rewrite Es; [done|]. intros ->. done. }
  split; [done|done|done|]. intros j Hj _ Hlj. unfold k_proc. change (k_sched (set_sched s' k)) with s'.
  destruct (Hp j ltac:(slia)) as (? & ? & _ & _ & _ & Hd & _). unfold live in *. fold (k_proc k j) in *. split_and!; [tauto|done|done].
Qed.

Lemma block_carries p i k : kernel_inv k -> slot i -> live (k_sched k) i -> pid (k_proc k i) = p -> ~ waits (sems k) p ->
  let k' := on_sched (scheduler_block p) k in carries (-1) k k' /\ current_idx (k_sched k') = current_idx (k_sched k) /\
    forall j, 0 <= j < MAX_PROCESSES -> j <> i -> state (k_proc k' j) = state (k_proc k j).
Proof.
  intros Hk Hi Hl Hp Hw. pose proof (sv_sched _ (ki_sem _ Hk)) as Hs. change (sched_inv (k_sched k)) in Hs.
  assert (find_idx (has_pid (k_sched k) p) 0 MAX_PROCESSES = i) as Ef by (rewrite <- Hp; apply (find_pid_live (X := none)); [done|slia|done]).
  destruct (scheduler_block_upd _ p i Hs Ef ltac:(slia)) as [q Hq]. cbv zeta. split_and!.
  - apply (carries_upd i (fun p => set_quantums_left (q p) (set_state PROCESS_BLOCKED p))); try done; [congruence|by apply scheduler_block_inv].
  - apply Hq.
  - intros j Hj Hne. change (k_proc (on_sched (scheduler_block p) k) j) with (proc (scheduler_block p (k_sched k)) j).
    rewrite (one_upd_field state _ _ _ _ _ (fun _ => eq_refl) Hq) by done. by replace (j =? i) with false by lia.
Qed.

Lemma unblock_carries p k : kernel_inv k -> 0 < p -> ~ waits (sems k) p ->
  let k' := on_sched (scheduler_unblock p) k in carries (-1) k k' /\ current_idx (k_sched k') = current_idx (k_sched k) /\
    forall j, 0 <= j < MAX_PROCESSES -> pid (k_proc k j) <> p -> state (k_proc k' j) = state (k_proc k j).
Proof.
  intros Hk Hpos Hw. pose proof (sv_sched _ (ki_sem _ Hk)) as Hs. change (sched_inv (k_sched k)) in Hs. cbv zeta.
  assert (on_sched (scheduler_unblock p) k = set_sched (scheduler_unblock p (k_sched k)) k) as -> by done.
  pose proof (scheduler_unblock_inv (k_sched k) p Hs) as Hs'.
  destruct (unblock_cases (k_sched k) p Hs) as [[E _]|(i & E & Hi & Hp & Hst)].
  { rewrite E. assert (set_sched (k_sched k) k = k) as -> by (by apply (on_sched_skip (fun s => s))). by split_and!; [apply carries_refl|..]. }
  assert (slot i) as Hsl by (destruct (decide (i = 0)) as [->|]; [destruct (si_idle _ Hs); lia|slia]).
  destruct (si_rep _ Hs) as [Q Hrep]. destruct (make_ready_spec (k_sched k) Q Hrep i true Hsl) as (_ & Hu & _); [congruence..|].
  rewrite <- E in Hu. split_and!.
  - apply (carries_upd i (ready_entry true)); try done; [unfold live; congruence|unfold k_proc; congruence].
  - apply Hu.
  - intros j Hj Hne. change (k_proc (set_sched ?s k) j) with (proc s j).
    rewrite (one_upd_field state _ _ _ _ _ (fun _ => eq_refl) Hu) by done. replace (j =? i) with false; [done|]. symmetry. apply Z.eqb_neq. intros ->. done.
Qed.

(** ** The processor comes back *)

(** The entry of the test, and an entry whose stack stays in use, at [b]. *)
Context (c h b : Z) (Hc : slot c) (Hh : slot h).

Definition on_turn k : Prop := current_idx (k_sched k) = c /\ state (k_proc k c) = PROCESS_RUNNING.
Definition ready k : Prop := on_turn k \/ (current_idx (k_sched k) <> c /\ state (k_proc k c) = PROCESS_READY).

Lemma tick_sched r k : k_sched (irq00Handler r k).2 = (scheduler_tick r (k_sched k)).2.
Proof. unfold irq00Handler. change (k_sched (timer_handler k)) with (k_sched k). by destruct (scheduler_tick r (k_sched k)). Qed.

Lemma ready_tick r k : kernel_inv k -> ready k -> ready (irq00Handler r k).2.
Proof.
  intros Hk Hr. pose proof (sv_sched _ (ki_sem _ Hk)) as Hs. change (sched_inv (k_sched k)) in Hs.
  destruct (tick_rsp r (k_sched k) Hs) as (Hcr & Hrun & _). pose proof (scheduler_tick_step r (k_sched k) Hs) as Hst.
  unfold ready, on_turn, k_proc. rewrite tick_sched. destruct (Hst c ltac:(slia)) as (_ & _ & Hu).
  assert (parked (state (proc (k_sched k) c)) = false) as Hp by (destruct Hr as [[_ E]|[_ E]]; unfold k_proc in E; by rewrite E).
  specialize (Hu Hc Hp). destruct (decide (current_idx (scheduler_tick r (k_sched k)).2 = c)) as [E|E].
  - left. split; [done|]. by rewrite E in Hrun.
  - right. split; [done|]. destruct (state (proc (scheduler_tick r (k_sched k)).2 c)) eqn:Es; try done.
    exfalso. apply E. symmetry. by apply (si_running _ (scheduler_tick_inv r _ Hs)).
Qed.

(** Ticks until the test is on. *)
Fixpoint settle (n : nat) k : Kernel M :=
  match n with
  | O => k
  | S n => if current_idx (k_sched k) =? c then k else settle n (irq00Handler 0 k).2
  end.

Lemma settle_ok n : forall k, kernel_inv k -> ready k ->
  (exists j, (j <= n)%nat /\ current_idx (ticks (replicate j 0) (k_sched k)) = c) -> carries (-1) k (settle n k) /\ on_turn (settle n k).
Proof.
  assert (forall k, current_idx (k_sched k) = c -> ready k -> on_turn k) as Hon by (intros k E [?|[? _]]; done).
  induction n as [|n IH]; intros k Hk Hr (j & Hj & E); cbn [settle].
  - replace j with O in E by lia. split; [by apply carries_refl|by apply Hon].
  - destruct (Z.eqb_spec (current_idx (k_sched k)) c) as [Ec|Ec]; [split; [by apply carries_refl|by apply Hon]|].
    pose proof (carries_tick 0 k Hk) as Ht. destruct (IH (irq00Handler 0 k).2) as [Hca Hot]; [apply Ht|by apply ready_tick| |].
    + destruct j as [|j]; [done|]. exists j. split; [lia|]. by rewrite tick_sched.
    + split; [by eapply carries_trans|done].
Qed.

Lemma settle_turn k : kernel_inv k -> ready k -> carries (-1) k (settle 90 k) /\ on_turn (settle 90 k).
Proof.
  intros Hk Hr. apply settle_ok; [done|done|]. destruct Hr as [[E _]|[_ E]]; [by exists O; split; [lia|]|].
  pose proof (sv_sched _ (ki_sem _ Hk)) as Hs. change (sched_inv (k_sched k)) in Hs. destruct (si_rep _ Hs) as [Q Hrep].
  destruct (rank_dispatched (Z.to_nat WAIT_BOUND) (k_sched k) Q c (replicate 90 0) Hs Hrep Hc E) as (j & Hj & Ej).
  - rewrite Z2Nat.id by (unfold WAIT_BOUND; slia). by apply rank_bound.
  - rewrite length_replicate. unfold WAIT_BOUND, AGING_THRESHOLD_TICKS. slia.
  - exists j. assert (S (Z.to_nat WAIT_BOUND) <= 90)%nat by (vm_compute; lia). split; [lia|]. by rewrite take_replicate, Nat.min_l in Ej by lia.
Qed.

Definition after_call (rs : list Z) k : Kernel M := settle 90 (foldl (fun k r => (irq00Handler r k).2) k rs).

Lemma after_turn rs : forall k, kernel_inv k -> ready k -> carries (-1) k (after_call rs k) /\ on_turn (after_call rs k).
Proof.
  unfold after_call. induction rs as [|r rs IH]; intros k Hk Hr; [by apply settle_turn|]. cbn [foldl].
  pose proof (carries_tick r k Hk) as Ht. destruct (IH (irq00Handler r k).2) as [Hca Hot]; [apply Ht|by apply ready_tick|].
  split; [by eapply carries_trans|done].
Qed.

(** What every tick keeps. *)
Lemma after_ind (P : Kernel M -> Prop) : (forall r k, P k -> P (irq00Handler r k).2) -> forall rs k, P k -> P (after_call rs k).
Proof.
  intros HP. assert (forall n k, P k -> P (settle n k)) as Hset by (induction n; intros k Hk; cbn [settle]; [done|case_if; auto]).
  unfold after_call. induction rs as [|r rs IH]; intros k Hk; [by apply Hset|]. cbn [foldl]. auto.
Qed.

(** No process has the pid [p]. *)
Definition gone (p : Z) k : Prop := forall i, slot i -> live (k_sched k) i -> pid (k_proc k i) <> p.

Lemma gone_after p rs k : kernel_inv k -> gone p k -> gone p (after_call rs k).
Proof.
  intros Hk Hg. apply (after_ind (fun k => kernel_inv k /\ gone p k)); [|done]. clear. intros r k [Hk Hg]. split; [by apply tick_inv|].
  pose proof (scheduler_tick_step r (k_sched k) (sv_sched _ (ki_sem _ Hk))) as Hst. intros i Hi. unfold k_proc. rewrite tick_sched. intros Hl.
  destruct (Hst i ltac:(slia)) as (D & _). apply durable_eq in D as [-> _]. apply Hg; [done|]. by apply (sched_step_live _ _ _ Hst Hi).
Qed.

(** ** The calls *)

(** The code of the programs, the place of their arguments, and the ticks that
    come after each call. *)
Context (code : entry -> Z) (pointer : argval -> Z) (delay : nat -> list Z).

Definition do_call (x : call) k : Z * Kernel M :=
  match x with
  | SysCreate f nm prio fg argc argv => default (0, k) (scheduler_create (code f) nm prio fg argc (pointer argv) k)
  | SysKill p => default (0, k) (scheduler_kill p k)
  | SysWait p => default (0, k) (scheduler_wait p k)
  | SysBlock p => (0, on_sched (scheduler_block p) k)
  | SysUnblock p => (0, on_sched (scheduler_unblock p) k)
  | _ => (0, k)
  end.

Definition served k0 (tr : trace) : nat * Kernel M :=
  foldl (fun x e => (S x.1, after_call (delay x.1) (do_call e.1 x.2).2)) (O, k0) tr.

Definition kernel_of k0 : kernel := fun tr x => (u64 (do_call x (served k0 tr).2).1, []).

(** ** What holds between the calls *)

Definition member k (p : Z) : Prop :=
  1 < p < 2 ^ 31 /\ exists i, slot i /\ i <> c /\ i <> h /\ pid (k_proc k i) = p /\ live (k_sched k) i /\ ~ waits (sems k) p.

Record good (heap : Z * Z) k (l : list Z) : Prop := {
  gd_inv : kernel_inv k;
  gd_turn : on_turn k;
  gd_heap : mm_heap (k_mm k) = heap;
  gd_hold : live (k_sched k) h /\ stack_base (k_proc k h) = b;
  gd_nodup : NoDup l;
  gd_member p : p ∈ l -> member k p
}.

Lemma member_carries x k k' p : carries x k k' -> member k p -> (forall i, slot i -> pid (k_proc k i) = p -> live (k_sched k) i -> i <> x) -> member k' p.
Proof.
  intros Hca (Hp & i & Hi & Hic & Hih & Hpid & Hl & Hw) Hx. split; [done|]. exists i.
  destruct (ca_entry _ _ _ Hca i Hi (Hx i Hi Hpid Hl) Hl) as (Hl' & Hpid' & _). split_and!; try done; [congruence|].
  intros Hw'. by apply Hw, (ca_waits _ _ _ Hca).
Qed.

(** A call, and the ticks after it. *)
Lemma good_after heap x k k1 rs l l' : good heap k l -> carries x k k1 -> x <> h -> ready k1 -> NoDup l' ->
  (forall p, p ∈ l' -> member k1 p) -> good heap (after_call rs k1) l'.
Proof.
  intros [Hk Ht Hhe [Hhl Hhb] _ _] Hca Hx Hr Hn Hm. destruct (after_turn rs k1 (ca_inv _ _ _ Hca) Hr) as [Hca' Hot].
  pose proof (carries_trans _ _ _ _ Hca Hca') as [I E W En]. split; try done; [congruence| |].
  - destruct (En h Hh (not_eq_sym Hx) Hhl) as (? & ? & ?). split; [done|congruence].
  - intros p Hp. eapply member_carries; [exact Hca'|by apply Hm|]. intros i Hi. slia.
Qed.

Lemma kserved_snoc k0 tr x r :
  (served k0 (tr ++ [(x, r)])).2 = after_call (delay (served k0 tr).1) (do_call x (served k0 tr).2).2.
Proof. unfold served. by rewrite foldl_app. Qed.

(** Any block but the one at [b] can be given back. *)
Context (heap : Z * Z) (Hret : forall m p, mm_inv m -> mm_heap m = heap -> p <> b -> mm_freeable m p).

Lemma member_freeable k l i : good heap k l -> slot i -> i <> h -> live (k_sched k) i -> mm_freeable (k_mm k) (stack_base (k_proc k i)).
Proof.
  intros [Hk _ Hhe [Hhl Hhb] _ _] Hi Hne Hl. destruct (ki_stacks _ Hk) as [Hm _ _ _ Hd]. apply Hret; [done|done|]. rewrite <- Hhb.
  intros E. apply Hne. by apply Hd.
Qed.

Lemma good_ready k k' : on_turn k -> current_idx (k_sched k') = current_idx (k_sched k) -> state (k_proc k' c) = state (k_proc k c) -> ready k'.
Proof. intros [E1 E2] Ec Es. left. split; congruence. Qed.

(** A pid belongs to one entry. *)
Lemma same_entry k i j : kernel_inv k -> slot i -> slot j -> live (k_sched k) i -> live (k_sched k) j ->
  pid (k_proc k i) = pid (k_proc k j) -> i = j.
Proof. intros Hk Hi Hj Hli Hlj E. apply (si_unique _ (sv_sched _ (ki_sem _ Hk) : sched_inv (k_sched k))); try done; slia. Qed.

Lemma good_create k l f nm prio fg argc argv rs : good heap k l -> next_pid (k_sched k) < 2 ^ 31 ->
  let y := do_call (SysCreate f nm prio fg argc argv) k in
  y.1 = -1 \/ (-1 < y.1 < 2 ^ 31 /\ good heap (after_call rs y.2) (y.1 :: l)).
Proof.
  intros Hg Hn y. pose proof Hg as [Hk [Ec Hrun] Hhe [Hhl Hhb] Hnd Hmem].
  destruct (create_run (code f) nm prio fg argc (pointer argv) k Hk) as [[E _]|(i & k' & E & Hk' & Hcr)];
    [rewrite Ec; unfold live; fold (k_proc k c); congruence|left|right]; unfold y, do_call; rewrite E; cbn [default id fst snd]; [done|].
  pose proof (sv_sched _ (ki_sem _ Hk)) as Hs. change (sched_inv (k_sched k)) in Hs. pose proof (si_next _ Hs).
  assert (live (k_sched k) c) as Hcl by (unfold live; fold (k_proc k c); congruence). pose proof (si_fresh _ Hs c Hc Hcl) as Hf.
  pose proof (cr_slot _ _ _ _ _ _ _ _ _ Hcr) as Hi.
  assert (forall j, live (k_sched k) j -> j <> i) as Hni by (intros j Hl ->; by apply (cr_free _ _ _ _ _ _ _ _ _ Hcr)).
  assert (forall j, 0 <= j < MAX_PROCESSES -> j <> i -> pid (k_proc k' j) = pid (k_proc k j) /\ state (k_proc k' j) = state (k_proc k j) /\
    stack_base (k_proc k' j) = stack_base (k_proc k j)) as Hoth.
  { intros j Hj Hne. pose proof (cr_others _ _ _ _ _ _ _ _ _ Hcr j Hj Hne) as Ej. apply pcb_core_eq in Ej. destruct (ctrue fg && _); cbn in Ej; by destr_and. }
  assert (carries (-1) k k') as Hca.
  { split; [done|apply Hcr|intros p; apply (waits_table _ _ p (cr_sems _ _ _ _ _ _ _ _ _ Hcr))|]. intros j Hj _ Hl. destruct (Hoth j ltac:(slia) (Hni j Hl)) as (? & Es & ?).
    unfold live in *. fold (k_proc k' j). fold (k_proc k j) in Hl. split_and!; [congruence|done|done]. }
  split; [lia|]. apply (good_after heap (-1) k k' rs l); try done; [slia| | |].
  - apply (good_ready k); [done|apply Hcr|]. by apply Hoth; [slia|apply Hni].
  - constructor; [|done]. intros Hin. destruct (Hmem _ Hin) as (_ & j & Hj & _ & _ & Hpj & Hlj & _).
    pose proof (si_fresh _ Hs j Hj Hlj). unfold k_proc in Hpj. lia.
  - intros p Hp. apply elem_of_cons in Hp as [->|Hp]; [|eapply member_carries; [exact Hca|by apply Hmem|intros; slia]].
    split; [lia|]. exists i. assert (live (k_sched k') i) as Hl' by (unfold live; fold (k_proc k' i); by rewrite (cr_state _ _ _ _ _ _ _ _ _ Hcr)).
    split_and!; try done; [by apply not_eq_sym, Hni|by apply not_eq_sym, Hni|apply Hcr|]. rewrite <- (cr_pid _ _ _ _ _ _ _ _ _ Hcr).
    apply (not_blocked_not_waits none (sems k')); [apply Hk'|slia|done|]. change (state (k_proc k' i) <> PROCESS_BLOCKED). by rewrite (cr_state _ _ _ _ _ _ _ _ _ Hcr).
Qed.

Lemma good_kill k l p rs : good heap k (p :: l) ->
  let y := do_call (SysKill p) k in
  y.1 = 0 /\ let k2 := after_call rs y.2 in good heap k2 l /\ gone p k2.
Proof.
  intros Hg y. pose proof Hg as [Hk [Ec Hrun] Hhe [Hhl Hhb] Hnd Hmem]. apply list.NoDup_cons in Hnd as [Hnp Hnd].
  destruct (Hmem p) as (Hp & i & Hi & Hic & Hih & Hpid & Hl & Hw); [by left|].
  destruct (kill_other_run p i k Hk) as (k' & E & Hk' & (Hsv & Hheap & Hww) & Hdead & Hcur & Hoth & _); try done; [lia|slia|congruence| |].
  { by apply (member_freeable k (p :: l)). }
  unfold y, do_call. rewrite E. cbn [default id fst snd]. split; [done|]. cbv zeta.
  assert (live (k_sched k) c) as Hcl by (unfold live; fold (k_proc k c); congruence).
  assert (carries i k k') as Hca.
  { split; [done|done|done|]. intros j Hj Hne Hlj. destruct (Hoth j Hj Hne Hlj) as (Ep & _ & _ & _ & Hst). unfold live, k_proc in *.
    assert (state (proc (k_sched k') j) <> PROCESS_DEAD) as Hlj' by (destruct Hst as [?|[_ ?]]; congruence).
    destruct (sa_entry _ _ Hsv j ltac:(slia) Hlj') as (_ & _ & Eb). done. }
  assert (ready k') as Hr.
  { apply (good_ready k); [done|done|]. destruct (Hoth c Hc (not_eq_sym Hic) Hcl) as (_ & _ & _ & _ & [E'|[E' _]]); [done|]. unfold k_proc in Hrun. congruence. }
  split.
  - apply (good_after heap i k k' rs (p :: l)); try done. intros q Hq. eapply member_carries; [exact Hca|apply Hmem; by right|].
    intros j Hj Hpj Hlj ->. apply Hnp. by replace p with q by congruence.
  - apply gone_after; [done|]. intros j Hj Hlj Epj. destruct (decide (j = i)) as [->|Hne].
    { apply Hlj. exact Hdead. }
    destruct (sa_entry _ _ Hsv j ltac:(slia) Hlj) as (Hlj0 & _). destruct (Hoth j Hj Hne Hlj0) as (Ep & _).
    apply Hne. apply (same_entry k); try done. unfold k_proc in *. congruence.
Qed.

Lemma good_wait k l p rs : good heap k l -> 1 < p -> gone p k -> good heap (after_call rs (do_call (SysWait p) k).2) l.
Proof.
  intros Hg Hp Hgone. pose proof Hg as [Hk [Ec Hrun] Hhe [Hhl Hhb] Hnd Hmem].
  destruct (wait_run p k Hk) as [[E _]|(i & Hi & Hpid & Hl & _)]; [by rewrite Ec|by rewrite Ec|intros i Hi Hl Hpid; by destruct (Hgone i Hi Hl)| |].
  - cbn [do_call]. rewrite E. cbn [default id snd]. apply (good_after heap (-1) k k rs l); [done|by apply carries_refl|slia|by left|done|done].
  - by destruct (Hgone i Hi Hl).
Qed.

Lemma good_block k l p rs : good heap k (p :: l) -> good heap (after_call rs (do_call (SysBlock p) k).2) (p :: l).
Proof.
  intros Hg. pose proof Hg as [Hk [Ec Hrun] _ _ Hnd Hmem]. destruct (Hmem p) as (Hp & i & Hi & Hic & Hih & Hpid & Hl & Hw); [by left|].
  destruct (block_carries p i k Hk Hi Hl Hpid Hw) as (Hca & Hcur & Hst). cbn [do_call snd].
  eapply (good_after heap (-1)); [exact Hg|exact Hca|slia|apply (good_ready k); [done|done|apply Hst; [slia|done]]|done|].
  intros q Hq. eapply member_carries; [exact Hca|by apply Hmem|intros; slia].
Qed.

Lemma good_unblock k l p rs : good heap k (p :: l) -> good heap (after_call rs (do_call (SysUnblock p) k).2) (p :: l).
Proof.
  intros Hg. pose proof Hg as [Hk [Ec Hrun] _ _ Hnd Hmem]. destruct (Hmem p) as (Hp & i & Hi & Hic & Hih & Hpid & Hl & Hw); [by left|].
  destruct (unblock_carries p k Hk ltac:(lia) Hw) as (Hca & Hcur & Hst). cbn [do_call snd].
  assert (pid (k_proc k c) <> p) as Hcp.
  { intros E. apply Hic. symmetry. apply (same_entry k); try done; [unfold live; fold (k_proc k c); congruence|congruence]. }
  eapply (good_after heap (-1)); [exact Hg|exact Hca|slia|apply (good_ready k); [done|done|apply Hst; [slia|done]]|done|].
  intros q Hq. eapply member_carries; [exact Hca|by apply Hmem|intros; slia].
Qed.

(** ** The test *)

(** More pids were given out than an [int] can count. *)
Definition exhausted k0 (tr : trace) : Prop := exists t1, t1 `prefix_of` tr /\ 2 ^ 31 <= next_pid (k_sched (served k0 t1).2).

Definition full k : Prop := (forall i, slot i -> live (k_sched k) i) \/ mm_alloc STACK_SIZE (k_mm k) = Some (0, k_mm k).

Definition serving k0 (tr : trace) (l : list Z) : Prop := output tr = [] /\ (exhausted k0 tr \/ good heap (served k0 tr).2 l).

Lemma exhausted_app k0 tr t : exhausted k0 tr -> exhausted k0 (tr ++ t).
Proof. intros (t1 & Ht & Hn). exists t1. split; [by apply prefix_app_r|done]. Qed.

Lemma output_snoc tr x r : is_write x = false -> output tr = [] -> output (tr ++ [(x, r)]) = [].
Proof. intros Hx Ho. rewrite output_app, Ho. by destruct x. Qed.

Lemma serving_keep k0 tr x r l l' : is_write x = false -> serving k0 tr l ->
  (good heap (served k0 tr).2 l -> good heap (after_call (delay (served k0 tr).1) (do_call x (served k0 tr).2).2) l') ->
  serving k0 (tr ++ [(x, r)]) l'.
Proof.
  intros Hx [Ho [He|Hg]] Hn; (split; [by apply output_snoc|]); [left; by apply exhausted_app|right]. rewrite kserved_snoc. auto.
Qed.

Lemma kernel_server k0 : process_server (kernel_of k0) (exhausted k0) (serving k0).
Proof.
  split.
  - intros tr l l' Hp [Ho [He|[H1 H2 H3 H4 H5 H6]]]; (split; [done|]); [by left|right]. split; try done; [by rewrite <- Hp|].
    intros p Hin. apply H6. by rewrite Hp.
  - intros tr l Hs. cbv zeta. case_if; [done|]. destruct (Z.le_gt_cases (2 ^ 31) (next_pid (k_sched (served k0 tr).2))) as [Hn|Hn].
    { split; [apply output_snoc; [done|apply Hs]|]. left. exists tr. split; [by apply prefix_app_r|done]. }
    apply (serving_keep k0 tr endless _ l); [done|done|]. intros Hg. unfold kernel_of in Heqb0 |- *. cbn [fst] in *.
    destruct (good_create _ _ EndlessLoop (lit "endless_loop") 3 0 0 (AStrings []) (delay (served k0 tr).1) Hg Hn) as [E|[Hr Hg']];
      fold endless in *; [by rewrite E in Heqb0|]. by rewrite i32_u64 by lia.
  - intros tr l p Hs. cbv zeta. pose proof Hs as [Ho [He|Hg]].
    { case_if; [done|]. split; [apply output_snoc; [done|]; by apply output_snoc|]. left. by do 2 apply exhausted_app. }
    destruct (good_kill _ _ _ (delay (served k0 tr).1) Hg) as (E & Hg' & Hgone). unfold kernel_of at 1. cbn [fst]. rewrite E.
    replace (u64 (u64 0) =? u64 (-1)) with false by done. set (tr1 := tr ++ _).
    assert ((served k0 tr1).2 = after_call (delay (served k0 tr).1) (do_call (SysKill p) (served k0 tr).2).2) as E1 by apply kserved_snoc.
    apply (serving_keep k0 tr1 _ _ l); [done|split; [by apply output_snoc|right; by rewrite E1]|]. intros Hg1. apply good_wait; [done| |by rewrite E1].
    destruct (gd_member _ _ _ Hg p) as [? _]; [by left|lia].
  - intros tr l p Hs. cbv zeta. replace (u64 (kernel_of k0 tr (SysBlock p)).1 =? u64 (-1)) with false by done.
    apply (serving_keep k0 tr _ _ (p :: l)); [done|done|apply good_block].
  - intros tr l p Hs. cbv zeta. replace (u64 (kernel_of k0 tr (SysUnblock p)).1 =? u64 (-1)) with false by done.
    apply (serving_keep k0 tr _ _ (p :: l)); [done|done|apply good_unblock].
Qed.

Lemma create_full k l : good heap k l -> (do_call endless k).1 = -1 -> full k.
Proof.
  intros [Hk [Ec Hrun] _ _ _ _] E. unfold endless, do_call in E.
  destruct (create_run (code EndlessLoop) (lit "endless_loop") 3 0 0 (pointer (AStrings [])) k Hk) as [[_ Hf]|(i & k' & E' & _)]; [|exact Hf|].
  - rewrite Ec. unfold live. fold (k_proc k c). congruence.
  - rewrite E' in E. cbn in E. pose proof (si_next _ (sv_sched _ (ki_sem _ Hk) : sched_inv (k_sched k))). lia.
Qed.

(** Every reply of a kernel that still has pids is exact. *)
Lemma create_reply k l : good heap k l -> next_pid (k_sched k) < 2 ^ 31 -> i32 (u64 (do_call endless k).1) = (do_call endless k).1.
Proof.
  intros Hg Hn. apply i32_u64. destruct (good_create k l EndlessLoop (lit "endless_loop") 3 0 0 (AStrings []) [] Hg Hn) as [E|[? _]]; fold endless in *; lia.
Qed.
End OnKernel.

Section Claim.
Context `{Linkage} {M : Type} `{Hmm : MemManagerLaws M}.

(** C16: The process test passes on the kernel.  The test runs as the process of
    entry [c], for up to 255 processes, any numbers drawn and any timer
    interrupts between its calls.  Unless [2 ^ 31] pids have been given out,
    every kill, block and unblock succeeds: either the test is still running,
    has written nothing, has the processor and the kernel invariant holds, or
    it has stopped since a process could not be created, with the table or the
    heap full.  All blocks can be given back but the stack of entry [h], which
    stays in use. *)
Theorem test_proc_on_kernel (c h : Z) (code : entry -> Z) (pointer : argval -> Z) (delay : nat -> list Z)
    (k0 : Kernel M) (n : nat) (junk : p_rq) (a : list Z) (r : Rng) :
  let b := stack_base (k_proc k0 h) in
  slot c -> slot h -> kernel_inv k0 -> on_turn c k0 -> live (k_sched k0) h ->
  (forall m p, mm_inv m -> mm_heap m = mm_heap (k_mm k0) -> p <> b -> mm_freeable m p) ->
  0 < u64 (satoi a) < 256 ->
  let '(tr, e) := run (kernel_of c code pointer delay k0) (test_processes n junk [a] r) [] in
  let k := served c code pointer delay k0 in
  exhausted c code pointer delay k0 tr \/
  (e = Unfinished /\ output tr = [] /\ kernel_inv (k tr).2 /\ on_turn c (k tr).2) \/
  (e = Done (u64 (-1)) /\ output tr = ln "test_proc: ERROR creando proceso" /\ exists t1, t1 `prefix_of` tr /\ full (k t1).2).
Proof.
  intros b Hc Hh Hk Ht Hl Hret Ha. set (ker := kernel_of c code pointer delay k0). set (heap := mm_heap (k_mm k0)) in Hret.
  assert (serving c h b code pointer delay heap k0 [] []) as Hs0.
  { split; [done|right]. split; try done; [constructor|]. intros p Hp. by apply elem_of_nil in Hp. }
  pose proof (test_run ker _ _ (kernel_server c h b Hc Hh code pointer delay heap Hret k0) (u64 (satoi a)) [] Ha n junk a r [] eq_refl Hs0) as Hm.
  unfold meets in Hm. destruct (run ker (test_processes n junk [a] r) []) as [tr [v| |]]; [|done|].
  - destruct Hm as (-> & tr0 & t & -> & _ & [(tr1 & l & [Ho1 Hs1] & -> & Er & Ho)|(tr1 & e & -> & He)]).
    2:{ left. by do 2 apply exhausted_app. }
    destruct Hs1 as [He|Hg]; [left; by do 2 apply exhausted_app|].
    destruct (Z.le_gt_cases (2 ^ 31) (next_pid (k_sched (served c code pointer delay k0 tr1).2))) as [Hn|Hn].
    { left. exists tr1. split; [|done]. rewrite <- app_assoc. by apply prefix_app_r. }
    right. right. split; [done|]. split; [rewrite !output_app, Ho1, Ho; done|]. exists tr1. split; [rewrite <- app_assoc; by apply prefix_app_r|].
    unfold ker, kernel_of in Er. cbn [fst] in Er.
    rewrite (create_reply c h b Hc Hh code pointer heap _ l Hg Hn) in Er. by eapply create_full.
  - destruct Hm as (l & Ho & [He|Hg]); [by left|]. right. left. split; [done|]. split; [done|]. split; apply Hg.
Qed.
End Claim.

(** ** A concrete run *)

#[local] Existing Instances KernelProps.demo_linkage FreeList.FreeList_manager FreeList.FreeList_laws.

(** Facts about [k_demo], by computation: the child of the shell runs, and the
    stack of the shell is the first block of the heap. *)
Lemma k_demo_turn : on_turn 2 k_demo.
Proof. split; vm_compute; reflexivity. Qed.

Lemma k_demo_shell : live (k_sched k_demo) 1.
Proof. vm_compute. discriminate. Qed.

Lemma k_demo_returnable m p : mm_inv m -> mm_heap m = mm_heap (k_mm k_demo) -> p <> stack_base (k_proc k_demo 1) -> mm_freeable m p.
Proof.
  assert (stack_base (k_proc k_demo 1) = 65536 + 24) as -> by (vm_compute; reflexivity).
  assert (mm_heap (k_mm k_demo) = (65536, 32768)) as -> by (vm_compute; reflexivity).
  intros _ Hh Hp. cbn in *. injection Hh as Hs _. intros E. apply Hp. unfold FreeList.SIZEOF_BLOCK in E. congruence.
Qed.

Lemma two_processes : 0 < u64 (satoi [50]) < 256.
Proof. vm_compute. split; reflexivity. Qed.

(** The child runs the test with two processes, and a tick comes after every
    call. *)
Lemma test_proc_on_kernel_witness :
  let '(tr, e) := run (kernel_of 2 (fun _ => 0x400200) (fun _ => 0) (fun _ => [0]) k_demo) (test_processes 4 (mkPrq 0 KILLED) [[50]] rng_init) [] in
  let k := served 2 (fun _ => 0x400200) (fun _ => 0) (fun _ => [0]) k_demo in
  exhausted 2 (fun _ => 0x400200) (fun _ => 0) (fun _ => [0]) k_demo tr \/
  (e = Unfinished /\ output tr = [] /\ kernel_inv (k tr).2 /\ on_turn 2 (k tr).2) \/
  (e = Done (u64 (-1)) /\ output tr = ln "test_proc: ERROR creando proceso" /\ exists t1, t1 `prefix_of` tr /\ full (k t1).2).
Proof.
  assert (slot 2 /\ slot 1) as [H2 H1] by slia.
  exact (test_proc_on_kernel 2 1 (fun _ => 0x400200) (fun _ => 0) (fun _ => [0]) k_demo 4 (mkPrq 0 KILLED) [50] rng_init
    H2 H1 k_demo_inv k_demo_turn k_demo_shell k_demo_returnable two_processes).
Defined.
