(* ===== verification/TestPrograms.v ===== *)
(** * The tests of priorities and of synchronization

    [Userland/SampleCodeModule/tests/test_prio.c], the programs of
    [test_sync.c] and [shell/commands_tests.c].  The theorems give the calls
    that the programs make on any kernel; what their calls do to the shared
    variable is in [TestSync]. *)

From Stdlib Require Import String.
From S2P Require Import Prelude Lib UserLib UserProg Apps ShellParse Shell ShellCmds ShellProps TestUtil TestSync TestMM TestProc.
Local Open Scope Z_scope.

(** ** [test_prio.c] *)

Definition LOWEST : Z := 1.
Definition MEDIUM : Z := 3.
Definition HIGHEST : Z := 5.

Definition prios : list Z := [LOWEST; MEDIUM; HIGHEST].

(** [while (value++ != max_value);], with the number of its iterations. *)
Fixpoint zero_loop (fuel : nat) (value max_value : Z) : option nat :=
  match fuel with
  | O => None
  | S fuel => if value =? max_value then Some O else S <$> zero_loop fuel (u64 (value + 1)) max_value
  end.

Definition zero_to_max (fuel : nat) (max_value : Z) : prog Z :=
  match zero_loop fuel 0 max_value with
  | None => Pause
  | Some _ =>
      pid ← sys SysGetpid;
      say (ln "PROCESS %d DONE!") [AInt pid];;
      sys (SysExit 0);;
      Ret 0
  end.

Definition counter : call := SysCreate ZeroToMax (lit "zero_to_max") 3 0 0 (AStrings []).

Definition report (pid p : Z) : prog () := say (ln "  PROCESS %d NEW PRIORITY: %d") [AInt pid; AInt p].

(** The loops over [pids] and [prio]. *)
Fixpoint each (c : Z -> call) (pids : list Z) : prog () :=
  match pids with
  | [] => Ret ()
  | pid :: pids => sys (c pid);; each c pids
  end.

Fixpoint create_same (n : nat) : prog (list Z) :=
  match n with
  | O => Ret []
  | S n => pid ← sys counter; pids ← create_same n; Ret (pid :: pids)
  end.

Fixpoint create_nice (ps : list Z) : prog (list Z) :=
  match ps with
  | [] => Ret []
  | p :: ps =>
      pid ← sys counter;
      sys (SysNice pid p);;
      report pid p;;
      pids ← create_nice ps;
      Ret (pid :: pids)
  end.

Fixpoint create_blocked (ps : list Z) : prog (list Z) :=
  match ps with
  | [] => Ret []
  | p :: ps =>
      pid ← sys counter;
      sys (SysBlock pid);;
      sys (SysNice pid p);;
      report pid p;;
      pids ← create_blocked ps;
      Ret (pid :: pids)
  end.

Definition test_prio (argv : list (list Z)) : prog Z :=
  if negb (argc argv =? 1) then say (ln "Uso: test_prio <max_value>") [];; Ret (u64 (-1))
  else if u64 (satoi (argv_at argv 0)) <=? 0 then Ret (u64 (-1))
  else
    say (ln "SAME PRIORITY...") [];;
    pids ← create_same 3;
    each SysWait pids;;
    say (ln "SAME PRIORITY, THEN CHANGE IT...") [];;
    pids ← create_nice prios;
    each SysWait pids;;
    say (ln "SAME PRIORITY, THEN CHANGE IT WHILE BLOCKED...") [];;
    pids ← create_blocked prios;
    each SysUnblock pids;;
    each SysWait pids;;
    Ret 0.

(** ** [test_sync.c] *)

Definition SEM_ID : list Z := lit "sem".
Definition TOTAL_PAIR_PROCESSES : Z := 2.

Definition process_inc_exit (status : Z) : prog Z := sys (SysExit status);; Ret (u64 status).

Section Inc.
(** All processes draw from one generator; [gen i] is what the process finds in
    it in iteration [i]. *)
Context (gen : nat -> Rng).

(** [slowInc], without its accesses to the shared variable. *)
Definition slowInc (i : nat) : prog () := if (GetUniform 100 (gen i)).1 <? 30 then sys SysYield;; Ret () else Ret ().

(** The loop of [process_inc] with [n] iterations left, from [i]. *)
Fixpoint inc_loop (n : nat) (i : nat) (use_sem : bool) (sem_id : Z) : prog () :=
  match n with
  | O => Ret ()
  | S n =>
      (if use_sem then sys (SysSemWait sem_id);; Ret () else Ret ());;
      slowInc i;;
      (if use_sem then sys (SysSemPost sem_id);; Ret () else Ret ());;
      inc_loop n (S i) use_sem sem_id
  end.

Definition process_inc (argv : list (list Z)) : prog Z :=
  if negb (argc argv =? 3) then process_inc_exit (-1)
  else
    let n := u64 (satoi (argv_at argv 0)) in
    if n <=? 0 then process_inc_exit (-1)
    else if i8 (satoi (argv_at argv 1)) =? 0 then process_inc_exit (-1)
    else
      let use_sem := i8 (satoi (argv_at argv 2)) in
      if use_sem <? 0 then process_inc_exit (-1)
      else
        sem_id ← (if ctrue use_sem then sys (SysSemOpen SEM_ID 1) else Ret (-1));
        if ctrue use_sem && (sem_id =? -1) then
          say (ln "test_sync: ERROR opening semaphore") [];; process_inc_exit (-1)
        else
          inc_loop (Z.to_nat n) 0 (ctrue use_sem) sem_id;;
          (if ctrue use_sem then sys (SysSemClose sem_id);; Ret () else Ret ());;
          process_inc_exit 0.
End Inc.

Definition inc_process (argv : list (list Z)) (by_one : list Z) : call :=
  SysCreate ProcessInc (lit "process_inc") 3 0 3 (AStrings [argv_at argv 0; by_one; argv_at argv 1]).

(** [final] is the shared variable when all have ended. *)
Definition test_sync (argv : list (list Z)) (final : Z) : prog Z :=
  if negb (argc argv =? 2) then Ret (u64 (-1))
  else
    p0 ← sys (inc_process argv (lit "-1"));
    p2 ← sys (inc_process argv (lit "1"));
    p1 ← sys (inc_process argv (lit "-1"));
    p3 ← sys (inc_process argv (lit "1"));
    sys (SysWait p0);; sys (SysWait p2);; sys (SysWait p1);; sys (SysWait p3);;
    say (ln "Final value: %d") [AInt (i32 final)];;
    Ret 0.

(** ** [commands_tests.c] *)

(** The commands: the programs on the arguments behind the name, with the state
    they find. *)
Definition test_cmd (n : nat) (junk : p_rq) (r : Rng) (m : bytes) (final : Z)
    (f : cmd_fn) (argv : list (list Z)) (s : Shell) : prog (Z * Shell) :=
  let plain (p : prog Z) := x ← p; Ret (i32 x, s) in
  match f with
  | F_test_sync_cmd => plain (test_sync argv final)
  | F_test_mm_cmd => plain (test_mm n argv r m)
  | F_test_proc_cmd => plain (test_processes n junk argv r)
  | F_test_prio_cmd => plain (test_prio argv)
  | _ => Wrong
  end.

(** ** The calls of a program *)

(** The pid that a call gives its caller. *)
Definition new_pid (c : call) (r : Z) : list Z := match c with SysCreate _ _ _ _ _ _ => [r] | _ => [] end.

(** A run of [p] ends, and its result, its calls besides output and the pids of
    the processes it creates meet [Q]. *)
Definition ends {A} (k : kernel) (p : prog A) (tr : trace) (Q : A -> list call -> list Z -> Prop) : Prop :=
  exists t v, run k p tr = (tr ++ t, Done v) /\ Q v (fst <$> actions t) (pids_created t).

Section Ends.
Context (k : kernel).

Lemma ends_ret {A} (v : A) tr Q : Q v [] [] -> ends k (Ret v) tr Q.
Proof. exists [], v. by rewrite app_nil_r. Qed.

Lemma ends_mono {A} (p : prog A) tr (Q Q' : A -> list call -> list Z -> Prop) :
  ends k p tr Q -> (forall v cs ps, Q v cs ps -> Q' v cs ps) -> ends k p tr Q'.
Proof. intros (t & v & E & Hq) H. exists t, v. auto. Qed.

Lemma ends_bind {A B} (p : prog A) (f : A -> prog B) tr Q :
  ends k p tr (fun v cs ps => forall tr, ends k (f v) tr (fun w cs' ps' => Q w (cs ++ cs') (ps ++ ps'))) -> ends k (p ≫= f) tr Q.
Proof.
  intros (t & v & E & Hq). destruct (Hq (tr ++ t)) as (t' & w & E' & Hq'). exists (t ++ t'), w.
  rewrite run_bind, E, E', actions_app, fmap_app, app_assoc. unfold pids_created in *. by rewrite omap_app.
Qed.

Lemma ends_sys {A} c (f : Z -> prog A) tr Q : is_write c = false ->
  (forall r tr, ends k (f r) tr (fun w cs ps => Q w (c :: cs) (new_pid c r ++ ps))) -> ends k (x ← sys c; f x) tr Q.
Proof.
  intros Hc Hf. destruct (Hf (i32 (k tr c).1) (tr ++ [(c, k tr c)])) as (t & w & E & Hq). exists ((c, k tr c) :: t), w.
  rewrite run_sys, E, <- app_assoc. split; [done|]. unfold actions in *. rewrite filter_cons. destruct (decide _) as [|Hn]; [|by destruct Hn].
  unfold pids_created in *. by destruct c.
Qed.

Lemma ends_say {A} fmt args out n (f : prog A) tr Q :
  printf fmt args = Some (out, n) -> (forall tr, ends k f tr Q) -> ends k (say fmt args;; f) tr Q.
Proof.
  intros E Hf. unfold ends. destruct (run_say k fmt args out n f tr E) as (t & -> & Ha & _). destruct (Hf (tr ++ t)) as (t' & w & E' & Hq).
  exists (t ++ t'), w. rewrite E', app_assoc, actions_app, Ha. split; [done|].
  assert (pids_created t = []) as Hp; [|unfold pids_created in *; by rewrite omap_app, Hp].
  clear -Ha. unfold actions in Ha. induction t as [|[c r] t IH]; [done|]. rewrite filter_cons in Ha. destruct (decide _) as [|Hn]; [done|].
  destruct c; try done; by apply IH.
Qed.

Lemma ends_each (c : Z -> call) : (forall p, is_write (c p) = false) -> (forall p r, new_pid (c p) r = []) ->
  forall pids tr, ends k (each c pids) tr (fun _ cs ps => cs = c <$> pids /\ ps = []).
Proof.
  intros Hw Hn pids. induction pids as [|p pids IH]; intros tr; cbn [each]; [by apply ends_ret|]. apply ends_sys; [apply Hw|].
  intros r tr'. rewrite Hn. eapply ends_mono; [apply IH|]. by intros _ cs ps [-> ->].
Qed.

(** The calls of the three loops that create processes. *)
Definition same_calls (pids : list Z) : list call := (fun _ => counter) <$> pids.
Definition nice_calls (pids ps : list Z) : list call := concat (zip_with (fun pid p => [counter; SysNice pid p]) pids ps).
Definition blocked_calls (pids ps : list Z) : list call := concat (zip_with (fun pid p => [counter; SysBlock pid; SysNice pid p]) pids ps).

Lemma ends_create_same n : forall tr, ends k (create_same n) tr (fun v cs ps => length v = n /\ cs = same_calls v /\ ps = v).
Proof.
  induction n as [|n IH]; intros tr; cbn [create_same]; [by apply ends_ret|]. apply ends_sys; [done|]. intros r tr'. apply ends_bind.
  eapply ends_mono; [apply IH|]. intros v cs ps (Hl & -> & ->) tr2. apply ends_ret. rewrite !app_nil_r. split_and!; [cbn; lia|done..].
Qed.

Lemma ends_create_nice l : forall tr, ends k (create_nice l) tr (fun v cs ps => length v = length l /\ cs = nice_calls v l /\ ps = v).
Proof.
  induction l as [|p l IH]; intros tr; cbn [create_nice]; [by apply ends_ret|]. apply ends_sys; [done|]. intros r tr1. apply ends_sys; [done|].
  intros ? tr2. eapply ends_say; [reflexivity|]. intros tr3. apply ends_bind.
  eapply ends_mono; [apply IH|]. intros v cs ps (Hl & -> & ->) tr4. apply ends_ret. rewrite !app_nil_r. split_and!; [cbn; lia|done..].
Qed.

Lemma ends_create_blocked l : forall tr, ends k (create_blocked l) tr (fun v cs ps => length v = length l /\ cs = blocked_calls v l /\ ps = v).
Proof.
  induction l as [|p l IH]; intros tr; cbn [create_blocked]; [by apply ends_ret|]. apply ends_sys; [done|]. intros r tr1. do 2 (apply ends_sys; [done|]; intros ? ?).
  eapply ends_say; [reflexivity|]. intros tr3. apply ends_bind.
  eapply ends_mono; [apply IH|]. intros v cs ps (Hl & -> & ->) tr4. apply ends_ret. rewrite !app_nil_r. split_and!; [cbn; lia|done..].
Qed.

(** The loop of [process_inc] with the semaphore: each iteration waits once,
    perhaps yields, and posts once. *)
Definition guarded (sem_id : Z) (ys : list bool) : list call :=
  concat ((fun y : bool => SysSemWait sem_id :: (if y then [SysYield] else []) ++ [SysSemPost sem_id]) <$> ys).

Definition bare (ys : list bool) : list call := concat ((fun y : bool => if y then [SysYield] else []) <$> ys).

Definition draws (gen : nat -> Rng) (i n : nat) : list bool := (fun i => (GetUniform 100 (gen i)).1 <? 30) <$> seq i n.

Lemma ends_slowInc gen i tr : ends k (slowInc gen i) tr (fun _ cs ps => cs = (if (GetUniform 100 (gen i)).1 <? 30 then [SysYield] else []) /\ ps = []).
Proof. unfold slowInc. case_if; [apply ends_sys; [done|]; intros r tr'|]; by apply ends_ret. Qed.

Lemma ends_inc_loop gen use_sem sem_id n : forall i tr, ends k (inc_loop gen n i use_sem sem_id) tr
  (fun _ cs ps => cs = (if use_sem then guarded sem_id (draws gen i n) else bare (draws gen i n)) /\ ps = []).
Proof.
  induction n as [|n IH]; intros i tr; cbn [inc_loop]; [apply ends_ret; by destruct use_sem|]. destruct use_sem.
  - apply ends_bind, ends_sys; [done|]. intros ? tr1. apply ends_ret. intros tr2. apply ends_bind.
    eapply ends_mono; [apply ends_slowInc|]. intros [] cs ps [-> ->] tr3. apply ends_bind, ends_sys; [done|]. intros ? tr4. apply ends_ret. intros tr5.
    eapply ends_mono; [apply (IH (S i))|]. intros [] cs ps [-> ->]. split; [|done]. unfold guarded, draws. cbn [seq fmap list_fmap concat].
    by destruct (_ <? 30).
  - apply ends_bind, ends_ret. intros tr2. apply ends_bind. eapply ends_mono; [apply ends_slowInc|]. intros [] cs ps [-> ->] tr3. apply ends_bind, ends_ret.
    intros tr5. eapply ends_mono; [apply (IH (S i))|]. intros [] cs ps [-> ->]. split; [|done]. unfold bare, draws. cbn [seq fmap list_fmap concat].
    by destruct (_ <? 30).
Qed.
End Ends.

(** ** Theorems *)

(** The counting loop ends, after as many iterations as it counts to. *)
Lemma zero_loop_ends max_value fuel : forall value, 0 <= value <= max_value -> max_value < 2 ^ 64 -> (Z.to_nat (max_value - value) < fuel)%nat ->
  zero_loop fuel value max_value = Some (Z.to_nat (max_value - value)).
Proof.
  induction fuel as [|fuel IH]; intros value Hv Hm Hf; [lia|]. cbn [zero_loop]. case_if; [f_equal; lia|].
  rewrite u64_small, IH by lia. cbn. f_equal. lia.
Qed.

(** The test of priorities.  On any kernel [test_prio] ends with 0 and makes
    exactly these calls: it creates three processes of the same priority and
    waits for each; it creates three, gives each its own priority, and waits
    for each; it creates three, blocks each and gives it its priority, then
    unblocks all and waits for each.  A process that counts ends too, after
    telling its pid. *)
Theorem test_prio_spec (k : kernel) (a : list Z) (fuel : nat) (tr : trace) :
  let max_value := u64 (satoi a) in
  0 < max_value -> (Z.to_nat max_value < fuel)%nat ->
  ends k (test_prio [a]) tr (fun v cs ps => v = 0 /\
    exists same niced blocked, length same = 3%nat /\ length niced = 3%nat /\ length blocked = 3%nat /\ ps = same ++ niced ++ blocked /\
      cs = same_calls same ++ (SysWait <$> same) ++ nice_calls niced [1; 3; 5] ++ (SysWait <$> niced) ++
           blocked_calls blocked [1; 3; 5] ++ (SysUnblock <$> blocked) ++ (SysWait <$> blocked)) /\
  ends k (zero_to_max fuel max_value) tr (fun v cs _ => v = 0 /\ cs = [SysGetpid; SysExit 0]).
Proof.
  intros max_value Hmax Hfuel. split.
  - unfold test_prio. change (argc [a] =? 1) with true. cbn [negb argv_at nth]. fold max_value. replace (max_value <=? 0) with false by lia.
    eapply ends_say; [reflexivity|]. intros tr1. apply ends_bind. eapply ends_mono; [apply ends_create_same|]. intros same cs ps (L1 & -> & ->) tr2.
    apply ends_bind. eapply ends_mono; [by apply ends_each|]. intros [] cs ps [-> ->] tr3.
    eapply ends_say; [reflexivity|]. intros tr4. apply ends_bind. eapply ends_mono; [apply ends_create_nice|]. intros niced cs ps (L2 & -> & ->) tr5.
    apply ends_bind. eapply ends_mono; [by apply ends_each|]. intros [] cs ps [-> ->] tr6.
    eapply ends_say; [reflexivity|]. intros tr7. apply ends_bind. eapply ends_mono; [apply ends_create_blocked|]. intros blocked cs ps (L3 & -> & ->) tr8.
    apply ends_bind. eapply ends_mono; [by apply ends_each|]. intros [] cs ps [-> ->] tr9.
    apply ends_bind. eapply ends_mono; [by apply ends_each|]. intros [] cs ps [-> ->] tr10.
    apply ends_ret. split; [done|]. exists same, niced, blocked. rewrite !app_nil_r. done.
  - unfold zero_to_max. pose proof (u64_range (satoi a)). rewrite zero_loop_ends by (unfold max_value in *; lia).
    apply ends_sys; [done|]. intros pid tr1. eapply ends_say; [reflexivity|]. intros tr2. apply ends_sys; [done|]. intros ? tr3. by apply ends_ret.
Qed.

(** The processes of [test_sync].  On any kernel a process of the test with the
    semaphore opens it with the value 1 and then makes [n] rounds of one wait,
    perhaps a yield, and one post, closes it and exits with 0; if it cannot open
    it, it exits with -1 at once.  The test itself creates four processes, two
    that subtract and two that add, waits for each of them and ends with 0. *)
Theorem test_sync_calls (k : kernel) (gen : nat -> Rng) (n inc use_sem : list Z) (final : Z) (tr : trace) :
  u64 (satoi n) <> 0 -> i8 (satoi inc) <> 0 -> 0 < i8 (satoi use_sem) ->
  ends k (process_inc gen [n; inc; use_sem]) tr (fun v cs _ =>
    (v = 2 ^ 64 - 1 /\ cs = [SysSemOpen SEM_ID 1; SysExit (-1)]) \/
    (v = 0 /\ exists id ys, id <> -1 /\ Z.of_nat (length ys) = u64 (satoi n) /\
       cs = SysSemOpen SEM_ID 1 :: guarded id ys ++ [SysSemClose id; SysExit 0])) /\
  ends k (test_sync [n; use_sem] final) tr (fun v cs ps => v = 0 /\
    cs = (inc_process [n; use_sem] <$> [lit "-1"; lit "1"; lit "-1"; lit "1"]) ++ (SysWait <$> ps) /\ length ps = 4%nat).
Proof.
  intros Hn Hi Hs. split.
  - unfold process_inc. change (argc [n; inc; use_sem] =? 3) with true. cbn [negb argv_at nth]. pose proof (u64_range (satoi n)).
    replace (u64 (satoi n) <=? 0) with false by lia. replace (i8 (satoi inc) =? 0) with false by lia. replace (i8 (satoi use_sem) <? 0) with false by lia.
    assert (ctrue (i8 (satoi use_sem)) = true) as -> by (unfold ctrue; lia). cbn [andb]. apply ends_sys; [done|]. intros id tr1.
    destruct (Z.eqb_spec id (-1)) as [->|Hid].
    + eapply ends_say; [reflexivity|]. intros tr2. apply ends_sys; [done|]. intros ? tr3. apply ends_ret. by left.
    + apply ends_bind. eapply ends_mono; [apply ends_inc_loop|]. intros [] cs ps [-> ->] tr2. apply ends_bind, ends_sys; [done|]. intros ? tr3. apply ends_ret.
      intros tr4. apply ends_sys; [done|]. intros ? tr5. apply ends_ret. right. split; [done|]. exists id, (draws gen 0 (Z.to_nat (u64 (satoi n)))).
      split_and!; [done| |done]. unfold draws. rewrite length_fmap, length_seq. lia.
  - unfold test_sync. change (argc [n; use_sem] =? 2) with true. cbn [negb]. do 8 (apply ends_sys; [done|]; intros ? ?).
    eapply ends_say; [reflexivity|]. intros tr9. apply ends_ret. done.
Qed.

(** *** Witnesses *)

Lemma test_prio_spec_witness :
  ends counting (test_prio [lit "7"]) [] (fun v cs ps => v = 0 /\ length ps = 9%nat /\ length cs = 30%nat).
Proof.
  destruct (test_prio_spec counting (lit "7") 10 []) as [(t & v & E & -> & a & b & c & La & Lb & Lc & Hp & Hc) _].
  - vm_compute. reflexivity.
  - vm_compute. lia.
  - exists t, 0. split; [exact E|]. split; [reflexivity|]. rewrite Hp, Hc. split; [rewrite !length_app; lia|].
    do 4 (destruct a as [|? a]; [try discriminate La|]); try discriminate La. do 4 (destruct b as [|? b]; [try discriminate Lb|]); try discriminate Lb.
    do 4 (destruct c as [|? c]; [try discriminate Lc|]); try discriminate Lc. reflexivity.
Defined.

Lemma test_sync_calls_witness :
  ends counting (process_inc (fun _ => rng_init) [lit "2"; lit "1"; lit "1"]) [] (fun v cs _ => exists c, cs = SysSemOpen SEM_ID 1 :: c).
Proof.
  destruct (test_sync_calls counting (fun _ => rng_init) (lit "2") (lit "1") (lit "1") 0 []) as [(t & v & E & Hq) _].
  - vm_compute. discriminate.
  - vm_compute. discriminate.
  - vm_compute. reflexivity.
  - exists t, v. split; [exact E|]. destruct Hq as [[_ ->]|(_ & id & ys & _ & _ & ->)]; eexists; reflexivity.
Defined.
