(* ===== verification/Console.v ===== *)
(** * The text console

    [Kernel/naiveConsole.c]: the console of the boot sequence writes characters
    and their attributes into the video memory at [0xB8000]. *)

From S2P Require Import Prelude Lib.
Local Open Scope Z_scope.

Definition video : Z := 0xB8000.
Definition width : Z := 80.
Definition height : Z := 25.

Record Console := mkConsole { nc_mem : bytes; currentVideo : Z }.

(** The other variable it sets, [cursor], is never read. *)
Definition ncInit (s : Console) : Console := mkConsole (nc_mem s) video.

Definition ncPrintChar (character : Z) (s : Console) : Console :=
  let p := currentVideo s in
  mkConsole (fupd (fupd (nc_mem s) p (u8 character)) (p + 1) 0x07) (p + 2).

Definition ncPrint (string : list Z) (s : Console) : Console := foldl (flip ncPrintChar) s (cstr string).

(** [do ncPrintChar(' '); while (column != 0);]: the rest of a line has at
    most [width] characters. *)
Fixpoint newline_loop (fuel : nat) (s : Console) : Console :=
  match fuel with
  | O => s
  | S fuel =>
      let s := ncPrintChar 32 s in
      if (currentVideo s - video) mod (width * 2) =? 0 then s else newline_loop fuel s
  end.

Definition ncNewline (s : Console) : Console := newline_loop (Z.to_nat width) s.

Definition ncClear (s : Console) : Console :=
  mkConsole
    (for_loop 0 (height * width) (fun m i => fupd (fupd m (video + i * 2) 32) (video + i * 2 + 1) 0x07) (nc_mem s))
    video.

(** ** Numbers *)

(** [buffer] is static and has 64 bytes. *)
Definition NC_BUFFER : nat := 64.

(** [do *p++ = digit(value % base); while (value /= base);]: the digits, the
    last one first; 64 iterations are enough for every base. *)
Fixpoint base_digits (fuel : nat) (value base : Z) : list Z :=
  match fuel with
  | O => []
  | S fuel =>
      let remainder := value mod base in
      let c := if remainder <? 10 then remainder + 48 else remainder + 65 - 10 in
      c :: (if value / base =? 0 then [] else base_digits fuel (value / base) base)
  end.

(** [while (p1 < p2) swap(p1++, p2--);] *)
Fixpoint swap_loop (fuel : nat) (p1 p2 : Z) (buf : list Z) : list Z :=
  match fuel with
  | O => buf
  | S fuel =>
      if p1 <? p2 then
        let tmp := buf.[p1] in
        swap_loop fuel (p1 + 1) (p2 - 1) (seti p2 tmp (seti p1 (buf.[p2]) buf))
      else buf
  end.

(** The text left in [buffer]; [None] when it and its terminator do not fit. *)
Definition uintToBase (value base : Z) : option (list Z) :=
  let ds := base_digits 64 value base in
  if (length ds <? NC_BUFFER)%nat then
    Some (swap_loop (length ds) 0 (Z.of_nat (length ds) - 1) ds)
  else None.

Definition ncPrintBase (value base : Z) (s : Console) : option Console :=
  text ← uintToBase value base; Some (ncPrint text s).

Definition ncPrintDec (value : Z) (s : Console) : option Console := ncPrintBase value 10 s.
Definition ncPrintHex (value : Z) (s : Console) : option Console := ncPrintBase value 16 s.
Definition ncPrintBin (value : Z) (s : Console) : option Console := ncPrintBase value 2 s.

(** ** What the console touches *)

(** Only bytes at or behind the cursor change, and at most [n] of them. *)
Definition nc_frame (n : Z) (s s' : Console) : Prop :=
  currentVideo s <= currentVideo s' <= currentVideo s + n /\
  (forall x, x < currentVideo s \/ currentVideo s + n <= x -> nc_mem s' x = nc_mem s x) /\
  ((forall x, is_byte (nc_mem s x)) -> forall x, is_byte (nc_mem s' x)).

Lemma nc_frame_refl s : nc_frame 0 s s.
Proof. split; [lia|auto]. Qed.

Lemma nc_frame_trans a b s1 s2 s3 : nc_frame a s1 s2 -> nc_frame b s2 s3 -> nc_frame (a + b) s1 s3.
Proof.
  intros (C1 & M1 & B1) (C2 & M2 & B2). split; [lia|]. split; [|auto].
  intros x Hx. rewrite M2 by lia. apply M1. lia.
Qed.

Lemma nc_frame_mono a b s1 s2 : a <= b -> nc_frame a s1 s2 -> nc_frame b s1 s2.
Proof. intros Hab (C & M & B). split; [lia|]. split; [|done]. intros x Hx. apply M. lia. Qed.

Lemma ncPrintChar_frame c s : nc_frame 2 s (ncPrintChar c s).
Proof.
  split; [cbn; lia|]. split; cbn.
  - intros x Hx. unfold fupd. by repeat (case_if; [lia|]).
  - intros H x. unfold fupd. repeat case_if; unfold is_byte in *; [lia| |auto].
    unfold u8. pose proof (Z.mod_pos_bound c (2 ^ 8)). lia.
Qed.

Lemma ncPrint_frame l s n : 2 * Z.of_nat (length l) <= n -> nc_frame n s (ncPrint l s).
Proof.
  intros Hn. unfold ncPrint. assert (H : (length (cstr l) <= length l)%nat).
  { clear. induction l as [|c l IH]; cbn; [done|]. case_if; cbn; lia. }
  apply (nc_frame_mono (2 * Z.of_nat (length (cstr l)))); [lia|]. clear. generalize (cstr l). clear l. intros l.
  revert s. induction l as [|c l IH]; intros s; cbn [foldl]; [apply nc_frame_refl|].
  replace (2 * _) with (2 + 2 * Z.of_nat (length l)) by (cbn [length]; lia).
  eapply nc_frame_trans; [apply ncPrintChar_frame|apply IH].
Qed.

Lemma ncNewline_frame s : nc_frame 160 s (ncNewline s).
Proof.
  unfold ncNewline. change (Z.to_nat width) with 80%nat.
  assert (forall n s, nc_frame (2 * Z.of_nat n) s (newline_loop n s)) as H; [|apply (H 80%nat)].
  clear. induction n as [|n IH]; intros s; cbn [newline_loop]; [apply nc_frame_refl|].
  replace (2 * _) with (2 + 2 * Z.of_nat n) by lia. cbv zeta. case_if.
  - eapply nc_frame_mono; [|apply ncPrintChar_frame]. lia.
  - eapply nc_frame_trans; [apply ncPrintChar_frame|apply IH].
Qed.

(** A new line goes to the beginning of the next line, from any cell. *)
Lemma ncNewline_column s :
  (currentVideo s - video) mod 2 = 0 ->
  (currentVideo (ncNewline s) - video) mod 160 = 0 /\
  currentVideo s < currentVideo (ncNewline s) <= currentVideo s + 160.
Proof.
  unfold ncNewline. change (Z.to_nat width) with 80%nat.
  assert (forall n s, (currentVideo s - video) mod 2 = 0 ->
    160 - (currentVideo s - video) mod 160 <= 2 * Z.of_nat n ->
    (currentVideo (newline_loop n s) - video) mod 160 = 0 /\
    currentVideo s < currentVideo (newline_loop n s) <= currentVideo s + 2 * Z.of_nat n) as H.
  { clear. unfold video. induction n as [|n IH]; intros s He Hn.
    - pose proof (Z.mod_pos_bound (currentVideo s - 0xB8000) 160). lia.
    - cbn [newline_loop]. change (width * 2) with 160. unfold video. cbv zeta. case_if.
      + cbn [ncPrintChar currentVideo] in *. lia.
      + destruct (IH (ncPrintChar 32 s)) as [H1 H2]; cbn [ncPrintChar currentVideo] in *;
          Z.to_euclidean_division_equations; lia. }
  intros He. destruct (H 80%nat s He) as [H1 H2]; [|split; [done|lia]].
  pose proof (Z.mod_pos_bound (currentVideo s - video) 160). lia.
Qed.

(** ** Numbers read back *)

Definition nc_val (c : Z) : Z := if c <? 58 then c - 48 else c - 55.

(** The number that digits stand for, the last one first. *)
Definition number (base : Z) (ds : list Z) : Z := foldr (fun c n => nc_val c + base * n) 0 ds.

Lemma base_digits_number fuel v base :
  2 <= base <= 36 -> 0 <= v < base ^ Z.of_nat fuel -> number base (base_digits fuel v base) = v.
Proof.
  intros Hb. revert v. induction fuel as [|fuel IH]; intros v Hv; [simpl in *; lia|].
  rewrite Nat2Z.inj_succ, Z.pow_succ_r in Hv by lia. cbn [base_digits number foldr].
  pose proof (Z.div_mod v base ltac:(lia)) as Hd. pose proof (Z.mod_pos_bound v base ltac:(lia)) as Hm.
  assert (Hc : nc_val (if v mod base <? 10 then v mod base + 48 else v mod base + 65 - 10) = v mod base)
    by (unfold nc_val; repeat case_if; lia).
  rewrite Hc. case_if; [cbn; nia|]. fold (number base (base_digits fuel (v / base) base)). rewrite IH; [lia|].
  split; [apply Z.div_pos; lia|]. apply Z.div_lt_upper_bound; lia.
Qed.

Lemma base_digits_length fuel v base n :
  2 <= base -> 0 <= v < base ^ Z.of_nat (S n) -> (length (base_digits fuel v base) <= S n)%nat.
Proof.
  intros Hb. revert fuel v. induction n as [|n IH]; intros fuel v Hv; (destruct fuel as [|fuel]; [simpl; lia|]); cbn [base_digits length].
  - change (Z.of_nat 1) with 1 in Hv. rewrite Z.pow_1_r in Hv. rewrite Z.div_small by lia. simpl. lia.
  - case_if; [simpl; lia|]. apply le_n_S, IH. rewrite (Nat2Z.inj_succ (S n)), Z.pow_succ_r in Hv by lia.
    split; [apply Z.div_pos; lia|]. apply Z.div_lt_upper_bound; lia.
Qed.

Lemma base_digits_chars fuel v base : 2 <= base <= 36 -> Forall (fun c => 48 <= c < 91) (base_digits fuel v base).
Proof.
  intros Hb. revert v. induction fuel as [|fuel IH]; intros v; cbn [base_digits]; [done|]. constructor.
  - pose proof (Z.mod_pos_bound v base). case_if; lia.
  - by case_if.
Qed.

(** The swaps reverse the middle of a buffer. *)
Lemma swap_loop_rev fuel a mid b :
  (length mid <= 2 * fuel)%nat ->
  swap_loop fuel (Z.of_nat (length a)) (Z.of_nat (length a + length mid) - 1) (a ++ mid ++ b) = a ++ rev mid ++ b.
Proof.
  revert a mid b. induction fuel as [|fuel IH]; intros a mid b Hl; [by destruct mid; [|simpl in Hl; lia]|].
  cbn [swap_loop]. destruct mid as [|x mid]; [cbn [length]; by replace (_ <? _) with false by lia|].
  destruct mid as [|y mid _] using rev_ind; [cbn [length]; by replace (_ <? _) with false by lia|].
  cbn [length] in *. rewrite length_app in *. cbn [length] in *. replace (_ <? _) with true by lia. cbv zeta.
  set (buf := a ++ (x :: mid ++ [y]) ++ b).
  assert (Ep2 : Z.of_nat (length a + S (length mid + 1)) - 1 = Z.of_nat (length (a ++ x :: mid))) by (rewrite length_app; cbn [length]; lia).
  rewrite Ep2.
  assert (E1 : buf = a ++ x :: mid ++ y :: b) by (unfold buf; cbn; by rewrite <- !app_assoc).
  assert (E2 : buf = (a ++ x :: mid) ++ y :: b) by (rewrite E1; by rewrite <- app_assoc).
  assert (G1 : buf.[Z.of_nat (length a)] = x) by (rewrite E1; by apply geti_middle).
  assert (G2 : buf.[Z.of_nat (length (a ++ x :: mid))] = y) by (rewrite E2; by apply geti_middle).
  rewrite G1, G2, E1, (seti_middle a y x (mid ++ y :: b)) by done.
  replace (a ++ y :: mid ++ y :: b) with ((a ++ y :: mid) ++ y :: b) by (by rewrite <- app_assoc).
  rewrite (seti_middle (a ++ y :: mid) x y b) by (rewrite !length_app; done).
  specialize (IH (a ++ [y]) mid (x :: b) ltac:(lia)). rewrite !length_app in *. cbn [length] in *.
  rewrite <- !app_assoc in *. cbn [app rev] in *. rewrite rev_app_distr. cbn [rev app]. rewrite <- !app_assoc. cbn [app].
  rewrite <- IH. f_equal; lia.
Qed.

Lemma uintToBase_text (value base : Z) :
  0 <= value < 2 ^ 64 -> 3 <= base <= 36 ->
  exists text, uintToBase value base = Some text /\ number base (rev text) = value /\
    (1 <= length text)%nat /\ (base = 10 -> (length text <= 20)%nat) /\ (base = 16 -> (length text <= 16)%nat).
Proof.
  intros Hv Hb. unfold uintToBase. set (ds := base_digits 64 value base).
  assert (Hlen : forall n, 2 ^ 64 <= base ^ Z.of_nat (S n) -> (length ds <= S n)%nat)
    by (intros n Hn; apply base_digits_length; lia).
  assert (H41 : 2 ^ 64 <= base ^ Z.of_nat 41).
  { transitivity (3 ^ 41); [by vm_compute|]. apply Z.pow_le_mono_l. lia. }
  pose proof (Hlen _ H41) as H. replace (length ds <? NC_BUFFER)%nat with true by (unfold NC_BUFFER; symmetry; apply Nat.ltb_lt; lia).
  eexists. split; [reflexivity|]. pose proof (swap_loop_rev (length ds) [] ds [] ltac:(lia)) as Hs.
  cbn [length app Nat.add] in Hs. rewrite !app_nil_r in Hs. change (Z.of_nat 0) with 0 in Hs. rewrite Hs, rev_involutive, length_rev.
  split_and!.
  - apply base_digits_number; [lia|]. split; [lia|]. apply (Z.lt_le_trans _ (2 ^ 64)); [lia|].
    change (Z.of_nat 64) with 64. apply Z.pow_le_mono_l. lia.
  - unfold ds. cbn [base_digits length]. lia.
  - intros ->. by apply Hlen.
  - intros ->. by apply Hlen.
Qed.

(** The console prints every 64-bit number in base 10 or 16 with the digits
    that stand for it, without running past its buffer, and from every cell of
    the screen a new line ends in the first column of the next line. *)
Theorem console_spec (value base : Z) (s : Console) :
  0 <= value < 2 ^ 64 -> base = 10 \/ base = 16 -> (currentVideo s - video) mod 2 = 0 ->
  (exists text, uintToBase value base = Some text /\ number base (rev text) = value /\
    ncPrintBase value base s = Some (ncPrint text s)) /\
  (currentVideo (ncNewline s) - video) mod (width * 2) = 0 /\
  currentVideo s < currentVideo (ncNewline s) <= currentVideo s + width * 2.
Proof.
  intros Hv Hb Hs. split; [|by apply ncNewline_column].
  destruct (uintToBase_text value base Hv) as (text & E & Hn & _); [lia|]. exists text. unfold ncPrintBase. by rewrite E.
Qed.

Lemma console_spec_witness :
  exists text, uintToBase 0xBEEF 16 = Some text /\ number 16 (rev text) = 0xBEEF.
Proof.
  destruct (console_spec 0xBEEF 16 (mkConsole (fun _ => 0) video)) as [(t & E & N & _) _]; [lia|auto|done|]. by exists t.
Defined.

(** In base 2 a number of 64 digits leaves no room for the terminator. *)
Lemma print_bin_overrun : uintToBase (2 ^ 63) 2 = None.
Proof. by vm_compute. Qed.

Lemma ncPrintBase_frame value base s :
  0 <= value < 2 ^ 64 -> base = 10 \/ base = 16 -> exists s', ncPrintBase value base s = Some s' /\ nc_frame 40 s s'.
Proof.
  intros Hv Hb. destruct (uintToBase_text value base Hv) as (text & E & _ & _ & H10 & H16); [lia|].
  unfold ncPrintBase. rewrite E. eexists. split; [done|]. apply ncPrint_frame. destruct Hb as [-> | ->]; [specialize (H10 eq_refl)|specialize (H16 eq_refl)]; lia.
Qed.
