(* ===== verification/Modules.v ===== *)
(** * Packing and loading modules

    [Toolchain/ModulePacker/main.c] builds the image of the kernel and its
    modules; [Kernel/moduleLoader.c] copies the modules to their addresses when
    the kernel starts. *)

From Stdlib Require Import String.
From S2P Require Import Prelude Lib UserProg Console.
Local Open Scope Z_scope.

(** ** The packer *)

(** The four bytes of an [int] or a [uint32_t] in memory. *)
Definition le32 (v : Z) : list Z := [u8 v; u8 (v / 2 ^ 8); u8 (v / 2 ^ 16); u8 (v / 2 ^ 24)].

Definition PACK_BUFFER : nat := 128.

(** [while (!feof(source)) { read = fread(...); fwrite(...); }]: the end of the
    file is noticed by the read that does not fill the buffer. *)
Fixpoint write_loop (fuel : nat) (target source : list Z) : list Z :=
  match fuel with
  | O => target
  | S fuel =>
      let chunk := take PACK_BUFFER source in
      let target := target ++ chunk in
      if (length chunk <? PACK_BUFFER)%nat then target else write_loop fuel target (drop PACK_BUFFER source)
  end.

Definition write_file (target source : list Z) : list Z := write_loop (S (length source)) target source.

(** [uint32_t size = st.st_size; fwrite(&size, sizeof(uint32_t), 1, target);] *)
Definition write_size (target : list Z) (st_size : Z) : list Z := target ++ le32 (u32 st_size).

Section FileSystem.
(** The contents of the files that can be read, and whether a file can be
    created. *)
Context (readable : list Z -> option (list Z)) (creatable : list Z -> bool).

Definition checkFiles (files : list (list Z)) : bool :=
  forallb (fun f => match readable f with Some _ => true | None => false end) files.

Fixpoint write_modules (target : list Z) (files : list (list Z)) : option (list Z) :=
  match files with
  | [] => Some target
  | f :: files =>
      source ← readable f;
      write_modules (write_file (write_size target (Z.of_nat (length source))) source) files
  end.

(** The contents of the image; the outer [None] is a stream that could not be
    opened and is used all the same, the inner one [FALSE]. *)
Definition buildImage (files : list (list Z)) (output_file : list Z) : option (option (list Z)) :=
  if negb (creatable output_file) then Some None
  else
    match files with
    | [] => None
    | kernel_file :: modules =>
        source ← readable kernel_file;
        let target := write_file [] source in
        let extraBinaries := Z.of_nat (length files) - 1 in
        target ← write_modules (target ++ le32 (u32 extraBinaries)) modules;
        Some (Some target)
    end.
End FileSystem.

Definition MAX_FILES : nat := 128.

Definition OUTPUT_FILE : list Z := lit "packedKernel.bin".

(** The loop of [parse_arguments]: the files and the output file. *)
Fixpoint parse_arguments_loop (argv : list (list Z)) (args : list (list Z)) (output_file : list Z) :
    option (list (list Z) * list Z) :=
  match argv with
  | [] => Some (args, output_file)
  | a :: argv =>
      let s := cstr a in
      if bool_decide (s = lit "-o") || bool_decide (s = lit "--output") then
        match argv with
        | [] => None
        | o :: argv => parse_arguments_loop argv args o
        end
      else if bool_decide (take 9 s = lit "--output=") then parse_arguments_loop argv args (drop 9 s)
      else if hd 0 s =? 45 then None
      else if (MAX_FILES <=? length args)%nat then None
      else parse_arguments_loop argv (args ++ [a]) output_file
  end.

(** [None] for [FALSE]; [argv] is without the name of the program. *)
Definition parse_arguments (argv : list (list Z)) : option (list (list Z) * list Z) :=
  '(args, output_file) ← parse_arguments_loop argv [] OUTPUT_FILE;
  if (length args <? 1)%nat then None else Some (args, output_file).

(** The exit status of [main] and the image it leaves. *)
Definition pack (readable : list Z -> option (list Z)) (creatable : list Z -> bool) (argv : list (list Z)) :
    option (Z * option (list Z)) :=
  match parse_arguments argv with
  | None => Some (1, None)
  | Some (files, output_file) =>
      if negb (checkFiles readable files) then Some (1, None)
      else
        r ← buildImage readable creatable files output_file;
        Some (match r with Some image => (0, Some image) | None => (1, None) end)
  end.

(** ** The loader *)

(** The 32-bit value at an address and the address behind it. *)
Definition readUint32 (m : bytes) (address : Z) : Z * Z := (load32 m address, address + 4).

Definition with_mem (f : bytes -> bytes) (s : Console) : Console := mkConsole (f (nc_mem s)) (currentVideo s).

Definition loadModule (module targetModuleAddress : Z) (s : Console) : option (Z * Console) :=
  let '(moduleSize, module) := readUint32 (nc_mem s) module in
  let s := ncPrint (lit "  Will copy module at 0x") s in
  s ← ncPrintHex module s;
  let s := ncPrint (lit " to 0x") s in
  s ← ncPrintHex targetModuleAddress s;
  let s := ncPrint (lit " (") s in
  s ← ncPrintDec moduleSize s;
  let s := ncPrint (lit " bytes)") s in
  let s := with_mem (memcpy targetModuleAddress module moduleSize) s in
  let s := ncNewline (ncPrint (lit " [Done]") s) in
  Some (module + moduleSize, s).

(** [for (i = 0; i < moduleCount; i++)]: an index outside the array of the
    targets is undefined. *)
Fixpoint load_loop (n : nat) (module : Z) (targets : list Z) (s : Console) : option Console :=
  match n with
  | O => Some s
  | S n =>
      match targets with
      | [] => None
      | t :: targets => '(module, s) ← loadModule module t s; load_loop n module targets s
      end
  end.

Definition loadModules (payloadStart : Z) (targets : list Z) (s : Console) : option Console :=
  let '(moduleCount, currentModule) := readUint32 (nc_mem s) payloadStart in
  load_loop (Z.to_nat moduleCount) currentModule targets s.
