(* ===== verification/ModulesProps.v ===== *)
(** * Properties of packing and loading *)

From Stdlib Require Import String.
From S2P Require Import Prelude Lib UserProg Console Modules.
Local Open Scope Z_scope.

(** ** The image *)

Lemma write_loop_spec fuel target source :
  (length source < fuel)%nat -> write_loop fuel target source = target ++ source.
Proof.
  revert target source. induction fuel as [|fuel IH]; intros target source Hf; [lia|]. cbn [write_loop]. cbv zeta.
  rewrite length_take. unfold PACK_BUFFER in *. case_if.
  - apply Nat.ltb_lt in Heqb. by rewrite take_ge by lia.
  - apply Nat.ltb_ge in Heqb. rewrite IH by (rewrite length_drop; lia). by rewrite <- app_assoc, take_drop.
Qed.

Lemma write_file_spec target source : write_file target source = target ++ source.
Proof. apply write_loop_spec. lia. Qed.

(** A module in the image: its size and its bytes. *)
Definition section (f : list Z) : list Z := le32 (u32 (Z.of_nat (length f))) ++ f.

(** The image behind the kernel. *)
Definition payload (modules : list (list Z)) : list Z :=
  le32 (u32 (Z.of_nat (length modules))) ++ concat (section <$> modules).

Lemma write_modules_spec readable target files contents :
  Forall2 (fun f c => readable f = Some c) files contents ->
  write_modules readable target files = Some (target ++ concat (section <$> contents)).
Proof.
  intros H. revert target. induction H as [|f c files contents Hf _ IH]; intros target; cbn [write_modules].
  - cbn. by rewrite app_nil_r.
  - rewrite Hf. cbn [mbind option_bind]. rewrite IH, write_file_spec. unfold write_size, section at 2. cbn. by rewrite <- !app_assoc.
Qed.

Lemma buildImage_spec readable creatable kernel_file kernel_bytes files contents output :
  creatable output = true -> readable kernel_file = Some kernel_bytes ->
  Forall2 (fun f c => readable f = Some c) files contents ->
  buildImage readable creatable (kernel_file :: files) output = Some (Some (kernel_bytes ++ payload contents)).
Proof.
  intros Ho Hk Hf. unfold buildImage. rewrite Ho. cbn [negb]. rewrite Hk. cbn [mbind option_bind].
  rewrite write_file_spec, (write_modules_spec _ _ _ _ Hf). cbn [mbind option_bind].
  cbn [length]. rewrite (Forall2_length Hf). unfold payload. rewrite app_nil_l, <- app_assoc.
  replace (Z.of_nat (S (length contents)) - 1) with (Z.of_nat (length contents)) by lia. done.
Qed.

(** ** Memory *)

Definition holds_at (m : bytes) (a : Z) (l : list Z) : Prop := forall i c, l !! i = Some c -> m (a + Z.of_nat i) = c.

Lemma holds_at_app m a l1 l2 :
  holds_at m a (l1 ++ l2) <-> holds_at m a l1 /\ holds_at m (a + Z.of_nat (length l1)) l2.
Proof.
  split.
  - intros H. split; intros i c Hi; [apply H; by apply lookup_app_l_Some|].
    replace (a + Z.of_nat (length l1) + Z.of_nat i) with (a + Z.of_nat (length l1 + i)) by lia. apply H.
    rewrite lookup_app_r by lia. by replace (length l1 + i - length l1)%nat with i by lia.
  - intros [H1 H2] i c Hi. apply lookup_app_Some in Hi as [Hi|[Hl Hi]]; [by apply H1|].
    apply H2 in Hi. rewrite <- Hi. f_equal. lia.
Qed.

Lemma load32_le32 m a v : 0 <= v < 2 ^ 32 -> holds_at m a (le32 v) -> load32 m a = v.
Proof.
  intros Hv H. pose proof (H 0%nat _ eq_refl) as H0. pose proof (H 1%nat _ eq_refl) as H1.
  pose proof (H 2%nat _ eq_refl) as H2. pose proof (H 3%nat _ eq_refl) as H3.
  unfold load32. change (Z.of_nat 0) with 0 in H0. rewrite Z.add_0_r in H0. rewrite H0.
  change (a + Z.of_nat 1) with (a + 1) in H1. change (a + Z.of_nat 2) with (a + 2) in H2. change (a + Z.of_nat 3) with (a + 3) in H3.
  rewrite H1, H2, H3. unfold u8. Z.to_euclidean_division_equations. lia.
Qed.

(** Two regions that do not overlap. *)
Definition away (a n b m : Z) : Prop := a + n <= b \/ b + m <= a.

Definition size (l : list Z) : Z := Z.of_nat (length l).

Lemma image_frame m m' a l :
  holds_at m a l -> (forall x, a <= x < a + size l -> m' x = m x) -> holds_at m' a l.
Proof.
  intros H E i c Hi. rewrite E; [by apply H|]. apply lookup_lt_Some in Hi. unfold size. lia.
Qed.

(** ** Loading *)

(** The bytes that the messages about one module take on the screen. *)
Definition MESSAGE : Z := 400.

(** The messages before the copy. *)
Lemma message_frame module target n s :
  0 <= module < 2 ^ 64 -> 0 <= target < 2 ^ 64 -> 0 <= n < 2 ^ 64 ->
  exists s', nc_frame 226 s s' /\
    (s ← ncPrintHex module (ncPrint (lit "  Will copy module at 0x") s);
     let s := ncPrint (lit " to 0x") s in
     s ← ncPrintHex target s;
     let s := ncPrint (lit " (") s in
     s ← ncPrintDec n s;
     Some (ncPrint (lit " bytes)") s)) = Some s'.
Proof.
  intros Hm Ht Hn. set (s1 := ncPrint _ s). unfold ncPrintHex, ncPrintDec.
  destruct (ncPrintBase_frame module 16 s1 Hm) as (s2 & -> & F2); [auto|]. cbn [mbind option_bind].
  set (s3 := ncPrint (lit " to 0x") s2). destruct (ncPrintBase_frame target 16 s3 Ht) as (s4 & E4 & F4); [auto|].
  cbv zeta. rewrite E4. cbn [mbind option_bind]. set (s5 := ncPrint (lit " (") s4).
  destruct (ncPrintBase_frame n 10 s5 Hn) as (s6 & -> & F6); [auto|]. cbn [mbind option_bind].
  eexists. split; [|reflexivity]. apply (nc_frame_mono (48 + 40 + 12 + 40 + 4 + 40 + 14)); [lia|].
  eapply nc_frame_trans; [|by apply ncPrint_frame].
  eapply nc_frame_trans; [|exact F6]. eapply nc_frame_trans; [|by apply ncPrint_frame].
  eapply nc_frame_trans; [|exact F4]. eapply nc_frame_trans; [|by apply ncPrint_frame].
  eapply nc_frame_trans; [|exact F2]. by apply ncPrint_frame.
Qed.

Definition byte_mem (s : Console) : Prop := forall x, is_byte (nc_mem s x).

(** One module: its bytes are at the target, and nothing else has changed but
    the screen. *)
Lemma loadModule_spec a t f s :
  byte_mem s -> holds_at (nc_mem s) a (section f) -> size f < 2 ^ 32 ->
  0 <= a -> a + 4 + size f < 2 ^ 64 -> 0 <= t < 2 ^ 64 ->
  away t (size f) a (4 + size f) -> away a (4 + size f) (currentVideo s) MESSAGE ->
  away t (size f) (currentVideo s) MESSAGE ->
  exists s', loadModule a t s = Some (a + 4 + size f, s') /\ byte_mem s' /\ holds_at (nc_mem s') t f /\
    currentVideo s <= currentVideo s' <= currentVideo s + MESSAGE /\
    (forall x, away x 1 t (size f) -> away x 1 (currentVideo s) MESSAGE -> nc_mem s' x = nc_mem s x).
Proof.
  unfold away, MESSAGE. intros Hb Hh Hf Ha Hfit Ht D1 D2 D3. pose proof Hh as [Hsz Hf0]%holds_at_app.
  assert (0 <= size f) by (unfold size; lia).
  assert (Eload : load32 (nc_mem s) a = size f).
  { apply load32_le32; [unfold size in *; lia|]. unfold u32 in Hsz. rewrite Z.mod_small in Hsz by (unfold size in *; lia). exact Hsz. }
  unfold loadModule, readUint32. rewrite Eload.
  destruct (message_frame (a + 4) t (size f) s) as (s1 & (C1 & M1 & B1) & E1); [lia|lia|lia|].
  cbv zeta in E1 |- *. 
  destruct (ncPrintHex (a + 4) _) as [u1|]; [|done]. cbn [mbind option_bind] in E1 |- *.
  destruct (ncPrintHex t _) as [u2|]; [|done]. cbn [mbind option_bind] in E1 |- *.
  destruct (ncPrintDec (size f) _) as [u3|]; [|done]. cbn [mbind option_bind] in E1 |- *. simplify_eq.
  set (s1 := ncPrint (lit " bytes)") u3) in *. set (s2 := with_mem (memcpy t (a + 4) (size f)) s1).
  assert (Hcp : copied t (a + 4) (size f) (nc_mem s1) (nc_mem s2)) by (apply memcpy_spec; [lia|lia|auto]).
  assert (F3 : nc_frame 174 s2 (ncNewline (ncPrint (lit " [Done]") s2)))
    by (eapply (nc_frame_trans 14 160); [|apply ncNewline_frame]; by apply ncPrint_frame).
  set (s3 := ncNewline (ncPrint (lit " [Done]") s2)) in *. destruct F3 as (C3 & M3 & B3). change (currentVideo s2) with (currentVideo s1) in *.
  exists s3. split_and!; [done| | |lia|lia|].
  - refine (B3 _). intros x. rewrite Hcp. case_if; exact (B1 Hb _).
  - intros i c Hi. pose proof (lookup_lt_Some _ _ _ Hi) as Hlt. unfold size in *. rewrite M3 by lia. rewrite Hcp.
    replace ((t <=? _) && _) with true by lia. rewrite M1 by lia. rewrite <- (Hf0 i c Hi). f_equal. cbn [le32 length]. lia.
  - intros x Hx1 Hx2. rewrite M3 by lia. rewrite Hcp. replace ((t <=? x) && _) with false by lia. apply M1. lia.
Qed.

(** Every target is away from those behind it. *)
Fixpoint targets_apart (ts : list Z) (fs : list (list Z)) : Prop :=
  match ts, fs with
  | t :: ts, f :: fs => Forall2 (fun t' f' => away t (size f) t' (size f')) ts fs /\ targets_apart ts fs
  | _, _ => True
  end.

Lemma size_concat_cons f fs : size (concat (section <$> f :: fs)) = 4 + size f + size (concat (section <$> fs)).
Proof. unfold size. cbn [fmap list_fmap concat]. rewrite length_app. unfold section at 1. rewrite length_app. cbn [le32 length]. lia. Qed.

Lemma load_loop_spec fs : forall a ts s,
  byte_mem s -> holds_at (nc_mem s) a (concat (section <$> fs)) -> Forall (fun f => size f < 2 ^ 32) fs ->
  0 <= a -> a + size (concat (section <$> fs)) < 2 ^ 64 ->
  away a (size (concat (section <$> fs))) (currentVideo s) (MESSAGE * Z.of_nat (length fs)) ->
  Forall2 (fun t f => 0 <= t < 2 ^ 64 /\ away t (size f) a (size (concat (section <$> fs))) /\
    away t (size f) (currentVideo s) (MESSAGE * Z.of_nat (length fs))) ts fs ->
  targets_apart ts fs ->
  exists s', load_loop (length fs) a ts s = Some s' /\ byte_mem s' /\
    currentVideo s <= currentVideo s' <= currentVideo s + MESSAGE * Z.of_nat (length fs) /\
    Forall2 (fun t f => holds_at (nc_mem s') t f) ts fs /\
    (forall x, Forall2 (fun t f => away x 1 t (size f)) ts fs ->
       away x 1 (currentVideo s) (MESSAGE * Z.of_nat (length fs)) -> nc_mem s' x = nc_mem s x).
Proof.
  unfold MESSAGE. induction fs as [|f fs IH]; intros a ts s Hb Hh Hf Ha Hfit Dc Ht Hap.
  { inversion Ht; subst. exists s. cbn. split_and!; [done|done|lia|lia|constructor|done]. }
  inversion Ht as [|t ? ts' ? (Ht1 & Ht2 & Ht3) Hts]; subst. clear Ht. rename ts' into ts. destruct Hap as [Hap1 Hap2].
  apply list.Forall_cons in Hf as [Hf Hfs]. rewrite size_concat_cons in *. cbn [length] in *.
  cbn [fmap list_fmap concat] in Hh. apply holds_at_app in Hh as [Hsec Hrest].
  set (S := size (concat (section <$> fs))) in *. assert (0 <= S) by (unfold S, size; lia). assert (0 <= size f) by (unfold size; lia).
  destruct (loadModule_spec a t f s) as (s1 & E1 & Hb1 & Hd1 & Hc1 & Hm1); try done; unfold away, MESSAGE in *; try lia.
  assert (Elen : Z.of_nat (length (section f)) = 4 + size f) by (unfold section, size; rewrite length_app; cbn [le32 length]; lia).
  rewrite Elen in Hrest. replace (a + (4 + size f)) with (a + 4 + size f) in Hrest by lia.
  destruct (IH (a + 4 + size f) ts s1) as (s' & E2 & Hb2 & Hc2 & Hd2 & Hm2); try done; try lia.
  - eapply image_frame; [exact Hrest|]. fold S. intros x Hx. apply Hm1; lia.
  - eapply list.Forall2_impl; [exact Hts|]. cbn. fold S. lia.
  - cbn [load_loop]. rewrite E1. cbn [mbind option_bind]. exists s'. split_and!; [done|done|lia|lia| |].
    + constructor; [|done]. eapply image_frame; [exact Hd1|]. intros x Hx. apply Hm2; [|lia].
      eapply list.Forall2_impl; [exact Hap1|]. cbn. lia.
    + intros x Hx Hxc. inversion Hx; subst. rewrite Hm2; [apply Hm1|done|]; lia.
Qed.

(** The loader on a payload in memory. *)
Lemma loadModules_spec contents start targets s :
  let n := size (payload contents) in
  let screen := MESSAGE * Z.of_nat (length contents) in
  Forall (fun c => size c < 2 ^ 32) contents -> Z.of_nat (length contents) < 2 ^ 32 ->
  byte_mem s -> 0 <= start -> start + n < 2 ^ 64 -> away start n (currentVideo s) screen ->
  Forall2 (fun t c => 0 <= t < 2 ^ 64 /\ away t (size c) start n /\ away t (size c) (currentVideo s) screen) targets contents ->
  targets_apart targets contents -> holds_at (nc_mem s) start (payload contents) ->
  exists s', loadModules start targets s = Some s' /\ byte_mem s' /\
    currentVideo s <= currentVideo s' <= currentVideo s + screen /\
    Forall2 (fun t c => holds_at (nc_mem s') t c) targets contents /\
    (forall x, Forall2 (fun t c => away x 1 t (size c)) targets contents ->
       away x 1 (currentVideo s) screen -> nc_mem s' x = nc_mem s x).
Proof.
  intros n screen Hs Hc Hb Hstart Hfit Hscr Ht Hap Hp. 
  unfold payload in Hp. apply holds_at_app in Hp as [Hcount Hmods]. change (Z.of_nat (length (le32 _))) with 4 in Hmods.
  assert (En : n = 4 + size (concat (section <$> contents))) by (unfold n, size, payload; rewrite length_app; cbn [le32 length]; lia).
  unfold loadModules, readUint32.
  rewrite (load32_le32 _ _ (Z.of_nat (length contents))); [|lia|unfold u32 in Hcount; by rewrite Z.mod_small in Hcount by lia].
  rewrite Nat2Z.id. unfold away in *. apply load_loop_spec; try done; unfold away; try lia.
  eapply list.Forall2_impl; [exact Ht|]. fold screen. cbn. lia.
Qed.

(** C10: What the packer writes the loader reads.  Let the packer build an image
    from the kernel and its modules, let that image be in memory at [base], and
    let the targets of the modules be apart from each other, from the image and
    from the screen.  Then the loader, started behind the kernel, ends with the
    bytes of every module at its target and with every byte outside the targets
    and the screen as it was. *)
Theorem pack_load_roundtrip (readable : list Z -> option (list Z)) (creatable : list Z -> bool)
    (kernel_file output : list Z) (files : list (list Z)) (kernel_bytes : list Z) (contents : list (list Z))
    (base : Z) (targets : list Z) (s : Console) :
  creatable output = true -> readable kernel_file = Some kernel_bytes ->
  Forall2 (fun f c => readable f = Some c) files contents ->
  Forall (fun c => size c < 2 ^ 32) contents -> Z.of_nat (length contents) < 2 ^ 32 ->
  let start := base + size kernel_bytes in
  let n := size (payload contents) in
  let screen := MESSAGE * Z.of_nat (length contents) in
  byte_mem s -> 0 <= base -> start + n < 2 ^ 64 -> away start n (currentVideo s) screen ->
  Forall2 (fun t c => 0 <= t < 2 ^ 64 /\ away t (size c) start n /\ away t (size c) (currentVideo s) screen) targets contents ->
  targets_apart targets contents ->
  exists image, buildImage readable creatable (kernel_file :: files) output = Some (Some image) /\
    (holds_at (nc_mem s) base image ->
     exists s', loadModules start targets s = Some s' /\
       Forall2 (fun t c => holds_at (nc_mem s') t c) targets contents /\
       (forall x, Forall2 (fun t c => away x 1 t (size c)) targets contents ->
          away x 1 (currentVideo s) screen -> nc_mem s' x = nc_mem s x)).
Proof.
  intros Ho Hk Hf Hs Hc start n screen Hb Hbase Hfit Hscr Ht Hap. exists (kernel_bytes ++ payload contents).
  split; [by apply buildImage_spec|]. intros Hh. apply holds_at_app in Hh as [_ Hp]. fold (size kernel_bytes) in Hp. fold start in Hp.
  destruct (loadModules_spec contents start targets s) as (s' & E & _ & _ & Hd & Hm); try done; [unfold start, size; lia|].
  by exists s'.
Qed.

Definition demo_files (f : list Z) : option (list Z) :=
  if bool_decide (f = lit "kernel.bin") then Some [1; 2; 3; 4]
  else if bool_decide (f = lit "code.bin") then Some [10; 11; 12]
  else if bool_decide (f = lit "data.bin") then Some [20; 21] else None.

Lemma pack_load_roundtrip_witness :
  exists image, buildImage demo_files (fun _ => true) [lit "kernel.bin"; lit "code.bin"; lit "data.bin"] OUTPUT_FILE = Some (Some image).
Proof.
  destruct (pack_load_roundtrip demo_files (fun _ => true) (lit "kernel.bin") OUTPUT_FILE [lit "code.bin"; lit "data.bin"]
    [1; 2; 3; 4] [[10; 11; 12]; [20; 21]] 0x100000 [0x400000; 0x500000] (mkConsole (fun _ => 0) video)) as (image & E & _);
    [done|done|by repeat constructor|by repeat constructor|done|by split|done|done|right; by vm_compute| | |].
  - repeat constructor; try done; unfold away; vm_compute; intuition discriminate.
  - repeat constructor; unfold away; vm_compute; intuition discriminate.
  - by exists image.
Defined.
