(* ===== verification/Exceptions.v ===== *)
(** * Exceptions and interrupt descriptors

    [Kernel/exceptions.c], the report of an exception on the screen, and
    [Kernel/idtLoader.c], the table of interrupt descriptors. *)

From Stdlib Require Import String.
From S2P Require Import Prelude Lib UserLib UserProg Font Video VideoProps.
Local Open Scope Z_scope.

(** ** The report *)

Definition ZERO_EXCEPTION_ID : Z := 0.
Definition INVALID_OPCODE_ID : Z := 6.

Definition regs : list (list Z) := lit <$>
  ["RAX"; "RBX"; "RCX"; "RDX"; "RSI"; "RDI"; "RBP"; "RSP"; "R8"; "R9"; "R10"; "R11"; "R12"; "R13"; "R14"; "R15"; "RIP"; "RFLAGS"]%string.

Section Report.
Context `{VBE}.

Definition zero_division (v : Video) : Video :=
  video_newLine (video_printError (lit "Error: No esta permitida la division por cero") v).

Definition invalidOperation (v : Video) : Video :=
  video_newLine (video_printError (lit "Error: Operacion invalida") v).

(** The loop that fills [buffer] is the one of [printHex64]. *)
Definition video_printRegister (regName : list Z) (regValue : Z) (v : Video) : Video :=
  let v := video_putString regName 0xFFFFFF 0x000000 v in
  let v := video_putString (lit ": 0x") 0xFFFFFF 0x000000 v in
  let v := video_putString (hex_digits 16 regValue []) 0xFFFFFF 0x000000 v in
  video_newLine v.

Definition video_printRegisters (exceptionRegisters : list Z) (v : Video) : Video :=
  foldl (fun v '(nm, value) => video_printRegister nm value v) v (zip regs exceptionRegisters).

Definition exceptionDispatcher (exception : Z) (exceptionRegisters : list Z) (v : Video) : Video :=
  let v :=
    if exception =? ZERO_EXCEPTION_ID then zero_division v
    else if exception =? INVALID_OPCODE_ID then invalidOperation v
    else v in
  video_printRegisters exceptionRegisters (video_newLine v).

Context (Hmode : mode_ok).

Lemma safe_putString l fg bg v : grid v -> safe v (video_putString l fg bg v).
Proof. intros Hg. apply safe_foldl; [|done]. intros. by apply safe_putChar. Qed.

Lemma safe_printRegister nm value v : grid v -> safe v (video_printRegister nm value v).
Proof.
  intros Hg. unfold video_printRegister. destruct (safe_putString nm 0xFFFFFF 0 v Hg) as [Hg1 H1].
  destruct (safe_putString (lit ": 0x") 0xFFFFFF 0 _ Hg1) as [Hg2 H2].
  destruct (safe_putString (hex_digits 16 value []) 0xFFFFFF 0 _ Hg2) as [Hg3 H3].
  eapply safe_trans; [split; [exact Hg1|exact H1]|]. eapply safe_trans; [split; [exact Hg2|exact H2]|].
  eapply safe_trans; [split; [exact Hg3|exact H3]|]. by apply safe_newLine.
Qed.

Lemma safe_error msg v : grid v -> safe v (video_newLine (video_printError msg v)).
Proof.
  intros Hg. destruct (safe_putString msg ERROR_FG_COLOR ERROR_BG_COLOR v Hg) as [Hg1 H1].
  eapply safe_trans; [split; [exact Hg1|exact H1]|]. by apply safe_newLine.
Qed.
End Report.

(** ** Interrupt descriptors *)

Record DESCR_INT := mkDescr {
  offset_l : Z;
  selector : Z;
  cero : Z;
  access : Z;
  offset_m : Z;
  offset_h : Z;
  other_cero : Z;
}.

Definition ACS_INT : Z := Z.lor 0x80 0x0E.

(** The table, a descriptor for each vector. *)
Definition Idt : Type := Z -> DESCR_INT.

Definition setup_IDT_entry (index offset : Z) (idt : Idt) : Idt :=
  fupd idt index (mkDescr (Z.land offset 0xFFFF) 0x08 0 ACS_INT
    (Z.land (Z.shiftr offset 16) 0xFFFF) (Z.land (Z.shiftr offset 32) 0xFFFFFFFF) 0).

(** The addresses of the handlers in [interrupts.asm]. *)
Class Handlers := {
  irq00Handler : Z;
  irq01Handler : Z;
  irq80Handler : Z;
  exception0Handler : Z;
  exception6Handler : Z;
}.

(** The table and the masks that [load_idt] leaves: the timer and the keyboard
    of the first controller, nothing of the second. *)
Definition load_idt `{Handlers} (idt : Idt) : Idt * Z * Z :=
  let idt := setup_IDT_entry 0x20 irq00Handler idt in
  let idt := setup_IDT_entry 0x00 exception0Handler idt in
  let idt := setup_IDT_entry 0x06 exception6Handler idt in
  let idt := setup_IDT_entry 0x21 irq01Handler idt in
  let idt := setup_IDT_entry 0x80 irq80Handler idt in
  (idt, 0xFC, 0xFF).

(** The address that the processor takes from a descriptor. *)
Definition gate_address (d : DESCR_INT) : Z := offset_l d + 2 ^ 16 * offset_m d + 2 ^ 32 * offset_h d.

Lemma gate_roundtrip index offset idt :
  0 <= offset < 2 ^ 64 -> gate_address (setup_IDT_entry index offset idt index) = offset.
Proof.
  intros Ho. unfold setup_IDT_entry, fupd. rewrite Z.eqb_refl. unfold gate_address. cbn [offset_l offset_m offset_h].
  change 0xFFFF with (Z.ones 16). change 0xFFFFFFFF with (Z.ones 32).
  rewrite !Z.land_ones, !Z.shiftr_div_pow2 by lia. Z.to_euclidean_division_equations. lia.
Qed.

Lemma setup_other index offset idt i : i <> index -> setup_IDT_entry index offset idt i = idt i.
Proof. intros Hi. unfold setup_IDT_entry, fupd. by replace (i =? index) with false by lia. Qed.

(** ** Properties *)

(** The report of an exception, whatever the registers, stays inside the
    framebuffer and leaves the cursor on a cell; and the table of descriptors
    leads each of the five vectors that the kernel uses to its handler, with
    every other vector as it was. *)
Theorem exceptions_spec `{VBE} `{Handlers} (exception : Z) (registers : list Z) (v : Video) (idt : Idt) :
  mode_ok -> grid v ->
  Forall (fun a => 0 <= a < 2 ^ 64) [irq00Handler; irq01Handler; irq80Handler; exception0Handler; exception6Handler] ->
  let v' := exceptionDispatcher exception registers v in
  let idt' := (load_idt idt).1.1 in
  (grid v' /\ forall a, outside a -> fb v' a = fb v a) /\
  gate_address (idt' 0x20) = irq00Handler /\ gate_address (idt' 0x21) = irq01Handler /\
  gate_address (idt' 0x80) = irq80Handler /\ gate_address (idt' 0x00) = exception0Handler /\
  gate_address (idt' 0x06) = exception6Handler /\
  forall i, i ∉ [0x20; 0x21; 0x80; 0x00; 0x06] -> idt' i = idt i.
Proof.
  intros Hm Hg Ha v' idt'. split.
  - unfold v', exceptionDispatcher. cbv zeta.
    set (v1 := if exception =? ZERO_EXCEPTION_ID then _ else if exception =? INVALID_OPCODE_ID then _ else v).
    assert (S1 : safe v v1) by (unfold v1; repeat case_if; [by apply safe_error|by apply safe_error|by apply safe_refl]).
    eapply safe_trans; [exact S1|]. destruct S1 as [Hg1 _]. destruct (safe_newLine Hm v1 Hg1) as [Hg2 H2].
    eapply safe_trans; [split; [exact Hg2|exact H2]|]. apply safe_foldl; [|done]. intros w [nm x] Hw. by apply safe_printRegister.
  - repeat (apply list.Forall_cons in Ha as [? Ha]). unfold idt', load_idt. cbn [fst].
    split_and!; try (rewrite !setup_other by lia; by apply gate_roundtrip); [by apply gate_roundtrip|].
    intros i Hi. rewrite !setup_other; [done|set_solver..].
Qed.

Section Demo.
#[local] Instance demo_handlers : Handlers := Build_Handlers 0x101000 0x101100 0x101200 0x101300 0x101400.
#[local] Existing Instance vbe_1024x768.

Lemma exceptions_spec_witness :
  gate_address ((load_idt (fun _ => mkDescr 0 0 0 0 0 0 0)).1.1 0x80) = 0x101200.
Proof.
  assert (Ha : Forall (fun a => 0 <= a < 2 ^ 64)
    [irq00Handler; irq01Handler; irq80Handler; exception0Handler; exception6Handler]) by (repeat constructor; cbn; lia).
  exact (proj1 (proj2 (proj2 (proj2 (exceptions_spec 0 (replicate 18 5) (blank 1 0 0)
    (fun _ => mkDescr 0 0 0 0 0 0 0) mode_1024x768 blank_grid Ha))))).
Defined.
End Demo.
