(* ===== verification/Boot.v ===== *)
(** * Boot

    [Kernel/kernel.c]: the messages on the text console, the modules and the
    bss segment in memory, the heap, and the first process.  [Console] has the
    memory as bytes; the headers of the heap and the words of the stacks, which
    lie between the kernel and the modules, are in the state of their
    components. *)

From Stdlib Require Import String.
From S2P Require Import Prelude Process Sched Lib Semaphore Pipe Keyboard Memory FreeList Buddy BuddyRep BuddyOps BuddyProps Lifecycle PipeProps SemaphoreProps Kernel KernelInv KernelCreate KernelStep UserLib UserProg Console Modules ModulesProps Exceptions KernelProps ContextSwitch.
Local Open Scope Z_scope.

(** ** The heap *)

(** [mm_init], and the static data of the manager when it is called. *)
Class MemInit (M : Type) := {
  mm_init : Z -> Z -> M -> option M;
  mm_static : M
}.

(** It returns an empty heap with room for a block of less than half its
    size. *)
Class MemInitLaws (M : Type) `{MemManager M} `{MemInit M} := {
  mm_init_ok start len : 0 < start -> 64 <= len -> len mod 8 = 0 -> start + len + 64 < 2 ^ 64 ->
    exists m, mm_init start len mm_static = Some m /\ mm_inv m /\ mm_heap m = (start, len) /\ mm_live m = ∅ /\
      forall n, 0 < n <= 2 ^ 19 -> 2 * (n + 64) <= len -> mm_alloc n m <> Some (0, m)
}.

(** ** [kernel.c] *)

(** The symbols of [kernel.ld], and the name that the processor reports. *)
Class KernelImage := {
  text : Z;
  rodata : Z;
  data : Z;
  bss : Z;
  endOfKernelBinary : Z;
  endOfKernel : Z;
  cpuVendor : list Z
}.

Definition PageSize : Z := 0x1000.
Definition sampleCodeModuleAddress : Z := 0x400000.
Definition sampleDataModuleAddress : Z := 0x500000.

Definition clearBSS (bssAddress bssSize : Z) (s : Console) : Console := with_mem (memset bssAddress 0 bssSize) s.

(** A text, and a text and an address, with a new line behind them. *)
Definition print_line (l : list Z) (s : Console) : Console := ncNewline (ncPrint l s).

Definition print_address (l : list Z) (a : Z) (s : Console) : option Console :=
  s ← ncPrintHex a (ncPrint l s); Some (ncNewline s).

Section Boot.
Context `{KernelImage} `{Linkage} `{Handlers} {M : Type} `{Hmm : MemManagerLaws M} `{Hmi : !MemInit M}.

Definition getStackBase : Z := u64 (endOfKernel + PageSize).

Definition heapStart : Z := u64 (endOfKernel + PageSize * 8).
Definition heapSize : Z := u64 (sampleCodeModuleAddress - heapStart).

Definition initializeKernelBinary (m : M) (s : Console) : option (Z * M * Console) :=
  let s := print_line (lit "[x64BareBones]") s in
  let s := print_line cpuVendor (ncPrint (lit "CPU Vendor:") s) in
  let s := print_line (lit "[Loading modules]") s in
  s ← loadModules endOfKernelBinary [sampleCodeModuleAddress; sampleDataModuleAddress] s;
  let s := ncNewline (print_line (lit "[Done]") s) in
  let s := print_line (lit "[Initializing kernel's binary]") s in
  let s := clearBSS bss (u64 (endOfKernel - bss)) s in
  m ← mm_init heapStart heapSize m;
  s ← print_address (lit "  text: 0x") text s;
  s ← print_address (lit "  rodata: 0x") rodata s;
  s ← print_address (lit "  data: 0x") data s;
  s ← print_address (lit "  bss: 0x") bss s;
  let s := ncNewline (print_line (lit "[Done]") s) in
  Some (getStackBase, m, s).

(** Up to the loop of [_hlt]. *)
Definition main (k : Kernel M) (idt : Idt) (s : Console) : option (Kernel M * (Idt * Z * Z) * Console) :=
  let k := scheduler_init k in
  let s := print_line (lit "[Kernel Main]") s in
  s ← print_address (lit "  Sample code module at 0x") sampleCodeModuleAddress s;
  s ← print_address (lit "  Sample data module at 0x") sampleDataModuleAddress s;
  let idt := load_idt idt in
  '(_, k) ← scheduler_create sampleCodeModuleAddress (lit "shell") 3 1 0 0 k;
  Some (k, idt, s).

(** [loader.asm]: [main] runs on the stack that [initializeKernelBinary]
    returns. *)
Definition loader (k : Kernel M) (idt : Idt) (s : Console) : option (Z * Kernel M * (Idt * Z * Z) * Console) :=
  '(stack, m, s) ← initializeKernelBinary (k_mm k) s;
  '(k, idt, s) ← main (set_mm m k) idt s;
  Some (stack, k, idt, s).
End Boot.

(** ** Both managers *)

#[export] Instance FreeList_init : MemInit FreeList.MM := {
  mm_init start len m := Some (FreeList.mm_init start len m);
  mm_static := FreeList.mkMM 0 0 0 ∅
}.

#[export] Instance FreeList_init_laws : @MemInitLaws _ FreeList.FreeList_manager FreeList_init.
Proof.
  split. intros start len Hs Hl Hm Hw. eexists. split; [done|].
  pose proof (FreeList.mm_init_rep start len (FreeList.mkMM 0 0 0 ∅) Hs ltac:(FreeList.flia) Hm Hw) as Hrep.
  split; [by eapply FreeList.fl_inv_intro|]. split; [done|]. split.
  { change (FreeList.live (FreeList.mm_init start len (FreeList.mkMM 0 0 0 ∅)) = ∅). by rewrite (FreeList.live_rep _ _ Hrep). }
  intros n Hn Hroom E.
  destruct (FreeList.mm_alloc_live _ n (FreeList.fl_inv_intro _ _ Hrep I)) as (p & m' & E' & Hi & _ & Hc); [lia|lia|].
  change (FreeList.mm_alloc n (FreeList.mm_init start len (FreeList.mkMM 0 0 0 ∅)) = Some (0, FreeList.mm_init start len (FreeList.mkMM 0 0 0 ∅))) in E.
  rewrite E in E'. injection E' as <- <-. destruct Hc as [(_ & _ & Hsm)|(k & _ & Hlive & _)].
  - rewrite (FreeList.fr_blocks _ _ Hrep) in Hsm. apply list.Forall_cons in Hsm as [Hsm _]. specialize (Hsm eq_refl). cbn in Hsm.
    destruct (FreeList.align8_spec n); FreeList.flia.
  - destruct (FreeList.live_heap _ 0 k Hi) as (_ & H0 & _); [rewrite Hlive; apply lookup_insert_eq|].
    cbn in H0. FreeList.flia.
Qed.

#[export] Instance Buddy_init : MemInit BuddyLog := {
  mm_init start len m := m' ← Buddy.mm_init start len (bl_mm m); Some (mkBuddyLog m' ∅);
  mm_static := mkBuddyLog (Buddy.mkBM (replicate 16 0) 0 0 ∅) ∅
}.

#[export] Instance Buddy_init_laws : @MemInitLaws _ Buddy_manager Buddy_init.
Proof.
  split. intros start len Hs Hl Hm Hw.
  destruct (buddy_init_rep start len (Buddy.mkBM (replicate 16 0) 0 0 ∅)) as (m & B & E & Hr & Hc & E1 & E2 & Hfree & Hby & Hroom); [done|lia..|].
  assert (bd_inv m B) as Hi by (split; [done|by rewrite E1|lia]).
  exists (mkBuddyLog m ∅). cbn [mm_init mm_static Buddy_init bl_mm]. rewrite E. split_and!; try done.
  - exists B. split; [done|]. intros p k. cbn. rewrite lookup_empty. split; [done|]. intros (o & Ho & _). by apply Hfree in Ho.
  - cbn. by rewrite E1, E2.
  - intros n Hn Hlen Ea. cbn in Ea. unfold log_alloc in Ea. cbn in Ea.
    destruct (alloc_inv m B n Hi) as [[_ Hno]|(a & o & found & m' & Em & _ & _ & Ha & _)]; [lia|unfold Buddy.SIZEOF_HEADER; lia|..].
    + set (q := Z.max 5 (Z.log2_up (n + 8))). destruct (Z.log2_up_spec (n + 8) ltac:(lia)) as [Hlo Hhi].
      assert (Z.log2_up (n + 8) <= 20) by (apply Z.log2_up_le_pow2; lia). assert (0 < Z.log2_up (n + 8)) by (apply Z.log2_up_pos; lia).
      assert (n + 8 <= 2 ^ q) as Hq by (etrans; [exact Hhi|apply Z.pow_le_mono_r; lia]).
      assert (2 ^ q <= len) as Hq'.
      { unfold q. destruct (Z.max_spec 5 (Z.log2_up (n + 8))) as [[_ ->]|[_ ->]]; [|lia].
        replace (Z.log2_up (n + 8)) with (1 + Z.pred (Z.log2_up (n + 8))) by lia. rewrite Z.pow_add_r by lia. lia. }
      destruct (Hroom q) as (a & o & Hqo & Ha); [olia|done|]. apply Hno in Ha. unfold Buddy.SIZEOF_HEADER in Ha.
      pose proof (Z.pow_le_mono_r 2 q o). lia.
    + rewrite Em in Ea. cbn in Ea. injection Ea as Ea _. destruct (br_block _ _ Hr _ _ _ Ha) as [(_ & Hlo & _) _].
      unfold Buddy.SIZEOF_HEADER in Ea. lia.
Qed.

(** ** Messages *)

Lemma print_line_frame l s n : 2 * Z.of_nat (length l) + 160 <= n -> nc_frame n s (print_line l s).
Proof.
  intros Hn. apply (nc_frame_mono (2 * Z.of_nat (length l) + 160)); [done|].
  eapply nc_frame_trans; [by apply ncPrint_frame|apply ncNewline_frame].
Qed.

Lemma print_address_frame l a s n : 2 * Z.of_nat (length l) + 200 <= n -> 0 <= a < 2 ^ 64 ->
  exists s', print_address l a s = Some s' /\ nc_frame n s s'.
Proof.
  intros Hn Ha. unfold print_address, ncPrintHex. destruct (ncPrintBase_frame a 16 (ncPrint l s) Ha) as (s' & -> & F); [auto|].
  eexists. split; [done|]. apply (nc_frame_mono (2 * Z.of_nat (length l) + 40 + 160)); [lia|].
  eapply nc_frame_trans; [|apply ncNewline_frame]. eapply nc_frame_trans; [by apply ncPrint_frame|done].
Qed.

Section Spec.
Context `{KernelImage} `{Linkage} `{Handlers} {M : Type} `{Hmm : MemManagerLaws M} `{Hmi : !MemInit M} `{Hil : !MemInitLaws M}.

(** The image that the linker script lays out, with room for the heap below the
    modules, and a name of at most 12 characters. *)
Record image_ok : Prop := {
  im_sections : Forall (fun a => 0 <= a < 2 ^ 64) [text; rodata; data];
  im_binary : 0x100000 <= endOfKernelBinary <= bss;
  im_bss : bss <= endOfKernel;
  im_page : endOfKernel mod PageSize = 0;
  im_end : endOfKernel <= 0x3F0000;
  im_idle : idle_stack < endOfKernel;
  im_vendor : (length cpuVendor <= 12)%nat
}.

(** The first messages, the last messages of [initializeKernelBinary] and those
    of [main]. *)
Lemma messages_before s : (length cpuVendor <= 12)%nat ->
  nc_frame 588 s (print_line (lit "[Loading modules]") (print_line cpuVendor (ncPrint (lit "CPU Vendor:") (print_line (lit "[x64BareBones]") s)))).
Proof.
  intros Hv. apply (nc_frame_mono (188 + 22 + 184 + 194)); [lia|].
  eapply nc_frame_trans; [|apply print_line_frame; cbn; lia]. eapply nc_frame_trans; [|apply print_line_frame; lia].
  eapply nc_frame_trans; [|apply ncPrint_frame; cbn; lia]. apply print_line_frame; cbn; lia.
Qed.

Lemma messages_after s :
  nc_frame 552 s (print_line (lit "[Initializing kernel's binary]") (ncNewline (print_line (lit "[Done]") s))).
Proof.
  apply (nc_frame_mono (172 + 160 + 220)); [lia|]. eapply nc_frame_trans; [|apply print_line_frame; cbn; lia].
  eapply nc_frame_trans; [|apply ncNewline_frame]. apply print_line_frame; cbn; lia.
Qed.

(** The addresses of the sections. *)
Lemma messages_sections s : image_ok ->
  exists s', (s ← print_address (lit "  text: 0x") text s;
              s ← print_address (lit "  rodata: 0x") rodata s;
              s ← print_address (lit "  data: 0x") data s;
              print_address (lit "  bss: 0x") bss s) = Some s' /\ nc_frame 882 s s'.
Proof.
  intros [Hs Hb Hbss _ He _ _]. repeat (apply list.Forall_cons in Hs as [? Hs]).
  destruct (print_address_frame (lit "  text: 0x") text s 220) as (s1 & -> & F1); [cbn; lia|done|]. cbn [mbind option_bind].
  destruct (print_address_frame (lit "  rodata: 0x") rodata s1 224) as (s2 & -> & F2); [cbn; lia|done|]. cbn [mbind option_bind].
  destruct (print_address_frame (lit "  data: 0x") data s2 220) as (s3 & -> & F3); [cbn; lia|done|]. cbn [mbind option_bind].
  destruct (print_address_frame (lit "  bss: 0x") bss s3 218) as (s4 & -> & F4); [cbn; lia|lia|].
  exists s4. split; [done|]. change 882 with (220 + 224 + 220 + 218). by repeat (eapply nc_frame_trans; [|done]).
Qed.

Lemma messages_main s :
  exists s', (s ← print_address (lit "  Sample code module at 0x") sampleCodeModuleAddress (print_line (lit "[Kernel Main]") s);
              print_address (lit "  Sample data module at 0x") sampleDataModuleAddress s) = Some s' /\ nc_frame 690 s s'.
Proof.
  destruct (print_address_frame (lit "  Sample code module at 0x") sampleCodeModuleAddress (print_line (lit "[Kernel Main]") s) 252) as (s1 & -> & F1);
    [cbn; lia|done|]. cbn [mbind option_bind].
  destruct (print_address_frame (lit "  Sample data module at 0x") sampleDataModuleAddress s1 252) as (s2 & -> & F2); [cbn; lia|done|].
  exists s2. split; [done|]. change 690 with (186 + 252 + 252). eapply nc_frame_trans; [|done]. eapply nc_frame_trans; [|done].
  apply print_line_frame. cbn. lia.
Qed.

(** The modules in memory behind the kernel, as the packer leaves them. *)
Record payload_ok (code dat : list Z) (s : Console) : Prop := {
  pl_bytes : byte_mem s;
  pl_cursor : currentVideo s = video;
  pl_code : size code <= 0x100000;
  pl_data : size dat < 2 ^ 32;
  pl_end : endOfKernelBinary + size (payload [code; dat]) <= 0x400000;
  pl_mem : holds_at (nc_mem s) endOfKernelBinary (payload [code; dat])
}.

(** The bytes that boot leaves alone: all but the screen, the bss segment and
    the places of the modules. *)
Definition untouched (code dat : list Z) (x : Z) : Prop :=
  away x 1 video 4000 /\ away x 1 bss (endOfKernel - bss) /\
  away x 1 sampleCodeModuleAddress (size code) /\ away x 1 sampleDataModuleAddress (size dat).

Lemma clearBSS_spec n s x : 0 <= n ->
  nc_mem (clearBSS bss n s) x = if (bss <=? x) && (x <? bss + n) then 0 else nc_mem s x.
Proof. intros Hn. unfold clearBSS, with_mem, memset. cbn [nc_mem]. rewrite memset_loop_spec, Z2Nat.id by done. done. Qed.

Lemma load_modules_boot code dat s s1 : image_ok -> payload_ok code dat s -> nc_frame 588 s s1 ->
  exists s2, loadModules endOfKernelBinary [sampleCodeModuleAddress; sampleDataModuleAddress] s1 = Some s2 /\ byte_mem s2 /\
    video <= currentVideo s2 <= video + 1388 /\
    holds_at (nc_mem s2) sampleCodeModuleAddress code /\ holds_at (nc_mem s2) sampleDataModuleAddress dat /\
    (forall x, untouched code dat x -> nc_mem s2 x = nc_mem s x).
Proof.
  intros [_ Hbin Hbss _ Hend _ _] [Hb Hcv Hc Hd He Hm] (C1 & M1 & B1). rewrite Hcv in *.
  assert (0 <= size code /\ 0 <= size dat) as [Hc0 Hd0] by (unfold size; lia).
  assert (0 <= size (payload [code; dat])) as Hp0 by (unfold size; lia). unfold sampleCodeModuleAddress, sampleDataModuleAddress, untouched, away in *.
  destruct (loadModules_spec [code; dat] endOfKernelBinary [0x400000; 0x500000] s1) as (s2 & E & Hb2 & Hc2 & Hd2 & Hm2).
  - repeat constructor; lia.
  - done.
  - exact (B1 Hb).
  - lia.
  - lia.
  - unfold away, MESSAGE, video in *. cbn [length]. lia.
  - repeat constructor; unfold away, MESSAGE, video in *; cbn [length]; lia.
  - repeat constructor; unfold away; lia.
  - eapply image_frame; [exact Hm|]. intros x Hx. apply M1. unfold video. lia.
  - exists s2. unfold MESSAGE in *. cbn [length] in *. inversion Hd2 as [|? ? ? ? H1' H2']; subst. inversion H2'; subst.
    split_and!; try done; try lia. intros x (Hx1 & Hx2 & Hx3 & Hx4). rewrite Hm2, M1; [done|lia| |unfold away; lia].
    unfold sampleCodeModuleAddress, sampleDataModuleAddress in *. repeat (apply list.Forall2_cons; split; [unfold away; lia|]). constructor.
Qed.

Lemma heap_place : image_ok -> getStackBase = endOfKernel + 0x1000 /\ heapStart = endOfKernel + 0x8000 /\ heapSize = 0x3F8000 - endOfKernel /\
  heapSize mod 8 = 0 /\ 0x100000 <= endOfKernel <= 0x3F0000.
Proof.
  intros [_ Hbin Hbss Hp Hend _ _]. unfold getStackBase, heapSize, heapStart, PageSize, sampleCodeModuleAddress in *.
  rewrite !u64_small by (rewrite ?u64_small; lia). split_and!; try lia. Z.to_euclidean_division_equations. lia.
Qed.

Lemma initialize_spec code dat s : image_ok -> payload_ok code dat s ->
  exists m s', initializeKernelBinary mm_static s = Some (endOfKernel + 0x1000, m, s') /\
    mm_inv m /\ mm_heap m = (heapStart, heapSize) /\ mm_live m = ∅ /\ mm_alloc STACK_SIZE m <> Some (0, m) /\
    byte_mem s' /\ video <= currentVideo s' <= video + 3154 /\
    holds_at (nc_mem s') sampleCodeModuleAddress code /\ holds_at (nc_mem s') sampleDataModuleAddress dat /\
    (forall x, bss <= x < endOfKernel -> nc_mem s' x = 0) /\ (forall x, untouched code dat x -> nc_mem s' x = nc_mem s x).
Proof.
  intros Hi Hp. destruct (heap_place Hi) as (Est & Ehs & Ehl & H8 & Hek). pose proof Hi as [_ Hbin Hbss _ Hend _ Hv].
  unfold initializeKernelBinary. cbv zeta. pose proof (messages_before s Hv) as F1. revert F1. generalize (print_line (lit "[Loading modules]") (print_line cpuVendor (ncPrint (lit "CPU Vendor:") (print_line (lit "[x64BareBones]") s)))).
  intros s1 F1.
  destruct (load_modules_boot code dat s s1 Hi Hp F1) as (s2 & -> & Hb2 & Hc2 & Hcode & Hdat & Hm2). cbn [mbind option_bind].
  pose proof (messages_after s2) as F3. revert F3.
  generalize (print_line (lit "[Initializing kernel's binary]") (ncNewline (print_line (lit "[Done]") s2))). intros s3 (C3 & M3 & B3).
  rewrite (u64_small (endOfKernel - bss)) by lia. pose proof (clearBSS_spec (endOfKernel - bss) s3) as M4.
  set (s4 := clearBSS bss (endOfKernel - bss) s3) in *. change (currentVideo s3) with (currentVideo s4) in C3.
  destruct (mm_init_ok heapStart heapSize) as (m & -> & Hinv & Hh & Hl & Hroom); [lia..|]. cbn [mbind option_bind].
  destruct (messages_sections s4 Hi) as (s5 & E5 & C5 & M5 & B5).
  destruct (print_address (lit "  text: 0x") text s4) as [u1|]; [|done]. cbn [mbind option_bind] in E5 |- *.
  destruct (print_address (lit "  rodata: 0x") rodata u1) as [u2|]; [|done]. cbn [mbind option_bind] in E5 |- *.
  destruct (print_address (lit "  data: 0x") data u2) as [u3|]; [|done]. cbn [mbind option_bind] in E5 |- *. rewrite E5. cbn [mbind option_bind].
  assert (nc_frame (172 + 160) s5 (ncNewline (print_line (lit "[Done]") s5))) as F6
    by (eapply nc_frame_trans; [apply (print_line_frame (lit "[Done]")); cbn; lia|apply ncNewline_frame]).
  revert F6. generalize (ncNewline (print_line (lit "[Done]") s5)). intros s6 (C6 & M6 & B6).
  assert (forall x, away x 1 video 4000 -> nc_mem s6 x = if (bss <=? x) && (x <? bss + (endOfKernel - bss)) then 0 else nc_mem s2 x) as Hmem.
  { intros x Hx. unfold away in Hx. rewrite M6, M5, M4, M3; [done|lia..]. }
  assert (0 <= size code /\ 0 <= size dat) as [Hc0 Hd0] by (unfold size; lia).
  exists m, s6. rewrite Est. split_and!; try done; try lia.
  - apply Hroom; unfold STACK_SIZE; lia.
  - refine (B6 (B5 _)). intros x. rewrite M4 by lia. case_if; [done|]. by apply B3.
  - eapply image_frame; [exact Hcode|]. intros x Hx. unfold sampleCodeModuleAddress in Hx. rewrite Hmem by (unfold away, video; lia).
    by replace (_ && _) with false by lia.
  - eapply image_frame; [exact Hdat|]. intros x Hx. unfold sampleDataModuleAddress in Hx. rewrite Hmem by (unfold away, video; lia).
    by replace (_ && _) with false by lia.
  - intros x Hx. rewrite Hmem by (unfold away, video; lia). by replace (_ && _) with true by lia.
  - intros x Hx. rewrite <- (Hm2 x Hx). destruct Hx as (Hx1 & Hx2 & _). rewrite Hmem by done. unfold away in Hx2.
    by replace (_ && _) with false by lia.
Qed.

(** The static data of the kernel, with the bss segment cleared. *)
Record statics_ok (k : Kernel M) : Prop := {
  st_queues : length (ready_queues (k_sched k)) = 5%nat;
  st_next : next_pid (k_sched k) = 1;
  st_sems : sem_table (sems k) = replicate 64 zero_sem;
  st_kbd : kbd_wf (k_kbd k);
  st_mm : k_mm k = mm_static
}.

Lemma init_mm (k : Kernel M) : k_mm (scheduler_init k) = k_mm k.
Proof. unfold scheduler_init. by destruct (setup_initial_stack _ _ _ _ _). Qed.

Lemma init_next (k : Kernel M) :
  length (ready_queues (k_sched k)) = 5%nat -> next_pid (k_sched (scheduler_init k)) = next_pid (k_sched k).
Proof. intros Hq. rewrite (init_sched k Hq). reflexivity. Qed.

Lemma shell_name_kept : take 31 (cstr (lit "shell")) = lit "shell".
Proof. vm_compute. reflexivity. Qed.

Lemma statics_before k m : image_ok -> statics_ok k -> mm_inv m -> mm_heap m = (heapStart, heapSize) -> before_init (set_mm m k).
Proof.
  intros Hi [Hq Hn Hs Hk _] Hm Hh. destruct (heap_place Hi) as (_ & Ehs & Ehl & _ & Hek). pose proof (im_idle Hi) as Hidle.
  split; try done; [change (0 < next_pid (k_sched k)); lia|]. change (k_mm (set_mm m k)) with m. rewrite Hh. cbn. split; [lia|left; lia].
Qed.

(** The scheduler starts, and has a free entry and memory for the shell. *)
Lemma main_spec k m idt s : image_ok -> statics_ok k -> mm_inv m -> mm_heap m = (heapStart, heapSize) -> mm_alloc STACK_SIZE m <> Some (0, m) ->
  exists i k' s', main (set_mm m k) idt s = Some (k', load_idt idt, s') /\ kernel_inv k' /\ nc_frame 690 s s' /\
    created sampleCodeModuleAddress (lit "shell") 3 1 0 0 (scheduler_init (set_mm m k)) i k'.
Proof.
  intros Hi Hst Hm Hh Hroom. pose proof (statics_before k m Hi Hst Hm Hh) as Hb. pose proof (st_queues _ Hst) as Hq.
  pose proof (init_inv _ Hb) as Hinv. pose proof (init_sched (set_mm m k) Hq) as Es.
  assert (Hp : forall i, 0 <= i < MAX_PROCESSES -> _) by (intros i; exact (init_procs (set_mm m k) i Hq)). unfold k_proc in Hp.
  assert (k_mm (scheduler_init (set_mm m k)) = m) as Em by apply init_mm.
  unfold main. cbv zeta. revert Hinv Es Hp Em. generalize (scheduler_init (set_mm m k)). intros k1 Hinv Es Hp Em.
  assert (current_idx (k_sched k1) = 0) as Ec by (by rewrite Es).
  destruct (messages_main s) as (s2 & E2 & F2).
  destruct (print_address (lit "  Sample code module at 0x") sampleCodeModuleAddress _) as [u1|]; [|done].
  cbn [mbind option_bind] in E2 |- *. rewrite E2. cbn [mbind option_bind].
  destruct (create_run sampleCodeModuleAddress (lit "shell") 3 1 0 0 k1 Hinv) as [[_ [Hfull|Hno]]|(i & k' & E & Hk' & Hcr)].
  - unfold live. rewrite Ec, (Hp 0) by slia. discriminate.
  - destruct (Hfull 1 ltac:(slia)). rewrite (Hp 1) by slia. reflexivity.
  - by rewrite Em in Hno.
  - rewrite E. cbn [mbind option_bind]. by exists i, k', s2.
Qed.

Lemma loader_run (k k' : Kernel M) idt idt' s s1 s2 stack m :
  initializeKernelBinary (k_mm k) s = Some (stack, m, s1) -> main (set_mm m k) idt s1 = Some (k', idt', s2) ->
  loader k idt s = Some (stack, k', idt', s2).
Proof. intros E1 E2. apply bind_Some. exists (stack, m, s1). split; [exact E1|]. apply bind_Some. exists (k', idt', s2). split; [exact E2|reflexivity]. Qed.

(** C4: Boot.  With the image of the kernel laid out by the linker and the modules
    packed behind it, the loader returns: each module is at its address, the
    bss segment is zero, the messages stay on the screen and no other byte has
    changed; the heap lies between the stack of the kernel and the modules; the
    interrupt table is loaded; the kernel invariant holds, and the process with
    pid 1 is the shell, READY in the foreground, whose first context starts at
    the code module; the stack of the kernel is apart from the heap, so that
    [main] and the shell have registers of their own. *)
Theorem boot_spec (code dat : list Z) (k : Kernel M) (idt : Idt) (s : Console) :
  image_ok -> statics_ok k -> payload_ok code dat s ->
  exists i k' s', loader k idt s = Some (endOfKernel + 0x1000, k', load_idt idt, s') /\
    holds_at (nc_mem s') sampleCodeModuleAddress code /\ holds_at (nc_mem s') sampleDataModuleAddress dat /\
    (forall x, bss <= x < endOfKernel -> nc_mem s' x = 0) /\ (forall x, untouched code dat x -> nc_mem s' x = nc_mem s x) /\
    video <= currentVideo s' <= video + 2 * width * height /\
    (exists start len, mm_heap (k_mm k') = (start, len) /\ endOfKernel + 0x1000 <= start /\ start + len = sampleCodeModuleAddress) /\
    kernel_inv k' /\ slot i /\ pid (k_proc k' i) = 1 /\ state (k_proc k' i) = PROCESS_READY /\ foreground (k_proc k' i) = 1 /\
    cstr (name (k_proc k' i)) = lit "shell" /\
    load_context (rsp (k_proc k' i)) (k_words k') = start_context (stack_base (k_proc k' i)) sampleCodeModuleAddress 0 0 /\
    forall c, room endOfKernel (c_rsp c) -> exists ctx, ctx i = start_context (stack_base (k_proc k' i)) sampleCodeModuleAddress 0 0 /\
      contexts endOfKernel ctx c k'.
Proof.
  intros Hi Hk Hp. destruct (initialize_spec code dat s Hi Hp) as (m & s1 & E1 & Hm & Hh & _ & Hroom & Hb1 & Hc1 & Hcode & Hdat & Hz & Hun).
  destruct (main_spec k m idt s1 Hi Hk Hm Hh Hroom) as (i & k' & s2 & E2 & Hk' & (C2 & M2 & B2) & Hcr).
  destruct (heap_place Hi) as (_ & Ehs & Ehl & _ & Hek). pose proof (im_binary Hi). pose proof (im_bss Hi).
  assert (forall x, away x 1 video 4000 -> nc_mem s2 x = nc_mem s1 x) as Hs2 by (unfold away; intros x Hx; apply M2; lia).
  rewrite <- (st_mm _ Hk) in E1. exists i, k', s2.
  assert (mm_heap (k_mm k') = (heapStart, heapSize)) as Hheap.
  { rewrite (cr_heap _ _ _ _ _ _ _ _ _ Hcr), <- Hh. by rewrite init_mm. }
  assert (next_pid (k_sched (scheduler_init (set_mm m k))) = 1) as Hpid by (rewrite init_next; [exact (st_next _ Hk)|exact (st_queues _ Hk)]).
  split; [exact (loader_run _ _ _ _ _ _ _ _ _ E1 E2)|]. split; [|split; [|split; [|split; [|split; [|split; [|split; [exact Hk'|]]]]]]].
  - eapply image_frame; [exact Hcode|]. intros x Hx. apply Hs2. unfold sampleCodeModuleAddress in Hx. unfold away, video. lia.
  - eapply image_frame; [exact Hdat|]. intros x Hx. apply Hs2. unfold sampleDataModuleAddress in Hx. unfold away, video. lia.
  - intros x Hx. rewrite Hs2; [by apply Hz|]. unfold away, video. lia.
  - intros x Hx. rewrite Hs2; [by apply Hun|]. apply Hx.
  - unfold width, height. lia.
  - exists heapStart, heapSize. split; [exact Hheap|]. unfold sampleCodeModuleAddress. lia.
  - assert (forall c, room endOfKernel (c_rsp c) -> exists ctx, ctx i = start_context (stack_base (k_proc k' i)) sampleCodeModuleAddress 0 0 /\
      contexts endOfKernel ctx c k') as Hctxs.
    { intros c Hc. eexists (fupd (fun _ => c) i _). split; [unfold fupd; rewrite Z.eqb_refl; reflexivity|].
      rewrite <- (base_slot endOfKernel k' i) by apply Hcr. eapply contexts_created; [|exact Hk'|exact Hcr].
      apply contexts_init; [by apply statics_before|change (k_mm (set_mm m k)) with m; rewrite Hh; cbn; unfold STACK_SIZE; lia|exact Hc]. }
    destruct Hcr as [Hsl _ Hp1 _ _ Hst _ Hfg Hnm _ Hctx _ _ _ _ _ _ _]. rewrite Hp1, Hpid, Hnm, shell_name_kept. exact (conj Hsl (conj eq_refl (conj Hst (conj Hfg (conj eq_refl (conj Hctx Hctxs)))))).
Qed.
End Spec.

(** ** A concrete boot *)

#[local] Existing Instances demo_linkage demo_handlers FreeList.FreeList_manager FreeList.FreeList_laws.

#[local] Instance demo_image : KernelImage := {|
  text := 0x100000; rodata := 0x108000; data := 0x10C000; endOfKernelBinary := 0x10D340;
  bss := 0x10E000; endOfKernel := 0x130000; cpuVendor := lit "GenuineIntel" |}.

Definition demo_memory : Lib.bytes := fun x => if 0x10D340 <=? x then default 0 (payload [[10; 11; 12]; [20; 21]] !! Z.to_nat (x - 0x10D340)) else 0.

Definition demo_console : Console := mkConsole demo_memory video.

Definition cold_kernel : Kernel FreeList.MM := mkKernel (pipe_boot (sem_boot static_sched)) kbd_boot mm_static ∅ 0 0.

Lemma demo_payload : payload_ok [10; 11; 12] [20; 21] demo_console.
Proof.
  split; [|reflexivity|vm_compute; discriminate|vm_compute; reflexivity|vm_compute; discriminate|].
  - intros x. unfold demo_console, demo_memory. cbn [nc_mem]. case_if; [|done].
    assert (Forall is_byte (payload [[10; 11; 12]; [20; 21]])) as HF by (repeat constructor; vm_compute; congruence).
    destruct (payload _ !! _) as [c|] eqn:E; [|done]. by eapply list.Forall_lookup in HF.
  - intros i c Hi. unfold demo_console, demo_memory, endOfKernelBinary, demo_image. cbn [nc_mem].
    replace (0x10D340 <=? 0x10D340 + Z.of_nat i) with true by lia. replace (0x10D340 + Z.of_nat i - 0x10D340) with (Z.of_nat i) by lia.
    by rewrite Nat2Z.id, Hi.
Qed.

Lemma boot_spec_witness :
  exists i k' s', loader cold_kernel (fun _ => mkDescr 0 0 0 0 0 0 0) demo_console =
      Some (0x131000, k', load_idt (fun _ => mkDescr 0 0 0 0 0 0 0), s') /\
    holds_at (nc_mem s') sampleCodeModuleAddress [10; 11; 12] /\ kernel_inv k' /\ pid (k_proc k' i) = 1.
Proof.
  destruct (boot_spec [10; 11; 12] [20; 21] cold_kernel (fun _ => mkDescr 0 0 0 0 0 0 0) demo_console) as
    (i & k' & s' & E & Hc & _ & _ & _ & _ & _ & Hk & _ & Hp & _).
  - split; [repeat constructor|split|..]; vm_compute; congruence || lia.
  - split; [reflexivity|reflexivity|reflexivity|exact kbd_boot_wf|reflexivity].
  - exact demo_payload.
  - exists i, k', s'. exact (conj E (conj Hc (conj Hk Hp))).
Defined.
