(* ===== verification/Bmfs.v ===== *)
(** * The disk image utility

    [Bootloader/BMFS/bmfs.c]: the tool of the build that keeps a BareMetal file
    system in a disk image.  The image has a tag at 1 KiB, a directory of 64
    entries of 64 bytes at 4 KiB, and the data of the files in blocks of 2 MiB.

    A stream is its contents and its position.  [None] is a run that C leaves
    undefined: a NULL name handed to [strcmp], a copy past the end of the
    directory, the overflow of an [int] counter.  Files of the host other than
    the image are a map from names to contents. *)

From Stdlib Require Import String.
From S2P Require Import Prelude Lib UserProg.
Local Open Scope Z_scope.

(** ** Streams *)

Record FILE := mkFILE { f_size : Z; f_data : Z -> Z; f_pos : Z; f_err : bool }.

(** [fopen(name, "wb")] *)
Definition empty_file : FILE := mkFILE 0 (fun _ => 0) 0 false.

(** [fseek(f, off, SEEK_SET)] *)
Definition fseek (off : Z) (f : FILE) : FILE := mkFILE (f_size f) (f_data f) off (f_err f).

(** The [n] bytes from the position, or those before the end of the file. *)
Definition file_bytes (f : FILE) (off n : Z) : list Z :=
  f_data f <$> seqZ off (Z.min n (f_size f - off)).

(** [fread] into an array: what the file does not have is left as it is. *)
Definition fread (n : Z) (buf : list Z) (f : FILE) : list Z * FILE :=
  let got := file_bytes f (f_pos f) n in
  (got ++ drop (length got) buf, fseek (f_pos f + Z.of_nat (length got)) f).

(** [fwrite]: a gap behind the end of the file reads as zeros. *)
Definition fwrite (bs : list Z) (f : FILE) : FILE :=
  let n := Z.of_nat (length bs) in
  mkFILE (Z.max (f_size f) (f_pos f + n))
    (fun i => if (f_pos f <=? i) && (i <? f_pos f + n) then bs.[i - f_pos f]
              else if i <? f_size f then f_data f i else 0)
    (f_pos f + n) (f_err f).

Definition EOF : Z := -1.

Definition getc (f : FILE) : Z * FILE :=
  if f_pos f <? f_size f then (f_data f (f_pos f), fseek (f_pos f + 1) f) else (EOF, f).

Definition putc (c : Z) (f : FILE) : FILE := fwrite [u8 c] f.

(** ** Directory entries

    [struct BMFSEntry] in memory: the name in bytes 0 to 31, then three 64-bit
    numbers, least significant byte first. *)

Fixpoint le_bytes (n : nat) (v : Z) : list Z :=
  match n with O => [] | S n => u8 v :: le_bytes n (v / 2 ^ 8) end.

Fixpoint le_val (l : list Z) : Z :=
  match l with [] => 0 | b :: l => b + 2 ^ 8 * le_val l end.

Definition field (off : nat) (e : list Z) : Z := le_val (take 8 (drop off e)).

Definition FileName (e : list Z) : list Z := cstr e.

Definition StartingBlock : list Z -> Z := field 32.

Definition ReservedBlocks : list Z -> Z := field 40.

Definition FileSize : list Z -> Z := field 48.

(** [Directory + tint * 64] *)
Definition entry_at (dir : list Z) (tint : Z) : list Z := take 64 (drop (Z.to_nat (tint * 64)) dir).

(** A copy of [bs] into an array at [off]; [None] past its end. *)
Definition blit (off : Z) (bs l : list Z) : option (list Z) :=
  let k := Z.to_nat off in
  if (length l <? k + length bs)%nat then None
  else Some (take k l ++ bs ++ drop (k + length bs) l).

(** ** Output *)

(** The calls of [printf] with their arguments. *)
Inductive Msg :=
  | Usage | UsageInitialize | CannotOpenDisk | NotBMFS | FormatAborted | NoFileName | InvalidSize
  | AskSize | UnknownCommand
  | ListHeader (disksize : Z) | ListEntry (name : list Z) (size reserved : Z)
  | FormatComplete | Creating | NoFreeEntries | CannotCreate (maxsize : Z) | Complete | FileExists
  | NotFound | NotCreated | Reading (name : list Z) | Writing (name : list Z) | Deleting (name : list Z)
  | CannotOpenLocal (name : list Z) | NotEnoughRoom
  | SizeTooLarge | SizeNotNumeric | SizeInvalid (size : list Z) | SizeTooSmall (bytes mib : Z)
  | CannotOpenMBR (name : list Z) | CannotOpenBoot (system : bool) (name : list Z)
  | CannotOpenKernel (name : list Z) | NoBuffer
  | Formatting (writeSize diskSize : Z) | Formatted (writeSize diskSize : Z)
  | WritingMBR | WritingBoot (system : bool) | WritingKernel
  | WriteFailed | ReadFailed (name : list Z) | InitComplete.

(** ** State *)

(** The global variables, the files of the host and the output so far. *)
Record BMFS := mkBMFS {
  disk : FILE;
  disksize : Z;
  DiskInfo : list Z;
  Directory : list Z;
  local : gmap (list Z) (list Z);
  out : list Msg
}.

Definition say (m : Msg) (s : BMFS) : BMFS :=
  mkBMFS (disk s) (disksize s) (DiskInfo s) (Directory s) (local s) (out s ++ [m]).

Definition set_disk (f : FILE) (s : BMFS) : BMFS :=
  mkBMFS f (disksize s) (DiskInfo s) (Directory s) (local s) (out s).

Definition set_Directory (d : list Z) (s : BMFS) : BMFS :=
  mkBMFS (disk s) (disksize s) (DiskInfo s) d (local s) (out s).

Definition set_DiskInfo (d : list Z) (s : BMFS) : BMFS :=
  mkBMFS (disk s) (disksize s) d (Directory s) (local s) (out s).

Definition set_local (l : gmap (list Z) (list Z)) (s : BMFS) : BMFS :=
  mkBMFS (disk s) (disksize s) (DiskInfo s) (Directory s) l (out s).

(** [fseek(disk, 4096, SEEK_SET); fwrite(Directory, 4096, 1, disk);] *)
Definition flush_directory (s : BMFS) : BMFS :=
  set_disk (fwrite (Directory s) (fseek 4096 (disk s))) s.

(** ** Searching, listing, formatting *)

(** The entry and its number; the outer [None] is [strcmp(NULL, ...)]. *)
Fixpoint findfile_loop (n : nat) (tint : Z) (filename : option (list Z)) (dir : list Z) :
    option (option (list Z * Z)) :=
  match n with
  | O => Some None
  | S n =>
      let entry := entry_at dir tint in
      if entry.[0] =? 0 then Some None
      else if entry.[0] =? 1 then findfile_loop n (tint + 1) filename dir
      else
        filename' ← filename;
        if bool_decide (cstr filename' = FileName entry) then Some (Some (entry, tint))
        else findfile_loop n (tint + 1) filename dir
  end.

Definition findfile (filename : option (list Z)) (s : BMFS) : option (option (list Z * Z)) :=
  findfile_loop 64 0 filename (Directory s).

Fixpoint list_loop (n : nat) (tint : Z) (s : BMFS) : BMFS :=
  match n with
  | O => s
  | S n =>
      let entry := entry_at (Directory s) tint in
      if entry.[0] =? 0 then s
      else if entry.[0] =? 1 then list_loop n (tint + 1) s
      else list_loop n (tint + 1)
             (say (ListEntry (FileName entry) (FileSize entry) (u64 (ReservedBlocks entry * 2))) s)
  end.

(** [list()] *)
Definition list_files (s : BMFS) : BMFS := list_loop 64 0 (say (ListHeader (disksize s)) s).

Definition fs_tag : list Z := lit "BMFS".

Definition format (s : BMFS) : BMFS :=
  let s := set_DiskInfo (fs_tag ++ replicate 508 0) s in
  let s := set_Directory (replicate 4096 0) s in
  let s := set_disk (fwrite (DiskInfo s) (fseek 1024 (disk s))) s in
  say FormatComplete (flush_directory s).

(** ** Creating a file *)

(** [qsort] calls it with two entries. *)
Definition StartingBlockCmp (ea eb : list Z) : Z :=
  if ea.[0] =? 1 then 1
  else if eb.[0] =? 1 then -1
  else i32 (u64 (StartingBlock ea - StartingBlock eb)).

(** The first loop: [num_used_entries] and [first_free_entry].  A directory
    without an end marker leaves [num_used_entries] 0. *)
Fixpoint count_entries (n : nat) (tint first_free_entry : Z) (dir : list Z) : Z * Z :=
  match n with
  | O => (0, first_free_entry)
  | S n =>
      let b := (entry_at dir tint).[0] in
      let free := if first_free_entry =? -1 then tint else first_free_entry in
      if b =? 0 then (tint, free)
      else count_entries n (tint + 1) (if b =? 1 then free else first_free_entry) dir
  end.

(** The second loop, over the [num_used_entries] sorted entries and one round
    more: the start of the new file, 0 when it fits nowhere.  [last] is the
    index of the last block. *)
Fixpoint gap_loop (entries : list (list Z)) (last blocks_requested prev_file_end : Z) : Z :=
  match entries with
  | [] => if u64 (last - prev_file_end) >=? blocks_requested then prev_file_end else 0
  | e :: entries =>
      let this_file_start := if e.[0] =? 1 then last else StartingBlock e in
      if u64 (this_file_start - prev_file_end) >=? blocks_requested then prev_file_end
      else gap_loop entries last blocks_requested (u64 (StartingBlock e + ReservedBlocks e))
  end.

(** The new record: the three numbers, then [strcpy] of the name. *)
Definition add_entry (slot start blocks : Z) (filename : list Z) (dir : list Z) : option (list Z) :=
  dir ← blit (slot * 64 + 32) (le_bytes 8 start) dir;
  dir ← blit (slot * 64 + 40) (le_bytes 8 blocks) dir;
  dir ← blit (slot * 64 + 48) (le_bytes 8 0) dir;
  blit (slot * 64) (cstr filename ++ [0]) dir.

Section Create.
(** [qsort] of the C library, which gets the comparison and the records. *)
Context (qsort : (list Z -> list Z -> Z) -> list (list Z) -> list (list Z)).

Definition create (filename : list Z) (maxsize : Z) (s : BMFS) : option BMFS :=
  let maxsize := if negb (maxsize mod 2 =? 0) then u64 (maxsize + 1) else maxsize in
  found ← findfile (Some filename) s;
  match found with
  | Some _ => Some (say FileExists s)
  | None =>
      let blocks_requested := maxsize / 2 in
      let num_blocks := disksize s / 2 in
      let s := say Creating s in
      let '(num_used_entries, first_free_entry) := count_entries 64 0 (-1) (Directory s) in
      if first_free_entry =? -1 then Some (say NoFreeEntries s)
      else
        let dir_copy := qsort StartingBlockCmp (entry_at (Directory s) <$> seqZ 0 num_used_entries) in
        let new_file_start := gap_loop dir_copy (u64 (num_blocks - 1)) blocks_requested 1 in
        if new_file_start =? 0 then Some (say (CannotCreate maxsize) s)
        else
          dir ← add_entry first_free_entry new_file_start blocks_requested filename (Directory s);
          dir ← (if (first_free_entry =? num_used_entries) && (num_used_entries + 1 <? 64)
                 then blit ((num_used_entries + 1) * 64) [0] dir else Some dir);
          Some (say Complete (flush_directory (set_Directory dir s)))
  end.
End Create.

(** ** Reading, writing, deleting *)

Definition BLOCK : Z := 2097152.

(** [for (tint = 0; tint < n; tint++) putc(getc(disk), tfile);] *)
Fixpoint copy_out (n : nat) (f : FILE) (tfile : list Z) : FILE * list Z :=
  match n with
  | O => (f, tfile)
  | S n => let '(c, f) := getc f in copy_out n f (tfile ++ [u8 c])
  end.

(** [for (tint = 0; tint < n; tint++) putc(getc(tfile), disk);] *)
Fixpoint copy_in (tfile : list Z) (f : FILE) : FILE :=
  match tfile with [] => f | c :: tfile => copy_in tfile (putc c f) end.

(** Whether an [int] counts to [n]. *)
Definition counts (n : Z) : bool := n <? 2 ^ 31.

Section Host.
(** Whether [fopen] can create a file. *)
Context (creatable : list Z -> bool).

Definition read (filename : option (list Z)) (s : BMFS) : option BMFS :=
  found ← findfile filename s;
  match found with
  | None => Some (say NotFound s)
  | Some (tempentry, _) =>
      let s := say (Reading (default [] filename)) s in
      if negb (creatable (FileName tempentry)) then Some (say (CannotOpenLocal (FileName tempentry)) s)
      else if negb (counts (FileSize tempentry)) then None
      else
        let f := fseek (u64 (StartingBlock tempentry * BLOCK)) (disk s) in
        let '(f, tfile) := copy_out (Z.to_nat (FileSize tempentry)) f [] in
        Some (say Complete (set_local (<[FileName tempentry := tfile]> (local s)) (set_disk f s)))
  end.
End Host.

Definition write (filename : option (list Z)) (s : BMFS) : option BMFS :=
  found ← findfile filename s;
  match found with
  | None => Some (say NotCreated s)
  | Some (tempentry, slot) =>
      let s := say (Writing (default [] filename)) s in
      match local s !! cstr (default [] filename) with
      | None => Some (say (CannotOpenLocal (FileName tempentry)) s)
      | Some tfile =>
          let tempfilesize := Z.of_nat (length tfile) in
          if u64 (ReservedBlocks tempentry * BLOCK) <? tempfilesize then Some (say NotEnoughRoom s)
          else if negb (counts tempfilesize) then None
          else
            let s := set_disk (copy_in tfile (fseek (u64 (StartingBlock tempentry * BLOCK)) (disk s))) s in
            dir ← blit (slot * 64 + 48) (le_bytes 8 tempfilesize) (Directory s);
            Some (say Complete (flush_directory (set_Directory dir s)))
      end
  end.

Definition delete (filename : option (list Z)) (s : BMFS) : option BMFS :=
  found ← findfile filename s;
  match found with
  | None => Some (say NotFound s)
  | Some (_, slot) =>
      let s := say (Deleting (default [] filename)) s in
      dir ← blit (slot * 64) [1] (Directory s);
      Some (say Complete (flush_directory (set_Directory dir s)))
  end.
