(* ===== verification/BmfsDir.v ===== *)
(** * The directory of the disk image

    What a store into one entry does to the 64 entries, which entries are in
    use, and the searches of [Bmfs] over them. *)

From S2P Require Import Prelude Lib Bmfs.
Local Open Scope Z_scope.

(** ** Numbers in memory *)

Lemma le_bytes_length n v : length (le_bytes n v) = n.
Proof. revert v. induction n as [|n IH]; intros v; cbn; [done|]. by rewrite IH. Qed.

Lemma le_val_bytes n v : 0 <= v < 2 ^ (8 * Z.of_nat n) -> le_val (le_bytes n v) = v.
Proof.
  revert v. induction n as [|n IH]; intros v Hv; cbn [le_bytes le_val].
  - change (2 ^ (8 * Z.of_nat 0)) with 1 in Hv. lia.
  - rewrite IH.
    + unfold u8. pose proof (Z.div_mod v (2 ^ 8)). lia.
    + replace (8 * Z.of_nat (S n)) with (8 * Z.of_nat n + 8) in Hv by lia.
      rewrite Z.pow_add_r in Hv by lia. split; [apply Z.div_pos; lia|].
      apply Z.div_lt_upper_bound; lia.
Qed.

(** ** Arrays *)

Lemma geti_take {A} `{Inhabited A} (l : list A) n i : 0 <= i < Z.of_nat n -> (take n l).[i] = l.[i].
Proof. intros. unfold geti. case_if; [|done]. rewrite !list_lookup_total_alt, lookup_take_lt by lia. done. Qed.

Lemma geti_drop {A} `{Inhabited A} (l : list A) n i : 0 <= i -> (drop n l).[i] = l.[Z.of_nat n + i].
Proof.
  intros. unfold geti. repeat case_if; try lia.
  rewrite !list_lookup_total_alt, lookup_drop. do 2 f_equal. lia.
Qed.

Lemma geti_app {A} `{Inhabited A} (l k : list A) i :
  0 <= i -> (l ++ k).[i] = if i <? Z.of_nat (length l) then l.[i] else k.[i - Z.of_nat (length l)].
Proof.
  intros. unfold geti. repeat case_if; try lia.
  - by rewrite !list_lookup_total_alt, lookup_app_l by lia.
  - rewrite !list_lookup_total_alt, lookup_app_r by lia. do 2 f_equal. lia.
Qed.

(** A store inside an array succeeds and changes the bytes it covers. *)
Lemma blit_spec off bs l :
  0 <= off -> off + Z.of_nat (length bs) <= Z.of_nat (length l) ->
  exists l', blit off bs l = Some l' /\ length l' = length l /\
    forall i, 0 <= i -> l'.[i] = if (off <=? i) && (i <? off + Z.of_nat (length bs)) then bs.[i - off] else l.[i].
Proof.
  intros H0 H1. unfold blit. case_if; [lia|]. eexists. split; [done|]. split.
  - rewrite !length_app, length_take, length_drop. lia.
  - intros i Hi. rewrite !geti_app, length_take by lia. repeat case_if; try lia.
    + apply geti_take. lia.
    + rewrite geti_app by lia. case_if; [|lia]. f_equal. lia.
    + rewrite geti_app by lia. case_if; [lia|]. rewrite geti_drop by lia. f_equal. lia.
Qed.

Lemma length_entry_at d i : length d = 4096%nat -> 0 <= i < 64 -> length (entry_at d i) = 64%nat.
Proof. intros. unfold entry_at. rewrite length_take, length_drop. lia. Qed.

Lemma geti_entry_at d i k : 0 <= i -> 0 <= k < 64 -> (entry_at d i).[k] = d.[i * 64 + k].
Proof. intros. unfold entry_at. rewrite geti_take, geti_drop by lia. f_equal. lia. Qed.

(** An entry after a store at its byte [k]. *)
Record patched (k : Z) (bs e e' : list Z) : Prop := {
  pa_length : length e' = 64%nat;
  pa_byte i : 0 <= i < 64 ->
    e'.[i] = if (k <=? i) && (i <? k + Z.of_nat (length bs)) then bs.[i - k] else e.[i]
}.

(** A store into entry [i] leaves the others as they were. *)
Lemma blit_entry d i k bs :
  length d = 4096%nat -> 0 <= i < 64 -> 0 <= k -> k + Z.of_nat (length bs) <= 64 ->
  exists d', blit (i * 64 + k) bs d = Some d' /\ length d' = 4096%nat /\
    patched k bs (entry_at d i) (entry_at d' i) /\
    forall j, 0 <= j < 64 -> j <> i -> entry_at d' j = entry_at d j.
Proof.
  intros Hd Hi Hk Hb. destruct (blit_spec (i * 64 + k) bs d) as (d' & E & El & Hg); [lia..|].
  exists d'. split; [done|]. split; [lia|]. split.
  - split; [apply length_entry_at; lia|]. intros x Hx. rewrite !geti_entry_at, Hg by lia.
    repeat case_if; try lia; f_equal; lia.
  - intros j Hj Hne. apply list_eq_geti; rewrite !length_entry_at by lia; [done|].
    intros x Hx. rewrite !geti_entry_at, Hg by lia. by case_if; [lia|].
Qed.

(** ** Fields of an entry after a store *)

Lemma patched_field_eq off v e e' :
  0 <= v < 2 ^ 64 -> (off + 8 <= 64)%nat -> patched (Z.of_nat off) (le_bytes 8 v) e e' -> field off e' = v.
Proof.
  intros Hv Ho [Hl Hb]. unfold field. rewrite <- (le_val_bytes 8 v) by done. f_equal.
  apply list_eq_geti.
  - rewrite length_take, length_drop, le_bytes_length. lia.
  - intros i Hi. rewrite length_take, length_drop in Hi. rewrite geti_take, geti_drop by lia.
    rewrite Hb, le_bytes_length by lia. case_if; [|lia]. f_equal. lia.
Qed.

Lemma patched_field_ne off k bs e e' :
  length e = 64%nat -> (off + 8 <= 64)%nat ->
  k + Z.of_nat (length bs) <= Z.of_nat off \/ Z.of_nat off + 8 <= k ->
  patched k bs e e' -> field off e' = field off e.
Proof.
  intros Hl Ho Hd [Hl' Hb]. unfold field. f_equal. apply list_eq_geti.
  - rewrite !length_take, !length_drop. lia.
  - intros i Hi. rewrite length_take, length_drop in Hi. rewrite !geti_take, !geti_drop by lia.
    rewrite Hb by lia. by case_if; [lia|].
Qed.

(** The name ends before the numbers. *)
Definition name_ok (e : list Z) : Prop := (length (FileName e) < 32)%nat.

Lemma cstr_geti (l : list Z) i : 0 <= i < Z.of_nat (length (cstr l)) -> l.[i] = (cstr l).[i] /\ l.[i] <> 0.
Proof.
  intros Hi. destruct (cstr_prefix l) as (r & E & _).
  assert (l.[i] = (cstr l).[i]) as El.
  { rewrite E at 1. rewrite geti_app by lia. by case_if; [|lia]. }
  split; [done|]. rewrite El. pose proof (cstr_nonzero l) as Hn. rewrite list.Forall_lookup in Hn.
  apply (Hn (Z.to_nat i)). unfold geti. case_if; [|lia]. apply list_lookup_lookup_total_lt. lia.
Qed.

Lemma cstr_end (l : list Z) : (length (cstr l) < length l)%nat -> l.[Z.of_nat (length (cstr l))] = 0.
Proof.
  intros Hl. destruct (cstr_prefix l) as (r & E & Hr).
  destruct Hr as [->|[r' ->]]; [rewrite app_nil_r in E; rewrite <- E in Hl; lia|].
  rewrite E at 1. by apply geti_middle.
Qed.

(** A string is determined by the bytes up to its terminator. *)
Lemma cstr_unique (l a : list Z) :
  Forall (fun c => c <> 0) a -> (length a < length l)%nat ->
  (forall i, 0 <= i < Z.of_nat (length a) -> l.[i] = a.[i]) -> l.[Z.of_nat (length a)] = 0 -> cstr l = a.
Proof.
  intros Ha Hl Hg H0. assert (l = a ++ 0 :: drop (S (length a)) l) as ->; [|by apply cstr_app_zero].
  apply list_eq_geti; [rewrite length_app; cbn; rewrite length_drop; lia|]. intros i Hi.
  rewrite geti_app by lia. case_if; [apply Hg; lia|].
  destruct (decide (i = Z.of_nat (length a))) as [->|].
  - by rewrite Z.sub_diag.
  - change (0 :: drop (S (length a)) l) with ([0] ++ drop (S (length a)) l).
    rewrite geti_app by (cbn; lia). cbn [length]. case_if; [lia|]. rewrite geti_drop by lia. f_equal. lia.
Qed.

Lemma patched_name_ne k bs e e' :
  name_ok e -> length e = 64%nat -> 32 <= k -> patched k bs e e' -> FileName e' = FileName e.
Proof.
  unfold name_ok, FileName. intros Hn Hl Hk [Hl' Hb]. apply cstr_unique; [apply cstr_nonzero|lia|..].
  - intros i Hi. rewrite Hb by lia. case_if; [lia|]. apply cstr_geti. lia.
  - rewrite Hb by lia. case_if; [lia|]. apply cstr_end. lia.
Qed.

Lemma patched_name_eq n e e' :
  (length (cstr n) < 32)%nat -> patched 0 (cstr n ++ [0]) e e' -> FileName e' = cstr n.
Proof.
  intros Hn [Hl Hb]. apply cstr_unique; [apply cstr_nonzero|lia|..].
  - intros i Hi. rewrite Hb, length_app by lia. cbn [length]. case_if; [|lia].
    rewrite Z.sub_0_r, geti_app by lia. by case_if; [|lia].
  - rewrite Hb, length_app by lia. cbn [length]. case_if; [|lia].
    rewrite Z.sub_0_r. by apply geti_middle.
Qed.

Lemma name_first e : length e = 64%nat -> e.[0] = hd 0 (FileName e).
Proof.
  unfold FileName. destruct e as [|c e]; [done|]. intros _. cbn [cstr].
  change ((c :: e).[0]) with c. destruct (Z.eqb_spec c 0) as [->|]; done.
Qed.

(** ** Entries in use *)

(** The byte that says what an entry is: 0 ends the directory, 1 is deleted. *)
Definition marker (d : list Z) (i : Z) : Z := (entry_at d i).[0].

Definition used (d : list Z) (i : Z) : Prop := 0 <= i < 64 /\ forall j, 0 <= j <= i -> marker d j <> 0.

Definition live (d : list Z) (i : Z) : Prop := used d i /\ marker d i <> 1.

Definition deleted (d : list Z) (i : Z) : Prop := used d i /\ marker d i = 1.

(** [n] is the number of the entry that ends the directory. *)
Definition ends_at (d : list Z) (n : Z) : Prop :=
  0 <= n < 64 /\ marker d n = 0 /\ forall j, 0 <= j < n -> marker d j <> 0.

Lemma used_ends d n i : ends_at d n -> used d i <-> 0 <= i < n.
Proof.
  intros (Hn & H0 & Hj). split.
  - intros [Hi Hu]. destruct (decide (i < n)); [lia|]. by destruct (Hu n ltac:(lia)).
  - intros Hi. split; [lia|]. intros j Hj'. apply Hj. lia.
Qed.

Lemma findfile_loop_spec n t name d :
  Z.of_nat n + t = 64 -> 0 <= t -> (forall j, 0 <= j < t -> marker d j <> 0) ->
  match findfile_loop n t (Some name) d with
  | None => False
  | Some None => forall i, t <= i -> live d i -> FileName (entry_at d i) <> cstr name
  | Some (Some (e, i)) => t <= i /\ live d i /\ e = entry_at d i /\ FileName e = cstr name
  end.
Proof.
  revert t. induction n as [|n IH]; intros t Hn Ht Hb; cbn [findfile_loop].
  { intros i Hi [[? _] _]. lia. }
  fold (marker d t). destruct (Z.eqb_spec (marker d t) 0) as [E0|N0].
  { intros i Hi [[_ Hu] _]. by destruct (Hu t ltac:(lia)). }
  specialize (IH (t + 1) ltac:(lia) ltac:(lia)).
  assert (forall j, 0 <= j < t + 1 -> marker d j <> 0) as Hb'.
  { intros j Hj. destruct (decide (j = t)) as [->|]; [done|]. apply Hb. lia. }
  specialize (IH Hb'). assert (used d t) as Hu by (split; [lia|]; intros; apply Hb'; lia).
  destruct (Z.eqb_spec (marker d t) 1) as [E1|N1]; cbn.
  - destruct (findfile_loop _ _ _ _) as [[[e i]|]|]; [|..|done].
    + destruct IH as (? & ? & ? & ?). split_and!; [lia|done..].
    + intros i Hi Hl. destruct (decide (i = t)) as [->|]; [by destruct Hl|]. apply IH; [lia|done].
  - case_bool_decide as Hname; [split_and!; [lia|done|done|by symmetry]|].
    destruct (findfile_loop _ _ _ _) as [[[e i]|]|]; [|..|done].
    + destruct IH as (? & ? & ? & ?). split_and!; [lia|done..].
    + intros i Hi Hl. destruct (decide (i = t)) as [->|]; [by intros ?; apply Hname|]. apply IH; [lia|done].
Qed.

(** [findfile] finds the live entry of that name, if there is one. *)
Lemma findfile_spec name s :
  (findfile (Some name) s = Some None /\
   forall i, live (Directory s) i -> FileName (entry_at (Directory s) i) <> cstr name) \/
  (exists i, findfile (Some name) s = Some (Some (entry_at (Directory s) i, i)) /\
     live (Directory s) i /\ FileName (entry_at (Directory s) i) = cstr name).
Proof.
  pose proof (findfile_loop_spec 64 0 name (Directory s) eq_refl ltac:(lia) ltac:(lia)) as H.
  unfold findfile. destruct (findfile_loop _ _ _ _) as [[[e i]|]|]; [right|left|done].
  - destruct H as (_ & Hl & -> & Hn). eauto.
  - split; [done|]. intros i Hl. apply H; [|done]. destruct Hl as [[? _] _]. lia.
Qed.

(** What the first loop of [create] has found before entry [t]. *)
Definition first_free_ok (d : list Z) (t ff : Z) : Prop :=
  (ff = -1 /\ forall i, i < t -> ~ deleted d i) \/
  (deleted d ff /\ ff < t /\ forall i, i < ff -> ~ deleted d i).

Lemma count_entries_spec n t ff d :
  Z.of_nat n + t = 64 -> 0 <= t -> (forall j, 0 <= j < t -> marker d j <> 0) -> first_free_ok d t ff ->
  let '(nu, ff') := count_entries n t ff d in
  (exists m, ends_at d m /\ nu = m /\ ff' <> -1 /\ first_free_ok d m (if ff' =? m then -1 else ff')) \/
  (nu = 0 /\ (forall j, 0 <= j < 64 -> marker d j <> 0) /\ first_free_ok d 64 ff').
Proof.
  revert t ff. induction n as [|n IH]; intros t ff Hn Ht Hb Hf; cbn [count_entries].
  { right. replace 64 with t by lia. done. }
  fold (marker d t). destruct (Z.eqb_spec (marker d t) 0) as [E0|N0].
  { left. exists t. split; [by split; [lia|]|]. split; [done|].
    destruct (Z.eqb_spec ff (-1)) as [->|Hne]; [rewrite Z.eqb_refl; by split; [lia|]|]. split; [done|].
    destruct Hf as [[? _]|(? & ? & ?)]; [done|]. replace (ff =? t) with false by lia. by right. }
  assert (forall j, 0 <= j < t + 1 -> marker d j <> 0) as Hb'.
  { intros j Hj. destruct (decide (j = t)) as [->|]; [done|]. apply Hb. lia. }
  assert (used d t) as Hu by (split; [lia|]; intros; apply Hb'; lia).
  apply IH; [lia|lia|done|].
  destruct (Z.eqb_spec (marker d t) 1) as [E1|N1].
  - destruct Hf as [[-> Hf]|(Hd & Hl & Hm)].
    + cbn. right. split; [done|]. split; [lia|done].
    + replace (ff =? -1) with false by (destruct Hd as [[? _] _]; lia). right. split_and!; [done|lia|done].
  - destruct Hf as [[-> Hf]|(Hd & Hl & Hm)]; [left|right; split_and!; [done|lia|done]].
    split; [done|]. intros i Hi. destruct (decide (i = t)) as [->|]; [by intros [_ ?]|]. apply Hf. lia.
Qed.

Lemma ends_at_unique d n m : ends_at d n -> ends_at d m -> n = m.
Proof.
  intros (Hn & En & Un) (Hm & Em & Um). destruct (decide (n < m)); [by destruct (Um n ltac:(lia))|].
  destruct (decide (m < n)); [by destruct (Un m ltac:(lia))|]. lia.
Qed.

(** With an end marker, [create] takes the first deleted entry, or the entry
    of the marker if none is deleted. *)
Lemma count_entries_ends d n :
  ends_at d n -> exists ff, count_entries 64 0 (-1) d = (n, ff) /\ 0 <= ff < 64 /\
    ((ff = n /\ forall i, ~ deleted d i) \/ (ff < n /\ deleted d ff /\ forall i, i < ff -> ~ deleted d i)).
Proof.
  intros Hn. pose proof (count_entries_spec 64 0 (-1) d eq_refl ltac:(lia) ltac:(lia)) as H.
  destruct (count_entries 64 0 (-1) d) as [nu ff].
  destruct H as [(m & Hm & -> & Hff & Hf)|(_ & Hu & _)].
  - left. split; [done|]. intros i Hi [[? _] _]. lia.
  - rewrite (ends_at_unique d n m) by done. exists ff. split; [done|].
    assert (forall i, deleted d i -> 0 <= i < m) as Hdel by (intros i [Hu _]; by apply (used_ends d m)).
    destruct Hm as [Hm _]. destruct (Z.eqb_spec ff m) as [->|Hne].
    + split; [lia|]. left. split; [done|]. intros i Hi. specialize (Hdel i Hi).
      destruct Hf as [[_ Hf]|(Hd & _)]; [by apply (Hf i); [lia|]|]. destruct Hd as [[? _] _]. lia.
    + destruct Hf as [[? _]|(Hd & Hlt & Hmin)]; [done|]. specialize (Hdel ff Hd). split; [lia|]. by right.
  - destruct Hn as (Hn & E & _). by destruct (Hu n ltac:(lia)).
Qed.
