(* ===== verification/BmfsCreate.v ===== *)
(** * Where the disk utility puts a new file

    The search of [create] in [Bootloader/BMFS/bmfs.c] over the directory
    sorted by [qsort] is a first fit over the blocks between the files. *)

From Stdlib Require Import Sorted.
From stdpp Require Import sorting.
From S2P Require Import Prelude Lib Bmfs BmfsDir.
Local Open Scope Z_scope.

(** ** [qsort]

    The C standard requires a comparison that orders the array consistently;
    here, on distinct elements, it has the sign of the difference of some
    [rank].  The result is then the same elements in that order. *)

Record orders (cmp : list Z -> list Z -> Z) (rank : list Z -> Z) (l : list (list Z)) : Prop := {
  or_nodup : NoDup l;
  or_sign a b : a ∈ l -> b ∈ l -> a <> b -> Z.sgn (cmp a b) = Z.sgn (rank a - rank b)
}.

Definition rank_le (rank : list Z -> Z) (a b : list Z) : Prop := rank a <= rank b.

Class Qsort (qsort : (list Z -> list Z -> Z) -> list (list Z) -> list (list Z)) : Prop := {
  qsort_perm cmp rank l : orders cmp rank l -> qsort cmp l ≡ₚ l;
  qsort_sorted cmp rank l : orders cmp rank l -> StronglySorted (rank_le rank) (qsort cmp l)
}.

(** An implementation: insertion sort. *)
Fixpoint insert_by (cmp : list Z -> list Z -> Z) (x : list Z) (l : list (list Z)) : list (list Z) :=
  match l with
  | [] => [x]
  | y :: l => if cmp x y <=? 0 then x :: y :: l else y :: insert_by cmp x l
  end.

Fixpoint isort (cmp : list Z -> list Z -> Z) (l : list (list Z)) : list (list Z) :=
  match l with [] => [] | x :: l => insert_by cmp x (isort cmp l) end.

Lemma insert_by_perm cmp x l : insert_by cmp x l ≡ₚ x :: l.
Proof. induction l as [|y l IH]; cbn; [done|]. case_if; [done|]. rewrite IH. constructor. Qed.

Lemma isort_perm cmp l : isort cmp l ≡ₚ l.
Proof. induction l as [|x l IH]; cbn; [done|]. by rewrite insert_by_perm, IH. Qed.

Lemma insert_by_sorted cmp rank x l :
  (forall y, y ∈ l -> Z.sgn (cmp x y) = Z.sgn (rank x - rank y)) ->
  StronglySorted (rank_le rank) l -> StronglySorted (rank_le rank) (insert_by cmp x l).
Proof.
  intros Hx. induction 1 as [|y l Hl IH Hy]; cbn; [repeat constructor|].
  assert (Z.sgn (cmp x y) = Z.sgn (rank x - rank y)) as Hxy by (apply Hx; by left). case_if.
  - assert (rank x <= rank y) by lia. constructor; [by constructor|]. constructor; [done|].
    eapply list.Forall_impl; [exact Hy|]. unfold rank_le. intros z ?. lia.
  - constructor; [apply IH; intros z Hz; apply Hx; by right|].
    rewrite insert_by_perm. constructor; [unfold rank_le; lia|done].
Qed.

#[export] Instance isort_qsort : Qsort isort.
Proof.
  split; [intros; apply isort_perm|]. intros cmp rank l [Hn Hs].
  induction l as [|x l IH]; cbn; [constructor|]. apply list.NoDup_cons in Hn as [Hx Hn].
  apply insert_by_sorted.
  - intros y Hy. rewrite isort_perm in Hy. apply Hs; [by left|by right|]. by intros ->.
  - apply IH; [done|]. intros a b Ha Hb. apply Hs; by right.
Qed.

(** ** Well-formed directories *)

Definition area_end (e : list Z) : Z := StartingBlock e + ReservedBlocks e.

(** The blocks of two files do not overlap. *)
Definition apart (e e' : list Z) : Prop := area_end e <= StartingBlock e' \/ area_end e' <= StartingBlock e.

(** An entry whose blocks lie between block 1 and the last block. *)
Record entry_ok (last : Z) (e : list Z) : Prop := {
  eo_name : name_ok e;
  eo_start : 1 <= StartingBlock e;
  eo_reserved : 1 <= ReservedBlocks e;
  eo_end : area_end e <= last;
  eo_size : 0 <= FileSize e <= ReservedBlocks e * BLOCK
}.

Record dir_ok (last : Z) (d : list Z) : Prop := {
  do_length : length d = 4096%nat;
  do_entry i : live d i -> entry_ok last (entry_at d i);
  do_apart i j : live d i -> live d j -> i <> j ->
    FileName (entry_at d i) <> FileName (entry_at d j) /\ apart (entry_at d i) (entry_at d j)
}.

(** [req] blocks from [p] on are free. *)
Definition fits (last : Z) (d : list Z) (req p : Z) : Prop :=
  1 <= p /\ p + req <= last /\
  forall i, live d i -> p + req <= StartingBlock (entry_at d i) \/ area_end (entry_at d i) <= p.

(** ** The loop over the gaps *)

(** Files one behind the other, from [prev] on. *)
Fixpoint chain (last prev : Z) (l : list (list Z)) : Prop :=
  match l with
  | [] => prev <= last
  | e :: l => e.[0] <> 1 /\ prev <= StartingBlock e /\ 1 <= ReservedBlocks e /\ chain last (area_end e) l
  end.

Definition free_at (last req prev : Z) (l : list (list Z)) (p : Z) : Prop :=
  prev <= p /\ p + req <= last /\ forall e, e ∈ l -> p + req <= StartingBlock e \/ area_end e <= p.

Lemma chain_last last prev l : chain last prev l -> prev <= last.
Proof.
  revert prev. induction l as [|e l IH]; cbn; intros prev; [done|].
  intros (_ & H1 & H2 & H3%IH). unfold area_end in *. lia.
Qed.

Lemma chain_before last prev l e : chain last prev l -> e ∈ l -> prev <= StartingBlock e.
Proof.
  revert prev. induction l as [|x l IH]; intros prev; [by intros _ ?%elem_of_nil|].
  intros (_ & H1 & H2 & H3) [->|He]%elem_of_cons; [done|].
  specialize (IH _ H3 He). unfold area_end in *. lia.
Qed.

Lemma gap_loop_range l last req prev : 0 <= prev < 2 ^ 64 -> 0 <= gap_loop l last req prev < 2 ^ 64.
Proof.
  revert prev. induction l as [|e l IH]; intros prev Hp; cbn [gap_loop]; [by case_if; [|lia]|].
  case_if; [done|]. apply IH, u64_range.
Qed.

(** The loop finds the lowest free place, if there is one.  If there is none
    it fails, provided no deleted entry follows the files. *)
Lemma gap_loop_spec last req prev l rest :
  1 <= req -> 1 <= prev -> last < 2 ^ 64 -> chain last prev l ->
  (rest = [] \/ exists e r, rest = e :: r /\ e.[0] = 1) ->
  let r := gap_loop (l ++ rest) last req prev in
  (free_at last req prev l r /\ forall p, free_at last req prev l p -> r <= p) \/
  ((forall p, ~ free_at last req prev l p) /\ (rest = [] -> r = 0)).
Proof.
  intros Hq. revert prev. induction l as [|e l IH]; intros prev Hp Hl Hc Hr; cbn [app].
  - cbv zeta. cbn in Hc.
    assert ((if u64 (last - prev) >=? req then free_at last req prev [] prev else forall p, ~ free_at last req prev [] p)) as Hf.
    { rewrite u64_small by lia. case_if.
      - split; [lia|]. split; [lia|]. by intros e ?%elem_of_nil.
      - intros p (? & ? & _). lia. }
    destruct Hr as [->|(e & r & -> & E)]; cbn [gap_loop]; rewrite ?E, ?Z.eqb_refl; case_if.
    + left. split; [done|]. by intros p [? _].
    + by right.
    + left. split; [done|]. by intros p [? _].
    + right. by split.
  - cbn [chain] in Hc. destruct Hc as (Hm & Hs & Hres & Hc). pose proof (chain_last _ _ _ Hc) as He.
    cbv zeta. cbn [gap_loop]. replace (e.[0] =? 1) with false by lia. unfold area_end in He.
    assert (forall p, free_at last req prev (e :: l) p -> u64 (StartingBlock e - prev) >=? req = false ->
              free_at last req (area_end e) l p) as Hnext.
    { rewrite u64_small by lia. intros p (H1 & H2 & H3) Hno.
      destruct (H3 e ltac:(by left)) as [?|?]; [lia|]. split; [done|]. split; [done|].
      intros e' He'. apply H3. by right. }
    case_if.
    + left. rewrite u64_small in Heqb by lia. split; [|by intros p [? _]].
      split; [lia|]. split; [lia|]. intros e' [->|He']%elem_of_cons; [lia|]. left.
      pose proof (chain_before _ _ _ _ Hc He'). unfold area_end in *. lia.
    + rewrite u64_small by lia. fold (area_end e).
      assert (forall p, free_at last req (area_end e) l p -> free_at last req prev (e :: l) p) as Hback.
      { intros p (H1 & H2 & H3). unfold area_end in *. split; [lia|]. split; [done|].
        intros e' [->|He']%elem_of_cons; [unfold area_end; lia|by apply H3]. }
      destruct (IH (area_end e)) as [[H1 H2]|[H1 H2]]; [unfold area_end; lia|done|done|done|..].
      * left. split; [by apply Hback|]. intros p Hfp. by apply H2, Hnext.
      * right. split; [|done]. intros p Hfp. by eapply H1, Hnext.
Qed.

(** ** The sorted directory *)

(** The order that [StartingBlockCmp] sorts by: deleted entries at the end. *)
Definition block_rank (e : list Z) : Z := if e.[0] =? 1 then 2 ^ 64 else StartingBlock e.

(** Deleted entries compare as greater both ways, so that the comparison is
    an order only with one of them. *)
Definition one_deleted (d : list Z) : Prop := forall i j, deleted d i -> deleted d j -> i = j.

Section Sorted.
Context (last n : Z) (d : list Z) (Hok : dir_ok last d) (Hend : ends_at d n).
Context (Hlast : 0 < last < 2 ^ 31) (Hone : one_deleted d).

Definition entries : list (list Z) := entry_at d <$> seqZ 0 n.

Lemma entries_elem e : e ∈ entries <-> exists i, e = entry_at d i /\ used d i.
Proof.
  unfold entries. rewrite list_elem_of_fmap. split; intros (i & -> & Hi); exists i; (split; [done|]).
  - apply elem_of_seqZ in Hi. apply (used_ends d n); [done|lia].
  - apply elem_of_seqZ. apply (used_ends d n) in Hi; [lia|done].
Qed.

Lemma used_cases i : used d i -> live d i \/ deleted d i.
Proof. intros Hu. destruct (decide (marker d i = 1)); [right|left]; by split. Qed.

Lemma entries_same i j : used d i -> used d j -> entry_at d i = entry_at d j -> i = j.
Proof.
  intros Hi Hj E. destruct (used_cases i Hi) as [Li|Di], (used_cases j Hj) as [Lj|Dj].
  - destruct (decide (i = j)); [done|]. destruct (do_apart _ _ Hok i j) as [H _]; [done..|]. by rewrite E in H.
  - destruct Li as [_ Li], Dj as [_ Dj]. unfold marker in *. by rewrite E in Li.
  - destruct Lj as [_ Lj], Di as [_ Di]. unfold marker in *. by rewrite E in Di.
  - by apply Hone.
Qed.

Lemma entries_live e : e ∈ entries -> e.[0] <> 1 -> entry_ok last e.
Proof. intros (i & -> & Hu)%entries_elem Hm. apply (do_entry _ _ Hok). by split. Qed.

Lemma entries_apart e e' : e ∈ entries -> e' ∈ entries -> e.[0] <> 1 -> e'.[0] <> 1 -> e <> e' -> apart e e'.
Proof.
  intros (i & -> & Hi)%entries_elem (j & -> & Hj)%entries_elem Mi Mj Hne.
  apply (do_apart _ _ Hok); [by split|by split|]. by intros ->.
Qed.

Lemma entries_orders : orders StartingBlockCmp block_rank entries.
Proof.
  split.
  - apply NoDup_fmap_2_strong; [|apply NoDup_seqZ]. intros i j Hi Hj.
    apply elem_of_seqZ in Hi, Hj. apply entries_same; apply (used_ends d n); (done || lia).
  - intros a b Ha Hb Hne. unfold StartingBlockCmp, block_rank.
    destruct (Z.eqb_spec (a.[0]) 1) as [Ea|Na], (Z.eqb_spec (b.[0]) 1) as [Eb|Nb].
    + exfalso. apply entries_elem in Ha as (i & -> & Hi), Hb as (j & -> & Hj).
      apply Hne. f_equal. by apply Hone.
    + pose proof (entries_live b Hb Nb) as []. unfold area_end in *. lia.
    + pose proof (entries_live a Ha Na) as []. unfold area_end in *. lia.
    + pose proof (entries_live a Ha Na) as []. pose proof (entries_live b Hb Nb) as [].
      unfold area_end in *. f_equal.
      replace (i32 (u64 (StartingBlock a - StartingBlock b))) with (i32 (StartingBlock a - StartingBlock b)).
      * apply i32_small. lia.
      * rewrite <- (i32_u64 (StartingBlock a - StartingBlock b)) at 1 by lia. rewrite i32_small; [done|].
        apply i32_range.
Qed.

(** A sorted list of entries is files in the order of their blocks and then
    deleted entries. *)
Lemma sorted_split l :
  l ⊆ entries -> StronglySorted (rank_le block_rank) l ->
  exists ls ds, l = ls ++ ds /\ (forall e, e ∈ ls -> e.[0] <> 1) /\ (forall e, e ∈ ds -> e.[0] = 1).
Proof.
  intros Hin. induction 1 as [|e l Hs IH Hf].
  { exists [], []. split; [done|]. split; intros e He; by apply elem_of_nil in He. }
  destruct (decide (e.[0] = 1)) as [E|N].
  - exists [], (e :: l). split; [done|]. split; [intros x Hx; by apply elem_of_nil in Hx|].
    intros x [->|Hx]%elem_of_cons; [done|]. rewrite list.Forall_forall in Hf. specialize (Hf x Hx).
    destruct (decide (x.[0] = 1)) as [|N]; [done|]. pose proof (entries_live x (Hin x ltac:(by right)) N) as [].
    unfold rank_le, block_rank, area_end in *. rewrite E in Hf. replace (x.[0] =? 1) with false in Hf by lia.
    change (1 =? 1) with true in Hf. cbn iota in Hf. lia.
  - destruct IH as (ls & ds & -> & Hl & Hd); [intros x Hx; apply Hin; by right|].
    exists (e :: ls), ds. split; [done|]. split; [|done]. intros x [->|Hx]%elem_of_cons; auto.
Qed.

Lemma sorted_chain prev l :
  l ⊆ entries -> NoDup l -> StronglySorted (rank_le block_rank) l -> prev <= last ->
  (forall e, e ∈ l -> e.[0] <> 1 /\ prev <= StartingBlock e) -> chain last prev l.
Proof.
  intros Hin Hn Hs. revert prev. induction Hs as [|e l Hs IH Hf]; intros prev Hp Hl; cbn; [done|].
  apply list.NoDup_cons in Hn as [He Hn].
  destruct (Hl e ltac:(by left)) as [Hm Hpe]. pose proof (entries_live e (Hin e ltac:(by left)) Hm) as [].
  split_and!; [done|done|done|]. apply IH; [|done|done|].
  { intros x Hx. apply Hin. by right. }
  intros x Hx. destruct (Hl x ltac:(by right)) as [Hmx _]. split; [done|].
  rewrite list.Forall_forall in Hf. specialize (Hf x Hx). unfold rank_le, block_rank in Hf.
  replace (e.[0] =? 1) with false in Hf by lia. replace (x.[0] =? 1) with false in Hf by lia.
  pose proof (entries_live x (Hin x ltac:(by right)) Hmx) as [].
  destruct (entries_apart e x) as [?|?]; [by apply Hin; left|by apply Hin; right|done|done|by intros ->|done|].
  unfold area_end in *. lia.
Qed.

(** The search of [create]: the lowest place where the file fits; without a
    place it fails if no entry is deleted. *)
Lemma create_place qsort `{!Qsort qsort} req :
  1 <= req ->
  let r := gap_loop (qsort StartingBlockCmp entries) last req 1 in
  (fits last d req r /\ forall p, fits last d req p -> r <= p) \/
  ((forall p, ~ fits last d req p) /\ ((forall i, ~ deleted d i) -> r = 0)).
Proof.
  intros Hq. cbv zeta. pose proof (qsort_perm _ _ _ entries_orders) as Hp.
  pose proof (qsort_sorted _ _ _ entries_orders) as Hs. pose proof (or_nodup _ _ _ entries_orders) as Hn.
  set (l := qsort StartingBlockCmp entries) in *.
  assert (forall e, e ∈ l <-> e ∈ entries) as Hl by (intros; by rewrite Hp).
  rewrite <- Hp in Hn. destruct (sorted_split l) as (ls & ds & E & Hls & Hds); [by intros e ?%Hl|done|].
  rewrite E in *. apply list.NoDup_app in Hn as (Hn & _ & _).
  assert (chain last 1 ls) as Hc.
  { apply sorted_chain; [|done|by apply StronglySorted_app_1_l in Hs|lia|].
    - intros e He. apply Hl, elem_of_app. by left.
    - intros e He. split; [by apply Hls|]. apply (entries_live e); [|by apply Hls].
      apply Hl, elem_of_app. by left. }
  assert (forall p, free_at last req 1 ls p <-> fits last d req p) as Hfit.
  { intros p. unfold free_at, fits. split; intros (H1 & H2 & H3); split_and!; try done.
    - intros i [Hu Hm]. apply H3. assert (entry_at d i ∈ ls ++ ds) as Hi by (apply Hl, entries_elem; eauto).
      apply elem_of_app in Hi as [?|Hi]; [done|]. by apply Hds in Hi.
    - intros e He. pose proof (Hls e He) as Hm. assert (e ∈ entries) as (i & -> & Hu)%entries_elem
        by (apply Hl, elem_of_app; by left). apply H3. by split. }
  destruct (gap_loop_spec last req 1 ls ds) as [[H1 H2]|[H1 H2]]; [done|lia|lia|done|..].
  - destruct ds as [|e r]; [by left|right]. exists e, r. split; [done|]. apply Hds. by left.
  - left. split; [by apply Hfit|]. intros p Hp'. by apply H2, Hfit.
  - right. split; [intros p Hp'; by eapply H1, Hfit|]. intros Hnd. apply H2. destruct ds as [|e r]; [done|].
    exfalso. assert (e ∈ entries) as (i & -> & Hu)%entries_elem by (apply Hl, elem_of_app; right; by left).
    eapply Hnd. split; [done|]. apply Hds. by left.
Qed.
End Sorted.
