(* ===== verification/BmfsInit.v ===== *)
(** * Initialising an image and the command line of the disk utility

    [initialize] and [main] of [Bootloader/BMFS/bmfs.c]. *)

From Stdlib Require Import String.
From S2P Require Import Prelude Lib UserProg Bmfs.
Local Open Scope Z_scope.

(** ** The size argument *)

Definition isdigit (c : Z) : bool := (48 <=? c) && (c <=? 57).

Definition toupper (c : Z) : Z := if (97 <=? c) && (c <=? 122) then c - 32 else c.

Definition tolower (c : Z) : Z := if (65 <=? c) && (c <=? 90) then c + 32 else c.

(** The power of 1024 that a unit stands for. *)
Definition unit_factor (ch : Z) : option Z :=
  let c := toupper ch in
  if c =? 75 then Some 1 else if c =? 77 then Some 2 else if c =? 71 then Some 3
  else if c =? 84 then Some 4 else if c =? 80 then Some 5 else None.

(** The loop over the characters of [size]: the error that stops it, or
    [diskSize] and [diskSizeFactor].  [first] is [i == 0], [rest] the string
    from [i] on. *)
Fixpoint size_loop (size : list Z) (first : bool) (rest : list Z) (diskSize factor : Z) : Msg + (Z * Z) :=
  match rest with
  | [] => inr (diskSize, factor)
  | ch :: rest =>
      if isdigit ch then
        let n := ch - 48 in
        if u64 (diskSize * 10) >? diskSize then
          size_loop size false rest (u64 (u64 (diskSize * 10) + n)) factor
        else if diskSize =? 0 then size_loop size false rest (diskSize + n) factor
        else inl SizeTooLarge
      else if first then inl SizeNotNumeric
      else
        match unit_factor ch with
        | None => inl (SizeInvalid size)
        | Some factor =>
            if negb (hd 0 rest =? 0) then inl (SizeInvalid size)
            else size_loop size false rest diskSize factor
        end
  end.

(** [while (diskSizeFactor--)]: it goes on after an error.  The errors and
    the size. *)
Fixpoint scale_loop (factor : nat) (diskSize : Z) (errors : list Msg) : list Msg * Z :=
  match factor with
  | O => (errors, diskSize)
  | S factor =>
      if u64 (diskSize * 1024) >? diskSize then scale_loop factor (u64 (diskSize * 1024)) errors
      else scale_loop factor diskSize (errors ++ [SizeTooLarge])
  end.

Definition minimumDiskSize : Z := 6 * 1024 * 1024.

(** The first part of [initialize]: the size in bytes, or the errors. *)
Definition parse_size (size : list Z) : list Msg + Z :=
  match size_loop (cstr size) true (cstr size) 0 0 with
  | inl e => inl [e]
  | inr (diskSize, factor) =>
      let '(errors, diskSize) :=
        if (diskSize >? 0) && (factor >? 0) then scale_loop (Z.to_nat factor) diskSize [] else ([], diskSize) in
      match errors with
      | _ :: _ => inl errors
      | [] => if diskSize <? minimumDiskSize
              then inl [SizeTooSmall minimumDiskSize (minimumDiskSize / (1024 * 1024))]
              else inr diskSize
      end
  end.

(** ** Writing the image *)

Definition bufferSize : nat := 50 * 1024.

Section Initialize.
(** The files that can be read, whether a file can be created, the size up to
    which the host lets the image grow, and whether [malloc] succeeds. *)
Context (readable : list Z -> option (list Z)) (creatable : list Z -> bool) (room : Z) (malloc_ok : bool).

(** [fwrite(buffer, n, 1, disk)] with its result: past [room] it fails and
    sets the error indicator of the stream. *)
Definition fwrite1 (bs : list Z) (f : FILE) : bool * FILE :=
  if f_pos f + Z.of_nat (length bs) >? room
  then (false, mkFILE (f_size f) (f_data f) (f_pos f) true)
  else (true, fwrite bs f).

(** Filling with zeros; [None] when the fuel runs out. *)
Fixpoint fill_zeros (fuel : nat) (writeSize diskSize : Z) (f : FILE) (o : list Msg) :
    option (bool * Z * FILE * list Msg) :=
  if negb (writeSize <? diskSize) then Some (true, writeSize, f, o)
  else
    match fuel with
    | O => None
    | S fuel =>
        let o := o ++ [Formatting writeSize diskSize] in
        let chunkSize := Z.min (Z.of_nat bufferSize) (diskSize - writeSize) in
        let '(ok, f) := fwrite1 (replicate (Z.to_nat chunkSize) 0) f in
        if ok then fill_zeros fuel (writeSize + chunkSize) diskSize f o
        else Some (false, writeSize, f, o ++ [WriteFailed])
    end.

(** The loop that copies a file to the image: a failed write is reported and
    the loop goes on; at the end of the file it is the error indicator of the
    image that is asked for.  [ok] is [ret == 0]. *)
Fixpoint copy_file_loop (fuel : nat) (name src : list Z) (ok : bool) (f : FILE) (o : list Msg) :
    option (bool * FILE * list Msg) :=
  match fuel with
  | O => None
  | S fuel =>
      match take bufferSize src with
      | [] => Some (if f_err f then (false, f, o ++ [ReadFailed name]) else (ok, f, o))
      | chunk =>
          let '(written, f) := fwrite1 chunk f in
          if written then copy_file_loop fuel name (drop bufferSize src) ok f o
          else copy_file_loop fuel name (drop bufferSize src) false f (o ++ [WriteFailed])
      end
  end.

(** [fopen(name, "rb")] of an optional file: [inl] when it cannot be opened. *)
Definition open_opt (name : option (list Z)) (error : list Z -> Msg) : Msg + option (list Z * list Z) :=
  match name with
  | None => inr None
  | Some n =>
      match readable (cstr n) with
      | None => inl (error n)
      | Some src => inr (Some (n, src))
      end
  end.

(** The files, opened in order. *)
Definition open_files (mbr boot kernel : option (list Z)) :
    Msg + (option (list Z * list Z) * option (list Z * list Z) * option (list Z * list Z)) :=
  match open_opt mbr CannotOpenMBR with
  | inl e => inl e
  | inr m =>
      match open_opt boot (CannotOpenBoot (bool_decide (kernel = None))) with
      | inl e => inl e
      | inr b =>
          match open_opt kernel CannotOpenKernel with
          | inl e => inl e
          | inr k => inr (m, b, k)
          end
      end
  end.

(** The master boot record: 512 bytes from the start of its file. *)
Definition write_mbr (m : option (list Z * list Z)) (ok : bool) (f : FILE) (o : list Msg) : bool * FILE * list Msg :=
  match m with
  | Some (name, src) =>
      if negb ok then (ok, f, o)
      else
        let o := o ++ [WritingMBR] in
        let f := fseek 0 f in
        if (512 <=? length src)%nat then
          let '(written, f) := fwrite1 (take 512 src) f in
          if written then (ok, f, o) else (false, f, o ++ [WriteFailed])
        else (false, f, o ++ [ReadFailed name])
  | None => (ok, f, o)
  end.

(** The boot loader, at 8 KiB, and the kernel, behind it. *)
Definition write_part (part : option (list Z * list Z)) (start : option Z) (note : Msg)
    (r : bool * FILE * list Msg) : option (bool * FILE * list Msg) :=
  let '(ok, f, o) := r in
  match part with
  | Some (name, src) =>
      if negb ok then Some r
      else
        let f := match start with Some off => fseek off f | None => f end in
        copy_file_loop (S (length src)) name src ok f (o ++ [note])
  | None => Some r
  end.

(** The value returned, the image if it was opened, and the output. *)
Definition initialize (diskname size : list Z) (mbr boot kernel : option (list Z)) :
    option (Z * option FILE * list Msg) :=
  let system := bool_decide (kernel = None) in
  match parse_size size with
  | inl errors => Some (1, None, errors)
  | inr diskSize =>
      match open_files mbr boot kernel with
      | inl e => Some (1, None, [e])
      | inr (m, b, k) =>
          if negb malloc_ok then Some (1, None, [NoBuffer])
          else if negb (creatable (cstr diskname)) then Some (1, None, [CannotOpenDisk])
          else
            '(filled, writeSize, f, o) ←
              fill_zeros (S (Z.to_nat (diskSize / Z.of_nat bufferSize))) 0 diskSize empty_file [];
            if negb filled then Some (1, Some f, o)
            else
              let s := format (mkBMFS (fseek 0 f) 0 [] [] ∅ (o ++ [Formatted writeSize diskSize])) in
              let r := write_mbr m true (disk s) (out s) in
              r ← write_part b (Some 8192) (WritingBoot system) r;
              '(ok, f, o) ← write_part k None WritingKernel r;
              Some (if ok : bool then (0, Some f, o ++ [InitComplete]) else (1, Some f, o))
      end
  end.
End Initialize.

(** ** The command line *)

(** [strcasecmp(a, b) == 0] *)
Definition strcaseeq (a b : list Z) : bool :=
  bool_decide (map tolower (cstr a) = map tolower (cstr b)).

Definition isspace (c : Z) : bool := (c =? 32) || ((9 <=? c) && (c <=? 13)).

Fixpoint digits_val (acc : Z) (l : list Z) : Z :=
  match l with
  | c :: l => if isdigit c then digits_val (10 * acc + (c - 48)) l else acc
  | [] => acc
  end.

(** [atoi]: undefined when the number does not fit in an [int]. *)
Fixpoint libc_atoi (l : list Z) : option Z :=
  match l with
  | c :: l' =>
      if isspace c then libc_atoi l'
      else
        let v := if c =? 45 then - digits_val 0 l' else if c =? 43 then digits_val 0 l' else digits_val 0 l in
        if (- 2 ^ 31 <=? v) && (v <? 2 ^ 31) then Some v else None
  | [] => Some 0
  end.

(** [fgets]: at most [n] characters, up to and with the new line. *)
Fixpoint libc_fgets (n : nat) (stdin : list Z) : list Z :=
  match n, stdin with
  | S n, c :: stdin => if c =? 10 then [c] else c :: libc_fgets n stdin
  | _, _ => []
  end.

(** The state after [fopen(diskname, "r+b")] and the reads that follow it. *)
Definition open_disk (f : FILE) (files : gmap (list Z) (list Z)) : BMFS :=
  let size := u32 (f_size f / 1048576) in
  let '(info, f) := fread 512 (replicate 512 0) (fseek 1024 f) in
  let '(dir, f) := fread 4096 (replicate 4096 0) (fseek 4096 f) in
  mkBMFS (fseek 0 f) size info dir files [].

Section Main.
Context (qsort : (list Z -> list Z -> Z) -> list (list Z) -> list (list Z)).
Context (creatable : list Z -> bool) (room : Z) (malloc_ok : bool).

(** What [main] does with a file system it has opened. *)
Definition dispatch (command : list Z) (args : list (list Z)) (stdin : list Z) (s : BMFS) : option BMFS :=
  let filename := args !! 0%nat in
  if strcaseeq (lit "list") command then Some (list_files s)
  else if strcaseeq (lit "format") command then
    match args with
    | a :: _ => Some (if strcaseeq a (lit "/FORCE") then format s else say FormatAborted s)
    | [] => Some (say FormatAborted s)
    end
  else if strcaseeq (lit "create") command then
    match filename with
    | None => Some (say NoFileName s)
    | Some name =>
        match args !! 1%nat with
        | Some a =>
            filesize ← libc_atoi (cstr a);
            if filesize >=? 1 then create qsort name filesize s else Some (say InvalidSize s)
        | None =>
            let s := say AskSize s in
            n ← libc_atoi (libc_fgets 31 stdin);
            let filesize := u32 n in
            if filesize >=? 1 then create qsort name filesize s else Some (say InvalidSize s)
        end
    end
  else if strcaseeq (lit "read") command then read creatable filename s
  else if strcaseeq (lit "write") command then write filename s
  else if strcaseeq (lit "delete") command then delete filename s
  else Some (say UnknownCommand s).

(** [main]: the exit status, the image, the other files and the output.
    [image] is the contents of the file [argv[1]], if there is one; [files]
    are the others; [argv] is without the name of the program. *)
Definition main (argv : list (list Z)) (stdin : list Z) (image : option FILE) (files : gmap (list Z) (list Z)) :
    option (Z * option FILE * gmap (list Z) (list Z) * list Msg) :=
  match argv with
  | diskname :: command :: args =>
      if strcaseeq (lit "initialize") command then
        match args with
        | size :: opt =>
            '(ret, img, o) ← initialize (fun n => files !! n) creatable room malloc_ok diskname size
                               (opt !! 0%nat) (opt !! 1%nat) (opt !! 2%nat);
            Some (ret, match img with Some f => Some f | None => image end, files, o)
        | [] => Some (1, image, files, [UsageInitialize])
        end
      else
        match image with
        | None => Some (0, None, files, [CannotOpenDisk])
        | Some f =>
            let s := open_disk f files in
            s ← (if negb (strcaseeq (DiskInfo s) fs_tag) then
                   Some (if strcaseeq (lit "format") command then format s else say NotBMFS s)
                 else dispatch command args stdin s);
            Some (0, Some (disk s), local s, out s)
        end
  | _ => Some (0, image, files, [Usage])
  end.
End Main.
