(* ===== verification/BmfsFile.v ===== *)
(** * The image as stored bytes

    Streams of [Bmfs] as the bytes they hold, the abstract file system that an
    image represents, and that every store keeps the rest of it. *)

From S2P Require Import Prelude Lib Bmfs BmfsDir BmfsCreate BmfsInit.
Local Open Scope Z_scope.

(** ** Reading and writing bytes *)

Lemma length_file_bytes f off n :
  0 <= n -> off + n <= f_size f -> length (file_bytes f off n) = Z.to_nat n.
Proof. intros. unfold file_bytes. rewrite length_fmap, length_seqZ. lia. Qed.

Lemma geti_file_bytes f off n i :
  off + n <= f_size f -> 0 <= i < n -> (file_bytes f off n).[i] = f_data f (off + i).
Proof.
  intros. unfold file_bytes, geti. case_if; [|lia].
  apply list_lookup_total_correct. rewrite list_lookup_fmap, lookup_seqZ_lt by lia. cbn. do 2 f_equal. lia.
Qed.

Lemma file_bytes_eq f off n l :
  0 <= n -> off + n <= f_size f -> Z.of_nat (length l) = n ->
  (forall i, 0 <= i < n -> f_data f (off + i) = l.[i]) -> file_bytes f off n = l.
Proof.
  intros Hn Hs Hl Hi. apply list_eq_geti; rewrite length_file_bytes by done; [lia|].
  intros i Hb. rewrite geti_file_bytes by lia. apply Hi. lia.
Qed.

(** [f'] is [f] with [bs] at [p], inside the file. *)
Record stored (p : Z) (bs : list Z) (f f' : FILE) : Prop := {
  st_size : f_size f' = f_size f;
  st_byte i : 0 <= i < f_size f ->
    f_data f' i = if (p <=? i) && (i <? p + Z.of_nat (length bs)) then bs.[i - p] else f_data f i
}.

Lemma fwrite_stored p bs f :
  0 <= p -> p + Z.of_nat (length bs) <= f_size f -> stored p bs f (fwrite bs (fseek p f)).
Proof.
  intros Hp Hs. unfold fwrite, fseek. split; cbn; [lia|]. intros i Hi. case_if; [done|]. by case_if; [|lia].
Qed.

Lemma copy_in_stored p bs f :
  Forall is_byte bs -> 0 <= p -> p + Z.of_nat (length bs) <= f_size f -> f_pos f = p ->
  stored p bs f (copy_in bs f).
Proof.
  intros Hb. revert p f. induction Hb as [|b bs Hb _ IH]; intros p f Hp Hs Hpos; cbn [copy_in].
  { split; [done|]. intros i Hi. cbn. by case_if; [lia|]. }
  cbn [length] in Hs. assert (f_size (putc b f) = f_size f) as Esz by (cbn; lia).
  destruct (IH (p + 1) (putc b f)) as [H1 H2]; [lia|lia|cbn; lia|].
  split; [congruence|]. intros i Hi. rewrite H2 by lia. cbn [putc fwrite f_data length].
  rewrite Hpos. repeat case_if; try lia.
  - change (b :: bs) with ([b] ++ bs). rewrite geti_app by lia. cbn [length]. case_if; [lia|]. f_equal. lia.
  - replace (i - p) with 0 by lia. change ([u8 b].[0]) with (u8 b). change ((b :: bs).[0]) with b.
    by apply u8_small.
Qed.

Lemma stored_same p bs f f' :
  stored p bs f f' -> 0 <= p -> p + Z.of_nat (length bs) <= f_size f ->
  file_bytes f' p (Z.of_nat (length bs)) = bs.
Proof.
  intros [H1 H2] Hp Hs. apply file_bytes_eq; [lia|lia|done|]. intros i Hi. rewrite H2 by lia.
  case_if; [|lia]. f_equal. lia.
Qed.

Lemma stored_other p bs f f' off n :
  stored p bs f f' -> 0 <= off -> 0 <= n -> off + n <= f_size f ->
  off + n <= p \/ p + Z.of_nat (length bs) <= off -> file_bytes f' off n = file_bytes f off n.
Proof.
  intros [H1 H2] Ho Hn Hs Hd. apply file_bytes_eq; [lia|lia|rewrite length_file_bytes; lia|].
  intros i Hi. rewrite H2, geti_file_bytes by lia. by case_if; [lia|].
Qed.

(** [getc] and [putc] in a loop copy the bytes of the file. *)
Lemma copy_out_spec n f acc :
  (forall i, 0 <= i < f_size f -> is_byte (f_data f i)) -> 0 <= f_pos f -> f_pos f + Z.of_nat n <= f_size f ->
  copy_out n f acc = (fseek (f_pos f + Z.of_nat n) f, acc ++ file_bytes f (f_pos f) (Z.of_nat n)).
Proof.
  intros Hb. revert f Hb acc. induction n as [|n IH]; intros f Hb acc Hp Hs; cbn [copy_out].
  - unfold file_bytes, fseek. rewrite Z.min_l, Z.add_0_r by lia. cbn. rewrite app_nil_r. by destruct f.
  - unfold getc. case_if; [|lia]. rewrite IH; [|done|cbn; lia|cbn; lia]. cbn [fseek f_pos f_size f_data f_err].
    f_equal; [unfold fseek; cbn; f_equal; lia|].
    rewrite u8_small by (apply Hb; lia). rewrite <- app_assoc. f_equal.
    unfold file_bytes. cbn [fseek f_size f_data]. rewrite !Z.min_l by lia.
    rewrite (seqZ_cons (f_pos f) (Z.of_nat (S n))) by lia. cbn. do 3 f_equal; lia.
Qed.

(** ** The abstract file system *)

(** A file has blocks reserved for it and contents. *)
Record AFile := mkAFile { cap : Z; body : list Z }.

Definition last_block (s : BMFS) : Z := disksize s / 2 - 1.

(** The contents of the file of an entry. *)
Definition contents (f : FILE) (e : list Z) : list Z := file_bytes f (StartingBlock e * BLOCK) (FileSize e).

(** What is loaded is what is on the disk, and the disk has its size. *)
Record loaded (s : BMFS) : Prop := {
  lo_info : file_bytes (disk s) 1024 512 = DiskInfo s;
  lo_dir : file_bytes (disk s) 4096 4096 = Directory s;
  lo_tag : strcaseeq (DiskInfo s) fs_tag = true;
  lo_size : disksize s = f_size (disk s) / 1048576;
  lo_last : 0 < last_block s < 2 ^ 31 - 1;
  lo_bytes i : 0 <= i < f_size (disk s) -> is_byte (f_data (disk s) i)
}.

(** The state represents the file system [F]. *)
Record fs_rep (s : BMFS) (F : gmap (list Z) AFile) : Prop := {
  fr_loaded : loaded s;
  fr_dir : dir_ok (last_block s) (Directory s);
  fr_file n f : F !! n = Some f <->
    exists i, live (Directory s) i /\ FileName (entry_at (Directory s) i) = n /\
      f = mkAFile (ReservedBlocks (entry_at (Directory s) i)) (contents (disk s) (entry_at (Directory s) i))
}.

(** The blocks up to the last one are on the disk. *)
Lemma loaded_room s b : loaded s -> b <= last_block s -> (b + 1) * BLOCK <= f_size (disk s).
Proof. intros [_ _ _ Hs Hl _] Hb. unfold last_block, BLOCK in *. Z.to_euclidean_division_equations. lia. Qed.

Lemma loaded_big s : loaded s -> 2 * BLOCK <= f_size (disk s).
Proof. intros H. pose proof (loaded_room s 1 H). destruct H. lia. Qed.

Lemma entry_area s e :
  loaded s -> entry_ok (last_block s) e ->
  BLOCK <= StartingBlock e * BLOCK /\ 0 <= FileSize e /\
  StartingBlock e * BLOCK + ReservedBlocks e * BLOCK <= f_size (disk s) /\ FileSize e <= ReservedBlocks e * BLOCK /\
  u64 (StartingBlock e * BLOCK) = StartingBlock e * BLOCK /\ u64 (ReservedBlocks e * BLOCK) = ReservedBlocks e * BLOCK.
Proof.
  intros Hl [_ H1 H2 H3 H4]. pose proof (loaded_room s _ Hl H3) as Hr. destruct Hl as [_ _ _ _ Hb _].
  unfold area_end, BLOCK in *. rewrite !u64_small by lia. lia.
Qed.

Lemma contents_size s e : loaded s -> entry_ok (last_block s) e -> Z.of_nat (length (contents (disk s) e)) = FileSize e.
Proof.
  intros Hl He. destruct (entry_area s e Hl He) as (H1 & H2 & H3 & H4 & _).
  unfold contents. rewrite length_file_bytes; unfold BLOCK in *; lia.
Qed.
