(* ===== verification/BmfsOps.v ===== *)
(** * The operations of the disk utility on the abstract file system

    [create], [write], [read], [delete] and [format] of [Bmfs] as changes of
    the file system that the image represents. *)

From S2P Require Import Prelude Lib Bmfs BmfsDir BmfsCreate BmfsInit BmfsFile.
Local Open Scope Z_scope.

(** ** Bytes of the directory *)

Lemma blit_forall (P : Z -> Prop) off bs l l' :
  Forall P l -> Forall P bs -> blit off bs l = Some l' -> Forall P l'.
Proof.
  intros Hl Hb. unfold blit. case_if; [done|]. intros [= <-].
  apply list.Forall_app. split; [by apply Forall_take|]. apply list.Forall_app. split; [done|by apply Forall_drop].
Qed.

Lemma le_bytes_byte n v : Forall is_byte (le_bytes n v).
Proof. revert v. induction n as [|n IH]; intros v; cbn; constructor; [apply Z.mod_pos_bound; lia|apply IH]. Qed.

Lemma geti_byte (l : list Z) i : Forall is_byte l -> 0 <= i < Z.of_nat (length l) -> is_byte (l.[i]).
Proof.
  intros Hl Hi. rewrite list.Forall_lookup in Hl. apply (Hl (Z.to_nat i)).
  unfold geti. case_if; [|lia]. apply list_lookup_lookup_total_lt. lia.
Qed.

Lemma loaded_dir_bytes s : loaded s -> Forall is_byte (Directory s) /\ length (Directory s) = 4096%nat.
Proof.
  intros Hl. pose proof (loaded_big s Hl) as Hb. unfold BLOCK in Hb. destruct Hl as [_ <- _ _ _ Hb'].
  split; [|rewrite length_file_bytes; lia]. unfold file_bytes. apply list.Forall_forall.
  intros x (i & -> & Hi%elem_of_seqZ)%list_elem_of_fmap. apply Hb'. lia.
Qed.

Lemma stored_bytes p bs f f' :
  stored p bs f f' -> Forall is_byte bs -> 0 <= p ->
  (forall i, 0 <= i < f_size f -> is_byte (f_data f i)) -> forall i, 0 <= i < f_size f' -> is_byte (f_data f' i).
Proof.
  intros [H1 H2] Hb Hp Hf i Hi. rewrite H2 by lia. case_if; [|apply Hf; lia]. apply geti_byte; [done|lia].
Qed.

(** ** Changing one entry *)

(** A directory and a disk that differ from those of a state in entry [i], the
    file [name]. *)
Record changed (s : BMFS) (name : list Z) (i : Z) (d' : list Z) (f' : FILE) : Prop := {
  ch_length : length d' = 4096%nat;
  ch_live j : j <> i -> live d' j <-> live (Directory s) j;
  ch_entry j : live (Directory s) j -> j <> i -> entry_at d' j = entry_at (Directory s) j;
  ch_name j : live (Directory s) j -> j <> i -> FileName (entry_at (Directory s) j) <> name;
  ch_same : live (Directory s) i -> FileName (entry_at (Directory s) i) = name;
  ch_new : live d' i -> entry_ok (last_block s) (entry_at d' i) /\ FileName (entry_at d' i) = name /\
    forall j, live (Directory s) j -> j <> i -> apart (entry_at d' i) (entry_at (Directory s) j);
  ch_size : f_size f' = f_size (disk s);
  ch_bytes x : 0 <= x < f_size f' -> is_byte (f_data f' x);
  ch_info : file_bytes f' 1024 512 = DiskInfo s;
  ch_dir : file_bytes f' 4096 4096 = d';
  ch_contents j : live (Directory s) j -> j <> i ->
    contents f' (entry_at (Directory s) j) = contents (disk s) (entry_at (Directory s) j)
}.

Lemma changed_dir s F name i d' f' :
  fs_rep s F -> changed s name i d' f' -> dir_ok (last_block s) d'.
Proof.
  intros [Hl Hd _] C. split; [by destruct C|..].
  - intros j Hj. destruct (decide (j = i)) as [->|Hne]; [by apply (ch_new _ _ _ _ _ C)|].
    apply (ch_live _ _ _ _ _ C) in Hj; [|done]. rewrite (ch_entry _ _ _ _ _ C) by done. by apply (do_entry _ _ Hd).
  - intros j k Hj Hk Hne.
    destruct (decide (j = i)) as [->|Hji], (decide (k = i)) as [->|Hki]; [done|..].
    + apply (ch_live _ _ _ _ _ C) in Hk; [|done]. rewrite (ch_entry _ _ _ _ _ C k) by done.
      destruct (ch_new _ _ _ _ _ C Hj) as (_ & -> & Ha). split; [|by apply Ha].
      intros E. by eapply (ch_name _ _ _ _ _ C k).
    + apply (ch_live _ _ _ _ _ C) in Hj; [|done]. rewrite (ch_entry _ _ _ _ _ C j) by done.
      destruct (ch_new _ _ _ _ _ C Hk) as (_ & -> & Ha). split; [by apply (ch_name _ _ _ _ _ C)|].
      destruct (Ha j Hj Hji) as [?|?]; [by right|by left].
    + apply (ch_live _ _ _ _ _ C) in Hj, Hk; [|done..].
      rewrite !(ch_entry _ _ _ _ _ C) by done. by apply (do_apart _ _ Hd).
Qed.

Lemma changed_rep s F F' name i d' f' l o :
  fs_rep s F -> changed s name i d' f' ->
  (forall n, n <> name -> F' !! n = F !! n) ->
  (live d' i /\ F' !! name = Some (mkAFile (ReservedBlocks (entry_at d' i)) (contents f' (entry_at d' i)))) \/
  (~ live d' i /\ F' !! name = None) ->
  fs_rep (mkBMFS f' (disksize s) (DiskInfo s) d' l o) F'.
Proof.
  intros Hrep C HF Hi. pose proof (changed_dir _ _ _ _ _ _ Hrep C) as Hdir.
  destruct Hrep as [[H1 H2 H3 H4 H5 H6] Hd Hf]. split; cbn.
  - split; cbn; [by destruct C..|done| |done|by destruct C]. by rewrite (ch_size _ _ _ _ _ C).
  - done.
  - intros n g. destruct (decide (n = name)) as [->|Hn].
    + split.
      * intros E. destruct Hi as [[Hi E']|[_ E']]; rewrite E in E'; [|done]. injection E' as ->.
        exists i. split; [done|]. split; [|done]. by apply (ch_new _ _ _ _ _ C).
      * intros (j & Hj & En & ->). destruct (decide (j = i)) as [->|Hne].
        { destruct Hi as [[_ E]|[? _]]; [by rewrite E|done]. }
        apply (ch_live _ _ _ _ _ C) in Hj; [|done]. rewrite (ch_entry _ _ _ _ _ C) in En by done.
        by destruct (ch_name _ _ _ _ _ C j).
    + rewrite HF by done. rewrite Hf. split; intros (j & Hj & En & ->).
      * assert (j <> i) as Hne by (intros ->; apply Hn; rewrite <- En; by apply (ch_same _ _ _ _ _ C)).
        exists j. rewrite (ch_entry _ _ _ _ _ C), (ch_contents _ _ _ _ _ C) by done.
        split_and!; [by apply (ch_live _ _ _ _ _ C)|done|done].
      * assert (j <> i) as Hne by (intros ->; apply Hn; rewrite <- En; by apply (ch_new _ _ _ _ _ C)).
        apply (ch_live _ _ _ _ _ C) in Hj; [|done].
        rewrite (ch_entry _ _ _ _ _ C), (ch_contents _ _ _ _ _ C) in * by done. by exists j.
Qed.

(** ** Flushing the directory *)

(** Bytes from block 1 on, and the first block before the directory. *)
Lemma flush_spec s f d :
  loaded s -> f_size f = f_size (disk s) -> (forall x, 0 <= x < f_size f -> is_byte (f_data f x)) ->
  file_bytes f 1024 512 = DiskInfo s -> length d = 4096%nat -> Forall is_byte d ->
  let f' := fwrite d (fseek 4096 f) in
  f_size f' = f_size (disk s) /\ (forall x, 0 <= x < f_size f' -> is_byte (f_data f' x)) /\
  file_bytes f' 1024 512 = DiskInfo s /\ file_bytes f' 4096 4096 = d /\
  forall e, entry_ok (last_block s) e -> contents f' e = contents f e.
Proof.
  intros Hl Hs Hb Hi Hd Hdb. cbv zeta. pose proof (loaded_big s Hl) as Hbig. unfold BLOCK in Hbig.
  pose proof (fwrite_stored 4096 d f ltac:(lia) ltac:(lia)) as Hst.
  set (f' := fwrite d (fseek 4096 f)) in *. clearbody f'.
  split; [rewrite (st_size _ _ _ _ Hst); lia|]. split; [eapply stored_bytes; [done..|lia|done]|]. split_and!.
  - rewrite <- Hi. eapply stored_other; [done|lia..].
  - replace 4096 with (Z.of_nat (length d)) at 2 by lia. eapply stored_same; [done|lia|lia].
  - intros e He. destruct (entry_area s e Hl He) as (H1 & H2 & H3 & H4 & _). unfold BLOCK in *.
    unfold contents, BLOCK. eapply stored_other; [done|lia..].
Qed.

(** ** Finding a file *)

Lemma rep_found s F n f :
  fs_rep s F -> F !! cstr n = Some f ->
  exists i, findfile (Some n) s = Some (Some (entry_at (Directory s) i, i)) /\ live (Directory s) i /\
    FileName (entry_at (Directory s) i) = cstr n /\ entry_ok (last_block s) (entry_at (Directory s) i) /\
    f = mkAFile (ReservedBlocks (entry_at (Directory s) i)) (contents (disk s) (entry_at (Directory s) i)).
Proof.
  intros [Hl Hd Hf] E. apply Hf in E as (j & Hj & Hn & ->).
  destruct (findfile_spec n s) as [[_ Hno]|(i & Ei & Hi & En)]; [by destruct (Hno j Hj)|].
  assert (i = j) as ->.
  { destruct (decide (i = j)) as [|Hne]; [done|]. destruct (do_apart _ _ Hd i j) as [H _]; [done..|]. congruence. }
  exists j. do 3 (split; [done|]). split; [by apply (do_entry _ _ Hd)|done].
Qed.

Lemma rep_absent s F n : fs_rep s F -> F !! cstr n = None -> findfile (Some n) s = Some None.
Proof.
  intros [_ _ Hf] E. destruct (findfile_spec n s) as [[-> _]|(i & Ei & Hi & En)]; [done|].
  assert (is_Some (F !! cstr n)) as [? ?]; [|congruence]. eexists. apply Hf. eauto.
Qed.

(** Only the image and its directory matter. *)
Lemma rep_output s F l o :
  fs_rep s F -> fs_rep (mkBMFS (disk s) (disksize s) (DiskInfo s) (Directory s) l o) F.
Proof. intros [[] Hd Hf]. split; [by split|done|done]. Qed.

Lemma rep_say s F m : fs_rep s F -> fs_rep (say m s) F.
Proof. apply rep_output. Qed.

Lemma rep_names s F i : fs_rep s F -> live (Directory s) i ->
  forall j, live (Directory s) j -> j <> i ->
    FileName (entry_at (Directory s) j) <> FileName (entry_at (Directory s) i) /\
    apart (entry_at (Directory s) i) (entry_at (Directory s) j).
Proof.
  intros [_ Hd _] Hi j Hj Hne. split; [by apply (do_apart _ _ Hd)|].
  apply (do_apart _ _ Hd); [done..|]. congruence.
Qed.

Lemma live_range d i : live d i -> 0 <= i < 64.
Proof. by intros [[? _] _]. Qed.

Lemma live_ext d d' : (forall j, 0 <= j < 64 -> marker d' j = marker d j) -> forall j, live d' j <-> live d j.
Proof.
  intros E j. unfold live, used. split; intros [[Hj Hu] Hm]; (split; [split; [done|]|]).
  - intros k Hk. rewrite <- E by lia. by apply Hu.
  - by rewrite <- E.
  - intros k Hk. rewrite E by lia. by apply Hu.
  - by rewrite E.
Qed.

Lemma patched_first k bs e e' : 1 <= k -> patched k bs e e' -> e'.[0] = e.[0].
Proof. intros Hk [_ H]. rewrite H by lia. by case_if; [lia|]. Qed.

(** ** [write] *)

(** The directory with a new size in a live entry. *)
Lemma size_entry s F i v :
  fs_rep s F -> live (Directory s) i ->
  0 <= v <= ReservedBlocks (entry_at (Directory s) i) * BLOCK -> v < 2 ^ 31 ->
  exists d', blit (i * 64 + 48) (le_bytes 8 v) (Directory s) = Some d' /\
    length d' = 4096%nat /\ Forall is_byte d' /\ (forall j, live d' j <-> live (Directory s) j) /\
    (forall j, live (Directory s) j -> j <> i -> entry_at d' j = entry_at (Directory s) j) /\
    entry_ok (last_block s) (entry_at d' i) /\
    FileName (entry_at d' i) = FileName (entry_at (Directory s) i) /\
    StartingBlock (entry_at d' i) = StartingBlock (entry_at (Directory s) i) /\
    ReservedBlocks (entry_at d' i) = ReservedBlocks (entry_at (Directory s) i) /\ FileSize (entry_at d' i) = v.
Proof.
  intros [Hl Hd _] Hi Hv Hv'. pose proof (live_range _ _ Hi) as Hr.
  destruct (loaded_dir_bytes s Hl) as [Hb Hlen]. pose proof (do_entry _ _ Hd i Hi) as [E1 E2 E3 E4 E5].
  destruct (blit_entry (Directory s) i 48 (le_bytes 8 v)) as (d' & E & Hlen' & Hp & Ho);
    [done|done|lia|rewrite le_bytes_length; lia|].
  pose proof (length_entry_at _ _ Hlen Hr) as Hle.
  assert (FileName (entry_at d' i) = FileName (entry_at (Directory s) i)) as En
    by (eapply (patched_name_ne 48); [done|done|lia|done]).
  assert (StartingBlock (entry_at d' i) = StartingBlock (entry_at (Directory s) i)) as Es
    by (eapply (patched_field_ne _ 48); [done|lia|right; lia|done]).
  assert (ReservedBlocks (entry_at d' i) = ReservedBlocks (entry_at (Directory s) i)) as Er
    by (eapply (patched_field_ne _ 48); [done|lia|right; lia|done]).
  assert (FileSize (entry_at d' i) = v) as Ev by (eapply (patched_field_eq 48); [lia|lia|done]).
  exists d'. split; [done|]. split; [done|].
  split; [eapply blit_forall; [exact Hb|apply le_bytes_byte|done]|].
  split_and!; [..|done|done|done|done].
  - apply live_ext. intros j Hj. destruct (decide (j = i)) as [->|Hne]; unfold marker; [|by rewrite Ho].
    eapply (patched_first 48); [lia|done].
  - intros j Hj Hne. apply Ho; [by eapply live_range|done].
  - split; unfold name_ok, area_end in *; rewrite ?En, ?Es, ?Er, ?Ev; done.
Qed.

Lemma contents_ext f e e' :
  StartingBlock e = StartingBlock e' -> FileSize e = FileSize e' -> contents f e = contents f e'.
Proof. unfold contents. by intros -> ->. Qed.

Lemma write_rep s F n f bs :
  fs_rep s F -> F !! cstr n = Some f -> local s !! cstr n = Some bs ->
  Forall is_byte bs -> Z.of_nat (length bs) < 2 ^ 31 ->
  exists s', write (Some n) s = Some s' /\ local s' = local s /\
    if Z.of_nat (length bs) <=? cap f * BLOCK
    then fs_rep s' (<[cstr n := mkAFile (cap f) bs]> F) /\ out s' = out s ++ [Writing n; Complete]
    else fs_rep s' F /\ out s' = out s ++ [Writing n; NotEnoughRoom].
Proof.
  intros Hrep Hf Hloc Hbs Hlen. pose proof (fr_loaded _ _ Hrep) as Hl.
  destruct (rep_found _ _ _ _ Hrep Hf) as (i & Ei & Hi & En & He & ->). cbn [cap].
  destruct (entry_area s _ Hl He) as (A1 & A2 & A3 & A4 & A5 & A6).
  unfold write. rewrite Ei. cbn -[Z.mul u64 Z.pow le_bytes blit copy_in fwrite fseek]. rewrite Hloc. cbn -[Z.mul u64 Z.pow le_bytes blit copy_in fwrite fseek]. rewrite A6, A5.
  destruct (Z.ltb_spec (ReservedBlocks (entry_at (Directory s) i) * BLOCK) (Z.of_nat (length bs))) as [Hno|Hfit].
  { eexists. split; [reflexivity|]. split; [done|]. case_if; [lia|].
    split; [by apply rep_say, rep_say|]. cbn. by rewrite <- app_assoc. }
  unfold counts. replace (Z.of_nat (length bs) <? 2 ^ 31) with true by lia. cbn [negb].
  destruct (size_entry s F i (Z.of_nat (length bs)) Hrep Hi) as (d' & Ed & Hdl & Hdb & Hlive & Hoth & Hok & N1 & N2 & N3 & N4);
    [lia|lia|].
  rewrite Ed. eexists. split; [reflexivity|]. split; [done|]. case_if; [|lia].
  split; [|cbn; by rewrite <- app_assoc].
  set (p := StartingBlock (entry_at (Directory s) i) * BLOCK) in *.
  pose proof (copy_in_stored p bs (fseek p (disk s)) Hbs ltac:(unfold BLOCK in *; lia) ltac:(cbn; lia) eq_refl) as Hst.
  set (f1 := copy_in bs (fseek p (disk s))) in *.
  assert (f_size f1 = f_size (disk s)) as Hs1 by apply (st_size _ _ _ _ Hst).
  destruct (flush_spec s f1 d' Hl Hs1) as (S1 & S2 & S3 & S4 & S5); [|..|done|done|].
  { eapply (stored_bytes p bs); [done|done|unfold BLOCK in *; lia|]. apply (lo_bytes _ Hl). }
  { rewrite (stored_other p bs _ f1 1024 512 Hst) by (unfold BLOCK in *; cbn; lia). apply (lo_info _ Hl). }
  assert (forall j, live (Directory s) j -> j <> i ->
    contents f1 (entry_at (Directory s) j) = contents (disk s) (entry_at (Directory s) j)) as Hc1.
  { intros j Hj Hne. destruct (rep_names s F i Hrep Hi j Hj Hne) as [_ Ha].
    pose proof (do_entry _ _ (fr_dir _ _ Hrep) j Hj) as Hej. destruct (entry_area s _ Hl Hej) as (B1 & B2 & B3 & B4 & _).
    apply (stored_other p bs (fseek p (disk s))); [done|unfold apart, area_end, p, BLOCK in *; cbn; lia..]. }
  apply (changed_rep s F _ (cstr n) i d' (fwrite d' (fseek 4096 f1))); [done| | |].
  - split; try done.
    + intros j Hj Hne. rewrite <- En. by apply (rep_names s F i).
    + intros _. split_and!; [done|congruence|]. intros j Hj Hne.
      destruct (rep_names s F i Hrep Hi j Hj Hne) as [_ Ha]. unfold apart, area_end in *. by rewrite N2, N3.
    + intros j Hj Hne. rewrite <- Hc1 by done. apply S5. by apply (do_entry _ _ (fr_dir _ _ Hrep)).
  - intros m Hm. by apply lookup_insert_ne.
  - left. split; [by apply Hlive|]. rewrite lookup_insert_eq, N3. do 2 f_equal. symmetry.
    rewrite S5 by done. unfold contents. rewrite N2, N4. apply (stored_same p bs (fseek p (disk s))); [done|unfold BLOCK in *; lia|cbn; lia].
Qed.

(** ** [read] *)

Lemma read_rep creatable s F n f :
  fs_rep s F -> F !! cstr n = Some f -> creatable (cstr n) = true -> Z.of_nat (length (body f)) < 2 ^ 31 ->
  exists s', read creatable (Some n) s = Some s' /\ fs_rep s' F /\
    local s' = <[cstr n := body f]> (local s) /\ out s' = out s ++ [Reading n; Complete].
Proof.
  intros Hrep Hf Hc Hlen. pose proof (fr_loaded _ _ Hrep) as Hl.
  destruct (rep_found _ _ _ _ Hrep Hf) as (i & Ei & Hi & En & He & ->). cbn [body] in *.
  rewrite (contents_size s) in Hlen by done. destruct (entry_area s _ Hl He) as (A1 & A2 & A3 & A4 & A5 & A6).
  unfold read. rewrite Ei. cbn [mbind option_bind]. rewrite En, Hc, A5. cbn [negb].
  unfold counts. replace (FileSize _ <? 2 ^ 31) with true by lia. cbn [negb].
  rewrite copy_out_spec; [|apply (lo_bytes _ Hl)|cbn; unfold BLOCK in *; lia|cbn; unfold BLOCK in *; lia].
  rewrite Z2Nat.id by done. eexists. split; [reflexivity|]. split; [|split; [done|cbn; by rewrite <- app_assoc]].
  destruct Hrep as [[] Hd Hf']. split; [by split|done|done].
Qed.

(** ** [delete] *)

(** Entry [i] is in use before and after the change. *)
Lemma live_change d d' i :
  used d i -> marker d' i <> 0 -> (forall j, 0 <= j < 64 -> j <> i -> marker d' j = marker d j) ->
  (forall j, j <> i -> live d' j <-> live d j) /\ used d' i.
Proof.
  intros [Hi Hu] Hm Hs.
  assert (forall j, 0 <= j < 64 -> marker d' j <> 0 <-> marker d j <> 0) as Hz.
  { intros j Hj. destruct (decide (j = i)) as [->|Hne]; [|by rewrite Hs]. split; [intros _; apply Hu; lia|done]. }
  split.
  - intros j Hne. unfold live, used. split; intros [[Hj Hv] Hn]; (split; [split; [done|]|]).
    + intros k Hk. apply Hz; [lia|]. by apply Hv.
    + by rewrite <- Hs.
    + intros k Hk. apply Hz; [lia|]. by apply Hv.
    + by rewrite Hs.
  - split; [done|]. intros j Hj. apply Hz; [lia|]. by apply Hu.
Qed.

Lemma delete_rep s F n f :
  fs_rep s F -> F !! cstr n = Some f ->
  exists s', delete (Some n) s = Some s' /\ fs_rep s' (base.delete (cstr n) F) /\
    local s' = local s /\ out s' = out s ++ [Deleting n; Complete].
Proof.
  intros Hrep Hf. pose proof (fr_loaded _ _ Hrep) as Hl. pose proof (fr_dir _ _ Hrep) as Hd.
  destruct (rep_found _ _ _ _ Hrep Hf) as (i & Ei & Hi & En & _ & _).
  destruct (loaded_dir_bytes s Hl) as [Hb Hlen]. pose proof (live_range _ _ Hi) as Hr.
  destruct (blit_entry (Directory s) i 0 [1]) as (d' & Ed & Hlen' & Hp & Ho); [done|done|lia|cbn; lia|].
  unfold delete. rewrite Ei. cbn [mbind option_bind]. rewrite Z.add_0_r in Ed.
  change (Directory (say (Deleting (default [] (Some n))) s)) with (Directory s). rewrite Ed.
  eexists. split; [reflexivity|]. split; [|split; [done|cbn; by rewrite <- app_assoc]].
  assert (marker d' i = 1) as Hm by (unfold marker; rewrite (pa_byte _ _ _ _ Hp) by lia; done).
  destruct (live_change (Directory s) d' i) as [Hlive _]; [by destruct Hi|lia|by intros; unfold marker; rewrite Ho|].
  destruct (flush_spec s (disk s) d' Hl eq_refl) as (S1 & S2 & S3 & S4 & S5);
    [apply (lo_bytes _ Hl)|apply (lo_info _ Hl)|done| |].
  { eapply blit_forall; [exact Hb| |done]. by repeat constructor. }
  apply (changed_rep s F _ (cstr n) i d' (fwrite d' (fseek 4096 (disk s)))); [done| | |].
  - split; try done.
    + intros j Hj Hne. apply Ho; [by eapply live_range|done].
    + intros j Hj Hne. rewrite <- En. by apply (rep_names s F i).
    + by intros [_ ?].
    + intros j Hj Hne. by apply S5, (do_entry _ _ Hd).
  - intros m Hm'. by apply lookup_delete_ne.
  - right. split; [by intros [_ ?]|]. apply lookup_delete_eq.
Qed.

(** ** [create] *)

Definition valid_name (n : list Z) : Prop :=
  (0 < length (cstr n) < 32)%nat /\ hd 0 (cstr n) <> 1 /\ Forall is_byte (cstr n).

(** The record that [create] adds. *)
Lemma add_entry_spec d i start blocks n :
  length d = 4096%nat -> Forall is_byte d -> 0 <= i < 64 -> 0 <= start < 2 ^ 64 -> 0 <= blocks < 2 ^ 64 ->
  valid_name n ->
  exists d', add_entry i start blocks n d = Some d' /\ length d' = 4096%nat /\ Forall is_byte d' /\
    (forall j, 0 <= j < 64 -> j <> i -> entry_at d' j = entry_at d j) /\
    FileName (entry_at d' i) = cstr n /\ StartingBlock (entry_at d' i) = start /\
    ReservedBlocks (entry_at d' i) = blocks /\ FileSize (entry_at d' i) = 0 /\
    marker d' i <> 0 /\ marker d' i <> 1.
Proof.
  intros Hd Hb Hi Hs Hk (Hn1 & Hn2 & Hn3). unfold add_entry.
  destruct (blit_entry d i 32 (le_bytes 8 start)) as (d1 & E1 & L1 & P1 & O1); [done|done|lia|rewrite le_bytes_length; lia|].
  destruct (blit_entry d1 i 40 (le_bytes 8 blocks)) as (d2 & E2 & L2 & P2 & O2); [done|done|lia|rewrite le_bytes_length; lia|].
  destruct (blit_entry d2 i 48 (le_bytes 8 0)) as (d3 & E3 & L3 & P3 & O3); [done|done|lia|rewrite le_bytes_length; lia|].
  destruct (blit_entry d3 i 0 (cstr n ++ [0])) as (d4 & E4 & L4 & P4 & O4); [done|done|lia|rewrite length_app; cbn; lia|].
  rewrite E1. cbn [mbind option_bind]. rewrite E2. cbn [mbind option_bind]. rewrite E3. cbn [mbind option_bind].
  rewrite Z.add_0_r in E4. rewrite E4. exists d4. split; [done|]. split; [done|].
  pose proof (length_entry_at _ _ L1 Hi). pose proof (length_entry_at _ _ L2 Hi). pose proof (length_entry_at _ _ L3 Hi).
  pose proof (length_entry_at _ _ L4 Hi) as Hl4.
  assert (FileName (entry_at d4 i) = cstr n) as En by (by apply (patched_name_eq n (entry_at d3 i)); [lia|]).
  assert (Z.of_nat (length (cstr n ++ [0])) <= 32) as Hl by (rewrite length_app; cbn; lia).
  split_and!.
  - eapply blit_forall; [|apply list.Forall_app; split; [exact Hn3|by repeat constructor]|exact E4].
    eapply blit_forall; [|apply le_bytes_byte|exact E3]. eapply blit_forall; [|apply le_bytes_byte|exact E2].
    eapply blit_forall; [exact Hb|apply le_bytes_byte|exact E1].
  - intros j Hj Hne. by rewrite O4, O3, O2, O1.
  - done.
  - unfold StartingBlock. rewrite (patched_field_ne 32 0 (cstr n ++ [0]) (entry_at d3 i)) by (done || lia).
    rewrite (patched_field_ne 32 48 (le_bytes 8 0) (entry_at d2 i)) by (done || lia).
    rewrite (patched_field_ne 32 40 (le_bytes 8 blocks) (entry_at d1 i)) by (done || lia).
    by eapply (patched_field_eq 32); [|lia|].
  - unfold ReservedBlocks. rewrite (patched_field_ne 40 0 (cstr n ++ [0]) (entry_at d3 i)) by (done || lia).
    rewrite (patched_field_ne 40 48 (le_bytes 8 0) (entry_at d2 i)) by (done || lia).
    by eapply (patched_field_eq 40); [|lia|].
  - unfold FileSize. rewrite (patched_field_ne 48 0 (cstr n ++ [0]) (entry_at d3 i)) by (done || lia).
    by eapply (patched_field_eq 48); [|lia|].
  - unfold marker. rewrite name_first, En by done. destruct (cstr n) as [|c l] eqn:E; cbn in *; [lia|].
    pose proof (cstr_nonzero n) as Hz. rewrite E in Hz. by apply list.Forall_cons in Hz as [? _].
  - unfold marker. by rewrite name_first, En.
Qed.

(** The directory after [create]: the record is live, and the other files are
    as before. *)
Lemma new_dir d n ff start blocks name :
  length d = 4096%nat -> Forall is_byte d -> ends_at d n -> 0 <= ff < 64 ->
  (ff = n \/ (ff < n /\ deleted d ff)) -> 0 <= start < 2 ^ 64 -> 0 <= blocks < 2 ^ 64 -> valid_name name ->
  exists d', (d1 ← add_entry ff start blocks name d;
              if (ff =? n) && (n + 1 <? 64) then blit ((n + 1) * 64) [0] d1 else Some d1) = Some d' /\
    length d' = 4096%nat /\ Forall is_byte d' /\ ~ live d ff /\ live d' ff /\
    (forall j, j <> ff -> live d' j <-> live d j) /\
    (forall j, live d j -> j <> ff -> entry_at d' j = entry_at d j) /\
    FileName (entry_at d' ff) = cstr name /\ StartingBlock (entry_at d' ff) = start /\
    ReservedBlocks (entry_at d' ff) = blocks /\ FileSize (entry_at d' ff) = 0.
Proof.
  intros Hd Hb Hn Hff Hcase Hs Hk Hv.
  destruct (add_entry_spec d ff start blocks name) as (d1 & E1 & L1 & B1 & O1 & N1 & N2 & N3 & N4 & M0 & M1); [done..|].
  rewrite E1. cbn [mbind option_bind].
  assert (forall j, 0 <= j < 64 -> j <> ff -> marker d1 j = marker d j) as Hm by (intros; unfold marker; by rewrite O1).
  destruct Hcase as [->|[Hlt Hdel]].
  2: { replace (ff =? n) with false by lia. cbn [andb]. exists d1. split; [done|].
       destruct (live_change d d1 ff) as [Hlive Hu]; [by destruct Hdel|done|done|].
       split; [done|]. split; [done|]. split; [intros [_ ?]; by destruct Hdel|]. split; [by split|].
       split; [done|]. split; [|done]. intros j Hj Hne. apply O1; [by eapply live_range|done]. }
  rewrite Z.eqb_refl. cbn [andb]. destruct Hn as (Hn & En & Un).
  assert (exists d', (if n + 1 <? 64 then blit ((n + 1) * 64) [0] d1 else Some d1) = Some d' /\
    length d' = 4096%nat /\ Forall is_byte d' /\ (forall j, 0 <= j <= n -> entry_at d' j = entry_at d1 j) /\
    (n + 1 < 64 -> marker d' (n + 1) = 0)) as (d' & E' & L' & B' & O' & Z').
  { case_if; [|by exists d1; split_and!; try done; lia].
    destruct (blit_entry d1 (n + 1) 0 [0]) as (d' & E' & L' & P' & O'); [done|lia|lia|cbn; lia|].
    rewrite Z.add_0_r in E'. exists d'. split; [done|]. split; [done|].
    split; [eapply blit_forall; [exact B1| |exact E']; by repeat constructor|].
    split; [intros j Hj; apply O'; lia|]. intros _. unfold marker. by rewrite (pa_byte _ _ _ _ P') by lia. }
  exists d'. split; [done|]. split; [done|]. split; [done|].
  assert (forall j, 0 <= j < n -> marker d' j = marker d j) as Hm'.
  { intros j Hj. rewrite <- Hm by lia. unfold marker. by rewrite O' by lia. }
  assert (marker d' n <> 0 /\ marker d' n <> 1) as [K0 K1] by (unfold marker; by rewrite O' by lia).
  rewrite !O' by lia.
  split; [intros [[_ Hu] _]; by destruct (Hu n ltac:(lia))|].
  assert (used d' n) as Hun.
  { split; [lia|]. intros j Hj. destruct (decide (j = n)) as [->|]; [done|]. rewrite Hm' by lia. apply Un. lia. }
  split; [by split|]. split; [|split; [|done]].
  - intros j Hne. unfold live, used. split; intros [[Hj Hu] Hmj].
    + assert (j < n). { destruct (decide (j < n)); [done|]. destruct (Hu (n + 1) ltac:(lia)). apply Z'. lia. }
      rewrite Hm' in Hmj by lia. split; [split; [done|]|done]. intros k Hk'. apply Un. lia.
    + assert (j < n). { destruct (decide (j < n)); [done|]. by destruct (Hu n ltac:(lia)). }
      rewrite <- Hm' in Hmj by lia. split; [split; [done|]|done]. intros k Hk'. rewrite Hm' by lia. apply Un. lia.
  - intros j [[Hj Hu] _] Hne. assert (j < n). { destruct (decide (j < n)); [done|]. by destruct (Hu n ltac:(lia)). }
    rewrite O', O1 by lia. done.
Qed.

(** A record for free blocks represents an empty file. *)
Lemma create_changed s F name ff p req d' l o :
  fs_rep s F -> F !! cstr name = None -> valid_name name -> fits (last_block s) (Directory s) req p -> 1 <= req ->
  length d' = 4096%nat -> Forall is_byte d' -> ~ live (Directory s) ff -> live d' ff ->
  (forall j, j <> ff -> live d' j <-> live (Directory s) j) ->
  (forall j, live (Directory s) j -> j <> ff -> entry_at d' j = entry_at (Directory s) j) ->
  FileName (entry_at d' ff) = cstr name -> StartingBlock (entry_at d' ff) = p ->
  ReservedBlocks (entry_at d' ff) = req -> FileSize (entry_at d' ff) = 0 ->
  fs_rep (mkBMFS (fwrite d' (fseek 4096 (disk s))) (disksize s) (DiskInfo s) d' l o) (<[cstr name := mkAFile req []]> F).
Proof.
  intros Hrep Eg (Hv & _) (Hf1 & Hf2 & Hf3) Hreq L' B' Nl Hlv Hlive Hoth N1 N2 N3 N4.
  pose proof (fr_loaded _ _ Hrep) as Hl. pose proof (fr_dir _ _ Hrep) as Hd.
  destruct (flush_spec s (disk s) d' Hl eq_refl (lo_bytes _ Hl) (lo_info _ Hl) L' B') as (S1 & S2 & S3 & S4 & S5).
  assert (entry_ok (last_block s) (entry_at d' ff)) as Hok.
  { split; unfold name_ok, area_end; rewrite ?N1, ?N2, ?N3, ?N4; unfold BLOCK; lia. }
  apply (changed_rep s F _ (cstr name) ff); [done| | |].
  - split; try done.
    + intros j Hj _ En. assert (is_Some (F !! cstr name)) as [? ?]; [|congruence].
      eexists. apply (fr_file _ _ Hrep). eauto.
    + intros _. split; [done|]. split; [done|]. intros j Hj _. destruct (Hf3 j Hj); unfold apart, area_end in *; lia.
    + intros j Hj Hne. by apply S5, (do_entry _ _ Hd).
  - intros m Hm. by apply lookup_insert_ne.
  - left. split; [done|]. rewrite lookup_insert_eq, N3. unfold contents. rewrite N4. do 2 f_equal. symmetry.
    unfold file_bytes. rewrite Z.min_l; [done|].
    destruct (entry_area s _ Hl Hok) as (_ & _ & A3 & _). unfold BLOCK in *. lia.
Qed.

Lemma create_rep qsort `{!Qsort qsort} s F name maxsize n :
  fs_rep s F -> valid_name name -> 1 <= maxsize < 2 ^ 32 -> ends_at (Directory s) n -> one_deleted (Directory s) ->
  let req := (maxsize + 1) / 2 in
  exists s', create qsort name maxsize s = Some s' /\ local s' = local s /\
    match F !! cstr name with
    | Some _ => s' = say FileExists s
    | None =>
        (exists p i, fits (last_block s) (Directory s) req p /\
           (forall p', fits (last_block s) (Directory s) req p' -> p <= p') /\
           fs_rep s' (<[cstr name := mkAFile req []]> F) /\ out s' = out s ++ [Creating; Complete] /\
           live (Directory s') i /\ FileName (entry_at (Directory s') i) = cstr name /\
           StartingBlock (entry_at (Directory s') i) = p) \/
        ((forall p, ~ fits (last_block s) (Directory s) req p) /\
         ((forall i, ~ deleted (Directory s) i) ->
          s' = say (CannotCreate (2 * req)) (say Creating s)))
    end.
Proof.
  intros Hrep Hv Hm Hn Hone. cbv zeta. pose proof (fr_loaded _ _ Hrep) as Hl. pose proof (fr_dir _ _ Hrep) as Hd.
  unfold create. set (m2 := if negb (maxsize mod 2 =? 0) then _ else _).
  assert (m2 = 2 * ((maxsize + 1) / 2)) as Em.
  { unfold m2. rewrite u64_small by lia. Z.to_euclidean_division_equations. case_if; lia. }
  clearbody m2. subst m2. rewrite Z.mul_comm, Z.div_mul, (Z.mul_comm _ 2) by lia.
  set (req := (maxsize + 1) / 2).
  assert (1 <= req < 2 ^ 32) as Hreq by (unfold req; Z.to_euclidean_division_equations; lia).
  destruct (F !! cstr name) as [g|] eqn:Eg.
  { destruct (rep_found _ _ _ _ Hrep Eg) as (i & -> & _). cbn [mbind option_bind]. eauto. }
  rewrite (rep_absent _ _ _ Hrep Eg). cbn [mbind option_bind].
  change (Directory (say Creating s)) with (Directory s).
  destruct (count_entries_ends _ _ Hn) as (ff & -> & Hff & Hcase). replace (ff =? -1) with false by lia.
  assert (u64 (disksize s / 2 - 1) = last_block s) as -> by (destruct Hl; apply u64_small; unfold last_block in *; lia).
  pose proof (create_place _ _ _ Hd Hn ltac:(pose proof (lo_last _ Hl); lia) Hone qsort req ltac:(lia)) as Hplace. cbv zeta in Hplace.
  fold (entries n (Directory s)).
  pose proof (gap_loop_range (qsort StartingBlockCmp (entries n (Directory s))) (last_block s) req 1 ltac:(lia)) as Hrange.
  set (r := gap_loop _ _ _ _) in *. clearbody r.
  destruct (Z.eqb_spec r 0) as [->|Hr0].
  { eexists. split; [reflexivity|]. split; [done|]. destruct Hplace as [[[? _] _]|[Hno _]]; [lia|]. by right. }
  destruct (loaded_dir_bytes s Hl) as [Hb Hlen].
  destruct (new_dir (Directory s) n ff r req name) as (d' & E' & L' & B' & Nl & Hlv & Hlive & Hoth & N1 & N2 & N3 & N4);
    [done|done|done|done|naive_solver|done|lia|done|].
  destruct (add_entry ff r req name (Directory s)) as [d1|]; [|done].
  cbn [mbind option_bind] in E' |- *. rewrite E'. cbn [mbind option_bind].
  eexists. split; [reflexivity|]. split; [done|].
  destruct Hplace as [[Hfit Hmin]|[Hno Hz]].
  2: { right. split; [done|]. intros Hnd. by destruct Hr0; apply Hz. }
  left. exists r, ff. split; [done|]. split; [done|]. split; [|split; [cbn; by rewrite <- app_assoc|done]].
  eapply (create_changed s F name ff r req d'); (done || lia).
Qed.

(** ** [format] and opening an image *)

(** The size of an image that the tool can address: from 4 MiB on, counted in
    32 bits. *)
Definition size_ok (n : Z) : Prop := 4 * 1048576 <= n < 2 ^ 32 * 1048576.

Lemma size_ok_last n : size_ok n -> 0 < n / 1048576 / 2 - 1 < 2 ^ 31 - 1 /\ u32 (n / 1048576) = n / 1048576.
Proof. unfold size_ok. intros Hn. rewrite u32_small; Z.to_euclidean_division_equations; lia. Qed.

Lemma marker_zero i : 0 <= i < 64 -> marker (replicate 4096 0) i = 0.
Proof. intros Hi. unfold marker. rewrite geti_entry_at by lia. apply geti_replicate. lia. Qed.

Lemma empty_dir_dead i : ~ live (replicate 4096 0) i.
Proof. intros [[Hi Hu] _]. apply (Hu i); [lia|]. by apply marker_zero. Qed.

(** The bytes of a formatted image. *)
Lemma format_image s :
  size_ok (f_size (disk s)) -> (forall i, 0 <= i < f_size (disk s) -> is_byte (f_data (disk s) i)) ->
  let f := disk (format s) in
  f_size f = f_size (disk s) /\ (forall i, 0 <= i < f_size f -> is_byte (f_data f i)) /\
  file_bytes f 1024 512 = fs_tag ++ replicate 508 0 /\ file_bytes f 4096 4096 = replicate 4096 0 /\
  forall i, 0 <= i < f_size f -> i < 1024 \/ 8192 <= i -> f_data f i = f_data (disk s) i.
Proof.
  intros Hs Hb. cbv zeta. unfold size_ok in Hs. unfold format, flush_directory.
  cbn [disk say set_disk set_Directory set_DiskInfo Directory DiskInfo].
  set (tag := fs_tag ++ replicate 508 0). assert (length tag = 512%nat) as Ht by done.
  pose proof (fwrite_stored 1024 tag (disk s) ltac:(lia) ltac:(lia)) as H1.
  set (f1 := fwrite tag (fseek 1024 (disk s))) in *. clearbody f1. pose proof (st_size _ _ _ _ H1) as Z1.
  pose proof (fwrite_stored 4096 (replicate 4096 0) f1 ltac:(lia) ltac:(rewrite length_replicate; lia)) as H2.
  set (f2 := fwrite (replicate 4096 0) (fseek 4096 f1)) in *. clearbody f2. pose proof (st_size _ _ _ _ H2) as Z2.
  split; [lia|]. split.
  { eapply stored_bytes; [exact H2|by apply list.Forall_replicate|lia|].
    eapply stored_bytes; [exact H1|by repeat constructor|lia|done]. }
  split; [|split].
  - rewrite (stored_other _ _ _ _ _ _ H2) by (rewrite ?length_replicate; lia).
    replace 512 with (Z.of_nat (length tag)) at 1 by lia. apply (stored_same _ _ _ _ H1); lia.
  - replace 4096 with (Z.of_nat (length (replicate 4096 0))) at 2 by (rewrite length_replicate; lia).
    apply (stored_same _ _ _ _ H2); [lia|rewrite length_replicate; lia].
  - intros i Hi Hr. rewrite (st_byte _ _ _ _ H2), (st_byte _ _ _ _ H1), length_replicate, Ht by lia.
    repeat case_if; lia || done.
Qed.

(** A state with an empty directory represents no files. *)
Lemma rep_empty s : loaded s -> Directory s = replicate 4096 0 -> fs_rep s ∅.
Proof.
  intros Hl E. split; [done|..]; rewrite E.
  - split; [apply length_replicate|by intros i ?%empty_dir_dead|by intros i j ?%empty_dir_dead].
  - intros n f. rewrite lookup_empty. split; [done|]. by intros (i & ?%empty_dir_dead & _).
Qed.

Lemma format_rep s :
  size_ok (f_size (disk s)) -> disksize s = f_size (disk s) / 1048576 ->
  (forall i, 0 <= i < f_size (disk s) -> is_byte (f_data (disk s) i)) -> fs_rep (format s) ∅.
Proof.
  intros Hs Hd Hb. destruct (format_image s Hs Hb) as (H1 & H2 & H3 & H4 & _). apply rep_empty; [|done].
  destruct (size_ok_last _ Hs) as [Hl _]. split; [done|done|by vm_compute|..|done].
  - change (disksize (format s)) with (disksize s). by rewrite Hd, H1.
  - unfold last_block. change (disksize (format s)) with (disksize s). by rewrite Hd.
Qed.

(** What [main] loads from an image. *)
Lemma open_disk_spec f files :
  size_ok (f_size f) ->
  let s := open_disk f files in
  f_size (disk s) = f_size f /\ f_data (disk s) = f_data f /\ disksize s = f_size f / 1048576 /\
  DiskInfo s = file_bytes f 1024 512 /\ Directory s = file_bytes f 4096 4096 /\ local s = files /\ out s = [].
Proof.
  intros Hs. cbv zeta. destruct (size_ok_last _ Hs) as [_ Hu]. unfold size_ok in Hs. unfold open_disk, fread.
  cbn [f_pos fseek]. cbn [disk disksize DiskInfo Directory local out f_size f_data fseek].
  rewrite Hu. split_and!; try done.
  - change (file_bytes (fseek 1024 f) 1024 512) with (file_bytes f 1024 512).
    rewrite length_file_bytes, drop_ge, app_nil_r; [done|rewrite length_replicate; lia|lia|lia].
  - match goal with |- file_bytes ?g 4096 4096 ++ _ = _ => change (file_bytes g 4096 4096) with (file_bytes f 4096 4096) end.
    rewrite length_file_bytes, drop_ge, app_nil_r; [done|rewrite length_replicate; lia|lia|lia].
Qed.

(** The file system of an image. *)
Definition image_rep (f : FILE) (F : gmap (list Z) AFile) : Prop := fs_rep (open_disk f ∅) F.

Lemma rep_sizes s F : fs_rep s F -> size_ok (f_size (disk s)).
Proof.
  intros [[_ _ _ H4 H5 _] _ _]. unfold last_block, size_ok in *. rewrite H4 in H5.
  Z.to_euclidean_division_equations. lia.
Qed.

Lemma rep_image s F files : fs_rep s F -> fs_rep (open_disk (disk s) files) F.
Proof.
  intros Hrep. pose proof (rep_sizes _ _ Hrep) as Hs. destruct Hrep as [[L1 L2 L3 L4 L5 L6] Hd Hf].
  destruct (open_disk_spec (disk s) files Hs) as (E1 & E2 & E3 & E4 & E5 & _).
  set (s' := open_disk (disk s) files) in *. clearbody s'.
  assert (forall off n, file_bytes (disk s') off n = file_bytes (disk s) off n) as Eb
    by (intros; unfold file_bytes; by rewrite E1, E2).
  assert (last_block s' = last_block s) as El by (unfold last_block; by rewrite E3, L4).
  split.
  - split; rewrite ?Eb, ?El, ?E1, ?E2; [congruence|congruence|congruence|congruence|done|done].
  - by rewrite El, E5, L2.
  - intros n g. rewrite E5, L2, Hf. unfold contents. by setoid_rewrite Eb.
Qed.

Lemma image_opened f F files : size_ok (f_size f) -> image_rep f F -> fs_rep (open_disk f files) F.
Proof.
  intros Hs Hrep. apply (rep_output _ _ files []) in Hrep.
  unfold open_disk in *. by destruct (fread 512 _ _), (fread 4096 _ _).
Qed.

Lemma image_closed s F : fs_rep s F -> image_rep (disk s) F.
Proof. apply rep_image. Qed.
