(* ===== verification/BmfsProps.v ===== *)
(** * The disk utility as a file system

    Theorems about the runs of [main] of [Bootloader/BMFS/bmfs.c] on an image:
    what each command does to the files, that files last over any sequence of
    commands, and where [create] leaves its specification. *)

From Stdlib Require Import String.
From S2P Require Import Prelude Lib UserProg Bmfs BmfsDir BmfsCreate BmfsInit BmfsFile BmfsOps.
Local Open Scope Z_scope.

(** ** Commands *)

(** The commands that change or read files; [size] is the text of the third
    argument of [create]. *)
Inductive Cmd :=
  | CCreate (n size : list Z)
  | CWrite (n : list Z)
  | CRead (n : list Z)
  | CDelete (n : list Z).

Definition argv (diskname : list Z) (c : Cmd) : list (list Z) :=
  diskname :: match c with
              | CCreate n size => [lit "create"; n; size]
              | CWrite n => [lit "write"; n]
              | CRead n => [lit "read"; n]
              | CDelete n => [lit "delete"; n]
              end.

Definition dir_of (img : FILE) : list Z := file_bytes img 4096 4096.

Definition last_of (img : FILE) : Z := f_size img / 1048576 / 2 - 1.

(** The runs within the limits of the tool: files counted by an [int], names
    that fit in an entry, and for [create] a directory with an end marker and
    at most one deleted entry, which must not be needed when there is no room. *)
Definition permitted (img : FILE) (files : gmap (list Z) (list Z)) (c : Cmd) : Prop :=
  match c with
  | CWrite n => forall bs, files !! cstr n = Some bs -> Forall is_byte bs /\ Z.of_nat (length bs) < 2 ^ 31
  | CRead n => forall i, live (dir_of img) i -> FileName (entry_at (dir_of img) i) = cstr n ->
      FileSize (entry_at (dir_of img) i) < 2 ^ 31
  | CDelete _ => True
  | CCreate n size => valid_name n /\ exists z m, libc_atoi (cstr size) = Some z /\ 1 <= z /\
      ends_at (dir_of img) m /\ one_deleted (dir_of img) /\
      ((exists p, fits (last_of img) (dir_of img) ((z + 1) / 2) p) \/ forall i, ~ deleted (dir_of img) i)
  end.

(** What a command does to the files of the image and of the host, and what it
    prints. *)
Inductive abs_step (creatable : list Z -> bool) (img : FILE) (F : gmap (list Z) AFile)
    (files : gmap (list Z) (list Z)) : Cmd -> gmap (list Z) AFile -> gmap (list Z) (list Z) -> list Msg -> Prop :=
  | AWrite n f bs :
      F !! cstr n = Some f -> files !! cstr n = Some bs -> Z.of_nat (length bs) <= cap f * BLOCK ->
      abs_step creatable img F files (CWrite n) (<[cstr n := mkAFile (cap f) bs]> F) files [Writing n; Complete]
  | AWriteBig n f bs :
      F !! cstr n = Some f -> files !! cstr n = Some bs -> cap f * BLOCK < Z.of_nat (length bs) ->
      abs_step creatable img F files (CWrite n) F files [Writing n; NotEnoughRoom]
  | AWriteNoLocal n f :
      F !! cstr n = Some f -> files !! cstr n = None ->
      abs_step creatable img F files (CWrite n) F files [Writing n; CannotOpenLocal (cstr n)]
  | AWriteAbsent n :
      F !! cstr n = None -> abs_step creatable img F files (CWrite n) F files [NotCreated]
  | ARead n f :
      F !! cstr n = Some f -> creatable (cstr n) = true ->
      abs_step creatable img F files (CRead n) F (<[cstr n := body f]> files) [Reading n; Complete]
  | AReadNoLocal n f :
      F !! cstr n = Some f -> creatable (cstr n) = false ->
      abs_step creatable img F files (CRead n) F files [Reading n; CannotOpenLocal (cstr n)]
  | AReadAbsent n :
      F !! cstr n = None -> abs_step creatable img F files (CRead n) F files [NotFound]
  | ADelete n f :
      F !! cstr n = Some f ->
      abs_step creatable img F files (CDelete n) (base.delete (cstr n) F) files [Deleting n; Complete]
  | ADeleteAbsent n :
      F !! cstr n = None -> abs_step creatable img F files (CDelete n) F files [NotFound]
  | ACreateExists n size f :
      F !! cstr n = Some f -> abs_step creatable img F files (CCreate n size) F files [FileExists]
  | ACreate n size z :
      F !! cstr n = None -> libc_atoi (cstr size) = Some z ->
      (exists p, fits (last_of img) (dir_of img) ((z + 1) / 2) p) ->
      abs_step creatable img F files (CCreate n size)
        (<[cstr n := mkAFile ((z + 1) / 2) []]> F) files [Creating; Complete]
  | ACreateFull n size z :
      F !! cstr n = None -> libc_atoi (cstr size) = Some z ->
      (forall p, ~ fits (last_of img) (dir_of img) ((z + 1) / 2) p) ->
      abs_step creatable img F files (CCreate n size) F files
        [Creating; CannotCreate (2 * ((z + 1) / 2))].

(** ** Runs of [main] *)

(** Evaluates the comparisons of command words. *)
Ltac eval_words :=
  repeat match goal with
  | |- context [strcaseeq ?a ?b] =>
      let v := eval vm_compute in (strcaseeq a b) in replace (strcaseeq a b) with v by (vm_compute; reflexivity)
  end.

Lemma libc_atoi_range l z : libc_atoi l = Some z -> - 2 ^ 31 <= z < 2 ^ 31.
Proof.
  induction l as [|c l IH]; cbn [libc_atoi]; [by intros [= <-]|]. case_if; [done|]. cbv zeta.
  match goal with |- context [(- 2 ^ 31 <=? ?v) && _] => generalize v end. intros v.
  destruct ((- 2 ^ 31 <=? v) && (v <? 2 ^ 31)) eqn:E; [|done]. intros [= ->]. lia.
Qed.

Section Runs.
Context (qsort : (list Z -> list Z -> Z) -> list (list Z) -> list (list Z)) `{!Qsort qsort}.
Context (creatable : list Z -> bool) (room : Z) (malloc_ok : bool) (diskname stdin : list Z).

Definition run_main (c : Cmd) (img : FILE) (files : gmap (list Z) (list Z)) :=
  main qsort creatable room malloc_ok (argv diskname c) stdin (Some img) files.

(** What a command does once the image is open. *)
Definition command (c : Cmd) (s : BMFS) : option BMFS :=
  match c with
  | CCreate n size =>
      filesize ← libc_atoi (cstr size);
      if filesize >=? 1 then create qsort n filesize s else Some (say InvalidSize s)
  | CWrite n => write (Some n) s
  | CRead n => read creatable (Some n) s
  | CDelete n => delete (Some n) s
  end.

Lemma main_open cmd args img files :
  strcaseeq (lit "initialize") cmd = false -> strcaseeq (DiskInfo (open_disk img files)) fs_tag = true ->
  main qsort creatable room malloc_ok (diskname :: cmd :: args) stdin (Some img) files =
  s ← dispatch qsort creatable cmd args stdin (open_disk img files); Some (0, Some (disk s), local s, out s).
Proof. intros H1 H2. unfold main. rewrite H1. cbv zeta. rewrite H2. done. Qed.

Lemma dispatch_command c s :
  dispatch qsort creatable (hd [] (tl (argv diskname c))) (tl (tl (argv diskname c))) stdin s = command c s.
Proof.
  destruct c; cbn [argv hd tl]; unfold dispatch; eval_words; cbv iota zeta;
    cbn [lookup list_lookup mbind option_bind command]; done.
Qed.

Lemma run_main_command c img files F :
  fs_rep (open_disk img files) F ->
  run_main c img files = s ← command c (open_disk img files); Some (0, Some (disk s), local s, out s).
Proof.
  intros Hrep. pose proof (lo_tag _ (fr_loaded _ _ Hrep)) as Ht. rewrite <- dispatch_command.
  unfold run_main, argv. destruct c; cbn [hd tl]; (apply main_open; [by vm_compute|exact Ht]).
Qed.

Lemma image_facts img files F :
  image_rep img F -> size_ok (f_size img) /\ fs_rep (open_disk img files) F /\
  Directory (open_disk img files) = dir_of img /\ last_block (open_disk img files) = last_of img /\
  local (open_disk img files) = files /\ out (open_disk img files) = [].
Proof.
  intros Hrep. assert (size_ok (f_size img)) as Hs.
  { pose proof (rep_sizes _ _ Hrep) as H. unfold open_disk in H.
    destruct (fread 512 _ _) as [? f1] eqn:E1, (fread 4096 _ _) as [? f2] eqn:E2. cbn in H.
    unfold fread in E1, E2. injection E1 as _ <-. injection E2 as _ <-. done. }
  split; [done|]. split; [by apply image_opened|].
  destruct (open_disk_spec img files Hs) as (E1 & E2 & E3 & E4 & E5 & E6 & E7).
  unfold last_block. rewrite E3, E5, E6, E7. done.
Qed.
(** *** One command on an open image *)

Section Step.
Context (img : FILE) (F : gmap (list Z) AFile) (s : BMFS) (Hrep : fs_rep s F) (Ho : out s = []).
Context (Ed : Directory s = dir_of img) (El : last_block s = last_of img).

(** The command returns, and the new state is that of the abstract step. *)
Definition steps (c : Cmd) : Prop :=
  exists s' F', command c s = Some s' /\ fs_rep s' F' /\
    abs_step creatable img F (local s) c F' (local s') (out s').

(** The branches that only print. *)
Ltac only_prints E tac :=
  rewrite E; cbn [mbind option_bind]; eexists _, F; split; [done|]; split; [by repeat apply rep_say|];
  cbn [local out say]; rewrite Ho; tac.

Lemma step_create n size : permitted img (local s) (CCreate n size) -> steps (CCreate n size).
Proof.
  intros (Hv & z & m & Ez & Hz & Hm & Hone & Hroom). unfold steps. cbn [command]. rewrite Ez. cbn [mbind option_bind].
  pose proof (libc_atoi_range _ _ Ez). replace (z >=? 1) with true by lia. rewrite <- Ed in Hm, Hone, Hroom. rewrite <- El in Hroom.
  destruct (create_rep qsort s F n z m Hrep Hv ltac:(lia) Hm Hone) as (s' & Es & El' & Hcase).
  rewrite Es. exists s'. destruct (F !! cstr n) as [f|] eqn:En.
  { subst s'. exists F. split; [done|]. split; [by apply rep_say|]. cbn. rewrite Ho. by eapply ACreateExists. }
  rewrite El'. destruct Hcase as [(p & i & Hfit & _ & Hr & Ho' & _)|[Hno Hs']].
  - eexists. split; [done|]. split; [done|]. rewrite Ho', Ho. apply ACreate; [done..|]. rewrite <- Ed, <- El. eauto.
  - assert (forall i, ~ deleted (Directory s) i) as Hnd.
    { destruct Hroom as [[p Hp]|]; [by destruct (Hno p)|done]. }
    specialize (Hs' Hnd). subst s'. exists F. split; [done|]. split; [by apply rep_say, rep_say|].
    cbn [out say]. rewrite Ho. apply ACreateFull; [done..|]. by rewrite <- Ed, <- El.
Qed.

Lemma step_write n : permitted img (local s) (CWrite n) -> steps (CWrite n).
Proof.
  intros Hperm. unfold steps. cbn [command]. destruct (F !! cstr n) as [f|] eqn:En.
  2: { unfold write. only_prints (rep_absent _ _ _ Hrep En) ltac:(by apply AWriteAbsent). }
  destruct (local s !! cstr n) as [bs|] eqn:Eb.
  - destruct (Hperm bs Eb) as [Hb Hlen].
    destruct (write_rep s F n f bs Hrep En Eb Hb Hlen) as (s' & -> & El' & Hcase). exists s'. rewrite El'.
    destruct (Z.leb_spec (Z.of_nat (length bs)) (cap f * BLOCK)) as [Hle|Hgt];
      destruct Hcase as [Hr Ho']; eexists; (split; [done|]); (split; [done|]); rewrite Ho', Ho.
    + by apply AWrite.
    + by eapply AWriteBig.
  - destruct (rep_found _ _ _ _ Hrep En) as (i & Ei & _ & Ename & _). unfold write. rewrite Ei. cbn [mbind option_bind].
    change (local (say (Writing (default [] (Some n))) s)) with (local s). change (default [] (Some n)) with n.
    rewrite Eb. only_prints Ename ltac:(by eapply AWriteNoLocal).
Qed.

Lemma step_read n : permitted img (local s) (CRead n) -> steps (CRead n).
Proof.
  intros Hperm. unfold steps. cbn [command]. destruct (F !! cstr n) as [f|] eqn:En.
  2: { unfold read. only_prints (rep_absent _ _ _ Hrep En) ltac:(by apply AReadAbsent). }
  destruct (rep_found _ _ _ _ Hrep En) as (i & Ei & Hi & Ename & He & Ef).
  destruct (creatable (cstr n)) eqn:Ec.
  - assert (Z.of_nat (length (body f)) < 2 ^ 31) as Hlen.
    { subst f. cbn [body]. rewrite (contents_size s) by (done || apply (fr_loaded _ _ Hrep)).
      rewrite Ed in *. by apply Hperm. }
    destruct (read_rep creatable s F n f Hrep En Ec Hlen) as (s' & -> & Hr & El' & Ho').
    exists s', F. split; [done|]. split; [done|]. rewrite El', Ho', Ho. by apply ARead.
  - unfold read. rewrite Ei. cbn [mbind option_bind]. rewrite Ename. only_prints Ec ltac:(by eapply AReadNoLocal).
Qed.

Lemma step_delete n : steps (CDelete n).
Proof.
  unfold steps. cbn [command]. destruct (F !! cstr n) as [f|] eqn:En.
  - destruct (delete_rep s F n f Hrep En) as (s' & -> & Hr & El' & Ho').
    eexists s', _. split; [done|]. split; [done|]. rewrite El', Ho', Ho. by eapply ADelete.
  - unfold delete. only_prints (rep_absent _ _ _ Hrep En) ltac:(by apply ADeleteAbsent).
Qed.
End Step.

Lemma run_step c img files F :
  image_rep img F -> permitted img files c ->
  exists img' F' files' o, run_main c img files = Some (0, Some img', files', o) /\ image_rep img' F' /\
    abs_step creatable img F files c F' files' o.
Proof.
  intros Himg Hperm. destruct (image_facts img files F Himg) as (_ & Hrep & Ed & El & Ef & Eo).
  assert (steps img F (open_disk img files) c) as (s' & F' & E & Hr & Ha).
  { rewrite <- Ef in Hperm. destruct c; [by apply step_create|by apply step_write|by apply step_read|by apply step_delete]. }
  rewrite Ef in Ha. rewrite (run_main_command _ _ _ _ Hrep), E. cbn [mbind option_bind].
  exists (disk s'), F', (local s'), (out s'). split; [done|]. split; [by apply image_closed|done].
Qed.

(** *** Sequences of runs *)

(** Runs of the tool one after another, each within its limits. *)
Inductive session : FILE -> gmap (list Z) (list Z) -> list Cmd -> FILE -> gmap (list Z) (list Z) -> Prop :=
  | session_nil img files : session img files [] img files
  | session_cons c cs img files img1 files1 o img2 files2 :
      permitted img files c -> run_main c img files = Some (0, Some img1, files1, o) ->
      session img1 files1 cs img2 files2 -> session img files (c :: cs) img2 files2.

(** The commands that may change a file that exists. *)
Definition touches (n : list Z) (c : Cmd) : Prop :=
  match c with CWrite m | CDelete m => cstr m = n | CCreate _ _ | CRead _ => False end.

Lemma abs_step_keeps img F files c F' files' o n f :
  abs_step creatable img F files c F' files' o -> ~ touches n c -> F !! n = Some f -> F' !! n = Some f.
Proof.
  intros Hs Ht Hn. inversion Hs; subst; cbn in Ht; try done.
  - by rewrite lookup_insert_ne.
  - by rewrite lookup_delete_ne.
  - rewrite lookup_insert_ne; [done|]. congruence.
Qed.

Lemma session_keeps img files cs img' files' F n f :
  session img files cs img' files' -> image_rep img F -> F !! n = Some f -> Forall (fun c => ~ touches n c) cs ->
  exists F', image_rep img' F' /\ F' !! n = Some f.
Proof.
  intros Hs. revert F. induction Hs as [|c cs img files img1 files1 o img2 files2 Hp Hrun _ IH]; intros F Hi Hn Hc; [eauto|].
  apply list.Forall_cons in Hc as [Hc Hcs].
  destruct (run_step c img files F Hi Hp) as (img1' & F1 & files1' & o' & Hrun' & Hi1 & Ha).
  rewrite Hrun in Hrun'. injection Hrun' as -> -> ->. eapply IH; [exact Hi1| |done]. by eapply abs_step_keeps.
Qed.

Lemma abs_step_fun img F files c F1 files1 o1 F2 files2 o2 :
  abs_step creatable img F files c F1 files1 o1 -> abs_step creatable img F files c F2 files2 o2 ->
  F1 = F2 /\ files1 = files2 /\ o1 = o2.
Proof. inversion 1; inversion 1; subst; simplify_eq; try done; try lia; naive_solver. Qed.
End Runs.

(** ** Theorems *)

(** C11: A run of [main] with one of the commands create, write, read and delete
    on an image that represents the files [F] returns with status 0, and what
    it does to the files in the image, to the files of the host and to the
    output is the abstract step: a file is created empty if it fits, written
    if it is not larger than what was reserved, copied out, or removed, and
    every failure leaves the files as they were.  [qsort] is any function that
    sorts. *)
Theorem bmfs_main_refines qsort `{!Qsort qsort} creatable room malloc_ok diskname stdin c img files F :
  image_rep img F -> permitted img files c ->
  exists img' F' files' o,
    main qsort creatable room malloc_ok (argv diskname c) stdin (Some img) files = Some (0, Some img', files', o) /\
    image_rep img' F' /\ abs_step creatable img F files c F' files' o /\
    forall F2 files2 o2, abs_step creatable img F files c F2 files2 o2 -> F2 = F' /\ files2 = files' /\ o2 = o.
Proof.
  intros Hi Hp. destruct (run_step qsort creatable room malloc_ok diskname stdin c img files F Hi Hp)
    as (img' & F' & files' & o & Hr & Hi' & Ha).
  exists img', F', files', o. split_and!; [done..|]. intros F2 files2 o2 Ha2. by eapply abs_step_fun.
Qed.



(** *** Witnesses *)

(** An image of 26 MiB without files. *)
Definition demo_state : BMFS := format (mkBMFS (mkFILE (26 * 1048576) (fun _ => 0) 0 false) 26 [] [] ∅ []).

Lemma demo_image_rep : fs_rep demo_state ∅.
Proof. apply format_rep; [unfold size_ok; cbn; lia|reflexivity|]. intros i _. unfold is_byte. cbn. lia. Qed.

Lemma demo_ends : ends_at (replicate 4096 0) 0 /\ one_deleted (replicate 4096 0).
Proof.
  split.
  - split; [lia|]. split; [by apply marker_zero|]. lia.
  - intros i j [[Hi Hu] _]. destruct (Hu i ltac:(lia)). by apply marker_zero.
Qed.

Lemma demo_dir : dir_of (disk demo_state) = replicate 4096 0.
Proof. apply (lo_dir _ (fr_loaded _ _ demo_image_rep)). Qed.

Lemma demo_fits req : req <= 11 -> fits 12 (replicate 4096 0) req 1.
Proof. intros Hr. split; [lia|]. split; [lia|]. by intros i ?%empty_dir_dead. Qed.

Lemma demo_name : valid_name (lit "a").
Proof. split; [vm_compute; lia|]. split; [done|]. by repeat constructor. Qed.

Lemma demo_permitted files : permitted (disk demo_state) files (CCreate (lit "a") (lit "2")).
Proof.
  split; [apply demo_name|]. exists 2, 0. rewrite demo_dir. destruct demo_ends as [He Ho].
  split; [done|]. split; [done|]. split; [done|]. split; [done|]. left. exists 1. by apply demo_fits.
Qed.

Lemma bmfs_main_refines_witness :
  exists img' F' files' o,
    main isort (fun _ => true) 0 true (argv (lit "d") (CCreate (lit "a") (lit "2"))) [] (Some (disk demo_state)) ∅ =
      Some (0, Some img', files', o) /\ image_rep img' F' /\ F' = {[lit "a" := mkAFile 1 []]}.
Proof.
  destruct (bmfs_main_refines isort (fun _ => true) 0 true (lit "d") [] (CCreate (lit "a") (lit "2"))
    (disk demo_state) ∅ ∅ (image_closed _ _ demo_image_rep) (demo_permitted ∅)) as (img' & F' & files' & o & H1 & H2 & _ & H4).
  exists img', F', files', o. split; [exact H1|]. split; [exact H2|]. symmetry.
  refine (proj1 (H4 _ ∅ _ (ACreate _ _ ∅ ∅ (lit "a") (lit "2") 2 _ _ _))); [reflexivity|reflexivity|].
  exists 1. rewrite demo_dir. by apply demo_fits.
Defined.


Lemma demo_bytes : Forall is_byte [7; 8].
Proof. repeat constructor; lia. Qed.

Lemma create_file_demo : exists img, image_rep img (<[lit "a" := mkAFile 2 []]> ∅).
Proof.
  destruct (create_rep isort demo_state ∅ (lit "a") 3 0 demo_image_rep) as (s' & _ & _ & H).
  - apply demo_name.
  - lia.
  - apply demo_ends.
  - apply demo_ends.
  - rewrite lookup_empty in H. destruct H as [(p & i & _ & _ & H & _)|[H _]]; [exists (disk s'); by apply image_closed|].
    exfalso. apply (H 1). by apply demo_fits.
Qed.


(** ** Outside the limits *)

(** Commands on an open image, and the blocks of an entry. *)
Definition script (cs : list Cmd) (s : BMFS) : option BMFS :=
  foldl (fun r c => r ≫= command isort (fun _ => true) c) (Some s) cs.

Definition area (r : option BMFS) (i : Z) : option (list Z * Z * Z) :=
  s ← r;
  let e := entry_at (Directory s) i in
  Some (FileName e, StartingBlock e, area_end e).

(** After a deletion, [create] looks behind the blocks of the deleted file as
    if the rest of the disk were free, when nothing fits between the files:
    with [a] in block 1, [b] (deleted) in block 2 and [c] in blocks 3 to 9 of
    an image whose last block is 12, the five blocks of a new file start at 3,
    inside [c]. *)
Theorem create_overlaps_file :
  let r := script [CCreate (lit "a") (lit "2"); CCreate (lit "b") (lit "2"); CCreate (lit "c") (lit "14");
                   CDelete (lit "b"); CCreate (lit "d") (lit "10")] demo_state in
  area r 1 = Some (lit "d", 3, 8) /\ area r 2 = Some (lit "c", 3, 10).
Proof. split; vm_compute; reflexivity. Qed.

(** The name of one digit, of a file of a full directory. *)
Definition letter (i : Z) : list Z := [65 + i].

(** With all 64 entries taken there is no end marker, the number of files
    counts as 0, and a file created in a deleted entry starts at block 1,
    inside the first file. *)
Theorem create_ignores_full_directory :
  let big := format (mkBMFS (mkFILE (200 * 1048576) (fun _ => 0) 0 false) 200 [] [] ∅ []) in
  let r := script (((fun i => CCreate (letter i) (lit "2")) <$> seqZ 0 64) ++
                   [CDelete (letter 5); CCreate (lit "new") (lit "2")]) big in
  area r 0 = Some (letter 0, 1, 2) /\ area r 5 = Some (lit "new", 1, 2).
Proof. split; vm_compute; reflexivity. Qed.

(** An empty name is an end marker: created in the entry of a deleted file it
    hides the files behind it. *)
Theorem create_empty_name_hides :
  let r := script [CCreate (lit "a") (lit "2"); CCreate (lit "b") (lit "2"); CDelete (lit "a"); CCreate [] (lit "2")]
             demo_state in
  (s ← r; findfile (Some (lit "b")) s) = Some None /\ area r 1 = Some (lit "b", 2, 3).
Proof. split; vm_compute; reflexivity. Qed.

(** The length of a name is not checked: 40 characters run into the numbers of
    the entry, which have been stored before, and the file starts at a block far
    behind the end of the image. *)
Theorem create_long_name :
  let r := script [CCreate (replicate 40 65) (lit "2")] demo_state in
  (s ← r; Some (StartingBlock (entry_at (Directory s) 0))) = Some (le_val (replicate 8 65)) /\
  last_block demo_state < le_val (replicate 8 65).
Proof. split; vm_compute; reflexivity. Qed.

(** A size that is asked for on the terminal is kept without its sign: -1 is
    not refused as on the command line, but is a request for 4 TiB. *)
Theorem negative_size_accepted :
  let run args := s ← dispatch isort (fun _ => true) (lit "create") args (lit "-1") demo_state; Some (drop 1 (out s)) in
  run [lit "a"] = Some [AskSize; Creating; CannotCreate (2 ^ 32)] /\
  run [lit "a"; lit "-1"] = Some [InvalidSize].
Proof. split; vm_compute; reflexivity. Qed.

(** The test against overflow of the size argument does not find every
    overflow: the number wraps to one that is greater than before. *)
Theorem size_overflow_accepted :
  parse_size (lit "30000000000000000000") = inr (30000000000000000000 mod 2 ^ 64).
Proof. vm_compute. reflexivity. Qed.

(** Without a name, [delete] compares NULL as soon as there is a file. *)
Theorem delete_without_name :
  (s ← script [CCreate (lit "a") (lit "2")] demo_state; delete None s) = None.
Proof. vm_compute. reflexivity. Qed.

(** Two deleted entries compare as greater both ways, which [qsort] does not
    allow. *)
Theorem comparison_inconsistent (rank : list Z -> Z) (e e' : list Z) :
  e.[0] = 1 -> e'.[0] = 1 ->
  ~ (Z.sgn (StartingBlockCmp e e') = Z.sgn (rank e - rank e') /\
     Z.sgn (StartingBlockCmp e' e) = Z.sgn (rank e' - rank e)).
Proof. intros E E'. unfold StartingBlockCmp. rewrite E, E'. cbn. lia. Qed.
