(* ===== verification/BmfsInitProps.v ===== *)
(** * Initialised images

    What [initialize] of [Bootloader/BMFS/bmfs.c] leaves in the image: the size
    its argument says, no files, and the boot record, the boot loader and the
    kernel in their places. *)

From Stdlib Require Import String.
From S2P Require Import Prelude Lib UserProg Bmfs BmfsDir BmfsInit BmfsFile BmfsOps.
Local Open Scope Z_scope.

(** ** The size argument *)

Definition digits (l : list Z) : Prop := Forall (fun c => isdigit c = true) l.

Lemma digits_val_ge acc l : 0 <= acc -> acc <= digits_val acc l.
Proof.
  revert acc. induction l as [|c l IH]; intros acc H; cbn; [lia|]. destruct (isdigit c) eqn:E; [|lia].
  unfold isdigit in E. specialize (IH (10 * acc + (c - 48))). lia.
Qed.

(** The loop reads a number that fits in 64 bits. *)
Lemma size_loop_digits sz first ds rest d k :
  digits ds -> 0 <= d -> digits_val d ds < 2 ^ 64 -> ds <> [] ->
  size_loop sz first (ds ++ rest) d k = size_loop sz false rest (digits_val d ds) k.
Proof.
  intros Hd. revert first d. induction Hd as [|c ds Hc Hds IH]; intros first d H0 Hv Hne; [done|].
  cbn [app size_loop digits_val] in *. rewrite Hc in Hv |- *. unfold isdigit in Hc.
  pose proof (digits_val_ge (10 * d + (c - 48)) ds ltac:(lia)) as Hge.
  assert ((if u64 (d * 10) >? d then size_loop sz false (ds ++ rest) (u64 (u64 (d * 10) + (c - 48))) k
           else if d =? 0 then size_loop sz false (ds ++ rest) (d + (c - 48)) k else inl SizeTooLarge) =
          size_loop sz false (ds ++ rest) (10 * d + (c - 48)) k) as ->.
  { rewrite (u64_small (d * 10)) by lia. repeat case_if; try lia.
    - rewrite u64_small by lia. f_equal. lia.
    - f_equal. lia. }
  destruct ds as [|c' ds]; [done|]. apply IH; [lia|done|done].
Qed.

Lemma scale_loop_spec k d e :
  0 < d -> d * 1024 ^ Z.of_nat k < 2 ^ 64 -> scale_loop k d e = (e, d * 1024 ^ Z.of_nat k).
Proof.
  revert d. induction k as [|k IH]; intros d Hd Hb; cbn [scale_loop]; [f_equal; lia|].
  rewrite Nat2Z.inj_succ, Z.pow_succ_r in Hb |- * by lia.
  assert (1 <= 1024 ^ Z.of_nat k) by (pose proof (Z.pow_pos_nonneg 1024 (Z.of_nat k)); lia).
  rewrite u64_small by nia. replace (d * 1024 >? d) with true by lia. rewrite IH by nia. f_equal. lia.
Qed.

(** The suffix of a size: nothing, or a unit. *)
Definition suffix_ok (u : list Z) (k : Z) : Prop :=
  (u = [] /\ k = 0) \/ (exists c, u = [c] /\ c <> 0 /\ isdigit c = false /\ unit_factor c = Some k).

Lemma unit_factor_pos c k : unit_factor c = Some k -> 1 <= k.
Proof. unfold unit_factor. cbv zeta. repeat case_if; intros [= <-]; lia. Qed.

(** A number and a unit are read as the number of bytes they stand for. *)
Theorem parse_size_spec ds u k :
  digits ds -> ds <> [] -> suffix_ok u k ->
  let v := digits_val 0 ds * 1024 ^ k in
  minimumDiskSize <= v < 2 ^ 64 -> parse_size (ds ++ u) = inr v.
Proof.
  intros Hd Hne Hu. cbv zeta. intros Hv. unfold minimumDiskSize in Hv.
  assert (cstr (ds ++ u) = ds ++ u) as Ec.
  { apply cstr_all, list.Forall_app. split.
    - eapply list.Forall_impl; [exact Hd|]. unfold isdigit. intros c ?. lia.
    - destruct Hu as [[-> _]|(c & -> & ? & _)]; by repeat constructor. }
  assert (0 <= k) as Hk by (destruct Hu as [[_ ->]|(c & _ & _ & _ & ?%unit_factor_pos)]; lia).
  assert (0 < 1024 ^ k) by (by apply Z.pow_pos_nonneg).
  unfold parse_size. rewrite Ec, size_loop_digits; [|done|lia|nia|done].
  assert (size_loop (ds ++ u) false u (digits_val 0 ds) 0 = inr (digits_val 0 ds, k)) as ->.
  { destruct Hu as [[-> ->]|(c & -> & Hc & Hdig & Hf)]; [done|]. cbn. by rewrite Hdig, Hf. }
  assert (0 < digits_val 0 ds) as Hpos by nia. replace (digits_val 0 ds >? 0) with true by lia. cbn [andb].
  destruct (Z.gtb_spec k 0) as [Hk'|Hk'].
  - rewrite scale_loop_spec; rewrite ?Z2Nat.id by lia; [|done|lia].
    replace (_ <? minimumDiskSize) with false by (unfold minimumDiskSize; lia). done.
  - assert (k = 0) as -> by lia. rewrite Z.mul_1_r in Hv |- *.
    replace (_ <? minimumDiskSize) with false by (unfold minimumDiskSize; lia). done.
Qed.

Lemma parse_size_spec_witness : parse_size (lit "1024k" ++ []) = inl [SizeTooSmall 6291456 6] /\ parse_size (lit "8" ++ lit "M") = inr 8388608.
Proof.
  split; [reflexivity|]. refine (parse_size_spec (lit "8") (lit "M") 2 _ _ _ _).
  - by repeat constructor.
  - discriminate.
  - right. exists 77. split; [reflexivity|]. split; [lia|]. split; reflexivity.
  - vm_compute. split; congruence.
Defined.

(** ** Writing the image *)

Section Host.
Context (room : Z).

(** [f'] is [f] with [bs] at its position, which is not behind its end. *)
Record put (bs : list Z) (f f' : FILE) : Prop := {
  pu_size : f_size f' = Z.max (f_size f) (f_pos f + Z.of_nat (length bs));
  pu_pos : f_pos f' = f_pos f + Z.of_nat (length bs);
  pu_err : f_err f' = f_err f;
  pu_byte i : 0 <= i < f_size f' ->
    f_data f' i = if (f_pos f <=? i) && (i <? f_pos f + Z.of_nat (length bs)) then bs.[i - f_pos f] else f_data f i
}.

Lemma put_fwrite bs f :
  0 <= f_pos f <= f_size f -> f_pos f + Z.of_nat (length bs) <= room ->
  exists f', fwrite1 room bs f = (true, f') /\ put bs f f'.
Proof.
  intros Hp Hr. unfold fwrite1. case_if; [lia|]. eexists. split; [done|]. split; try done. intros i Hi. cbn in Hi |- *.
  case_if; [done|]. by case_if; [|lia].
Qed.

Lemma put_nil f : 0 <= f_pos f <= f_size f -> put [] f f.
Proof. intros Hp. split; cbn; [lia|lia|done|]. intros i Hi. by case_if; [lia|]. Qed.

Lemma put_app a b f f1 f2 : 0 <= f_pos f <= f_size f -> put a f f1 -> put b f1 f2 -> put (a ++ b) f f2.
Proof.
  intros Hp [S1 P1 E1 B1] [S2 P2 E2 B2]. split; rewrite ?length_app; [lia|lia|congruence|].
  intros i Hi. rewrite B2 by lia. destruct (Z.ltb_spec i (f_size f1)) as [Hi1|Hi1].
  - rewrite B1 by lia. rewrite P1. repeat case_if; try lia; try done.
    + rewrite geti_app by lia. case_if; [lia|]. f_equal. lia.
    + rewrite geti_app by lia. by case_if; [|lia].
  - rewrite P1. repeat case_if; try lia. rewrite geti_app by lia. case_if; [lia|]. f_equal. lia.
Qed.

Lemma copy_file_loop_spec fuel name src f o :
  (length src < fuel)%nat -> 0 <= f_pos f <= f_size f -> f_pos f + Z.of_nat (length src) <= room -> f_err f = false ->
  exists f', copy_file_loop room fuel name src true f o = Some (true, f', o) /\ put src f f'.
Proof.
  revert src f. induction fuel as [|fuel IH]; intros src f Hl Hp Hr He; [lia|]. cbn [copy_file_loop].
  destruct src as [|c src].
  { rewrite take_nil, He. eexists. split; [done|]. by apply put_nil. }
  assert (exists chunk, take bufferSize (c :: src) = c :: chunk) as [chunk Ec] by by eexists.
  assert ((c :: chunk) ++ drop bufferSize (c :: src) = c :: src) as Es by (rewrite <- Ec; apply take_drop).
  rewrite Ec. remember (drop bufferSize (c :: src)) as rest eqn:Er. clear Ec Er. rewrite <- Es in *. clear Es src.
  rewrite length_app in Hl, Hr. cbn [length] in Hl.
  destruct (put_fwrite (c :: chunk) f Hp) as (f1 & -> & Hput); [lia|].
  destruct (IH rest f1) as (f2 & E & Hput2); [lia|..].
  - destruct Hput as [S1 P1 _ _]. cbn in *. lia.
  - destruct Hput as [S1 P1 _ _]. lia.
  - by rewrite (pu_err _ _ _ Hput).
  - exists f2. split; [done|]. by eapply put_app.
Qed.

Lemma fill_zeros_spec fuel w D f o :
  0 <= w <= D -> D <= room -> D - w <= Z.of_nat fuel * Z.of_nat bufferSize -> f_pos f = w -> f_size f = w ->
  f_err f = false -> (forall i, 0 <= i < w -> f_data f i = 0) ->
  exists f' o', fill_zeros room fuel w D f o = Some (true, D, f', o') /\ f_pos f' = D /\ f_size f' = D /\
    f_err f' = false /\ forall i, 0 <= i < D -> f_data f' i = 0.
Proof.
  revert w f o. induction fuel as [|fuel IH]; intros w f o Hw HD Hf Hp Hs He Hz; cbn [fill_zeros].
  { replace (w <? D) with false by lia. cbn [negb]. assert (w = D) as -> by lia. eexists _, _. split; [done|]. done. }
  destruct (Z.ltb_spec w D) as [Hlt|Hge]; cbn [negb].
  2: { assert (w = D) as -> by lia. eexists _, _. split; [done|]. done. }
  set (n := Z.min (Z.of_nat bufferSize) (D - w)). assert (0 < n <= D - w) as Hn by (unfold n, bufferSize; lia).
  destruct (put_fwrite (replicate (Z.to_nat n) 0) f) as (f1 & -> & [S1 P1 E1 B1]); [lia|rewrite length_replicate; lia|].
  rewrite length_replicate in S1, P1, B1.
  apply IH; [lia|done|unfold n in *; lia|lia|lia|congruence|].
  intros i Hi. rewrite B1 by lia. case_if; [apply geti_replicate; lia|]. apply Hz. lia.
Qed.
End Host.

(** ** The parts of the image *)

Lemma put_other bs f f' off n :
  put bs f f' -> 0 <= off -> 0 <= n -> off + n <= f_size f ->
  off + n <= f_pos f \/ f_pos f + Z.of_nat (length bs) <= off -> file_bytes f' off n = file_bytes f off n.
Proof.
  intros [S P _ B] Ho Hn Hs Hd. apply file_bytes_eq; [lia|lia|rewrite length_file_bytes; lia|].
  intros i Hi. rewrite B, geti_file_bytes by lia. by case_if; [lia|].
Qed.

Lemma put_same bs f f' : put bs f f' -> 0 <= f_pos f -> file_bytes f' (f_pos f) (Z.of_nat (length bs)) = bs.
Proof.
  intros [S P _ B] Hp. apply file_bytes_eq; [lia|lia|done|]. intros i Hi. rewrite B by lia.
  case_if; [|lia]. f_equal. lia.
Qed.

Definition all_bytes (f : FILE) : Prop := forall i, 0 <= i < f_size f -> is_byte (f_data f i).

Lemma put_bytes bs f f' : put bs f f' -> Forall is_byte bs -> 0 <= f_pos f <= f_size f -> all_bytes f -> all_bytes f'.
Proof.
  intros [S P _ B] Hb Hp Hf i Hi. rewrite B by done. case_if; [apply geti_byte; [done|lia]|]. apply Hf. lia.
Qed.

(** The files that a command line names, with their contents. *)
Definition opened (readable : list Z -> option (list Z)) (name : option (list Z)) (src : list Z) : Prop :=
  match name with
  | None => src = []
  | Some n => readable (cstr n) = Some src /\ Forall is_byte src
  end.

Definition with_name (name : option (list Z)) (src : list Z) : option (list Z * list Z) :=
  match name with None => None | Some n => Some (n, src) end.

Lemma open_opt_spec readable name src e :
  opened readable name src -> open_opt readable name e = inr (with_name name src) /\ Forall is_byte src.
Proof. destruct name as [n|]; cbn; [by intros [-> ?]|by intros ->]. Qed.

(** The image behind the format: formatted, of size [D]. *)
Record blank_image (D : Z) (f : FILE) : Prop := {
  bi_size : f_size f = D;
  bi_pos : f_pos f = 8192;
  bi_err : f_err f = false;
  bi_bytes : all_bytes f;
  bi_info : file_bytes f 1024 512 = fs_tag ++ replicate 508 0;
  bi_dir : file_bytes f 4096 4096 = replicate 4096 0
}.

Lemma blank_spec room D :
  size_ok D -> D <= room ->
  exists f o, fill_zeros room (S (Z.to_nat (D / Z.of_nat bufferSize))) 0 D empty_file [] = Some (true, D, f, o) /\
    blank_image D (disk (format (mkBMFS (fseek 0 f) 0 [] [] ∅ (o ++ [Formatted D D])))).
Proof.
  intros Hs Hr. pose proof Hs as Hs'. unfold size_ok in Hs'.
  destruct (fill_zeros_spec room (S (Z.to_nat (D / Z.of_nat bufferSize))) 0 D empty_file []) as (f & o & E & H1 & H2 & H3 & H4);
    [lia|done| |done|done|done|lia|].
  { unfold bufferSize. Z.to_euclidean_division_equations. lia. }
  exists f, o. split; [done|]. set (s := mkBMFS (fseek 0 f) 0 [] [] ∅ (o ++ [Formatted D D])).
  assert (all_bytes (disk s)) as Hb.
  { intros i Hi. cbn in Hi |- *. rewrite H4 by lia. unfold is_byte. lia. }
  destruct (format_image s) as (F1 & F2 & F3 & F4 & _); [by cbn; rewrite H2|done|].
  split; [by rewrite F1|reflexivity|exact H3|done|done|done].
Qed.

(** The master boot record. *)
Lemma write_mbr_spec room D mbr m f o :
  blank_image D f -> size_ok D -> D <= room -> Forall is_byte m -> (mbr <> None -> (512 <= length m)%nat) ->
  exists f' o', write_mbr room (with_name mbr m) true f o = (true, f', o') /\ f_size f' = D /\ f_err f' = false /\
    all_bytes f' /\ file_bytes f' 1024 512 = fs_tag ++ replicate 508 0 /\ file_bytes f' 4096 4096 = replicate 4096 0 /\
    (mbr <> None -> file_bytes f' 0 512 = take 512 m).
Proof.
  intros [B1 B2 B3 B4 B5 B6] Hs Hr Hm Hl. unfold size_ok in Hs. destruct mbr as [n|]; cbn [with_name write_mbr].
  2: { exists f, o. split_and!; done. }
  specialize (Hl ltac:(done)). cbn [negb]. replace (512 <=? length m)%nat with true by lia.
  assert (length (take 512 m) = 512%nat) as Ht by (rewrite length_take; lia).
  destruct (put_fwrite room (take 512 m) (fseek 0 f)) as (f1 & -> & P1); [cbn; lia|cbn; lia|].
  exists f1. eexists. split; [done|]. split; [rewrite (pu_size _ _ _ P1); cbn; lia|].
  split; [by rewrite (pu_err _ _ _ P1)|].
  split; [eapply put_bytes; [exact P1|by apply Forall_take|cbn; lia|exact B4]|].
  rewrite !(put_other _ _ _ _ _ P1) by (cbn; lia). split; [done|]. split; [done|]. intros _.
  replace 512 with (Z.of_nat (length (take 512 m))) at 1 by lia. by apply (put_same _ (fseek 0 f)).
Qed.

(** A part that is copied to the position of the stream. *)
Lemma write_part_spec room part src start note f o :
  let f0 := match start with Some off => fseek off f | None => f end in
  0 <= f_pos f0 <= f_size f -> f_pos f0 + Z.of_nat (length src) <= room -> f_err f = false -> part <> None ->
  exists f' o', write_part room (with_name part src) start note (true, f, o) = Some (true, f', o') /\ put src f0 f'.
Proof.
  intros f0 Hp Hr He Hn. destruct part as [n|]; [|done]. cbn [with_name write_part negb]. fold f0.
  destruct (copy_file_loop_spec room (S (length src)) n src f0 (o ++ [note])) as (f' & E & P);
    [lia|unfold f0 in *; destruct start; exact Hp|done|unfold f0; destruct start; exact He|].
  exists f', (o ++ [note]). done.
Qed.

Lemma parse_size_min size D : parse_size size = inr D -> minimumDiskSize <= D.
Proof.
  unfold parse_size. destruct (size_loop _ _ _ _ _) as [|[d k]]; [done|].
  destruct (if (d >? 0) && (k >? 0) then _ else _) as [[|] d']; [|done]. case_if; [done|]. intros [= <-]. lia.
Qed.

(** An image with the tag and an empty directory has no files. *)
Lemma image_empty f :
  size_ok (f_size f) -> all_bytes f -> file_bytes f 1024 512 = fs_tag ++ replicate 508 0 ->
  file_bytes f 4096 4096 = replicate 4096 0 -> image_rep f ∅.
Proof.
  intros Hs Hb Hi Hd. destruct (open_disk_spec f ∅ Hs) as (E1 & E2 & E3 & E4 & E5 & _). unfold image_rep.
  destruct (size_ok_last _ Hs) as [Hl _].
  set (s := open_disk f ∅) in *. clearbody s.
  assert (forall off n, file_bytes (disk s) off n = file_bytes f off n) as Eb
    by (intros; unfold file_bytes; by rewrite E1, E2).
  apply rep_empty; [|congruence]. split; rewrite ?Eb, ?E1, ?E2; [congruence|congruence| |done| |done].
  - rewrite E4, Hi. by vm_compute.
  - unfold last_block. by rewrite E3.
Qed.

(** The boot loader at 8 KiB and the kernel behind it, on an image of size [D]. *)
Lemma write_parts_spec room D boot kernel b k system f o :
  size_ok D -> f_size f = D -> f_err f = false -> all_bytes f -> Forall is_byte b -> Forall is_byte k ->
  (boot = None -> b = [] /\ kernel = None) -> (kernel = None -> k = []) ->
  let size := Z.max D (8192 + Z.of_nat (length b) + Z.of_nat (length k)) in
  size <= room ->
  exists f' o',
    (r ← write_part room (with_name boot b) (Some 8192) (WritingBoot system) (true, f, o);
     write_part room (with_name kernel k) None WritingKernel r) = Some (true, f', o') /\
    f_size f' = size /\ all_bytes f' /\
    (forall off n, 0 <= off -> 0 <= n -> off + n <= 8192 -> file_bytes f' off n = file_bytes f off n) /\
    file_bytes f' 8192 (Z.of_nat (length b)) = b /\
    file_bytes f' (8192 + Z.of_nat (length b)) (Z.of_nat (length k)) = k.
Proof.
  intros HD Hs He Hb Bb Bk Hnb Hnk. cbv zeta. intros Hr. unfold size_ok in HD.
  assert (forall g off, file_bytes g off 0 = []) as Hz by (intros; unfold file_bytes; by rewrite seqZ_nil by lia).
  destruct boot as [bn|].
  2: { destruct (Hnb eq_refl) as [-> ->]. rewrite (Hnk eq_refl) in *. cbn [with_name write_part mbind option_bind].
       exists f, o. rewrite !Hz. cbn [length] in *. split; [done|]. split; [lia|]. done. }
  destruct (write_part_spec room (Some bn) b (Some 8192) (WritingBoot system) f o) as (f1 & o1 & E1 & P1);
    [cbn; lia|cbn; lia|done|done|].
  rewrite E1. cbn [mbind option_bind].
  pose proof (put_bytes _ _ _ P1 Bb ltac:(cbn; lia) Hb) as Hb1.
  pose proof (pu_size _ _ _ P1) as S1. pose proof (pu_pos _ _ _ P1) as Q1. cbn in S1, Q1.
  pose proof (put_same _ _ _ P1 ltac:(cbn; lia)) as Hsame1. change (f_pos (fseek 8192 f)) with 8192 in Hsame1.
  assert (forall off n, 0 <= off -> 0 <= n -> off + n <= 8192 -> file_bytes f1 off n = file_bytes f off n) as Hlow1.
  { intros off n H0 H1 H2. apply (put_other _ _ _ _ _ P1); cbn; lia. }
  destruct kernel as [kn|].
  2: { rewrite (Hnk eq_refl) in *. cbn [with_name write_part]. exists f1, o1. rewrite Hz. cbn [length] in *.
       split; [done|]. split; [lia|]. done. }
  destruct (write_part_spec room (Some kn) k None WritingKernel f1 o1) as (f2 & o2 & E2 & P2);
    [lia|lia|by rewrite (pu_err _ _ _ P1)|done|].
  rewrite E2. exists f2, o2. split; [done|]. rewrite (pu_size _ _ _ P2), Q1. split; [lia|].
  split; [eapply put_bytes; [exact P2|done|lia|done]|]. split; [|split].
  - intros off n H0 H1 H2. rewrite <- Hlow1 by done. apply (put_other _ _ _ _ _ P2); lia.
  - etrans; [|exact Hsame1]. apply (put_other _ _ _ _ _ P2); lia.
  - rewrite <- Q1. apply (put_same _ _ _ P2). lia.
Qed.

(** C14: [initialize] with a valid size, on a host that has the files and the room,
    returns 0 with an image of that size (or larger, when boot loader and kernel
    need it) that has no files in it, the master boot record in its first 512
    bytes, the boot loader at 8 KiB and the kernel right behind it. *)
Theorem initialize_image readable creatable room diskname size D mbr boot kernel m b k :
  parse_size size = inr D -> creatable (cstr diskname) = true ->
  opened readable mbr m -> opened readable boot b -> opened readable kernel k ->
  (mbr <> None -> (512 <= length m)%nat) -> (boot = None -> kernel = None) ->
  let bytes := Z.max D (8192 + Z.of_nat (length b) + Z.of_nat (length k)) in
  bytes <= room -> bytes < 2 ^ 32 * 1048576 ->
  exists img o, initialize readable creatable room true diskname size mbr boot kernel = Some (0, Some img, o) /\
    f_size img = bytes /\ image_rep img ∅ /\ (mbr <> None -> file_bytes img 0 512 = take 512 m) /\
    file_bytes img 8192 (Z.of_nat (length b)) = b /\
    file_bytes img (8192 + Z.of_nat (length b)) (Z.of_nat (length k)) = k.
Proof.
  intros HD Hc Hm Hb Hk Hlm Hbk bytes Hr Hmax. pose proof (parse_size_min _ _ HD) as Hmin. unfold minimumDiskSize in Hmin.
  assert (size_ok D) as Hs by (unfold size_ok; unfold bytes in *; lia).
  destruct (open_opt_spec _ _ _ CannotOpenMBR Hm) as [Em Bm].
  destruct (open_opt_spec _ _ _ (CannotOpenBoot (bool_decide (kernel = None))) Hb) as [Eb Bb].
  destruct (open_opt_spec _ _ _ CannotOpenKernel Hk) as [Ek Bk].
  unfold initialize. rewrite HD. unfold open_files. rewrite Em, Eb, Ek. cbn [negb]. rewrite Hc. cbn [negb].
  destruct (blank_spec room D Hs ltac:(unfold bytes in *; lia)) as (f0 & o0 & E0 & Hblank).
  rewrite E0. cbn [mbind option_bind negb]. cbv zeta.
  set (s := format _) in *. clearbody s.
  destruct (write_mbr_spec room D mbr m (disk s) (out s) Hblank Hs ltac:(unfold bytes in *; lia) Bm Hlm)
    as (f1 & o1 & -> & S1 & Er1 & B1 & I1 & D1 & M1).
  destruct (write_parts_spec room D boot kernel b k (bool_decide (kernel = None)) f1 o1 Hs S1 Er1 B1 Bb Bk)
    as (f2 & o2 & E2 & S2 & B2 & Low & Hboot & Hkern); [|by intros ->|done|].
  { intros ->. cbn in Hb. subst b. split; [done|by apply Hbk]. }
  destruct (write_part room (with_name boot b) (Some 8192) _ (true, f1, o1)) as [r|]; [|done].
  cbn [mbind option_bind] in E2 |- *. rewrite E2. cbn [mbind option_bind].
  eexists f2, _. split; [done|]. split; [done|]. split; [|split; [|done]].
  - apply image_empty; [unfold size_ok; rewrite S2; lia|done|by rewrite Low by lia|by rewrite Low by lia].
  - intros Hn. rewrite Low by lia. by apply M1.
Qed.

(** An image of 8 MiB with a boot record and a boot loader of two bytes. *)
Lemma initialize_image_witness :
  exists img o,
    initialize (fun n => if bool_decide (n = lit "mbr") then Some (replicate 512 90) else Some [235; 254])
      (fun _ => true) (2 ^ 40) true (lit "disk") (lit "8M") (Some (lit "mbr")) (Some (lit "boot")) None = Some (0, Some img, o) /\
    f_size img = 8388608 /\ image_rep img ∅ /\ file_bytes img 8192 2 = [235; 254].
Proof.
  destruct (initialize_image (fun n => if bool_decide (n = lit "mbr") then Some (replicate 512 90) else Some [235; 254])
      (fun _ => true) (2 ^ 40) (lit "disk") (lit "8M") 8388608 (Some (lit "mbr")) (Some (lit "boot")) None
      (replicate 512 90) [235; 254] []) as (img & o & H1 & H2 & H3 & _ & H5 & _).
  - reflexivity.
  - reflexivity.
  - split; [reflexivity|]. apply list.Forall_replicate. unfold is_byte. lia.
  - split; [reflexivity|]. repeat constructor; lia.
  - reflexivity.
  - intros _. rewrite length_replicate. lia.
  - discriminate.
  - vm_compute. discriminate.
  - reflexivity.
  - exists img, o. split; [exact H1|]. split; [exact H2|]. split; [exact H3|exact H5].
Defined.
